(* ===== verification/_CoqProject ===== *)
-Q . S2P
Prelude.v
GoStrings.v
Escape.v
Params.v
Headers.v
HeaderStore.v
Message.v
ParserCommon.v
ParamsRoundTrip.v
UriRoundTrip.v
NoPanic.v
Packet.v
Stream.v
StreamProofs.v
ParserBuffer.v
HeaderRoundTrip.v
TxKeys.v
Fsm.v
Samples.v
ClientTx.v
ServerTx.v
ClientInv.v
ServerInv.v
ClientTheorems.v
ServerTheorems.v
TxLayer.v
LayerTheorems.v
ParserTheorems.v
SipTheorems.v
MessageRoundTrip.v
Md5.v
Auth.v
AuthTheorems.v
Transport.v
ConnPool.v
ConnPoolTheorems.v
ListenPool.v
ListenPoolTheorems.v
Protocols.v
TransportLayer.v
TransportTheorems.v
TransportReach.v
Builder.v
BuilderTheorems.v
Server.v
GosipTheorems.v
System.v
SystemTheorems.v
Delivery.v
Answer.v
HeaderEquals.v
HeaderObjects.v
Accessors.v
Timing.v
Logging.v
ElasticChan.v
Sockets.v
Connection.v
Helpers.v
Gb28181.v
GbTheorems.v
Facade.v
