(* ===== verification/Prelude.v ===== *)
(** * gosip: a SIP stack in Go, modelled and verified

    gosip implements SIP (RFC 3261): messages and their parsers, transports with
    their connection pools, client and server transactions, a server that routes
    requests, and an application for GB28181 video devices on top of it.  This
    library models these parts from their sources and proves what makes them
    correct.

    ** The program and its model

    A transport protocol keeps a pool of connections.  A connection hands the
    bytes it reads to a parser and the parsed messages, with the address they
    came from, through the pools to the transport layer and from there to the
    transaction layer.  That layer finds the transaction a message belongs to by
    a key made of its headers, or makes a new server transaction and passes the
    request to the server, which calls the handler of its method.  The user sends
    requests through new client transactions and answers through the server
    transaction of the request; the transport layer chooses protocol and address
    and completes the Via.  Each transaction is a state machine fed by messages,
    timers, transport errors and the user.

    - [Prelude], [GoStrings]: bytes, Go's errors and panics ([res]), the functions
      of Go's strings, strconv and utf8 packages that the sources call, shared
      tactics, hints and lemmas.
    - [Escape]: src/sip/escape.go.  [Params]: the parameter sets of
      src/sip/headers.go.  [Headers]: URIs, header types and addresses
      (src/sip/headers.go, core.go), [HeaderEquals]: their Equals methods and
      clones, [HeaderObjects]: the methods of each header type and which copies
      are new objects, [Accessors]: the Uri interface and the setters of
      messages.  [HeaderStore]: the header section of a message (the type headers of
      src/sip/message.go).  [Message]: requests and responses, ACK and CANCEL
      (src/sip/message.go, request.go, response.go, core.go, src/util/rand.go).
    - [ParserCommon]: src/sip/parser/common.go.  [Packet]: packet.go.  [Stream]:
      stream.go and parserbuffer.go over the bytes written, [ParserBuffer]: the same
      over the pipe and the buffered reader.  [ParamsRoundTrip], [UriRoundTrip],
      [HeaderRoundTrip], [MessageRoundTrip], [NoPanic] and [StreamProofs] hold the
      lemmas on them.
    - [TxKeys]: src/transaction/transaction.go.  [Fsm]: what the transactions use
      of the state machine library (not part of the sources), timers,
      goroutines, the environment.  [ClientTx]: client_tx.go.  [ServerTx]:
      server_tx.go.  [TxLayer]: layer.go.  [ClientInv] and [ServerInv] hold the
      invariants of the transactions.
    - [Md5], [Auth]: the digest and src/sip/auth.go.  [Builder]:
      src/sip/builder.go.
    - [Transport]: src/transport/transport.go and the treatment of a received
      message (connection_pool.go).  [ConnPool] and [ListenPool]:
      connection_pool.go and listener_pool.go with their handlers and goroutines
      ([ListenPoolTheorems]: the network of a listener and the pool's shutdown).
      [Protocols]: protocol.go, tcp.go, udp.go, tls.go, ws.go, wss.go.
      [Sockets]: the WebSocket connections and listeners and TLS listening of
      ws.go and tls.go.  [Connection]: the methods of connection.go over the
      results of the socket.  [TransportLayer]: src/transport/layer.go.
    - [Server]: src/server.go, options.go, src/sip/error.go.
    - [System]: the server, the transaction layer and the transport layer put
      together as src/server.go does, with the channels between them
      ([SystemTheorems], [Delivery] of requests to handlers, [Answer]: of
      responses to the user's requests).
    - [Timing]: src/timing/timing.go.  [ElasticChan]: src/util/elasticchan.go.
      [Helpers]: src/util/helpers.go, semaphore.go.  [Logging]: the fields,
      prefixes and levels of src/log/log.go and logrus.go and the texts of messages
      and of the errors of transactions.
    - [Gb28181]: src/gb28181/gb28181.go, device.go, session.go, http.go.
      [Facade]: the camera table of camera.go, the sessions shown over HTTP, and the
      clients of src/spi/facade.go.
    - [Samples]: concrete messages and environments.  The theorems are in
      [ClientTheorems], [ServerTheorems], [LayerTheorems], [ParserTheorems],
      [SipTheorems], [AuthTheorems], [ConnPoolTheorems], [TransportTheorems],
      [TransportReach], [BuilderTheorems], [GosipTheorems] (the server),
      [GbTheorems], and for the small components at the end of their files, each
      with a concrete instance.

    ** How code becomes definitions

    A string is a list of bytes; a uint16, uint32 or status code an [N] with its
    range checked where the code checks it; a [time.Duration] a [Z] that wraps at
    64 bits ([Fsm.wrap64]).  A function that returns an error is a [res] with
    [Ok], [Err] or [Panic]: an index or slice out of range, a nil method call and
    a failed type assertion are [Panic], never excluded by a type.  Maps are
    [gmap]s, a slice kept beside a map is a list beside the [gmap].  A method
    that takes a lock for its whole body is one step.

    A transaction is a record with the fields of the struct; in place of its
    channels it has the list of what was sent on them, [done] is a boolean, and
    the goroutines it started are tasks that take their steps one by one, so
    that a timer callback can be overtaken by a response between its test of
    [done] and its call of [Spin].  What can happen to it is an event
    ([client_event], [server_event]); [client_step] and [server_step] execute
    one, [creach] and [sreach] are the states reached by any sequence of them.
    A panic in an action sets the crashed flag, after which nothing happens.
    The layer keeps its transactions in a heap, since the store, the timers and
    the user share them; [TxLayer.reachable] interleaves message handling, the
    user's calls, the serving goroutines and the steps of the transactions.  A call
    of [Request] is taken apart where others can come in between: it sends the
    request, stores the transaction, and hands it to [listenMessages] or gives up
    on the cancel signal ([Request_init], [request_step]; [Request] is the call
    without anything in between).  A select that passes something up is a choice
    of the step ([offer]): the user takes it, or the layer is canceled.

    Texts and fields that the code makes for the log are evaluated where they can
    panic, by a parameter without a value ([request_shown], [response_shown],
    [msg_shown]).  A message that came through a connection has transport, source
    and destination set, so its fields can always be evaluated; in the paths that
    only such messages take the evaluation is left out.

    A connection pool is its store, a heap of handlers and the state of its
    goroutines; a handler holds what it read and could not hand on yet.
    [ConnPool.step] executes one event (data read, a time-out, a send that is
    taken, cancellation, the end of a goroutine); the transport layer and its
    protocols are built from pools and have their own reachable states in
    [TransportReach].  [System.step] interleaves the steps of both layers with the
    goroutines of the server: a message leaves the transport layer and enters the
    transaction layer in one step, a request waits in the server's channel until
    its goroutine takes it and calls the handler.  The elastic channel and the mock clock are state machines
    in the same style.  The application runs in a state monad over [app] whose
    failure is a panic; its handlers recover from panics as the code does.

    Randomness, the results of [tpl.Send], of sockets and of name resolution, the
    case a [select] takes when two are ready, and the reliability of a transport
    are arguments: the theorems hold for all of them.  The state machine library
    is the parameter [spin] with the law [FsmSpin] (an outcome sets the state and
    runs its action, whose result is the next input; an input without an outcome
    changes nothing); [run_spin] shows that the law can hold.  Redis is the class
    [Gb28181.Redis] with the laws [RedisLaws], which the instance [memory_redis]
    satisfies; the device service, XML decoding and the answers of devices are the
    class [World].  The camera table is the class [Facade.CameraTable] with
    [CameraTableLaws], which the instance [rows_table] satisfies; HTTP, the registry
    and JSON decoding are arguments of the functions of [Facade].

    ** What the theorems show

    - Transactions: terminated and done coincide; nothing reaches the user after
      the end; a non-INVITE transaction passes up one final response at most; the
      timers alone end a transaction from every state but those named below; the
      retransmission intervals stay between T1 and T2; no panic in orderly use;
      rejections are acknowledged and retransmissions absorbed as RFC 3261 asks.
      Exceptions are theorems as well: an INVITE client transaction that gets a
      2xx after a provisional response is never done, neither is a server
      transaction whose 2xx the transport refused; a response sent after the
      final one replaces it; timer A and a provisional response can race into a
      panic.
    - Layer: the store leads from a key to a transaction of that key, which is
      served or about to be, and forgets it when it is done; a request is passed up
      once; responses, ACKs, CANCELs and retransmissions reach the transaction of
      their request while the store has it, since they have its key; ACK and CANCEL
      start nothing.  A response that comes before [Request] has stored the
      transaction is passed up without one, and a [Request] that is canceled leaves
      an unserved transaction behind.
    - Parsers: the stream parser does not depend on how the bytes are cut, nor on
      the steps in which they pass the pipe, and every write returns; on
      datagrams it agrees with the packet parser; URIs, parameters, headers and
      whole messages survive printing and parsing, in datagrams and in a stream; numbers fit their types; where the
      packet parser panics: by the address headers (a blank address), and by the
      text for the log of a leading continuation line.
    - Data: escaping round trips and its buffer code; parameter sets refine
      association lists; the header section keeps its order in step with its map;
      the comparisons of headers are or are not equivalences; which headers of a
      copied message are shared with the original.
    - Authentication: printed credentials are read back; the answer to a
      challenge without qop is accepted for the password it was made with.
    - Transport: the pools keep store and handlers in step and refine a finite
      map; the fate of every error; shutdown completes when nothing is pending and
      can hang otherwise, for connections and for listeners alike; the layer keeps its protocols and ports well formed,
      never panics on well-formed messages, completes the Via as RFC 3261 18.1.1
      asks, and a response goes back to where its request came from, unless that is
      an IPv6 address.
    - Builder and server: every built request is well formed and starts a
      transaction; automatic headers are idempotent; requests are routed by
      method; a request with a response makes two attempts at most and its result
      is the one of the first final response.
    - The whole stack: a handler is called once at most for a received message,
      and only for a request the transport accepted; from a system at rest there are
      runs in which a datagram with a new request reaches the handler of its method
      through all three layers, one without a handler is answered with 405, and one
      with the response to a waiting request reaches the user of that request.
    - Timers and helpers: the clock fires what is due in order; values come out
      of the elastic channel in the order they went in; merged error channels lose
      nothing and never panic; the fields of a log entry do not depend on the order
      a map is ranged over.
    - Application: a session changes only for a REGISTER with the right digest;
      the handshake of challenge and answer registers the device; a session
      survives a restart through Redis; dialogs of INVITE and BYE; an inserted
      camera is found; a query value is read back as it was written; the sessions
      shown for identifiers are those online; and the defects: sessions never
      expire, recovery of fifty sessions panics, messages are answered twice, a
      failed insert panics, an update of an unknown camera succeeds, an answer of
      the device service that reports a failure is taken for a device.

    ** Bounds and fuel

    [Fsm.run] takes the bound [max_chain] = 8 on the inputs an event sets off;
    [ClientInv.run_client] and [ServerInv.run_server] prove that every chain of
    the transactions ends within it.  [Stream.parse_loop] and
    [Stream.header_lines_fuel] take the length of the input as fuel: every line
    consumes two bytes ([StreamProofs.parse_eq] is the equation without fuel).
    [ParserBuffer.run] takes the measure [ParserBuffer.work], which every step
    lowers.
    [Server.RequestWithContext] recurses once per attempt;
    [GosipTheorems.request_two_attempts] shows that two levels are enough.

    ** What is not modelled

    What libraries do: sockets, TLS, the WebSocket framing, the writing of log
    entries, XML and JSON, gin's routing, the database and the service registry are
    arguments of the definitions that call them.  The methods of the logger that
    only forward a text, the loops that wait in Shutdown, the start of the
    application (its configuration and main function), and the expiry of keys
    in Redis are left out; so are interfaces without behaviour of their own
    (src/sip/transaction.go, transport.go), test helpers and examples.
    Of the modelled parts: the capacity of channels except in pools and the
    elastic channel (the user is taken to read them); the interleaving of two
    methods of one transaction (the layer calls them from one goroutine and
    [Spin] holds a lock); the identity of pointers, except where a header is
    changed in place after it was copied. *)

From Stdlib Require Export Ascii Lia ZArith.
From stdpp Require Export base gmap list strings.
From stdpp Require Import options.


(** ** Go strings

    A Go [string] is an immutable sequence of bytes; an 8-bit byte is Rocq's
    [ascii].  String literals in [go_scope] denote lists of bytes. *)

Abbreviation byte := ascii.
Abbreviation bytes := (list ascii).

Inductive lit : Set := lnil | lcons (c : ascii) (l : lit).

Definition lit_parse (l : list Byte.byte) : lit :=
  fold_right (fun b => lcons (ascii_of_byte b)) lnil l.

Fixpoint lit_print (l : lit) : list Byte.byte :=
  match l with
  | lnil => []
  | lcons c l => byte_of_ascii c :: lit_print l
  end.

Declare Scope go_scope.
Delimit Scope go_scope with go.
#[warnings="-via-type-mismatch"]
String Notation list lit_parse lit_print
  (via lit mapping [[nil] => lnil, [cons] => lcons]) : go_scope.
Open Scope go_scope.

Definition code (c : byte) : N := N_of_ascii c.
Definition chr (n : N) : byte := ascii_of_N n.

(** The bytes that have no printable literal. *)
Definition CR : byte := "013"%char.
Definition LF : byte := "010"%char.
Definition TAB : byte := "009"%char.
Definition SP : byte := " "%char.
Definition DQUOTE : byte := "034"%char.
Definition NUL : byte := "000"%char.
Definition CRLF : bytes := [CR; LF].

Definition beq (a b : byte) : bool := Ascii.eqb a b.
Definition bleq (a b : byte) : bool := (code a <=? code b)%N.
Definition streq (a b : bytes) : bool := bool_decide (a = b).
Arguments beq : simpl never.
Arguments bleq : simpl never.
Arguments streq : simpl never.

(** ** Errors and panics

    A Go function with an [error] result returns [Ok] or [Err]; an index or
    slice out of range, a failed type assertion or a nil dereference is
    [Panic].  [Errorf] keeps the format literal of the source's [fmt.Errorf]
    and drops the interpolated values; [Wrapf] is the [%w] form. *)

Inductive error : Type :=
| Errorf (format : bytes)
| Wrapf (format : bytes) (inner : error)
| EscapeError (s : bytes)
| InvalidHostError (s : bytes)
| NumErrSyntax
| NumErrRange
| InvalidMessageFormat
| InvalidStartLineError (inner : error)
| MalformedMessageError (inner : error) (msg : bytes)
| BrokenMessageError (inner : error) (msg : bytes)
| ErrClosedPipe.

Inductive res (A : Type) : Type :=
| Ok (a : A)
| Err (e : error)
| Panic.
Arguments Ok {A} a.
Arguments Err {A} e.
Arguments Panic {A}.

#[export] Instance res_ret : MRet res := @Ok.
#[export] Instance res_bind : MBind res := fun A B f m =>
  match m with Ok a => f a | Err e => Err e | Panic => Panic end.
#[export] Instance res_fmap : FMap res := fun A B f m =>
  match m with Ok a => Ok (f a) | Err e => Err e | Panic => Panic end.

(** [fmt.Errorf("...: %w", err)] around a failing call. *)
Definition wrap_err {A} (format : bytes) (m : res A) : res A :=
  match m with Err e => Err (Wrapf format e) | r => r end.

Definition is_ok {A} (m : res A) : bool :=
  match m with Ok _ => true | _ => false end.

Definition is_panic {A} (m : res A) : bool :=
  match m with Panic => true | _ => false end.

#[export] Instance error_eq_dec : EqDecision error.
Proof. solve_decision. Defined.

#[export] Instance res_eq_dec {A} `{EqDecision A} : EqDecision (res A).
Proof. solve_decision. Defined.

(** [s[i:j]] with Go's bounds check. *)
Definition slice (s : bytes) (i j : nat) : res bytes :=
  if decide (i <= j <= length s) then Ok (take (j - i) (drop i s)) else Panic.

(** [s[i]] with Go's bounds check. *)
Definition at_ (s : bytes) (i : nat) : res byte :=
  match s !! i with Some c => Ok c | None => Panic end.

(** ** Automation *)

Create HintDb gosip.

(** Case analysis on the scrutinee of the first [match] or [if] in sight. *)
Ltac split_match :=
  match goal with
  | |- context [match ?x with _ => _ end] => destruct x eqn:?
  end.

Ltac split_hyp :=
  match goal with
  | H : context [match ?x with _ => _ end] |- _ => destruct x eqn:?
  end.

Ltac simp_bool :=
  repeat match goal with
  | H : (_ && _) = true |- _ => apply andb_true_iff in H as [? ?]
  | H : (_ || _) = false |- _ => apply orb_false_iff in H as [? ?]
  | H : negb _ = true |- _ => apply negb_true_iff in H
  | H : negb _ = false |- _ => apply negb_false_iff in H
  | H : beq _ _ = true |- _ => apply Ascii.eqb_eq in H
  | H : beq _ _ = false |- _ => apply Ascii.eqb_neq in H
  | H : streq _ _ = true |- _ => apply bool_decide_eq_true in H
  | H : streq _ _ = false |- _ => apply bool_decide_eq_false in H
  end.

(** ** Lemmas shared by the components *)

Lemma beq_eq a b : beq a b = true <-> a = b.
Proof. apply Ascii.eqb_eq. Qed.

Lemma beq_neq a b : beq a b = false <-> a <> b.
Proof. apply Ascii.eqb_neq. Qed.

Lemma beq_refl a : beq a a = true.
Proof. apply Ascii.eqb_refl. Qed.

Lemma streq_eq a b : streq a b = true <-> a = b.
Proof. apply bool_decide_eq_true. Qed.

Lemma streq_refl a : streq a a = true.
Proof. by apply streq_eq. Qed.

Lemma streq_neq a b : streq a b = false <-> a <> b.
Proof. apply bool_decide_eq_false. Qed.

Lemma chr_code c : chr (code c) = c.
Proof. apply ascii_N_embedding. Qed.

Lemma code_chr n : (n < 256)%N -> code (chr n) = n.
Proof. apply N_ascii_embedding. Qed.

Lemma code_bound c : (code c < 256)%N.
Proof. apply N_ascii_bounded. Qed.

Lemma code_inj a b : code a = code b -> a = b.
Proof. intros H. by rewrite <- (chr_code a), <- (chr_code b), H. Qed.

(** A decidable property of bytes holds when it holds of the 256 of them. *)
Definition all_bytes : bytes := map (fun n => chr (N.of_nat n)) (seq 0 256).

Lemma all_bytes_complete c : In c all_bytes.
Proof.
  apply in_map_iff. exists (N.to_nat (code c)). split.
  - by rewrite N2Nat.id, chr_code.
  - apply in_seq. pose proof (code_bound c). lia.
Qed.

Lemma byte_forall (P : byte -> bool) :
  forallb P all_bytes = true -> forall c, P c = true.
Proof. intros H c. rewrite forallb_forall in H. apply H, all_bytes_complete. Qed.

Lemma is_ok_exists {A} (m : res A) : is_ok m = true <-> exists a, m = Ok a.
Proof. destruct m; simpl; split; naive_solver. Qed.

Lemma bind_Ok {A B} (m : res A) (f : A -> res B) b :
  m ≫= f = Ok b -> exists a, m = Ok a /\ f a = Ok b.
Proof. destruct m; simpl; naive_solver. Qed.

Lemma filter_all {A} (P : A -> Prop) `{forall x, Decision (P x)} (l : list A) :
  Forall P l -> filter P l = l.
Proof.
  induction 1; [done |]. rewrite filter_cons_True by done. by f_equal.
Qed.

#[export] Hint Rewrite beq_refl streq_refl chr_code : gosip.
#[export] Hint Resolve code_bound all_bytes_complete : gosip.
