(* ===== verification/GoStrings.v ===== *)
(** * The Go standard library the sources use on strings

    [strings], [strconv], [unicode/utf8] and the conversions of the language,
    on byte strings.  [ToLower], [ToUpper] and [EqualFold] map the ASCII
    letters and leave the bytes from 0x80 on alone; [TrimSpace] knows every
    Unicode space ([unicode.IsSpace]); everything else is byte-exact. *)

From S2P Require Import Prelude.
From Stdlib Require Import DecimalN DecimalNat.
From stdpp Require Import options.

(** ** Searching *)

Fixpoint HasPrefix (s p : bytes) {struct p} : bool :=
  match p, s with
  | [], _ => true
  | c :: p', d :: s' => beq c d && HasPrefix s' p'
  | _ :: _, [] => false
  end.

(** [strings.Index(s, sub)]: the position of the first match. *)
Fixpoint Index (s sub : bytes) {struct s} : option nat :=
  if HasPrefix s sub then Some 0
  else match s with
       | [] => None
       | _ :: s' => S <$> Index s' sub
       end.

(** [strings.Index] and [strings.LastIndex] with a one-byte needle. *)
Fixpoint IndexByte (s : bytes) (c : byte) : option nat :=
  match s with
  | [] => None
  | d :: s' => if beq c d then Some 0 else S <$> IndexByte s' c
  end.

Fixpoint LastIndexByte (s : bytes) (c : byte) : option nat :=
  match s with
  | [] => None
  | d :: s' =>
      match LastIndexByte s' c with
      | Some i => Some (S i)
      | None => if beq c d then Some 0 else None
      end
  end.

Definition mem (c : byte) (chars : bytes) : bool := existsb (beq c) chars.

(** [strings.IndexAny(s, chars)] for ASCII [chars]. *)
Fixpoint IndexAny (s chars : bytes) : option nat :=
  match s with
  | [] => None
  | d :: s' => if mem d chars then Some 0 else S <$> IndexAny s' chars
  end.

Definition isSome {A} (o : option A) : bool :=
  match o with Some _ => true | None => false end.

Definition Contains (s sub : bytes) : bool := isSome (Index s sub).
Definition ContainsByte (s : bytes) (c : byte) : bool := isSome (IndexByte s c).
Definition ContainsAny (s chars : bytes) : bool := isSome (IndexAny s chars).

Definition CountByte (s : bytes) (c : byte) : nat := length (filter (fun d => d = c) s).

Definition TrimPrefix (s p : bytes) : bytes :=
  if HasPrefix s p then drop (length p) s else s.

(** [strings.TrimLeft(s, cutset)]. *)
Fixpoint TrimLeft (s cutset : bytes) : bytes :=
  match s with
  | [] => []
  | c :: s' => if mem c cutset then TrimLeft s' cutset else s
  end.

(** [strings.ReplaceAll(s, old, new)] for a one-byte [old]. *)
Definition ReplaceByte (s : bytes) (old : byte) (new : bytes) : bytes :=
  flat_map (fun c => if beq c old then new else [c]) s.

(** ** Splitting and joining *)

(** [strings.Split(s, sep)] for a non-empty [sep]: leftmost, non-overlapping;
    [skip] bytes of a separator are still to be dropped. *)
Fixpoint split_from (sep : bytes) (skip : nat) (s : bytes) : list bytes :=
  match s with
  | [] => [[]]
  | c :: s' =>
      match skip with
      | S k => split_from sep k s'
      | O =>
          if HasPrefix s sep then [] :: split_from sep (length sep - 1) s'
          else match split_from sep 0 s' with
               | h :: t => (c :: h) :: t
               | [] => [[c]]
               end
      end
  end.

Definition Split (s sep : bytes) : list bytes := split_from sep 0 s.

Fixpoint Join (parts : list bytes) (sep : bytes) : bytes :=
  match parts with
  | [] => []
  | [p] => p
  | p :: ps => p ++ sep ++ Join ps sep
  end.

(** ** White space *)

Definition ascii_space (c : byte) : bool :=
  mem c [TAB; LF; "011"%char; "012"%char; CR; SP].

(** The UTF-8 encodings of the spaces beyond ASCII: U+0085, U+00A0, U+1680,
    U+2000 to U+200A, U+2028, U+2029, U+202F, U+205F and U+3000. *)
Definition wide_spaces : list bytes :=
  [[chr 194; chr 133]; [chr 194; chr 160]; [chr 225; chr 154; chr 128]] ++
  map (fun n => [chr 226; chr 128; chr n])
    [128; 129; 130; 131; 132; 133; 134; 135; 136; 137; 138; 168; 169; 175]%N ++
  [[chr 226; chr 129; chr 159]; [chr 227; chr 128; chr 128]].

(** The length of the space [s] begins with, 0 when it begins with none. *)
Definition space_len (spaces : list bytes) (s : bytes) : nat :=
  match s with
  | [] => 0
  | c :: _ =>
      if ascii_space c then 1
      else match List.find (HasPrefix s) spaces with
           | Some p => length p
           | None => 0
           end
  end.

Fixpoint trim_from (spaces : list bytes) (skip : nat) (s : bytes) : bytes :=
  match s with
  | [] => []
  | c :: s' =>
      match skip with
      | S k => trim_from spaces k s'
      | O =>
          match space_len spaces s with
          | O => s
          | S k => trim_from spaces k s'
          end
      end
  end.

(** [strings.TrimSpace]. *)
Definition TrimSpace (s : bytes) : bytes :=
  let s := trim_from wide_spaces 0 s in
  reverse (trim_from (reverse <$> wide_spaces) 0 (reverse s)).

(** ** Letters *)

Definition lower (c : byte) : byte :=
  if bleq "A" c && bleq c "Z" then chr (code c + 32) else c.

Definition upper (c : byte) : byte :=
  if bleq "a" c && bleq c "z" then chr (code c - 32) else c.

Definition ToLower (s : bytes) : bytes := map lower s.
Definition ToUpper (s : bytes) : bytes := map upper s.
Definition EqualFold (s t : bytes) : bool := streq (ToLower s) (ToLower t).

(** [string(b)] for a byte [b]: the UTF-8 encoding of the code point [b],
    so two bytes from 0x80 on. *)
Definition string_of_byte (c : byte) : bytes :=
  if (code c <? 128)%N then [c]
  else [chr (N.lor 192 (N.shiftr (code c) 6)); chr (N.lor 128 (N.land (code c) 63))].

(** ** Runes

    [for _, char := range s] decodes UTF-8 and yields U+FFFD for every byte
    that is not part of a valid encoding; [string(char)] encodes it again. *)

Definition RuneError : bytes := [chr 239; chr 191; chr 189].

Definition in_range (c : option byte) (lo hi : N) : bool :=
  match c with
  | Some c => (lo <=? code c)%N && (code c <=? hi)%N
  | None => false
  end.

(** The width of the rune [s] begins with, 0 when its first byte is invalid:
    the table of [utf8.DecodeRuneInString]. *)
Definition rune_width (s : bytes) : nat :=
  match s with
  | [] => 0
  | c :: t =>
      let n := code c in
      let b1 := t !! 0 in let b2 := t !! 1 in let b3 := t !! 2 in
      let cont b := in_range b 128 191 in
      if (n <? 128)%N then 1
      else if (n <? 194)%N then 0
      else if (n <? 224)%N then if cont b1 then 2 else 0
      else if (n =? 224)%N then if in_range b1 160 191 && cont b2 then 3 else 0
      else if (n =? 237)%N then if in_range b1 128 159 && cont b2 then 3 else 0
      else if (n <? 240)%N then if cont b1 && cont b2 then 3 else 0
      else if (n =? 240)%N then
        if in_range b1 144 191 && cont b2 && cont b3 then 4 else 0
      else if (n <? 244)%N then
        if cont b1 && cont b2 && cont b3 then 4 else 0
      else if (n =? 244)%N then
        if in_range b1 128 143 && cont b2 && cont b3 then 4 else 0
      else 0
  end.

Fixpoint runes_from (skip : nat) (s : bytes) : list bytes :=
  match s with
  | [] => []
  | c :: s' =>
      match skip with
      | S k => runes_from k s'
      | O =>
          match rune_width s with
          | O => RuneError :: runes_from 0 s'
          | S k => take (S k) s :: runes_from k s'
          end
      end
  end.

(** The runes of [s], each as the string [string(char)]. *)
Definition runes (s : bytes) : list bytes := runes_from 0 s.

(** ** Numbers *)

Definition is_digit (c : byte) : bool := bleq "0" c && bleq c "9".
Definition digit_val (c : byte) : N := (code c - 48)%N.

Fixpoint digits_from (acc : N) (s : bytes) : option N :=
  match s with
  | [] => Some acc
  | c :: s' =>
      if is_digit c then digits_from (acc * 10 + digit_val c) s' else None
  end.

(** [strconv.ParseUint(s, 10, bits)]. *)
Definition ParseUint (s : bytes) (bits : N) : res N :=
  match s with
  | [] => Err NumErrSyntax
  | _ => match digits_from 0 s with
         | None => Err NumErrSyntax
         | Some n => if (n <? 2 ^ bits)%N then Ok n else Err NumErrRange
         end
  end.

(** [strconv.Atoi] on a 64-bit platform. *)
Definition Atoi (s : bytes) : res Z :=
  let '(neg, digits) := match s with
                        | "-"%char :: t => (true, t)
                        | "+"%char :: t => (false, t)
                        | _ => (false, s)
                        end in
  match digits with
  | [] => Err NumErrSyntax
  | _ =>
      match digits_from 0 digits with
      | None => Err NumErrSyntax
      | Some n =>
          let z := if neg then (- Z.of_N n)%Z else Z.of_N n in
          if ((- 2 ^ 63 <=? z) && (z <? 2 ^ 63))%Z then Ok z else Err NumErrRange
      end
  end.

Fixpoint bytes_of_uint (u : Decimal.uint) : bytes :=
  match u with
  | Decimal.Nil => []
  | Decimal.D0 u => "0"%char :: bytes_of_uint u
  | Decimal.D1 u => "1"%char :: bytes_of_uint u
  | Decimal.D2 u => "2"%char :: bytes_of_uint u
  | Decimal.D3 u => "3"%char :: bytes_of_uint u
  | Decimal.D4 u => "4"%char :: bytes_of_uint u
  | Decimal.D5 u => "5"%char :: bytes_of_uint u
  | Decimal.D6 u => "6"%char :: bytes_of_uint u
  | Decimal.D7 u => "7"%char :: bytes_of_uint u
  | Decimal.D8 u => "8"%char :: bytes_of_uint u
  | Decimal.D9 u => "9"%char :: bytes_of_uint u
  end.

(** [fmt.Sprintf("%d", n)] of an unsigned integer. *)
Definition show_N (n : N) : bytes := bytes_of_uint (N.to_uint n).

Example split_crlf : Split ("ab" ++ CRLF ++ "c" ++ CRLF) CRLF = ["ab"; "c"; ""].
Proof. reflexivity. Qed.

Example trim_wide : TrimSpace ([chr 194; chr 160] ++ " a b " ++ CRLF) = "a b".
Proof. reflexivity. Qed.

Example parse_port : ParseUint "65535" 16 = Ok 65535%N /\
  ParseUint "65536" 16 = Err NumErrRange /\ ParseUint "+1" 16 = Err NumErrSyntax.
Proof. repeat split. Qed.

(** ** Lemmas *)

Lemma mem_In c s : mem c s = true <-> In c s.
Proof.
  unfold mem. rewrite existsb_exists. setoid_rewrite beq_eq. naive_solver.
Qed.

Lemma mem_app c s t : mem c (s ++ t) = mem c s || mem c t.
Proof. apply existsb_app. Qed.

Lemma HasPrefix_app s p : HasPrefix (p ++ s) p = true.
Proof. induction p; simpl; [done |]. by rewrite beq_refl, IHp. Qed.

Lemma HasPrefix_spec s p : HasPrefix s p = true <-> exists t, s = p ++ t.
Proof.
  split.
  - revert s. induction p as [|c p IH]; intros [|d s] H; simpl in *; eauto;
      try done. simp_bool. subst. destruct (IH s) as [t ->]; eauto.
  - intros [t ->]. apply HasPrefix_app.
Qed.

Lemma IndexByte_None s c : IndexByte s c = None <-> mem c s = false.
Proof.
  induction s as [|d s IH]; simpl; [done |].
  destruct (beq c d); simpl; [done |].
  rewrite fmap_None. apply IH.
Qed.

Lemma IndexByte_Some s c i :
  IndexByte s c = Some i ->
  s = take i s ++ c :: drop (S i) s /\ mem c (take i s) = false.
Proof.
  revert i. induction s as [|d s IH]; intros i H; simpl in *; [done |].
  destruct (beq c d) eqn:E.
  - simplify_eq. apply beq_eq in E as ->. done.
  - apply fmap_Some in H as (j & Hj & ->). destruct (IH j Hj) as [H1 H2].
    simpl. rewrite E. simpl. split; [by f_equal | done].
Qed.

Lemma IndexByte_lt s c i : IndexByte s c = Some i -> i < length s.
Proof.
  intros H. apply IndexByte_Some in H as [H _].
  apply (f_equal length) in H. rewrite length_app in H. simpl in H.
  rewrite length_take, length_drop in H. lia.
Qed.

Lemma IndexByte_app_r s t c :
  mem c s = false -> IndexByte (s ++ t) c = (Nat.add (length s)) <$> IndexByte t c.
Proof.
  induction s as [|d s IH]; simpl; intros H.
  - by destruct (IndexByte t c).
  - apply orb_false_iff in H as [-> H]. rewrite IH by done.
    by destruct (IndexByte t c).
Qed.

Lemma IndexByte_app_cons s t c :
  mem c s = false -> IndexByte (s ++ [c] ++ t) c = Some (length s).
Proof.
  intros H. rewrite IndexByte_app_r by done. simpl. rewrite beq_refl.
  simpl. f_equal. lia.
Qed.

Lemma LastIndexByte_None s c : LastIndexByte s c = None <-> mem c s = false.
Proof.
  induction s as [|d s IH]; simpl; [done |].
  destruct (LastIndexByte s c); destruct (mem c s); destruct (beq c d); naive_solver.
Qed.

Lemma LastIndexByte_app_cons s t c :
  mem c t = false -> LastIndexByte (s ++ [c] ++ t) c = Some (length s).
Proof.
  intros H. induction s as [|d s IH]; simpl.
  - apply LastIndexByte_None in H as ->. by rewrite beq_refl.
  - simpl in IH. by rewrite IH.
Qed.

(** *** Decimal numbers *)

Fixpoint uint_val (acc : N) (u : Decimal.uint) : N :=
  match u with
  | Decimal.Nil => acc
  | Decimal.D0 u => uint_val (acc * 10) u
  | Decimal.D1 u => uint_val (acc * 10 + 1) u
  | Decimal.D2 u => uint_val (acc * 10 + 2) u
  | Decimal.D3 u => uint_val (acc * 10 + 3) u
  | Decimal.D4 u => uint_val (acc * 10 + 4) u
  | Decimal.D5 u => uint_val (acc * 10 + 5) u
  | Decimal.D6 u => uint_val (acc * 10 + 6) u
  | Decimal.D7 u => uint_val (acc * 10 + 7) u
  | Decimal.D8 u => uint_val (acc * 10 + 8) u
  | Decimal.D9 u => uint_val (acc * 10 + 9) u
  end.

Lemma digits_uint u acc :
  digits_from acc (bytes_of_uint u) = Some (uint_val acc u).
Proof.
  revert acc. induction u; intros acc; simpl; try done;
    rewrite IHu; do 2 f_equal; unfold digit_val; simpl; lia.
Qed.

Lemma uint_val_pos u p :
  uint_val (Npos p) u = Npos (Pos.of_uint_acc u p).
Proof.
  revert p. induction u; intros p; cbn [uint_val Pos.of_uint_acc];
    try done; rewrite <- IHu; f_equal; lia.
Qed.

Lemma uint_val_of_uint u : uint_val 0 u = N.of_uint u.
Proof.
  unfold N.of_uint. induction u; cbn [uint_val Pos.of_uint]; try done;
    apply uint_val_pos.
Qed.

Lemma show_N_digits n : digits_from 0 (show_N n) = Some n.
Proof.
  unfold show_N. rewrite digits_uint, uint_val_of_uint.
  f_equal. apply DecimalN.Unsigned.of_to.
Qed.

Lemma show_N_nonempty n : show_N n <> [].
Proof.
  intros H. assert (Hn := show_N_digits n). rewrite H in Hn. simpl in Hn.
  by simplify_eq.
Qed.

Lemma bytes_of_uint_digits u : forallb is_digit (bytes_of_uint u) = true.
Proof. induction u; simpl; rewrite ?IHu; done. Qed.

Lemma show_N_all_digits n : forallb is_digit (show_N n) = true.
Proof. apply bytes_of_uint_digits. Qed.

(** Printing a number that fits its width and parsing it back. *)
Lemma ParseUint_show n bits : (n < 2 ^ bits)%N -> ParseUint (show_N n) bits = Ok n.
Proof.
  intros Hn. unfold ParseUint. pose proof (show_N_nonempty n) as Hne.
  pose proof (show_N_digits n) as Hd. destruct (show_N n); [done |].
  rewrite Hd. apply N.ltb_lt in Hn. by rewrite Hn.
Qed.

Lemma ParseUint_bound s bits n : ParseUint s bits = Ok n -> (n < 2 ^ bits)%N.
Proof.
  unfold ParseUint. destruct s; [done |].
  destruct (digits_from _ _) as [m|]; [| done].
  destruct (m <? 2 ^ bits)%N eqn:E; [| done]. intros [= <-]. by apply N.ltb_lt.
Qed.

Lemma ParseUint_no_panic s bits : ParseUint s bits <> Panic.
Proof. unfold ParseUint. repeat (split_match; try done). Qed.
