(* ===== verification/Escape.v ===== *)
(** * Percent escaping: src/sip/escape.go

    [Unescape] checks every escape first and decodes in a second pass;
    [Escape_buf] is the code's version of [Escape], which counts the bytes to
    escape, allocates the buffer and writes it by index.  [Escape] is the
    byte-by-byte function the buffer code is proved to compute; the other
    components use it. *)

From S2P Require Import Prelude GoStrings.
From stdpp Require Import options.

Module Escape.

Inductive encoding : Set :=
| EncodeUserPassword
| EncodeHost
| EncodeZone
| EncodeQueryComponent.

#[export] Instance encoding_eq_dec : EqDecision encoding.
Proof. solve_decision. Defined.

Definition mode_is (m m' : encoding) : bool := bool_decide (m = m').

Definition ishex (c : byte) : bool :=
  if bleq "0" c && bleq c "9" then true
  else if bleq "a" c && bleq c "f" then true
  else if bleq "A" c && bleq c "F" then true
  else false.

(** Byte arithmetic wraps at 8 bits; on each branch the result is below 16. *)
Definition unhex (c : byte) : N :=
  if bleq "0" c && bleq c "9" then (code c - 48)%N
  else if bleq "a" c && bleq c "f" then (code c - 97 + 10)%N
  else if bleq "A" c && bleq c "F" then (code c - 65 + 10)%N
  else 0%N.

(** [unhex(a)<<4 | unhex(b)] *)
Definition unhex2 (a b : byte) : byte :=
  chr (N.lor (N.shiftl (unhex a) 4) (unhex b)).

Definition shouldEscape (c : byte) (mode : encoding) : bool :=
  if bleq "a" c && bleq c "z" || bleq "A" c && bleq c "Z" || bleq "0" c && bleq c "9"
  then false
  else if (mode_is mode EncodeHost || mode_is mode EncodeZone) &&
          mem c ("!$&'()*+,;=:[]<>" ++ [DQUOTE])
  then false
  else if mem c "-_.~!*'()" then false
  else if mem c "$&+,/:;=?@[]" then
    match mode with
    | EncodeUserPassword => beq c "@" || beq c "/" || beq c "?" || beq c ":"
    | EncodeQueryComponent => beq c "&" || beq c ";"
    | _ => true
    end
  else true.

(** The first loop of [Unescape]: [skip] bytes of an escape are still to be
    stepped over, [n] escapes were met. *)
Fixpoint check_escapes (mode : encoding) (skip : nat) (s : bytes)
    (n : nat) (hasPlus : bool) : res (nat * bool) :=
  match s with
  | [] => Ok (n, hasPlus)
  | c :: t =>
      match skip with
      | S k => check_escapes mode k t n hasPlus
      | O =>
          if beq c "%" then
            match t with
            | a :: b :: _ =>
                if negb (ishex a) || negb (ishex b) then Err (EscapeError (take 3 s))
                else if mode_is mode EncodeHost && (unhex a <? 8)%N &&
                        negb (streq [c; a; b] "%25")
                then Err (EscapeError [c; a; b])
                else if mode_is mode EncodeZone && negb (streq [c; a; b] "%25") &&
                        negb (beq (unhex2 a b) " ") && shouldEscape (unhex2 a b) EncodeHost
                then Err (EscapeError [c; a; b])
                else check_escapes mode 2 t (S n) hasPlus
            | _ => Err (EscapeError (take 3 s))
            end
          else if beq c "+" then
            check_escapes mode 0 t n (mode_is mode EncodeQueryComponent)
          else if (mode_is mode EncodeHost || mode_is mode EncodeZone) &&
                  (code c <? 128)%N && shouldEscape c mode
          then Err (InvalidHostError [c])
          else check_escapes mode 0 t n hasPlus
      end
  end.

(** The second loop: [s[i+1]] and [s[i+2]] are read without a check. *)
Fixpoint decode_escapes (skip : nat) (s : bytes) : res bytes :=
  match s with
  | [] => Ok []
  | c :: t =>
      match skip with
      | S k => decode_escapes k t
      | O =>
          if beq c "%" then
            match t with
            | a :: b :: _ => cons (unhex2 a b) <$> decode_escapes 2 t
            | _ => Panic
            end
          else cons c <$> decode_escapes 0 t
      end
  end.

Definition Unescape (s : bytes) (mode : encoding) : res bytes :=
  '(n, hasPlus) ← check_escapes mode 0 s 0 false;
  if (n =? 0) && negb hasPlus then Ok s else decode_escapes 0 s.

Definition upperhex : bytes := "0123456789ABCDEF".

Definition upperhex_at (n : N) : byte := nth (N.to_nat n) upperhex NUL.

(** What [Escape] writes for one byte. *)
Definition escape_byte (mode : encoding) (c : byte) : bytes :=
  if beq c " " && mode_is mode EncodeQueryComponent then [c]
  else if shouldEscape c mode then
    ["%"%char; upperhex_at (N.shiftr (code c) 4); upperhex_at (N.land (code c) 15)]
  else [c].

Definition Escape (s : bytes) (mode : encoding) : bytes :=
  flat_map (escape_byte mode) s.

(** The counting loop: (spaceCount, hexCount). *)
Fixpoint count_escapes (mode : encoding) (s : bytes) (spaceCount hexCount : nat) : nat * nat :=
  match s with
  | [] => (spaceCount, hexCount)
  | c :: t =>
      if shouldEscape c mode then
        if beq c " " && mode_is mode EncodeQueryComponent
        then count_escapes mode t (S spaceCount) hexCount
        else count_escapes mode t spaceCount (S hexCount)
      else count_escapes mode t spaceCount hexCount
  end.

(** [t[j] = x], which panics out of range. *)
Definition store (t : bytes) (j : nat) (x : byte) : res bytes :=
  if decide (j < length t) then Ok (<[j := x]> t) else Panic.

Fixpoint write_escapes (mode : encoding) (s : bytes) (t : bytes) (j : nat) : res bytes :=
  match s with
  | [] => Ok t
  | c :: s' =>
      if beq c " " && mode_is mode EncodeQueryComponent then
        t ← store t j c; write_escapes mode s' t (j + 1)
      else if shouldEscape c mode then
        t ← store t j "%"%char;
        t ← store t (j + 1) (upperhex_at (N.shiftr (code c) 4));
        t ← store t (j + 2) (upperhex_at (N.land (code c) 15));
        write_escapes mode s' t (j + 3)
      else
        t ← store t j c; write_escapes mode s' t (j + 1)
  end.

(** [Escape] as the code computes it, on a zeroed buffer. *)
Definition Escape_buf (s : bytes) (mode : encoding) : res bytes :=
  let '(spaceCount, hexCount) := count_escapes mode s 0 0 in
  if (spaceCount =? 0) && (hexCount =? 0) then Ok s
  else
    let required := length s + 2 * hexCount in
    let t := replicate required NUL in
    if hexCount =? 0 then Ok (s ++ drop (length s) t)
    else write_escapes mode s t 0.

Example escape_user : Escape "a b@c" EncodeUserPassword = "a%20b%40c".
Proof. reflexivity. Qed.

Example unescape_bad : Unescape "a%2" EncodeUserPassword = Err (EscapeError "%2").
Proof. reflexivity. Qed.

(** ** Lemmas *)

Lemma hex_digits_ok c :
  ishex (upperhex_at (N.shiftr (code c) 4)) &&
  ishex (upperhex_at (N.land (code c) 15)) &&
  beq (unhex2 (upperhex_at (N.shiftr (code c) 4)) (upperhex_at (N.land (code c) 15))) c
  = true.
Proof. revert c. apply byte_forall. by vm_compute. Qed.

Lemma hex_high_digit c :
  (unhex (upperhex_at (N.shiftr (code c) 4)) <? 8)%N = (code c <? 128)%N.
Proof.
  apply eqb_prop. revert c. apply byte_forall. by vm_compute.
Qed.

Lemma percent_shouldEscape mode : shouldEscape "%" mode = true.
Proof. by destruct mode. Qed.

(** The bytes that survive a round trip in a mode: all of them in the user and
    query modes, those [Unescape] accepts escaped in the host and zone modes. *)
Definition escapable_byte (mode : encoding) (c : byte) : bool :=
  match mode with
  | EncodeUserPassword | EncodeQueryComponent => true
  | EncodeHost => negb (shouldEscape c EncodeHost) || negb (code c <? 128)%N || beq c "%"
  | EncodeZone => negb (shouldEscape c EncodeZone) || beq c "%" || beq c " "
  end.

Definition escapable (mode : encoding) (s : bytes) : bool :=
  forallb (escapable_byte mode) s.

Lemma zone_host_escape c : shouldEscape c EncodeZone = shouldEscape c EncodeHost.
Proof. reflexivity. Qed.

Lemma percent25 c : streq ["%"%char; upperhex_at (N.shiftr (code c) 4);
  upperhex_at (N.land (code c) 15)] "%25" = beq c "%".
Proof. apply eqb_prop. revert c. apply byte_forall. by vm_compute. Qed.

(** Skipping over two bytes. *)
Lemma check_skip2 mode a b t n p :
  check_escapes mode 2 (a :: b :: t) n p = check_escapes mode 0 t n p.
Proof. by destruct t. Qed.

Lemma decode_percent a b t :
  decode_escapes 0 ("%"%char :: a :: b :: t) = cons (unhex2 a b) <$> decode_escapes 0 t.
Proof. by destruct t. Qed.

Lemma decode_plain c t :
  c <> "%"%char -> decode_escapes 0 (c :: t) = cons c <$> decode_escapes 0 t.
Proof. intros H. apply beq_neq in H. cbn [decode_escapes]. by rewrite H. Qed.

Lemma check_escaped_byte mode c t n p :
  shouldEscape c mode = true -> escapable_byte mode c = true ->
  check_escapes mode 0
    ("%"%char :: upperhex_at (N.shiftr (code c) 4) :: upperhex_at (N.land (code c) 15) :: t) n p
  = check_escapes mode 0 t (S n) p.
Proof.
  intros Hs He. pose proof (hex_digits_ok c) as Hx.
  apply andb_true_iff in Hx as [Hx H3]. apply andb_true_iff in Hx as [H1 H2].
  apply beq_eq in H3.
  cbn [check_escapes]. rewrite (beq_refl "%"), H1, H2, hex_high_digit, percent25, H3.
  cbn [negb orb].
  destruct mode; cbn [mode_is andb] in *;
    rewrite ?(bool_decide_eq_false_2 (_ = _)), ?(bool_decide_eq_true_2 (_ = _)) by done;
    cbn [andb]; rewrite ?check_skip2; try done.
  - unfold escapable_byte in He. rewrite Hs in He. simpl in He.
    destruct (code c <? 128)%N, (beq c "%"); done.
  - unfold escapable_byte in He. rewrite Hs in He. simpl in He.
    destruct (beq c "%"), (beq c " "); done.
Qed.

Lemma check_plain_byte mode c t n p :
  shouldEscape c mode = false \/ c = " "%char /\ mode = EncodeQueryComponent ->
  exists p', check_escapes mode 0 (c :: t) n p = check_escapes mode 0 t n p'.
Proof.
  intros Hs. cbn [check_escapes].
  assert (beq c "%" = false) as ->.
  { apply beq_neq. intros ->. rewrite percent_shouldEscape in Hs. naive_solver. }
  destruct (beq c "+"); [by eexists |].
  destruct Hs as [-> | [-> ->]]; [| by eexists].
  rewrite andb_false_r. by eexists.
Qed.

Lemma check_Escape mode s n p :
  escapable mode s = true ->
  exists n' p', check_escapes mode 0 (Escape s mode) n p = Ok (n', p').
Proof.
  revert n p. induction s as [|c s IH]; intros n p H; simpl; [by eauto |].
  simpl in H. apply andb_true_iff in H as [Hc H].
  unfold escape_byte. destruct (beq c " " && _) eqn:Esp.
  - simp_bool. subst. edestruct (check_plain_byte mode " "%char (Escape s mode) n p) as [p' E].
    { right. split; [done |]. by apply bool_decide_eq_true in H1. }
    setoid_rewrite E. apply IH, H.
  - destruct (shouldEscape c mode) eqn:Es.
    + cbn [app]. rewrite check_escaped_byte by done. apply IH, H.
    + edestruct (check_plain_byte mode c (Escape s mode) n p) as [p' E]; [by left |].
      setoid_rewrite E. apply IH, H.
Qed.

Lemma decode_Escape mode s : decode_escapes 0 (Escape s mode) = Ok s.
Proof.
  induction s as [|c s IH]; simpl; [done |].
  unfold escape_byte. destruct (beq c " " && _) eqn:Esp.
  { simp_bool. subst. cbn [app]. by rewrite decode_plain, IH. }
  destruct (shouldEscape c mode) eqn:Es; cbn [app].
  - pose proof (hex_digits_ok c) as Hx. simp_bool.
    rewrite decode_percent, IH. simpl. congruence.
  - rewrite decode_plain, IH; [done |]. intros ->.
    by rewrite percent_shouldEscape in Es.
Qed.

(** Nothing escaped and no check failed: the decoding pass is the identity. *)
Lemma check_none mode s skip n p m p' :
  check_escapes mode skip s n p = Ok (m, p') ->
  n <= m /\ (n = m -> decode_escapes skip s = Ok (drop skip s)).
Proof.
  revert skip n p. induction s as [|c s IH]; intros skip n p H; cbn [check_escapes] in H.
  { simplify_eq. split; [lia |]. intros _. by destruct skip. }
  destruct skip as [|k]; [| by apply IH in H].
  cbn [decode_escapes drop]. destruct (beq c "%") eqn:Ep.
  - destruct s as [|a [|b s]]; try done.
    repeat (split_hyp; [done |]). apply IH in H as [? _]. lia.
  - assert (exists q, check_escapes mode 0 s n q = Ok (m, p')) as [q Hq].
    { destruct (beq c "+"); [by eauto |]. split_hyp; [done | by eauto]. }
    apply IH in Hq as [? Hd]. split; [done |]. intros ->.
    rewrite Hd by done. done.
Qed.

(** Once the checks pass, the unchecked reads of the second loop are safe. *)
Lemma check_then_decode mode s skip n p x :
  check_escapes mode skip s n p = Ok x -> is_ok (decode_escapes skip s) = true.
Proof.
  revert skip n p. induction s as [|c s IH]; intros skip n p H; cbn [check_escapes] in H;
    [by destruct skip |].
  destruct skip as [|k]; [| by eapply IH].
  cbn [decode_escapes]. destruct (beq c "%").
  - destruct s as [|a [|b s]]; try done.
    repeat (split_hyp; [done |]). apply IH in H.
    by destruct (decode_escapes 2 _).
  - assert (is_ok (decode_escapes 0 s) = true) as Hd.
    { destruct (beq c "+"); [by eapply IH |]. split_hyp; [done | by eapply IH]. }
    by destruct (decode_escapes 0 s).
Qed.

Lemma Unescape_decode s mode x :
  check_escapes mode 0 s 0 false = Ok x -> Unescape s mode = decode_escapes 0 s.
Proof.
  destruct x as [n p]. intros H. unfold Unescape. rewrite H. simpl.
  destruct (n =? 0) eqn:En; [| done]. apply Nat.eqb_eq in En as ->.
  apply check_none in H as [_ H]. rewrite H by done. by destruct p.
Qed.

Lemma check_no_panic mode skip s n p : check_escapes mode skip s n p <> Panic.
Proof.
  revert skip n p. induction s as [|c s IH]; intros skip n p; cbn [check_escapes]; [done |].
  destruct skip; [| done].
  destruct s as [|a [|b s]]; repeat (split_match; try done).
Qed.

Lemma Unescape_no_panic s mode : Unescape s mode <> Panic.
Proof.
  destruct (check_escapes mode 0 s 0 false) eqn:E.
  - rewrite (Unescape_decode _ _ _ E). apply check_then_decode in E.
    by destruct (decode_escapes 0 s).
  - unfold Unescape. by rewrite E.
  - by apply check_no_panic in E.
Qed.

Lemma Unescape_Escape s mode :
  escapable mode s = true -> Unescape (Escape s mode) mode = Ok s.
Proof.
  intros H. destruct (check_Escape mode s 0 false H) as (n & p & E).
  rewrite (Unescape_decode _ _ _ E). apply decode_Escape.
Qed.

Lemma escapable_user s : escapable EncodeUserPassword s = true.
Proof. by induction s. Qed.

Lemma escapable_query s : escapable EncodeQueryComponent s = true.
Proof. by induction s. Qed.

(** A byte that a mode escapes does not occur in its output, [%] apart. *)
Lemma Escape_avoids mode s c :
  shouldEscape c mode = true -> c <> "%"%char -> c <> " "%char -> ishex c = false ->
  mem c (Escape s mode) = false.
Proof.
  intros Hs Hp Hsp Hx. induction s as [|d s IH]; [done |].
  simpl. rewrite mem_app, IH, orb_false_r. unfold escape_byte.
  destruct (beq d " " && _) eqn:E1.
  { simp_bool. subst. simpl. rewrite orb_false_r. by apply beq_neq. }
  destruct (shouldEscape d mode) eqn:E2; simpl; rewrite !orb_false_r.
  - pose proof (hex_digits_ok d) as Hd. simp_bool.
    apply orb_false_iff; split; [by apply beq_neq |].
    apply orb_false_iff; split; apply beq_neq; intros ->; congruence.
  - apply beq_neq. intros ->. congruence.
Qed.

(** ** The buffer version *)

Lemma count_escapes_acc mode s a b :
  count_escapes mode s a b =
  (a + fst (count_escapes mode s 0 0), b + snd (count_escapes mode s 0 0)).
Proof.
  revert a b. induction s as [|c s IH]; intros a b; simpl; [by rewrite !Nat.add_0_r |].
  repeat split_match; rewrite ?(IH (S a)), ?(IH 1), ?(IH a (S b)), ?(IH 0 1), ?(IH a b); simpl;
    f_equal; lia.
Qed.

Lemma Escape_length mode s :
  length (Escape s mode) = length s + 2 * snd (count_escapes mode s 0 0).
Proof.
  induction s as [|c s IH]; simpl; [done |].
  rewrite length_app, IH. unfold escape_byte.
  destruct (beq c " " && mode_is mode EncodeQueryComponent) eqn:E1.
  - destruct (shouldEscape c mode); rewrite ?(count_escapes_acc _ _ 1 0); simpl; lia.
  - destruct (shouldEscape c mode); rewrite ?(count_escapes_acc _ _ 0 1); simpl; lia.
Qed.

Lemma Escape_plain mode s :
  snd (count_escapes mode s 0 0) = 0 -> Escape s mode = s.
Proof.
  induction s as [|c s IH]; simpl; [done |]. unfold escape_byte.
  destruct (beq c " " && mode_is mode EncodeQueryComponent) eqn:E1;
    destruct (shouldEscape c mode); rewrite ?(count_escapes_acc _ _ 1 0);
    rewrite ?(count_escapes_acc _ _ 0 1); simpl; intros H; try lia; by rewrite IH.
Qed.

Lemma store_mid (l : bytes) (x y : byte) (r : bytes) :
  store (l ++ x :: r) (length l) y = Ok (l ++ y :: r).
Proof.
  unfold store. rewrite decide_True by (rewrite length_app; simpl; lia).
  f_equal. rewrite insert_app_r_alt by lia. by rewrite Nat.sub_diag.
Qed.

(** One indexed write into the unwritten tail of the buffer. *)
Lemma store_next (done_ : bytes) (k : nat) (y : byte) :
  store (done_ ++ replicate (S k) NUL) (length done_) y
  = Ok ((done_ ++ [y]) ++ replicate k NUL).
Proof. simpl. by rewrite store_mid, <- app_assoc. Qed.

Lemma length_snoc (d : bytes) (c : byte) : length (d ++ [c]) = length d + 1.
Proof. by rewrite length_app. Qed.

Lemma write_escapes_ok mode s done_ k :
  k = length (Escape s mode) ->
  write_escapes mode s (done_ ++ replicate k NUL) (length done_)
  = Ok (done_ ++ Escape s mode).
Proof.
  revert done_ k. induction s as [|c s IH]; intros d k ->; [done |].
  cbn [write_escapes Escape flat_map]. fold (Escape s mode). rewrite length_app.
  unfold escape_byte. destruct (beq c " " && mode_is mode EncodeQueryComponent) eqn:E1.
  - cbn [length Nat.add]. rewrite store_next. simpl.
    rewrite <- (length_snoc d c), IH by done. by rewrite <- app_assoc.
  - destruct (shouldEscape c mode) eqn:E2; cbn [length Nat.add].
    + rewrite store_next. cbn [mbind res_bind].
      rewrite <- (length_snoc d "%"%char), store_next.
      cbn [mbind res_bind].
      set (d1 := (d ++ _) ++ _). assert (length d + 2 = length d1) as ->.
      { unfold d1. rewrite !length_app. simpl. lia. }
      rewrite store_next. cbn [mbind res_bind].
      set (d2 := d1 ++ _). assert (length d + 3 = length d2) as ->.
      { unfold d2, d1. rewrite !length_app. simpl. lia. }
      rewrite IH by done. unfold d2, d1. by rewrite <- !app_assoc.
    + rewrite store_next. simpl.
      rewrite <- (length_snoc d c), IH by done. by rewrite <- app_assoc.
Qed.

Lemma Escape_buf_spec s mode : Escape_buf s mode = Ok (Escape s mode).
Proof.
  unfold Escape_buf. pose proof (Escape_length mode s) as HL.
  pose proof (Escape_plain mode s) as HP.
  destruct (count_escapes mode s 0 0) as [a b] eqn:E. simpl in HL, HP.
  destruct ((a =? 0) && (b =? 0)) eqn:E0.
  { simp_bool. rewrite HP; [done |]. by apply Nat.eqb_eq. }
  destruct (b =? 0) eqn:Eb.
  - apply Nat.eqb_eq in Eb as ->. rewrite HP by done.
    rewrite drop_ge; [by rewrite app_nil_r |]. rewrite length_replicate. lia.
  - apply (write_escapes_ok mode s []). lia.
Qed.

#[export] Hint Resolve Unescape_no_panic escapable_user escapable_query : gosip.

End Escape.
