(* ===== verification/Params.v ===== *)
(** * Header and URI parameters: [headerParams] of src/sip/headers.go

    A parameter set is a map with the order of its keys.  [entries] is the
    abstract view, an association list without duplicates; [Add] and [Remove]
    are proved to be the list operations on it. *)

From S2P Require Import Prelude GoStrings Escape.
From stdpp Require Import options.
Import Escape.

Module Params.

(** [MaybeString]: nil, or a [String]. *)
Abbreviation MaybeString := (option bytes).

(** [x.String()] on a [MaybeString]: a method call on a nil interface panics. *)
Definition MaybeString_String (m : MaybeString) : res bytes :=
  match m with Some s => Ok s | None => Panic end.

Record headerParams : Type := mkParams {
  params : gmap (list ascii) (option (list ascii));
  paramOrder : list bytes
}.

Definition NewParams : headerParams := mkParams ∅ [].

Definition Items (p : headerParams) := params p.
Definition Keys (p : headerParams) : list bytes := paramOrder p.

(** [v, ok := params.Get(key)]: [None] is [ok = false]. *)
Definition Get (p : headerParams) (key : bytes) : option MaybeString := params p !! key.

Definition Has (p : headerParams) (key : bytes) : bool := isSome (params p !! key).

Definition Add (p : headerParams) (key : bytes) (val : MaybeString) : headerParams :=
  let order := match params p !! key with
               | Some _ => paramOrder p
               | None => paramOrder p ++ [key]
               end in
  mkParams (<[key := val]> (params p)) order.

(** Drops the first occurrence, like the loop that breaks on a match. *)
Fixpoint remove_first (key : bytes) (l : list bytes) : list bytes :=
  match l with
  | [] => []
  | k :: l' => if streq k key then l' else k :: remove_first key l'
  end.

Definition Remove (p : headerParams) (key : bytes) : headerParams :=
  match params p !! key with
  | Some _ => mkParams (delete key (params p)) (remove_first key (paramOrder p))
  | None => p
  end.

Definition Length (p : headerParams) : nat := size (params p).

Definition clone_step (p dup : headerParams) (key : bytes) : headerParams :=
  match Get p key with
  | Some v => Add dup key v
  | None => dup
  end.

Definition Clone (p : headerParams) : headerParams :=
  foldl (clone_step p) NewParams (Keys p).

Definition cloneWithNil (p : option headerParams) : headerParams :=
  match p with Some p => Clone p | None => NewParams end.

Definition abnfWs : bytes := [SP; TAB].

(** [valStr != "" && valStr[0] == '"' && valStr[len-1] == '"'] *)
Definition quoted_literal (v : bytes) : bool :=
  match v with
  | [] => false
  | c :: _ => beq c DQUOTE && beq (List.last v NUL) DQUOTE
  end.

(** What [ToString] writes after the key of a parameter. *)
Definition value_string (v : MaybeString) : bytes :=
  match v with
  | None => []
  | Some v =>
      if quoted_literal v then "=" ++ v
      else if ContainsAny v abnfWs then
        "=" ++ [DQUOTE] ++
        ReplaceByte (Escape v EncodeQueryComponent) DQUOTE ["\"%char; DQUOTE] ++ [DQUOTE]
      else "=" ++ Escape v EncodeQueryComponent
  end.

Definition param_string (key : bytes) (v : MaybeString) : bytes :=
  Escape key EncodeQueryComponent ++ value_string v.

Fixpoint to_string_loop (p : headerParams) (sep : byte) (first : bool) (keys : list bytes) : bytes :=
  match keys with
  | [] => []
  | key :: keys' =>
      match Get p key with
      | None => to_string_loop p sep first keys'
      | Some v =>
          (if first then [] else [sep]) ++ param_string key v ++
          to_string_loop p sep false keys'
      end
  end.

Definition ToString (p : headerParams) (sep : byte) : bytes :=
  to_string_loop p sep true (Keys p).

Definition Params_String (p : headerParams) : bytes := ToString p "&"%char.

(** The [range] over the map: every entry of [p] is the entry of [q]. *)
Definition entries_match (p q : headerParams) : bool :=
  bool_decide (map_Forall (fun key v => Get q key = Some v) (params p)).

Definition Params_Equals (p q : headerParams) : bool :=
  if (Length p =? 0) && (Length q =? 0) then true
  else if negb (Length p =? Length q) then false
  else entries_match p q.

Example to_string_quotes :
  ToString (Add (Add NewParams "tag" (Some "a b")) "lr" None) ";"%char =
  "tag=" ++ [DQUOTE] ++ "a b" ++ [DQUOTE] ++ ";lr".
Proof. reflexivity. Qed.

(** ** The invariant *)

Definition wf (p : headerParams) : Prop :=
  NoDup (paramOrder p) /\ forall k, k ∈ paramOrder p <-> is_Some (params p !! k).

Lemma wf_NewParams : wf NewParams.
Proof.
  split; [constructor |]. intros k. simpl. rewrite lookup_empty.
  split; [by intros ?%elem_of_nil | by intros [? [=]]].
Qed.

Lemma wf_Add p k v : wf p -> wf (Add p k v).
Proof.
  intros [Hnd Hdom]. unfold Add, wf. simpl. destruct (params p !! k) eqn:E.
  - split; [done |]. intros k'. rewrite lookup_insert. case_decide as Hk.
    + subst. rewrite Hdom, E. naive_solver.
    + apply Hdom.
  - split.
    + apply NoDup_app. repeat split; [done | | apply NoDup_singleton].
      intros x Hx ->%list_elem_of_singleton. apply Hdom in Hx. rewrite E in Hx. by destruct Hx.
    + intros k'. rewrite elem_of_app, list_elem_of_singleton, Hdom, lookup_insert.
      case_decide; naive_solver.
Qed.

Lemma remove_first_elem k (l : list bytes) x :
  NoDup l -> x ∈ remove_first k l <-> x ∈ l /\ x <> k.
Proof.
  induction 1 as [|a l Ha Hnd IH]; simpl.
  - set_solver.
  - destruct (streq a k) eqn:E; simp_bool; subst; rewrite ?elem_of_cons; [| set_solver].
    split; [| set_solver]. intros Hx. split; [by right |]. by intros ->.
Qed.

Lemma remove_first_sublist k l : sublist (remove_first k l) l.
Proof.
  induction l as [|a l IH]; simpl; [constructor |].
  destruct (streq a k); by constructor.
Qed.

Lemma remove_first_NoDup k l : NoDup l -> NoDup (remove_first k l).
Proof. intros H. eapply sublist_NoDup; [done | apply remove_first_sublist]. Qed.

Lemma wf_Remove p k : wf p -> wf (Remove p k).
Proof.
  intros [Hnd Hdom]. unfold Remove. destruct (params p !! k) eqn:E; [| done].
  split; simpl; [by apply remove_first_NoDup |].
  intros x. rewrite remove_first_elem, Hdom, lookup_delete by done.
  case_decide; naive_solver.
Qed.

(** ** The abstract view *)

Definition entry (p : headerParams) (k : bytes) : option (bytes * MaybeString) :=
  (fun v => (k, v)) <$> params p !! k.

Definition entries (p : headerParams) : list (bytes * MaybeString) :=
  omap (entry p) (paramOrder p).

Fixpoint assoc_set (k : bytes) (v : MaybeString) (l : list (bytes * MaybeString)) :=
  match l with
  | [] => [(k, v)]
  | (k', v') :: l' => if streq k' k then (k', v) :: l' else (k', v') :: assoc_set k v l'
  end.

Definition assoc_del (k : bytes) (l : list (bytes * MaybeString)) :=
  filter (fun kv => kv.1 <> k) l.

Lemma wf_lookup p k : wf p -> k ∈ paramOrder p -> exists v, params p !! k = Some v.
Proof. intros [_ H] Hk. by apply H in Hk as [v ?]; eauto. Qed.

Lemma omap_entry_cons p a (l : list bytes) :
  omap (entry p) (a :: l) =
  match params p !! a with
  | Some v => (a, v) :: omap (entry p) l
  | None => omap (entry p) l
  end.
Proof. cbn. unfold entry at 1. by destruct (params p !! a). Qed.

(** Keys outside a list do not matter to its [entry]s. *)
Lemma omap_entry_ext p q (l : list bytes) :
  (forall k, k ∈ l -> params p !! k = params q !! k) -> omap (entry p) l = omap (entry q) l.
Proof.
  intros H. induction l as [|a l IH]; [done |].
  rewrite !omap_entry_cons, (H a), IH by set_solver. done.
Qed.

Lemma entries_keys p : wf p -> (entries p).*1 = paramOrder p.
Proof.
  intros [_ Hd]. unfold entries.
  assert (forall k, k ∈ paramOrder p -> is_Some (params p !! k)) as H by naive_solver.
  clear Hd. induction (paramOrder p) as [|a l IH]; [done |].
  rewrite omap_entry_cons. destruct (H a) as [v ->]; [set_solver |].
  cbn. f_equal. apply IH. set_solver.
Qed.

Lemma wf_not_in p k : wf p -> params p !! k = None -> k ∉ paramOrder p.
Proof. intros [_ Hd] E Hin. apply Hd in Hin as [? ?]. congruence. Qed.

(** The entries of the updated map along an order that has the key once. *)
Lemma omap_entry_insert p k v (l l' : list bytes) :
  NoDup l -> k ∈ l -> (forall x, x ∈ l -> is_Some (params p !! x)) ->
  omap (entry (mkParams (<[k := v]> (params p)) l')) l = assoc_set k v (omap (entry p) l).
Proof.
  intros Hnd Hk Hs. induction Hnd as [|a l Ha Hnd IH]; [by apply elem_of_nil in Hk |].
  rewrite !omap_entry_cons. simpl. rewrite lookup_insert.
  destruct (Hs a) as [w Hw]; [set_solver |]. rewrite Hw. simpl.
  case_decide as Hak.
  - subst. rewrite streq_refl. f_equal. apply omap_entry_ext. intros x Hx. simpl.
    rewrite lookup_insert_ne; [done |]. by intros ->.
  - rewrite (proj2 (streq_neq a k)) by congruence. f_equal. apply IH; set_solver.
Qed.

Lemma assoc_set_new p k v (l : list bytes) :
  k ∉ l -> assoc_set k v (omap (entry p) l) = omap (entry p) l ++ [(k, v)].
Proof.
  intros Hk. induction l as [|a l IH]; [done |].
  rewrite omap_entry_cons. destruct (params p !! a); [| apply IH; set_solver].
  simpl. rewrite (proj2 (streq_neq a k)) by set_solver. f_equal. apply IH. set_solver.
Qed.

Lemma entries_Add p k v : wf p -> entries (Add p k v) = assoc_set k v (entries p).
Proof.
  intros Hwf. pose proof Hwf as [Hnd Hd]. unfold entries, Add. simpl.
  destruct (params p !! k) eqn:E.
  - apply omap_entry_insert; [done | apply Hd; eauto | naive_solver].
  - pose proof (wf_not_in p k Hwf E) as Hk.
    rewrite omap_app, omap_entry_cons. simpl. rewrite lookup_insert_eq.
    rewrite assoc_set_new by done. f_equal. apply omap_entry_ext. intros x Hx. simpl.
    rewrite lookup_insert_ne; [done |]. by intros ->.
Qed.

(** Deleting a key that does not occur. *)
Lemma assoc_del_absent p k (l : list bytes) :
  k ∉ l -> assoc_del k (omap (entry p) l) = omap (entry p) l.
Proof.
  intros Hk. apply filter_all, Forall_forall. intros [x v] Hx.
  apply list_elem_of_omap in Hx as (y & Hy & Hxy). unfold entry in Hxy.
  apply fmap_Some in Hxy as (? & ? & ?). simplify_eq. simpl. by intros ->.
Qed.

Lemma entries_Remove p k : wf p -> entries (Remove p k) = assoc_del k (entries p).
Proof.
  intros Hwf. pose proof Hwf as [Hnd Hd]. unfold Remove, entries.
  destruct (params p !! k) eqn:E; simpl.
  2:{ symmetry. by apply assoc_del_absent, wf_not_in. }
  clear Hwf Hd E. induction Hnd as [|a l Ha Hnd IH]; [done |].
  rewrite omap_entry_cons. simpl. destruct (streq a k) eqn:Ea; simp_bool.
  - subst. rewrite (omap_entry_ext _ p).
    2:{ intros x Hx. simpl. rewrite lookup_delete_ne; [done |]. by intros ->. }
    rewrite <- (assoc_del_absent p k l Ha) at 1. unfold assoc_del.
    destruct (params p !! k); [| done]. rewrite filter_cons_False; [done |]. naive_solver.
  - rewrite omap_entry_cons. simpl. rewrite lookup_delete_ne by congruence.
    destruct (params p !! a); [| apply IH]. unfold assoc_del in *.
    rewrite filter_cons_True by done. f_equal. apply IH.
Qed.

(** A well-formed set is determined by its entries. *)
Lemma entries_lookup p k : wf p -> params p !! k = snd <$> List.find (fun kv => streq kv.1 k) (entries p).
Proof.
  intros Hwf. pose proof Hwf as [Hnd Hd]. unfold entries.
  assert (k ∉ paramOrder p -> params p !! k = None) as Hk.
  { intros Hk. apply eq_None_not_Some. rewrite <- Hd. done. }
  assert (forall x, x ∈ paramOrder p -> is_Some (params p !! x)) as Hs by naive_solver.
  clear Hwf Hd Hnd. induction (paramOrder p) as [|a l IH].
  - rewrite Hk; [done | apply not_elem_of_nil].
  - rewrite omap_entry_cons. destruct (Hs a) as [w Hw]; [set_solver |]. rewrite Hw. simpl.
    destruct (streq a k) eqn:Ea; simp_bool.
    + by subst.
    + apply IH; set_solver.
Qed.

Lemma entries_inj p q : wf p -> wf q -> entries p = entries q -> p = q.
Proof.
  intros Hp Hq H. destruct p as [mp op], q as [mq oq]. f_equal.
  - apply map_eq. intros k.
    pose proof (entries_lookup _ k Hp) as Ep. pose proof (entries_lookup _ k Hq) as Eq.
    simpl in Ep, Eq. by rewrite Ep, Eq, H.
  - pose proof (entries_keys _ Hp) as Ep. pose proof (entries_keys _ Hq) as Eq.
    simpl in Ep, Eq. by rewrite <- Ep, <- Eq, H.
Qed.

(** ** Clone, equality, printing *)

Lemma assoc_set_snoc k v l : k ∉ l.*1 -> assoc_set k v l = l ++ [(k, v)].
Proof.
  induction l as [|[k' v'] l IH]; simpl; intros H; [done |].
  rewrite (proj2 (streq_neq k' k)) by set_solver. f_equal. apply IH. set_solver.
Qed.

Lemma clone_fold p (l : list bytes) dup :
  wf dup -> NoDup l -> (forall x, x ∈ l -> x ∉ paramOrder dup) ->
  wf (foldl (clone_step p) dup l) /\
  entries (foldl (clone_step p) dup l) = entries dup ++ omap (entry p) l.
Proof.
  intros Hw Hnd. revert dup Hw. induction Hnd as [|a l Ha Hnd IH]; intros dup Hw Hdis.
  - cbn. by rewrite app_nil_r.
  - rewrite omap_entry_cons. cbn [foldl]. unfold clone_step at 2 4, Get.
    destruct (params p !! a) as [v|] eqn:E; [| apply IH; set_solver].
    assert (paramOrder (Add dup a v) = paramOrder dup ++ [a]) as Ho.
    { unfold Add. destruct (params dup !! a) eqn:Ea; [| done].
      exfalso. apply (Hdis a); [set_solver |]. apply Hw. eauto. }
    destruct (IH (Add dup a v)) as [H1 H2].
    + by apply wf_Add.
    + intros x Hx. rewrite Ho. set_solver.
    + split; [done |]. rewrite H2, entries_Add, assoc_set_snoc by
        (done || rewrite entries_keys by done; set_solver).
      by rewrite <- app_assoc.
Qed.

Lemma wf_Clone p : wf p -> wf (Clone p).
Proof.
  intros [Hnd _]. apply clone_fold; [apply wf_NewParams | done |].
  intros x _. apply not_elem_of_nil.
Qed.

Lemma Clone_id p : wf p -> Clone p = p.
Proof.
  intros Hw. apply entries_inj; [by apply wf_Clone | done |].
  destruct Hw as [Hnd _]. apply (clone_fold p _ NewParams); [apply wf_NewParams | done |].
  intros x _. apply not_elem_of_nil.
Qed.

Lemma Params_Equals_spec p q : Params_Equals p q = true <-> params p = params q.
Proof.
  unfold Params_Equals, Length, entries_match. split.
  - destruct (size (params p) =? 0) eqn:Ep; destruct (size (params q) =? 0) eqn:Eq; simpl.
    { intros _. apply Nat.eqb_eq, map_size_empty_iff in Ep.
      apply Nat.eqb_eq, map_size_empty_iff in Eq. congruence. }
    all: destruct (size (params p) =? size (params q)) eqn:E; simpl; try done.
    all: intros H; apply bool_decide_eq_true in H; apply Nat.eqb_eq in E.
    all: apply map_subseteq_size_eq; [| lia]; apply map_subseteq_spec; exact H.
  - intros E. rewrite E, Nat.eqb_refl.
    destruct (size (params q) =? 0); [done |]. simpl.
    apply bool_decide_eq_true. intros k v Hk. done.
Qed.

(** [ToString] prints the entries in order, separated by [sep]. *)
Lemma to_string_loop_entries p sep first (l : list bytes) :
  to_string_loop p sep first l =
  match omap (entry p) l with
  | [] => []
  | es => (if first then [] else [sep]) ++
          Join ((fun kv => param_string kv.1 kv.2) <$> es) [sep]
  end.
Proof.
  revert first. induction l as [|a l IH]; intros first; [done |].
  rewrite omap_entry_cons. cbn [to_string_loop]. unfold Get.
  destruct (params p !! a) as [v|]; [| apply IH]. rewrite IH. f_equal.
  destruct (omap (entry p) l); simpl; [by rewrite app_nil_r | done].
Qed.

Lemma ToString_entries p sep :
  ToString p sep = Join ((fun kv => param_string kv.1 kv.2) <$> entries p) [sep].
Proof.
  unfold ToString, Keys. rewrite to_string_loop_entries. fold (entries p).
  by destruct (entries p).
Qed.

#[export] Hint Resolve wf_NewParams wf_Add wf_Remove wf_Clone : gosip.

End Params.
