(* ===== verification/Headers.v ===== *)
(** * URIs and headers: src/sip/headers.go, src/sip/core.go

    The [Uri] interface has three dynamic types in the sources: [*SipUri],
    [WildcardUri] (what the parser builds) and [*WildcardUri] (what [Clone]
    builds); the type switches of the code tell them apart, so the model does
    too.  A nil interface is [None].  [Header] has a constructor per header
    type; a pointer header is its value. *)

From S2P Require Import Prelude GoStrings Escape Params.
From stdpp Require Import options.
Import Escape Params.

Module Headers.

(** ** Ports and constants: src/sip/core.go *)

Definition MTU : nat := 1500.
Definition DefaultProtocol : bytes := "UDP".

Definition DefaultUdpPort : N := 5060.
Definition DefaultTcpPort : N := 5060.
Definition DefaultTlsPort : N := 5061.
Definition DefaultWsPort : N := 80.
Definition DefaultWssPort : N := 443.

(** A [Port] is a uint16. *)
Definition DefaultPort (protocol : bytes) : N :=
  let p := ToLower protocol in
  if streq p "tls" then DefaultTlsPort
  else if streq p "tcp" then DefaultTcpPort
  else if streq p "udp" then DefaultUdpPort
  else if streq p "ws" then DefaultWsPort
  else if streq p "wss" then DefaultWssPort
  else DefaultTcpPort.

(** [util.Uint16PtrEq] *)
Definition Uint16PtrEq (a b : option N) : bool :=
  match a, b with
  | Some x, Some y => (x =? y)%N
  | None, None => true
  | _, _ => false
  end.

(** ** URIs *)

Record SipUri : Type := mkSipUri {
  FIsEncrypted : bool;
  FUser : MaybeString;
  FPassword : MaybeString;
  FHost : bytes;
  FPort : option N;
  FUriParams : option headerParams;
  FHeaders : option headerParams
}.

Inductive Uri : Type :=
| SipUriPtr (u : SipUri)
| WildcardUri
| WildcardUriPtr.

Definition Uri_IsEncrypted (u : Uri) : bool :=
  match u with SipUriPtr u => FIsEncrypted u | _ => false end.

Definition Uri_UriParams (u : Uri) : option headerParams :=
  match u with SipUriPtr u => FUriParams u | _ => None end.

Definition Uri_Host (u : Uri) : bytes :=
  match u with SipUriPtr u => FHost u | _ => [] end.

Definition Uri_IsWildcard (u : Uri) : bool :=
  match u with SipUriPtr _ => false | _ => true end.

(** [m.(String)] and a non-empty string. *)
Definition nonempty_string (m : MaybeString) : option bytes :=
  match m with
  | Some (c :: s) => Some (c :: s)
  | _ => None
  end.

(** [":%d"] of an optional port. *)
Definition port_string (p : option N) : bytes :=
  match p with Some n => ":" ++ show_N n | None => [] end.

(** The parameters after their introducing character. *)
Definition params_suffix (intro sep : byte) (p : option headerParams) : bytes :=
  match p with
  | Some p => if 0 <? Length p then intro :: ToString p sep else []
  | None => []
  end.

Definition userinfo_string (user password : MaybeString) : bytes :=
  match nonempty_string user with
  | Some u =>
      Escape u EncodeUserPassword ++
      match nonempty_string password with
      | Some p => ":" ++ Escape p EncodeUserPassword
      | None => []
      end ++ "@"
  | None => []
  end.

Definition SipUri_String (u : SipUri) : bytes :=
  (if FIsEncrypted u then "sips:" else "sip:") ++
  userinfo_string (FUser u) (FPassword u) ++
  Escape (FHost u) EncodeHost ++
  port_string (FPort u) ++
  params_suffix ";" ";" (FUriParams u) ++
  params_suffix "?" "&" (FHeaders u).

Definition Uri_String (u : Uri) : bytes :=
  match u with SipUriPtr u => SipUri_String u | _ => "*" end.

Definition SipUri_Clone (u : SipUri) : SipUri :=
  mkSipUri (FIsEncrypted u) (FUser u) (FPassword u) (FHost u) (FPort u)
    (Some (cloneWithNil (FUriParams u))) (Some (cloneWithNil (FHeaders u))).

Definition Uri_Clone (u : Uri) : Uri :=
  match u with
  | SipUriPtr u => SipUriPtr (SipUri_Clone u)
  | WildcardUri | WildcardUriPtr => WildcardUriPtr
  end.

(** The comparison of an optional parameter set in [SipUri.Equals]: a nil
    receiver side is equal to any other side. *)
Definition uri_params_eq (p q : option headerParams) : bool :=
  match p, q with
  | None, None => true
  | None, Some _ => true
  | Some p, Some q => Params_Equals p q
  | Some _, None => false
  end.

Definition maybe_eq (a b : MaybeString) : bool := bool_decide (a = b).

Definition SipUri_Equals (u v : SipUri) : bool :=
  if Bool.eqb (FIsEncrypted u) (FIsEncrypted v) && maybe_eq (FUser u) (FUser v) &&
     maybe_eq (FPassword u) (FPassword v) && streq (FHost u) (FHost v) &&
     Uint16PtrEq (FPort u) (FPort v)
  then uri_params_eq (FUriParams u) (FUriParams v) && uri_params_eq (FHeaders u) (FHeaders v)
  else false.

(** [uri.Equals(other)] of two distinct values: [SipUri] accepts a [*SipUri], the wildcard only the
    value type [WildcardUri]. *)
Definition Uri_Equals (u v : Uri) : bool :=
  match u, v with
  | SipUriPtr u, SipUriPtr v => SipUri_Equals u v
  | SipUriPtr _, _ => false
  | _, WildcardUri => true
  | _, _ => false
  end.

(** ** Header fields *)

Record NameAddr : Type := mkNameAddr {
  na_name : MaybeString;
  na_addr : option Uri;
  na_params : option headerParams
}.

(** A [ContactHeader] with a nil [Address] panics when printed; it has none here. *)
Record ContactHeader : Type := mkContact {
  ct_name : MaybeString;
  ct_addr : Uri;
  ct_params : option headerParams
}.

Record ViaHop : Type := mkViaHop {
  ProtocolName : bytes;
  ProtocolVersion : bytes;
  Transport : bytes;
  Host : bytes;
  Port : option N;
  vh_params : option headerParams
}.

(** A [RequestMethod] is a string. *)
Abbreviation RequestMethod := bytes.

Definition INVITE : RequestMethod := "INVITE".
Definition ACK : RequestMethod := "ACK".
Definition CANCEL : RequestMethod := "CANCEL".

Inductive Header : Type :=
| HGeneric (name contents : bytes)
| HTo (a : NameAddr)
| HFrom (a : NameAddr)
| HContact (c : ContactHeader)
| HCallID (id : bytes)
| HCSeq (SeqNo : N) (MethodName : RequestMethod)
| HMaxForwards (n : N)
| HExpires (n : N)
| HContentLength (n : N)
| HVia (hops : list ViaHop)
| HRequire (options : list bytes)
| HSupported (options : list bytes)
| HProxyRequire (options : list bytes)
| HUnsupported (options : list bytes)
| HUserAgent (s : bytes)
| HServer (s : bytes)
| HAllow (methods : list RequestMethod)
| HContentType (s : bytes)
| HAuthenticate (s : bytes)
| HAccept (s : bytes)
| HRoute (addresses : list Uri)
| HRecordRoute (addresses : list Uri)
| HEvent (s : bytes).

Definition Header_Name (h : Header) : bytes :=
  match h with
  | HGeneric name _ => name
  | HTo _ => "To"
  | HFrom _ => "From"
  | HContact _ => "Contact"
  | HCallID _ => "Call-ID"
  | HCSeq _ _ => "CSeq"
  | HMaxForwards _ => "Max-Forwards"
  | HExpires _ => "Expires"
  | HContentLength _ => "Content-Length"
  | HVia _ => "Via"
  | HRequire _ => "Require"
  | HSupported _ => "Supported"
  | HProxyRequire _ => "Proxy-Require"
  | HUnsupported _ => "Unsupported"
  | HUserAgent _ => "User-Agent"
  | HServer _ => "Server"
  | HAllow _ => "Allow"
  | HContentType _ => "Content-Type"
  | HAuthenticate _ => "WWW-Authenticate"
  | HAccept _ => "Accept"
  | HRoute _ => "Route"
  | HRecordRoute _ => "Record-Route"
  | HEvent _ => "Event"
  end.

(** The quoted display name and the space after it. *)
Definition display_string (m : MaybeString) : bytes :=
  match nonempty_string m with
  | Some s => [DQUOTE] ++ s ++ [DQUOTE] ++ " "
  | None => []
  end.

(** [%s] of a [Uri]; fmt prints a nil interface as [%!s(<nil>)]. *)
Definition fmt_uri (u : option Uri) : bytes :=
  match u with Some u => Uri_String u | None => "%!s(<nil>)" end.

Definition NameAddr_Value (a : NameAddr) : bytes :=
  display_string (na_name a) ++ "<" ++ fmt_uri (na_addr a) ++ ">" ++
  params_suffix ";" ";" (na_params a).

Definition Contact_Value (c : ContactHeader) : bytes :=
  display_string (ct_name c) ++
  match ct_addr c with
  | WildcardUriPtr => "*"
  | u => "<" ++ Uri_String u ++ ">"
  end ++
  params_suffix ";" ";" (ct_params c).

Definition SentBy (hop : ViaHop) : bytes := Host hop ++ port_string (Port hop).

Definition ViaHop_String (hop : ViaHop) : bytes :=
  ProtocolName hop ++ "/" ++ ProtocolVersion hop ++ "/" ++ Transport hop ++ " " ++
  Host hop ++ port_string (Port hop) ++ params_suffix ";" ";" (vh_params hop).

Definition Route_Value (addresses : list Uri) : bytes :=
  Join ((fun u => "<" ++ Uri_String u ++ ">") <$> addresses) ", ".

Definition Header_Value (h : Header) : bytes :=
  match h with
  | HGeneric _ contents => contents
  | HTo a | HFrom a => NameAddr_Value a
  | HContact c => Contact_Value c
  | HCSeq n m => show_N n ++ " " ++ m
  | HMaxForwards n | HExpires n | HContentLength n => show_N n
  | HVia hops => Join (ViaHop_String <$> hops) ", "
  | HRequire l | HSupported l | HProxyRequire l | HUnsupported l | HAllow l => Join l ", "
  | HCallID s | HUserAgent s | HServer s | HContentType s | HAuthenticate s
  | HAccept s | HEvent s => s
  | HRoute l | HRecordRoute l => Route_Value l
  end.

Definition Header_String (h : Header) : bytes := Header_Name h ++ ": " ++ Header_Value h.

Definition NameAddr_Clone (a : NameAddr) : NameAddr :=
  mkNameAddr (na_name a) (Uri_Clone <$> na_addr a) (Clone <$> na_params a).

Definition Contact_Clone (c : ContactHeader) : ContactHeader :=
  mkContact (ct_name c) (Uri_Clone (ct_addr c)) (Clone <$> ct_params c).

Definition ViaHop_Clone (h : ViaHop) : ViaHop :=
  mkViaHop (ProtocolName h) (ProtocolVersion h) (Transport h) (Host h) (Port h)
    (Clone <$> vh_params h).

(** The header types of strings and numbers return the receiver. *)
Definition Header_Clone (h : Header) : Header :=
  match h with
  | HTo a => HTo (NameAddr_Clone a)
  | HFrom a => HFrom (NameAddr_Clone a)
  | HContact c => HContact (Contact_Clone c)
  | HVia hops => HVia (ViaHop_Clone <$> hops)
  | HRoute l => HRoute (Uri_Clone <$> l)
  | HRecordRoute l => HRecordRoute (Uri_Clone <$> l)
  | h => h
  end.

(** *** Equality *)

Definition opt_params_eq (p q : option headerParams) : bool :=
  match p, q with
  | None, None => true
  | Some p, Some q => Params_Equals p q
  | _, _ => false
  end.

(** [a == b || a.Equals(b)] on two interface values; the first test is true of
    two [WildcardUri] values. *)
Definition opt_uri_eq (u v : option Uri) : bool :=
  match u, v with
  | None, None => true
  | Some u, Some v => Uri_Equals u v
  | _, _ => false
  end.

Definition NameAddr_Equals (a b : NameAddr) : bool :=
  maybe_eq (na_name a) (na_name b) && opt_uri_eq (na_addr a) (na_addr b) &&
  opt_params_eq (na_params a) (na_params b).

Definition Contact_Equals (a b : ContactHeader) : bool :=
  maybe_eq (ct_name a) (ct_name b) && Uri_Equals (ct_addr a) (ct_addr b) &&
  opt_params_eq (ct_params a) (ct_params b).

Definition ViaHop_Equals (a b : ViaHop) : bool :=
  streq (ProtocolName a) (ProtocolName b) && streq (ProtocolVersion a) (ProtocolVersion b) &&
  streq (Transport a) (Transport b) && streq (Host a) (Host b) &&
  Uint16PtrEq (Port a) (Port b) && opt_params_eq (vh_params a) (vh_params b).

Fixpoint hops_equal (a b : list ViaHop) : bool :=
  match a, b with
  | [], [] => true
  | x :: a, y :: b => ViaHop_Equals x y && hops_equal a b
  | _, _ => false
  end.

(** The loop of [RouteHeader.Equals]: the lengths are not compared, and
    [h.Addresses[i]] panics when the other side is shorter. *)
Fixpoint routes_equal (a b : list Uri) : res bool :=
  match a, b with
  | [], _ => Ok true
  | u :: a, v :: b => if Uri_Equals u v then routes_equal a b else Ok false
  | _ :: _, [] => Panic
  end.

(** ** Addresses: src/sip/core.go *)

Definition Address_String (a : NameAddr) : bytes := NameAddr_Value a.

Definition Address_Clone (a : NameAddr) : NameAddr := NameAddr_Clone a.

(** [NewAddressFromFromHeader], [NewAddressFromToHeader], [AsToHeader],
    [AsFromHeader]: the address part is cloned. *)
Definition NewAddressFromHeader (a : NameAddr) : NameAddr := NameAddr_Clone a.

Definition NewAddressFromContactHeader (c : ContactHeader) : NameAddr :=
  mkNameAddr (ct_name c) (Some (Uri_Clone (ct_addr c))) (Clone <$> ct_params c).

(** ** Well-formed parameter sets everywhere *)

Definition wf_params (p : option headerParams) : Prop :=
  match p with Some p => wf p | None => True end.

Definition wf_uri (u : Uri) : Prop :=
  match u with
  | SipUriPtr u => wf_params (FUriParams u) /\ wf_params (FHeaders u)
  | _ => True
  end.

Definition wf_header (h : Header) : Prop :=
  match h with
  | HTo a | HFrom a =>
      wf_params (na_params a) /\ (forall u, na_addr a = Some u -> wf_uri u)
  | HContact c => wf_params (ct_params c) /\ wf_uri (ct_addr c)
  | HVia hops => Forall (fun hop => wf_params (vh_params hop)) hops
  | HRoute l | HRecordRoute l => Forall wf_uri l
  | _ => True
  end.

(** The header holds no [WildcardUri] value in a [Contact]. *)
Definition no_wildcard_value (h : Header) : Prop :=
  match h with HContact c => ct_addr c <> WildcardUri | _ => True end.

(** ** Lemmas *)

Lemma params_suffix_Clone i s p :
  wf_params p -> params_suffix i s (Clone <$> p) = params_suffix i s p.
Proof. destruct p as [p|]; [| done]. intros H. simpl. by rewrite Clone_id. Qed.

Lemma params_suffix_cloneWithNil i s p :
  wf_params p -> params_suffix i s (Some (cloneWithNil p)) = params_suffix i s p.
Proof. destruct p as [p|]; [| done]. intros H. simpl. by rewrite Clone_id. Qed.

Lemma Uri_Clone_String u : wf_uri u -> Uri_String (Uri_Clone u) = Uri_String u.
Proof.
  destruct u as [u| |]; try done. intros [H1 H2]. simpl. unfold SipUri_String.
  cbn [FIsEncrypted FUser FPassword FHost FPort FUriParams FHeaders SipUri_Clone].
  by rewrite !params_suffix_cloneWithNil.
Qed.

Lemma Header_Clone_Name h : Header_Name (Header_Clone h) = Header_Name h.
Proof. by destruct h. Qed.

Lemma NameAddr_Clone_Value a :
  wf_params (na_params a) -> (forall u, na_addr a = Some u -> wf_uri u) ->
  NameAddr_Value (NameAddr_Clone a) = NameAddr_Value a.
Proof.
  intros Hp Hu. unfold NameAddr_Value. cbn [na_name na_addr na_params NameAddr_Clone].
  rewrite params_suffix_Clone by done. destruct (na_addr a) as [u|]; [| done].
  simpl. by rewrite Uri_Clone_String by auto.
Qed.

Lemma ViaHop_Clone_id hop : wf_params (vh_params hop) -> ViaHop_Clone hop = hop.
Proof.
  destruct hop as [n v t h p ps]. simpl. intros H. unfold ViaHop_Clone. simpl. f_equal.
  destruct ps as [ps|]; [| done]. simpl. by rewrite Clone_id.
Qed.

Lemma fmap_id_Forall {A} (f : A -> A) (P : A -> Prop) (l : list A) :
  (forall x, P x -> f x = x) -> Forall P l -> f <$> l = l.
Proof. intros H. induction 1; simpl; [done |]. f_equal; [by apply H | done]. Qed.

Lemma Route_Clone_Value l : Forall wf_uri l -> Route_Value (Uri_Clone <$> l) = Route_Value l.
Proof.
  intros H. unfold Route_Value. f_equal. rewrite <- list_fmap_compose.
  apply list_fmap_ext. intros i u Hu. simpl.
  rewrite Uri_Clone_String; [done |]. by eapply Forall_lookup_1.
Qed.

Lemma Header_Clone_Value h :
  wf_header h -> no_wildcard_value h -> Header_Value (Header_Clone h) = Header_Value h.
Proof.
  destruct h; simpl; intros Hw Hn; try done;
    try (by apply NameAddr_Clone_Value; apply Hw); try (by apply Route_Clone_Value).
  - destruct Hw as [Hp Hu]. unfold Contact_Value. simpl. rewrite params_suffix_Clone by done.
    destruct (ct_addr c) as [u| |] eqn:E; simpl; try done.
    pose proof (Uri_Clone_String (SipUriPtr u) Hu) as Hs. simpl in Hs. by rewrite Hs.
  - by rewrite (fmap_id_Forall _ _ _ ViaHop_Clone_id).
Qed.

(** *** Equality *)

Lemma Uint16PtrEq_refl a : Uint16PtrEq a a = true.
Proof. destruct a; simpl; [apply N.eqb_refl | done]. Qed.

Lemma maybe_eq_refl a : maybe_eq a a = true.
Proof. by apply bool_decide_eq_true. Qed.

Lemma Params_Equals_refl p : Params_Equals p p = true.
Proof. by apply Params_Equals_spec. Qed.

Lemma SipUri_Equals_Clone u :
  wf_uri (SipUriPtr u) -> SipUri_Equals u (SipUri_Clone u) = true.
Proof.
  intros [H1 H2]. unfold SipUri_Equals. simpl.
  rewrite eqb_reflx, !maybe_eq_refl, streq_refl, Uint16PtrEq_refl. simpl.
  destruct (FUriParams u), (FHeaders u); simpl in *; rewrite ?Clone_id by done;
    by rewrite ?Params_Equals_refl.
Qed.

End Headers.
