(* ===== verification/HeaderStore.v ===== *)
(** * The header store of a message: [headers] of src/sip/message.go

    Headers are kept in a map from lower-cased name to the headers of that
    name, with the order of the names.  [Headers] is the abstract view, the
    list the message prints.  The methods take the store's lock for their whole
    body, so each is one atomic step on the pair. *)

From S2P Require Import Prelude GoStrings Params Headers.
From stdpp Require Import options.
Import Params Headers.

Module HeaderStore.

Record headers : Type := mkHeaders {
  hmap : gmap (list ascii) (list Header);
  headerOrder : list bytes
}.

Definition empty_headers : headers := mkHeaders ∅ [].

Definition key_of (h : Header) : bytes := ToLower (Header_Name h).

Definition AppendHeader (hs : headers) (header : Header) : headers :=
  let name := key_of header in
  match hmap hs !! name with
  | Some l => mkHeaders (<[name := l ++ [header]]> (hmap hs)) (headerOrder hs)
  | None => mkHeaders (<[name := [header]]> (hmap hs)) (headerOrder hs ++ [name])
  end.

Definition newHeaders (hdrs : list Header) : headers := foldl AppendHeader empty_headers hdrs.

Definition PrependHeader (hs : headers) (header : Header) : headers :=
  let name := key_of header in
  match hmap hs !! name with
  | Some l => mkHeaders (<[name := header :: l]> (hmap hs)) (headerOrder hs)
  | None => mkHeaders (<[name := [header]]> (hmap hs)) (name :: headerOrder hs)
  end.

(** The index the search loop leaves in its variable: the last match. *)
Fixpoint last_pos (name : bytes) (l : list bytes) : option nat :=
  match l with
  | [] => None
  | n :: l' =>
      match last_pos name l' with
      | Some i => Some (S i)
      | None => if streq n name then Some 0 else None
      end
  end.

(** [l[i:j]] of a slice of names, in range. *)
Definition sub (l : list bytes) (i j : nat) : list bytes := take (j - i) (drop i l).

(** The new order when both names occur; [after1] is [afterIdx + 1]. *)
Definition move_by_index (order : list bytes) (after1 headerIdx : nat) (headerName : bytes) :=
  if after1 <=? headerIdx then
    take after1 order ++ [headerName] ++
    sub order after1 headerIdx ++ drop (headerIdx + 1) order
  else
    take headerIdx order ++ sub order (headerIdx + 1) after1 ++
    [headerName] ++ drop after1 order.

Definition PrependHeaderAfter (hs : headers) (header : Header) (afterName : bytes) : headers :=
  let headerName := key_of header in
  let afterName := ToLower afterName in
  match hmap hs !! afterName with
  | Some _ =>
      let order := headerOrder hs in
      (* afterIdx + 1, so that the initial -1 is 0 *)
      let after1 := match last_pos afterName order with Some i => S i | None => 0 end in
      match last_pos headerName order with
      | None =>
          mkHeaders (<[headerName := [header]]> (hmap hs))
            (take after1 order ++ [headerName] ++ drop after1 order)
      | Some headerIdx =>
          let l := match hmap hs !! headerName with Some l => l | None => [] end in
          mkHeaders (<[headerName := header :: l]> (hmap hs))
            (move_by_index order after1 headerIdx headerName)
      end
  | None => PrependHeader hs header
  end.

Definition ReplaceHeaders (hs : headers) (name : bytes) (l : list Header) : headers :=
  let name := ToLower name in
  match hmap hs !! name with
  | Some _ => mkHeaders (<[name := l]> (hmap hs)) (headerOrder hs)
  | None => hs
  end.

Definition lookup_list (hs : headers) (name : bytes) : list Header :=
  match hmap hs !! name with Some l => l | None => [] end.

Definition Headers_ (hs : headers) : list Header :=
  flat_map (lookup_list hs) (headerOrder hs).

Definition GetHeaders (hs : headers) (name : bytes) : list Header :=
  lookup_list hs (ToLower name).

Definition RemoveHeader (hs : headers) (name : bytes) : headers :=
  let name := ToLower name in
  mkHeaders (delete name (hmap hs)) (remove_first name (headerOrder hs)).

Definition cloneHeaders (hs : headers) : list Header := Header_Clone <$> Headers_ hs.

(** Every header is followed by a line end: the index test is always true. *)
Definition Headers_String (hs : headers) : bytes :=
  flat_map (fun h => Header_String h ++ CRLF) (Headers_ hs).

(** *** Typed accessors: the first header of the name, if it has the type. *)

Definition CallID (hs : headers) : option bytes :=
  match GetHeaders hs "Call-ID" with HCallID id :: _ => Some id | _ => None end.

Definition Via (hs : headers) : option (list ViaHop) :=
  match GetHeaders hs "Via" with HVia hops :: _ => Some hops | _ => None end.

Definition ViaHop_ (hs : headers) : option ViaHop :=
  match Via hs with Some (hop :: _) => Some hop | _ => None end.

Definition From_ (hs : headers) : option NameAddr :=
  match GetHeaders hs "From" with HFrom a :: _ => Some a | _ => None end.

Definition To (hs : headers) : option NameAddr :=
  match GetHeaders hs "To" with HTo a :: _ => Some a | _ => None end.

Definition CSeq (hs : headers) : option (N * RequestMethod) :=
  match GetHeaders hs "CSeq" with HCSeq n m :: _ => Some (n, m) | _ => None end.

Definition ContentLength (hs : headers) : option N :=
  match GetHeaders hs "Content-Length" with HContentLength n :: _ => Some n | _ => None end.

Definition ContentType (hs : headers) : option bytes :=
  match GetHeaders hs "Content-Type" with HContentType s :: _ => Some s | _ => None end.

Definition Contact (hs : headers) : option ContactHeader :=
  match GetHeaders hs "Contact" with HContact c :: _ => Some c | _ => None end.

(** A write through the pointer an accessor returned: the first header of the
    name is changed in place. *)
Definition update_first (hs : headers) (name : bytes) (f : Header -> Header) : headers :=
  match hmap hs !! ToLower name with
  | Some (h :: l) => mkHeaders (<[ToLower name := f h :: l]> (hmap hs)) (headerOrder hs)
  | _ => hs
  end.

Definition update_hop (f : ViaHop -> ViaHop) (h : Header) : Header :=
  match h with
  | HVia (hop :: hops) => HVia (f hop :: hops)
  | h => h
  end.

Definition set_cseq_method (m : RequestMethod) (h : Header) : Header :=
  match h with HCSeq n _ => HCSeq n m | h => h end.

(** ** The invariant *)

(** The order lists every stored name once, and a header is stored under its
    own lower-cased name. *)
Definition wf_store (hs : headers) : Prop :=
  NoDup (headerOrder hs) /\
  (forall n, n ∈ headerOrder hs <-> is_Some (hmap hs !! n)) /\
  map_Forall (fun n l => Forall (fun h => key_of h = n) l) (hmap hs).

Lemma wf_empty : wf_store empty_headers.
Proof.
  repeat split; simpl.
  - constructor.
  - by intros ?%elem_of_nil.
  - rewrite lookup_empty. by intros [? [=]].
  - apply map_Forall_empty.
Qed.

(** Storing under a name that is present keeps the order valid. *)
Lemma wf_insert_old hs n l :
  wf_store hs -> is_Some (hmap hs !! n) -> Forall (fun h => key_of h = n) l ->
  wf_store (mkHeaders (<[n := l]> (hmap hs)) (headerOrder hs)).
Proof.
  intros (Hnd & Hd & Hk) Hs Hl. repeat split; simpl; [done | | |].
  - intros Hin. rewrite lookup_insert. case_decide; [done | by apply Hd].
  - rewrite lookup_insert. case_decide; [subst; intros _; by apply Hd | by apply Hd].
  - by apply map_Forall_insert_2.
Qed.

(** Storing under a new name, with the order a permutation of the old one and it. *)
Lemma wf_insert_new hs n l (order : list bytes) :
  wf_store hs -> hmap hs !! n = None -> Forall (fun h => key_of h = n) l ->
  order ≡ₚ n :: headerOrder hs ->
  wf_store (mkHeaders (<[n := l]> (hmap hs)) order).
Proof.
  intros (Hnd & Hd & Hk) Hs Hl Hp. repeat split; simpl.
  - rewrite Hp. constructor; [| done]. rewrite Hd, Hs. by intros [? [=]].
  - rewrite Hp, elem_of_cons, lookup_insert. case_decide; [done |].
    intros [->|?]; [done | by apply Hd].
  - rewrite Hp, elem_of_cons, lookup_insert. case_decide; [by left |].
    intros ?. right. by apply Hd.
  - by apply map_Forall_insert_2.
Qed.

Lemma wf_store_perm hs (order : list bytes) :
  wf_store hs -> order ≡ₚ headerOrder hs -> wf_store (mkHeaders (hmap hs) order).
Proof.
  intros (Hnd & Hd & Hk) Hp. repeat split; simpl; [by rewrite Hp | | | done];
    rewrite Hp; apply Hd.
Qed.

Lemma wf_keys hs n l : wf_store hs -> hmap hs !! n = Some l -> Forall (fun h => key_of h = n) l.
Proof. intros (_ & _ & Hk) H. by apply Hk in H. Qed.

Lemma wf_AppendHeader hs h : wf_store hs -> wf_store (AppendHeader hs h).
Proof.
  intros Hw. unfold AppendHeader. destruct (hmap hs !! key_of h) as [l|] eqn:E.
  - apply wf_insert_old; [done | eauto |]. apply Forall_app.
    split; [by eapply wf_keys | by constructor].
  - apply wf_insert_new; [done | done | by constructor |]. by rewrite Permutation_app_comm.
Qed.

Lemma wf_PrependHeader hs h : wf_store hs -> wf_store (PrependHeader hs h).
Proof.
  intros Hw. unfold PrependHeader. destruct (hmap hs !! key_of h) as [l|] eqn:E.
  - apply wf_insert_old; [done | eauto |]. constructor; [done | by eapply wf_keys].
  - apply wf_insert_new; [done | done | by constructor | done].
Qed.

Lemma wf_fold_Append l hs : wf_store hs -> wf_store (foldl AppendHeader hs l).
Proof.
  revert hs. induction l as [|h l IH]; intros hs H; simpl; [done |].
  by apply IH, wf_AppendHeader.
Qed.

Lemma wf_newHeaders l : wf_store (newHeaders l).
Proof. apply wf_fold_Append, wf_empty. Qed.

Lemma wf_ReplaceHeaders hs n l :
  Forall (fun h => key_of h = ToLower n) l -> wf_store hs -> wf_store (ReplaceHeaders hs n l).
Proof.
  intros Hl Hw. unfold ReplaceHeaders. destruct (hmap hs !! _) eqn:E; [| done].
  apply wf_insert_old; eauto.
Qed.

Lemma wf_RemoveHeader hs n : wf_store hs -> wf_store (RemoveHeader hs n).
Proof.
  intros (Hnd & Hd & Hk). unfold RemoveHeader. repeat split; simpl.
  - by apply remove_first_NoDup.
  - rewrite remove_first_elem, lookup_delete by done. intros [? ?].
    rewrite decide_False by done. by apply Hd.
  - rewrite remove_first_elem, lookup_delete by done. case_decide; [by intros [? [=]] |].
    intros ?. split; [by apply Hd | done].
  - by apply map_Forall_delete.
Qed.

(** *** Positions in the order *)

Lemma last_pos_None n l : last_pos n l = None <-> n ∉ l.
Proof.
  induction l as [|a l IH]; simpl.
  - split; [intros _; apply not_elem_of_nil | done].
  - destruct (last_pos n l) eqn:E.
    + split; [done |]. intros H. destruct IH as [_ IH]. discriminate IH. set_solver.
    + destruct (streq a n) eqn:Ea; simp_bool; set_solver.
Qed.

Lemma last_pos_Some n l i : last_pos n l = Some i -> l = take i l ++ n :: drop (S i) l.
Proof.
  revert i. induction l as [|a l IH]; intros i H; simpl in *; [done |].
  destruct (last_pos n l) as [j|] eqn:E.
  - simplify_eq. simpl. f_equal. by apply IH.
  - destruct (streq a n) eqn:Ea; simp_bool; [| done]. by simplify_eq.
Qed.

Lemma last_pos_lt n l i : last_pos n l = Some i -> i < length l.
Proof.
  intros H%last_pos_Some. apply (f_equal length) in H. rewrite length_app in H. simpl in H.
  rewrite length_take, length_drop in H. lia.
Qed.

(** The positions of two names split the order in three. *)
Lemma last_pos_app n (l1 l2 : list bytes) :
  n ∉ l2 -> last_pos n (l1 ++ n :: l2) = Some (length l1).
Proof.
  intros H. induction l1 as [|a l1 IH]; simpl.
  - apply last_pos_None in H as ->. by rewrite streq_refl.
  - by rewrite IH.
Qed.

(** Moving [name] right after [after] in a list without duplicates. *)
Definition moved_after (after name : bytes) (old new : list bytes) : Prop :=
  exists l1 l2,
    filter (fun n => n <> name) old = l1 ++ after :: l2 /\
    new = l1 ++ after :: name :: l2.

Lemma filter_neq_absent name (l : list bytes) : name ∉ l -> filter (fun n => n <> name) l = l.
Proof. intros H. apply filter_all, Forall_forall. intros x Hx ->. done. Qed.

Lemma take_drop_at {A} (l1 l2 : list A) x :
  take (S (length l1)) (l1 ++ x :: l2) = l1 ++ [x] /\
  drop (S (length l1)) (l1 ++ x :: l2) = l2.
Proof.
  replace (S (length l1)) with (length (l1 ++ [x])) by (rewrite length_app; simpl; lia).
  replace (l1 ++ x :: l2) with ((l1 ++ [x]) ++ l2) by (by rewrite <- app_assoc).
  split; [apply take_app_length | apply drop_app_length].
Qed.

Section after.

Variables (hs : headers) (h : Header) (afterName : bytes).
Hypothesis Hwf : wf_store hs.
Hypothesis Hafter : is_Some (hmap hs !! ToLower afterName).

Lemma after_split : exists l1 l2,
  headerOrder hs = l1 ++ ToLower afterName :: l2 /\
  ToLower afterName ∉ l1 /\ ToLower afterName ∉ l2.
Proof using Hwf Hafter.
  destruct Hwf as (Hnd & Hd & _).
  apply Hd, list_elem_of_split in Hafter as (l1 & l2 & E). exists l1, l2.
  rewrite E in Hnd. apply NoDup_app in Hnd as (_ & H1 & H2). inv H2.
  repeat split; try done. intros Hin. apply (H1 _ Hin). set_solver.
Qed.

(** The name is new: it is inserted after [afterName]. *)
Lemma after_new_order :
  hmap hs !! key_of h = None ->
  headerOrder (PrependHeaderAfter hs h afterName) ≡ₚ key_of h :: headerOrder hs /\
  moved_after (ToLower afterName) (key_of h) (headerOrder hs)
    (headerOrder (PrependHeaderAfter hs h afterName)).
Proof using Hwf Hafter.
  intros Hnone. destruct after_split as (l1 & l2 & E & Ha1 & Ha2).
  unfold PrependHeaderAfter. destruct Hafter as [la ->].
  assert (key_of h ∉ headerOrder hs) as Hk.
  { destruct Hwf as (_ & Hd & _). rewrite Hd, Hnone. by intros [? [=]]. }
  rewrite (proj2 (last_pos_None _ _) Hk), E, last_pos_app by done. simpl.
  destruct (take_drop_at l1 l2 (ToLower afterName)) as [-> ->]. split.
  - rewrite <- app_assoc. simpl. solve_Permutation.
  - exists l1, l2. rewrite <- app_assoc. split; [| done].
    apply filter_neq_absent. by rewrite <- E.
Qed.

End after.

Lemma sub_mid (x y z : list bytes) i j :
  i = length x -> j = length x + length y -> sub (x ++ y ++ z) i j = y.
Proof.
  intros -> ->. unfold sub. rewrite drop_app_length.
  replace (length x + length y - length x) with (length y) by lia. apply take_app_length.
Qed.

(** Two names of a list without duplicates, in one order or the other. *)
Lemma two_names (l : list bytes) a n :
  NoDup l -> a ∈ l -> n ∈ l -> a <> n -> exists x y z,
    l = x ++ a :: y ++ n :: z \/ l = x ++ n :: y ++ a :: z.
Proof.
  intros Hnd Ha Hn Hne. apply list_elem_of_split in Ha as (l1 & l2 & ->).
  rewrite elem_of_app, elem_of_cons in Hn. destruct Hn as [Hn|[->|Hn]]; [| done |].
  - apply list_elem_of_split in Hn as (x & y & ->). exists x, y, l2. right.
    by rewrite <- app_assoc.
  - apply list_elem_of_split in Hn as (y & z & ->). exists l1, y, z. by left.
Qed.

Lemma NoDup_mid (x z : list bytes) n : NoDup (x ++ n :: z) -> n ∉ x /\ n ∉ z.
Proof.
  intros H. apply NoDup_app in H as (_ & H1 & H2). inv H2. split; [| done].
  intros Hin. apply (H1 _ Hin). set_solver.
Qed.

Lemma drop_mid (x y : list bytes) i : i = length x -> drop i (x ++ y) = y.
Proof. intros ->. apply drop_app_length. Qed.

Lemma take_mid (x y : list bytes) i : i = length x -> take i (x ++ y) = x.
Proof. intros ->. apply take_app_length. Qed.

(** The name stands after [a]: it moves left. *)
Lemma move_left (x y z : list bytes) a n :
  move_by_index (x ++ a :: y ++ n :: z) (S (length x)) (length x + S (length y)) n
  = x ++ a :: n :: y ++ z.
Proof.
  unfold move_by_index. rewrite (proj2 (Nat.leb_le _ _)) by lia.
  assert (x ++ a :: y ++ n :: z = (x ++ [a]) ++ y ++ n :: z) as -> by (by rewrite <- app_assoc).
  rewrite take_mid by (rewrite length_app; simpl; lia).
  rewrite sub_mid by (rewrite length_app; simpl; lia).
  assert ((x ++ [a]) ++ y ++ n :: z = (x ++ a :: y ++ [n]) ++ z) as ->
    by (rewrite <- !app_assoc; simpl; by rewrite <- app_assoc).
  rewrite drop_mid; [by rewrite <- !app_assoc |]. rewrite length_app. simpl.
  rewrite length_app. simpl. lia.
Qed.

(** The name stands before [a]: it moves right. *)
Lemma move_right (x y z : list bytes) a n :
  move_by_index (x ++ n :: y ++ a :: z) (S (length x + S (length y))) (length x) n
  = (x ++ y) ++ a :: n :: z.
Proof.
  unfold move_by_index. rewrite (proj2 (Nat.leb_gt _ _)) by lia.
  rewrite take_mid by done.
  assert (x ++ n :: y ++ a :: z = (x ++ [n]) ++ (y ++ [a]) ++ z) as ->
    by (by rewrite <- !app_assoc).
  rewrite sub_mid by (rewrite ?length_app; simpl; lia).
  rewrite (app_assoc (x ++ [n])), drop_mid; [by rewrite <- !app_assoc |].
  rewrite !length_app. simpl. lia.
Qed.

(** The order [PrependHeaderAfter] computes by index, when both names occur. *)
Lemma after_old_order hs h afterName l :
  wf_store hs -> is_Some (hmap hs !! ToLower afterName) ->
  hmap hs !! key_of h = Some l -> key_of h <> ToLower afterName ->
  headerOrder (PrependHeaderAfter hs h afterName) ≡ₚ headerOrder hs /\
  moved_after (ToLower afterName) (key_of h) (headerOrder hs)
    (headerOrder (PrependHeaderAfter hs h afterName)).
Proof.
  intros (Hnd & Hd & _) Ha Hn Hne. unfold PrependHeaderAfter.
  set (a := ToLower afterName) in *. set (n := key_of h) in *.
  pose proof (proj2 (Hd a) Ha) as Hain. pose proof (proj2 (Hd n) ltac:(eauto)) as Hnin.
  destruct Ha as [la ->]. clear Hd.
  destruct (two_names _ a n Hnd Hain Hnin ltac:(done)) as (x & y & z & [E|E]);
    rewrite E in *; clear Hain Hnin E; pose proof (NoDup_mid _ _ _ Hnd) as [Hx Hy].
  - pose proof (NoDup_mid (x ++ a :: y) z n) as Hm.
    pose proof (last_pos_app n (x ++ a :: y) z) as Hp.
    rewrite <- app_assoc, length_app in *. simpl in *. destruct (Hm Hnd) as [Hnx Hnz].
    rewrite Hp, (last_pos_app a) by done. cbn [headerOrder]. rewrite move_left.
    split; [solve_Permutation |]. exists x, (y ++ z). split; [| done].
    rewrite !filter_app, filter_cons_True by done.
    rewrite filter_app, filter_cons_False by naive_solver.
    rewrite !filter_neq_absent; [done | set_solver..].
  - pose proof (NoDup_mid (x ++ n :: y) z a) as Hm.
    pose proof (last_pos_app a (x ++ n :: y) z) as Hp.
    rewrite <- app_assoc, length_app in *. simpl in *. destruct (Hm Hnd) as [Hax Haz].
    rewrite Hp, (last_pos_app n) by done. cbn [headerOrder]. rewrite move_right.
    split; [rewrite <- !app_assoc; simpl; solve_Permutation |]. exists (x ++ y), z.
    split; [| done]. rewrite !filter_app, filter_cons_False by naive_solver.
    rewrite filter_app, filter_cons_True by done. rewrite <- app_assoc.
    rewrite !filter_neq_absent; [done | set_solver..].
Qed.

Lemma wf_PrependHeaderAfter hs h a : wf_store hs -> wf_store (PrependHeaderAfter hs h a).
Proof.
  intros Hw. destruct (hmap hs !! ToLower a) as [la|] eqn:Ea.
  2:{ unfold PrependHeaderAfter. rewrite Ea. by apply wf_PrependHeader. }
  assert (is_Some (hmap hs !! ToLower a)) as Hs by eauto.
  destruct (hmap hs !! key_of h) as [l|] eqn:E.
  - assert (headerOrder (PrependHeaderAfter hs h a) ≡ₚ headerOrder hs /\
            hmap (PrependHeaderAfter hs h a) = <[key_of h := h :: l]> (hmap hs)) as [Hp Hm].
    { destruct (decide (key_of h = ToLower a)) as [Heq|Hne].
      - unfold PrependHeaderAfter. rewrite Ea, E, <- Heq.
        destruct (last_pos (key_of h) (headerOrder hs)) as [i|] eqn:Ei.
        2:{ apply last_pos_None in Ei. destruct Hw as (_ & Hd & _). rewrite Hd, E in Ei.
            naive_solver. }
        split; [| done]. cbn [headerOrder]. unfold move_by_index, sub.
        rewrite (proj2 (Nat.leb_gt _ _)) by lia.
        replace (S i - (i + 1)) with 0 by lia. simpl.
        apply last_pos_Some in Ei. by rewrite <- Ei.
      - split; [by eapply after_old_order |]. unfold PrependHeaderAfter. rewrite Ea, E.
        by destruct (last_pos (key_of h) (headerOrder hs)) eqn:Ei; [|
          apply last_pos_None in Ei; destruct Hw as (_ & Hd & _); rewrite Hd, E in Ei; naive_solver]. }
    destruct (PrependHeaderAfter hs h a) as [m o]. simpl in *. subst m.
    apply (wf_store_perm (mkHeaders _ (headerOrder hs))); [| done].
    apply wf_insert_old; [done | eauto |]. constructor; [done | by eapply wf_keys].
  - destruct (after_new_order hs h a Hw Hs E) as [Hp _].
    assert (hmap (PrependHeaderAfter hs h a) = <[key_of h := [h]]> (hmap hs)) as Hm.
    { unfold PrependHeaderAfter. rewrite Ea.
      destruct (last_pos (key_of h) (headerOrder hs)) eqn:Ei; [| done].
      cbn [hmap]. by rewrite E. }
    destruct (PrependHeaderAfter hs h a) as [m o]. simpl in *. subst m.
    apply wf_insert_new; [done | done | by constructor | done].
Qed.

(** ** What the operations do to the lists *)

Lemma lookup_list_insert m o n l k :
  lookup_list (mkHeaders (<[n := l]> m) o) k = if decide (n = k) then l else lookup_list (mkHeaders m o) k.
Proof. unfold lookup_list. simpl. rewrite lookup_insert. by case_decide. Qed.

Lemma lookup_list_Append hs h n :
  lookup_list (AppendHeader hs h) n =
  if decide (key_of h = n) then lookup_list hs n ++ [h] else lookup_list hs n.
Proof.
  unfold AppendHeader. destruct (hmap hs !! key_of h) as [l|] eqn:E;
    rewrite lookup_list_insert; case_decide as Hn; try done; subst;
    unfold lookup_list; by rewrite E.
Qed.

Lemma lookup_list_Prepend hs h n :
  lookup_list (PrependHeader hs h) n =
  if decide (key_of h = n) then h :: lookup_list hs n else lookup_list hs n.
Proof.
  unfold PrependHeader. destruct (hmap hs !! key_of h) as [l|] eqn:E;
    rewrite lookup_list_insert; case_decide as Hn; try done; subst;
    unfold lookup_list; by rewrite E.
Qed.

Lemma lookup_list_PrependAfter hs h a n :
  wf_store hs ->
  lookup_list (PrependHeaderAfter hs h a) n =
  if decide (key_of h = n) then h :: lookup_list hs n else lookup_list hs n.
Proof.
  intros (_ & Hd & _). unfold PrependHeaderAfter.
  destruct (hmap hs !! ToLower a) eqn:Ea; [| apply lookup_list_Prepend].
  destruct (last_pos (key_of h) (headerOrder hs)) as [i|] eqn:Ei;
    rewrite lookup_list_insert; case_decide as Hn; try done; subst; unfold lookup_list; [done |].
  apply last_pos_None in Ei. rewrite Hd in Ei.
  destruct (hmap hs !! key_of h); [by destruct Ei; eauto | done].
Qed.

Lemma lookup_list_fold l hs n :
  lookup_list (foldl AppendHeader hs l) n =
  lookup_list hs n ++ filter (fun h => key_of h = n) l.
Proof.
  revert hs. induction l as [|h l IH]; intros hs; simpl; [by rewrite app_nil_r |].
  rewrite IH, lookup_list_Append, filter_cons. case_decide; [| done].
  by rewrite <- app_assoc.
Qed.

Lemma lookup_list_new l n :
  lookup_list (newHeaders l) n = filter (fun h => key_of h = n) l.
Proof. unfold newHeaders. by rewrite lookup_list_fold. Qed.

Lemma flat_map_ext_in {A B} (f g : A -> list B) (l : list A) :
  (forall x, x ∈ l -> f x = g x) -> flat_map f l = flat_map g l.
Proof.
  intros H. induction l as [|a l IH]; simpl; [done |].
  rewrite (H a), IH by set_solver. done.
Qed.

(** Removing a name removes its headers from the printed list, and no others. *)
Lemma Headers_Remove hs n :
  wf_store hs ->
  Headers_ (RemoveHeader hs n) = filter (fun h => key_of h <> ToLower n) (Headers_ hs).
Proof.
  intros (Hnd & Hd & Hk). unfold Headers_, RemoveHeader. simpl.
  set (k := ToLower n). set (hs' := mkHeaders (delete k (hmap hs)) _).
  assert (forall x, x <> k -> lookup_list hs' x = lookup_list hs x /\
    filter (fun h => key_of h <> k) (lookup_list hs x) = lookup_list hs x) as Hx.
  { intros x Hne. unfold lookup_list. simpl. rewrite lookup_delete_ne by done.
    split; [done |]. destruct (hmap hs !! x) as [l|] eqn:E; [| done].
    apply filter_all. apply Hk in E. eapply Forall_impl; [exact E |]. naive_solver. }
  assert (filter (fun h => key_of h <> k) (lookup_list hs k) = []) as Hkk.
  { unfold lookup_list. destruct (hmap hs !! k) as [l|] eqn:E; [| done].
    apply Hk in E. clear -E. induction E as [|h l ? ? IH]; [done |].
    rewrite filter_cons_False by naive_solver. apply IH. }
  clearbody hs' k. clear Hd Hk. induction Hnd as [|a l Ha Hnd IH]; [done |].
  simpl. rewrite filter_app. destruct (streq a k) eqn:Ea; simp_bool.
  - subst. rewrite Hkk. simpl. clear IH. induction l as [|b l IHl]; [done |].
    inv Hnd. destruct (Hx b) as [E1 E2]; [set_solver |].
    simpl. rewrite filter_app, E1, E2. f_equal. apply IHl; set_solver.
  - simpl. destruct (Hx a) as [-> ->]; [done |]. f_equal. apply IH.
Qed.

(** Appending a block of headers of one new name. *)
Lemma fold_Append_block acc n h l :
  n ∉ headerOrder acc -> hmap acc !! n = None ->
  Forall (fun x => key_of x = n) (h :: l) ->
  foldl AppendHeader acc (h :: l) =
  mkHeaders (<[n := h :: l]> (hmap acc)) (headerOrder acc ++ [n]).
Proof.
  intros Hn Hm Hk. inv Hk. simpl.
  assert (AppendHeader acc h = mkHeaders (<[key_of h := [h]]> (hmap acc))
            (headerOrder acc ++ [key_of h])) as ->.
  { unfold AppendHeader. by rewrite Hm. }
  match goal with H : Forall _ l |- _ => rename H into Hl end.
  change [h] with ([] ++ [h] : list Header) at 1.
  change (h :: l) with (([] ++ [h]) ++ l). generalize ([] ++ [h] : list Header) as pre.
  clear Hm. induction Hl as [|x l Hx Hl IH]; intros pre; simpl; [by rewrite app_nil_r |].
  unfold AppendHeader at 2. rewrite Hx. cbn [hmap]. rewrite lookup_insert_eq. cbn [headerOrder].
  rewrite insert_insert_eq, IH. by rewrite <- app_assoc.
Qed.

(** Every stored list has a header, as after any sequence of appends. *)
Definition no_empty (hs : headers) : Prop := map_Forall (fun _ l => l <> []) (hmap hs).

Lemma fold_Append_order hs (order : list bytes) acc :
  wf_store hs -> no_empty hs -> NoDup order ->
  (forall n, n ∈ order -> is_Some (hmap hs !! n) /\ n ∉ headerOrder acc /\ hmap acc !! n = None) ->
  headerOrder (foldl AppendHeader acc (flat_map (lookup_list hs) order)) = headerOrder acc ++ order /\
  forall n, hmap (foldl AppendHeader acc (flat_map (lookup_list hs) order)) !! n =
    if decide (n ∈ order) then hmap hs !! n else hmap acc !! n.
Proof.
  intros Hw Hne Hnd. revert acc. induction Hnd as [|a l Ha Hnd IH]; intros acc H.
  { cbn [flat_map foldl]. rewrite app_nil_r. split; [done |]. intros n.
    rewrite decide_False; [done | apply not_elem_of_nil]. }
  cbn [flat_map]. rewrite foldl_app. destruct (H a) as ([la Hla] & Ho & Hm); [set_solver |].
  assert (lookup_list hs a = la) as -> by (unfold lookup_list; by rewrite Hla).
  destruct la as [|h la]; [by apply Hne in Hla |].
  rewrite (fold_Append_block acc a) by (done || by eapply wf_keys).
  destruct (IH (mkHeaders (<[a := h :: la]> (hmap acc)) (headerOrder acc ++ [a]))) as [H1 H2].
  { intros n Hn. destruct (H n) as (? & ? & ?); [set_solver |]. simpl. repeat split; [done | |].
    - set_solver.
    - rewrite lookup_insert_ne; [done |]. by intros ->. }
  split; [rewrite H1; cbn [headerOrder]; by rewrite <- app_assoc |].
  intros n. rewrite H2. cbn [hmap]. rewrite lookup_insert. destruct (decide (n ∈ l)) as [Hn|Hn].
  - rewrite decide_True by set_solver. done.
  - case_decide as E; [subst; by rewrite decide_True by set_solver |].
    rewrite decide_False by set_solver. done.
Qed.

Lemma newHeaders_Headers hs : wf_store hs -> no_empty hs -> newHeaders (Headers_ hs) = hs.
Proof.
  intros Hw Hne. pose proof Hw as (Hnd & Hd & _). unfold newHeaders, Headers_.
  destruct (fold_Append_order hs (headerOrder hs) empty_headers) as [H1 H2]; try done.
  { intros n Hn. split; [by apply Hd |]. split; [apply not_elem_of_nil | apply lookup_empty]. }
  destruct hs as [m o]. simpl in *.
  destruct (foldl _ _ _) as [m' o']. simpl in *. f_equal; [| done].
  apply map_eq. intros n. rewrite H2. case_decide as Hn; [done |].
  rewrite lookup_empty. symmetry. apply eq_None_not_Some. by rewrite <- Hd.
Qed.

#[export] Hint Resolve wf_empty wf_AppendHeader wf_PrependHeader wf_PrependHeaderAfter
  wf_newHeaders wf_RemoveHeader : gosip.

End HeaderStore.
