(* ===== verification/Message.v ===== *)
(** * Requests and responses: src/sip/message.go, request.go, response.go, core.go

    The log fields of a message are not modelled.  A header a constructor
    copies is a clone, so the in-place writes on the copy ([cseq.MethodName],
    the branch of the top Via) do not reach the message it came from.
    Randomness is an argument: [uuid] is the identifier [NextMessageID] would
    draw, [rnd] the bytes [rand.Read] would fill. *)

From S2P Require Import Prelude GoStrings Escape Params Headers HeaderStore.
From stdpp Require Import options.
Import Params Headers HeaderStore.

Module Message.

Record message : Type := mkMessage {
  hdrs : headers;
  messID : bytes;
  sipVersion : bytes;
  body : bytes;
  tp : bytes;
  src : bytes;
  dest : bytes
}.

Record request : Type := mkRequest {
  rq_msg : message;
  method : RequestMethod;
  recipient : option Uri
}.

#[warnings="-register-all"]
Inductive response : Type := mkResponse {
  rs_msg : message;
  status : N;
  reason : bytes;
  previous : list response
}.

(** *** Field updates *)

Definition with_hdrs (m : message) (hs : headers) : message :=
  mkMessage hs (messID m) (sipVersion m) (body m) (tp m) (src m) (dest m).
Definition with_body (m : message) (b : bytes) : message :=
  mkMessage (hdrs m) (messID m) (sipVersion m) b (tp m) (src m) (dest m).
Definition SetTransport (m : message) (t : bytes) : message :=
  mkMessage (hdrs m) (messID m) (sipVersion m) (body m) (ToUpper t) (src m) (dest m).
Definition SetSource (m : message) (s : bytes) : message :=
  mkMessage (hdrs m) (messID m) (sipVersion m) (body m) (tp m) s (dest m).
Definition SetDestination (m : message) (d : bytes) : message :=
  mkMessage (hdrs m) (messID m) (sipVersion m) (body m) (tp m) (src m) d.

Definition rq_map (f : message -> message) (r : request) : request :=
  mkRequest (f (rq_msg r)) (method r) (recipient r).
Definition rs_map (f : message -> message) (r : response) : response :=
  mkResponse (f (rs_msg r)) (status r) (reason r) (previous r).

(** [SetBody]: a [ContentLength] is a uint32, so the length wraps. *)
Definition SetBody (m : message) (b : bytes) (setContentLength : bool) : message :=
  let m := with_body m b in
  if setContentLength then
    let length := HContentLength (N.of_nat (length b) mod 2 ^ 32) in
    match GetHeaders (hdrs m) "Content-Length" with
    | [] => with_hdrs m (AppendHeader (hdrs m) length)
    | _ => with_hdrs m (ReplaceHeaders (hdrs m) "Content-Length" [length])
    end
  else m.

Definition message_String (startLine : bytes) (m : message) : bytes :=
  startLine ++ CRLF ++ Headers_String (hdrs m) ++ CRLF ++ body m.

(** [CopyHeaders(name, from, to)] and [PrependCopyHeaders]. *)
Definition CopyHeaders (name : bytes) (from to : headers) : headers :=
  foldl AppendHeader to (Header_Clone <$> GetHeaders from (ToLower name)).

Definition PrependCopyHeaders (name : bytes) (from to : headers) : headers :=
  foldl PrependHeader to (Header_Clone <$> GetHeaders from (ToLower name)).

(** *** Random identifiers: src/util/rand.go, GenerateBranch of src/sip/core.go *)

Definition letterBytes : bytes :=
  "0123456789abcdefghijklmnopqrstuvwxyzABCDEFGHIJKLMNOPQRSTUVWXYZ".

Definition RandString (n : nat) (rnd : bytes) : bytes :=
  (fun r => nth (N.to_nat (code r mod 62)) letterBytes NUL) <$> take n rnd.

Definition RFC3261BranchMagicCookie : bytes := "z9hG4bK".

Definition GenerateBranch (rnd : bytes) : bytes :=
  Join [RFC3261BranchMagicCookie; RandString 32 rnd] ".".

(** ** Requests *)

Definition new_message (uuid id version : bytes) (hs : list Header) (b : bytes) : message :=
  mkMessage (newHeaders hs) (match id with [] => uuid | _ => id end) version b [] [] [].

Definition NewRequest (uuid id : bytes) (meth : RequestMethod) (rcpt : option Uri)
    (version : bytes) (hs : list Header) (b : bytes) : request :=
  mkRequest (new_message uuid id version hs b) meth rcpt.

Definition request_StartLine (r : request) : bytes :=
  method r ++ " " ++ fmt_uri (recipient r) ++ " " ++ sipVersion (rq_msg r).

Definition request_String (r : request) : bytes :=
  message_String (request_StartLine r) (rq_msg r).

Definition IsInvite (r : request) : bool := streq (method r) INVITE.
Definition request_IsAck (r : request) : bool := streq (method r) ACK.
Definition request_IsCancel (r : request) : bool := streq (method r) CANCEL.

(** The transport of the top Via, or the default. *)
Definition via_transport (hs : headers) : bytes :=
  match ViaHop_ hs with
  | Some hop => match Transport hop with [] => DefaultProtocol | t => t end
  | None => DefaultProtocol
  end.

(** The first Route address, if the first Route header is one. *)
Definition route_uri (hs : headers) : option Uri :=
  match GetHeaders hs "Route" with HRoute (u :: _) :: _ => Some u | _ => None end.

(** [val.Equals("")] and [val.String()] panic on a parameter without a value. *)
Definition uri_transport (u : Uri) (t : bytes) : res bytes :=
  t ← match Uri_UriParams u with
      | None => Ok t
      | Some ps =>
          match Get ps "transport" with
          | None => Ok t
          | Some val =>
              v ← MaybeString_String val;
              Ok (if streq v "" then t else ToUpper v)
          end
      end;
  Ok (if Uri_IsEncrypted u then
        if streq t "TCP" then "TLS" else if streq t "WS" then "WSS" else t
      else t).

Definition request_Transport (r : request) : res bytes :=
  match tp (rq_msg r) with
  | _ :: _ => Ok (ToUpper (tp (rq_msg r)))
  | [] =>
      let hs := hdrs (rq_msg r) in
      let uri := match route_uri hs with Some u => Some u | None => recipient r end in
      t ← match uri with
          | Some u => uri_transport u (via_transport hs)
          | None => Ok (via_transport hs)
          end;
      Ok (if streq t "UDP" && (MTU - 200 <? length (request_String r)) then "TCP" else t)
  end.

Definition host_port (host : bytes) (port : N) : bytes := host ++ ":" ++ show_N port.

(** [Port(uint16(p))] *)
Definition to_uint16 (z : Z) : N := Z.to_N (z mod 2 ^ 16).

(** The host and port the top Via asks for: [received] and [rport] first.
    [received.String()] panics on a parameter without a value; [rport] is
    compared with nil before. *)
Definition via_target (hop : ViaHop) (transport : res bytes) : res bytes :=
  port ← match Port hop with
         | Some p => Ok p
         | None => DefaultPort <$> transport
         end;
  match vh_params hop with
  | None => Ok (host_port (Host hop) port)
  | Some ps =>
      host ← match Get ps "received" with
             | None => Ok (Host hop)
             | Some received =>
                 s ← MaybeString_String received;
                 Ok (match s with [] => Host hop | _ => s end)
             end;
      let port := match Get ps "rport" with
                  | Some (Some (c :: s)) =>
                      match Atoi (c :: s) with Ok z => to_uint16 z | _ => port end
                  | _ => port
                  end in
      Ok (host_port host port)
  end.

Definition request_Source (r : request) : res bytes :=
  match src (rq_msg r) with
  | _ :: _ => Ok (src (rq_msg r))
  | [] =>
      match ViaHop_ (hdrs (rq_msg r)) with
      | None => Ok []
      | Some hop => via_target hop (request_Transport r)
      end
  end.

(** The unchecked type assertion on the Route address panics on a wildcard. *)
Definition request_Destination (r : request) : res bytes :=
  match dest (rq_msg r) with
  | _ :: _ => Ok (dest (rq_msg r))
  | [] =>
      uri ← match route_uri (hdrs (rq_msg r)) with
            | Some (SipUriPtr u) => Ok (Some u)
            | Some _ => Panic
            | None => match recipient r with
                      | Some (SipUriPtr u) => Ok (Some u)
                      | _ => Ok None
                      end
            end;
      match uri with
      | None => Ok []
      | Some u =>
          port ← match FPort u with
                 | Some p => Ok p
                 | None => DefaultPort <$> request_Transport r
                 end;
          Ok (host_port (FHost u) port)
      end
  end.

(** [Fields] and [Short] make a text for the log; what can go wrong in them is the
    evaluation of the three addresses. *)
Definition request_shown (r : request) : res unit :=
  _ ← request_Transport r; _ ← request_Source r; _ ← request_Destination r; Ok tt.

Definition copy_addressing (from to : request) : res request :=
  t ← request_Transport from;
  s ← request_Source from;
  d ← request_Destination from;
  Ok (rq_map (fun m => SetDestination (SetSource (SetTransport m t) s) d) to).

Definition cloneRequest (uuid id : bytes) (r : request) : res request :=
  match recipient r with
  | None => Panic
  | Some u =>
      copy_addressing r
        (NewRequest uuid id (method r) (Some (Uri_Clone u)) (sipVersion (rq_msg r))
           (cloneHeaders (hdrs (rq_msg r))) (body (rq_msg r)))
  end.

Definition CopyRequest (uuid : bytes) (r : request) : res request :=
  cloneRequest uuid (messID (rq_msg r)) r.

(** ** Responses *)

Definition NewResponse (uuid id version : bytes) (code : N) (rsn : bytes)
    (hs : list Header) (b : bytes) : response :=
  mkResponse (new_message uuid id version hs b) code rsn [].

Definition response_StartLine (r : response) : bytes :=
  sipVersion (rs_msg r) ++ " " ++ show_N (status r) ++ " " ++ reason r.

Definition response_String (r : response) : bytes :=
  message_String (response_StartLine r) (rs_msg r).

Definition IsProvisional (r : response) : bool := (status r <? 200)%N.
Definition IsSuccess (r : response) : bool := (200 <=? status r)%N && (status r <? 300)%N.
Definition IsRedirection (r : response) : bool := (300 <=? status r)%N && (status r <? 400)%N.
Definition IsClientError (r : response) : bool := (400 <=? status r)%N && (status r <? 500)%N.
Definition IsServerError (r : response) : bool := (500 <=? status r)%N && (status r <? 600)%N.
Definition IsGlobalError (r : response) : bool := (600 <=? status r)%N.

Definition cseq_is (m : RequestMethod) (hs : headers) : bool :=
  match CSeq hs with Some (_, meth) => streq meth m | None => false end.
Definition response_IsAck (r : response) : bool := cseq_is ACK (hdrs (rs_msg r)).
Definition response_IsCancel (r : response) : bool := cseq_is CANCEL (hdrs (rs_msg r)).

Definition response_Transport (r : response) : bytes :=
  match tp (rs_msg r) with
  | _ :: _ => ToUpper (tp (rs_msg r))
  | [] => via_transport (hdrs (rs_msg r))
  end.

Definition response_Destination (r : response) : res bytes :=
  match dest (rs_msg r) with
  | _ :: _ => Ok (dest (rs_msg r))
  | [] =>
      match ViaHop_ (hdrs (rs_msg r)) with
      | None => Ok []
      | Some hop => via_target hop (Ok (response_Transport r))
      end
  end.

Definition response_shown (r : response) : res unit := _ ← response_Destination r; Ok tt.

Definition copied_headers (code : N) (from : headers) : headers :=
  let hs := CopyHeaders "Record-Route" from empty_headers in
  let hs := CopyHeaders "Via" from hs in
  let hs := CopyHeaders "From" from hs in
  let hs := CopyHeaders "To" from hs in
  let hs := CopyHeaders "Call-ID" from hs in
  let hs := CopyHeaders "CSeq" from hs in
  if (code =? 100)%N then CopyHeaders "Timestamp" from hs else hs.

Definition NewResponseFromRequest (uuid id : bytes) (r : request) (code : N)
    (rsn b : bytes) : res response :=
  let rs := NewResponse uuid id (sipVersion (rq_msg r)) code rsn [] [] in
  let m := with_hdrs (rs_msg rs) (copied_headers code (hdrs (rq_msg r))) in
  let m := SetBody m b true in
  t ← request_Transport r;
  d ← request_Destination r;
  s ← request_Source r;
  Ok (mkResponse (SetDestination (SetSource (SetTransport m t) d) s) code rsn []).

Definition cloneResponse (uuid id : bytes) (r : response) : res response :=
  d ← response_Destination r;
  let m := new_message uuid id (sipVersion (rs_msg r)) (cloneHeaders (hdrs (rs_msg r)))
             (body (rs_msg r)) in
  Ok (mkResponse
        (SetDestination (SetSource (SetTransport m (response_Transport r)) (src (rs_msg r))) d)
        (status r) (reason r) (previous r)).

Definition CopyResponse (uuid : bytes) (r : response) : res response :=
  cloneResponse uuid (messID (rs_msg r)) r.

(** ** ACK and CANCEL *)

(** [cseq, _ := msg.CSeq(); cseq.MethodName = m] *)
Definition set_cseq (hs : headers) (m : RequestMethod) : res headers :=
  match CSeq hs with
  | Some _ => Ok (update_first hs "CSeq" (set_cseq_method m))
  | None => Panic
  end.

(** [viaHop, _ := msg.ViaHop(); viaHop.Params.Add("branch", ...)] *)
Definition set_branch (hs : headers) (branch : bytes) : res headers :=
  match ViaHop_ hs with
  | Some hop =>
      match vh_params hop with
      | Some ps =>
          Ok (update_first hs "Via" (update_hop (fun hop =>
                mkViaHop (ProtocolName hop) (ProtocolVersion hop) (Transport hop)
                  (Host hop) (Port hop) (Some (Add ps "branch" (Some branch))))))
      | None => Panic
      end
  | None => Panic
  end.

(** The Route set of a 2xx ACK: the Record-Route headers reversed, each
    reversed in itself. *)
Fixpoint reversed_routes (l : list Header) : res (list Header) :=
  match l with
  | [] => Ok []
  | HRecordRoute us :: l' =>
      rest ← reversed_routes l';
      Ok (rest ++ [HRoute (reverse (Uri_Clone <$> us))])
  | _ :: _ => Panic
  end.

Definition ack_recipient (invite : request) (rs : response) : res Uri :=
  match recipient invite with
  | None => Panic
  | Some u =>
      Ok (match Contact (hdrs (rs_msg rs)) with
          | Some c =>
              if Contains (ToLower (Uri_String u)) "transport=ws" then u else ct_addr c
          | None => u
          end)
  end.

(** [recipient.String()] is evaluated only when the response has a Contact. *)
Definition ack_recipient_opt (invite : request) (rs : response) : res (option Uri) :=
  match Contact (hdrs (rs_msg rs)), recipient invite with
  | None, r => Ok r
  | Some _, _ => Some <$> ack_recipient invite rs
  end.

Definition NewAckRequest (uuid id rnd : bytes) (invite : request) (rs : response)
    (b : bytes) : res request :=
  rcpt ← ack_recipient_opt invite rs;
  let ack := NewRequest uuid id ACK rcpt (sipVersion (rq_msg invite)) [] b in
  let from := hdrs (rq_msg invite) in
  let hs := CopyHeaders "Via" from (hdrs (rq_msg ack)) in
  hs ← if IsSuccess rs then set_branch hs (GenerateBranch rnd) else Ok hs;
  hs ← match GetHeaders from "Route" with
       | _ :: _ => Ok (CopyHeaders "Route" from hs)
       | [] =>
           routes ← reversed_routes (GetHeaders (hdrs (rs_msg rs)) "Record-Route");
           Ok (foldl AppendHeader hs routes)
       end;
  let hs := AppendHeader hs (HMaxForwards 70) in
  let hs := CopyHeaders "From" from hs in
  let hs := CopyHeaders "To" (hdrs (rs_msg rs)) hs in
  let hs := CopyHeaders "Call-ID" from hs in
  let hs := CopyHeaders "CSeq" from hs in
  hs ← set_cseq hs ACK;
  copy_addressing invite (rq_map (fun m => SetBody (with_hdrs m hs) [] true) ack).

Definition NewCancelRequest (uuid id : bytes) (r : request) : res request :=
  let cancel := NewRequest uuid id CANCEL (recipient r) (sipVersion (rq_msg r)) [] [] in
  let from := hdrs (rq_msg r) in
  match ViaHop_ from with
  | None => Panic
  | Some hop =>
      let hs := AppendHeader (hdrs (rq_msg cancel)) (HVia [ViaHop_Clone hop]) in
      let hs := CopyHeaders "Route" from hs in
      let hs := AppendHeader hs (HMaxForwards 70) in
      let hs := CopyHeaders "From" from hs in
      let hs := CopyHeaders "To" from hs in
      let hs := CopyHeaders "Call-ID" from hs in
      let hs := CopyHeaders "CSeq" from hs in
      hs ← set_cseq hs CANCEL;
      copy_addressing r (rq_map (fun m => SetBody (with_hdrs m hs) [] true) cancel)
  end.

(** ** Dialogs *)

Definition MakeDialogID (callID innerID externalID : bytes) : bytes :=
  Join [callID; innerID; externalID] "__".

(** [h.Params.Get("tag")], a method call on a possibly nil interface. *)
Definition tag_of (a : NameAddr) : res (option MaybeString) :=
  match na_params a with Some ps => Ok (Get ps "tag") | None => Panic end.

Definition MakeDialogIDFromMessage (hs : headers) : res bytes :=
  match CallID hs with
  | None => Err (Errorf "missing Call-ID header")
  | Some callID =>
      match To hs with
      | None => Err (Errorf "missing To header")
      | Some to =>
          toTag ← tag_of to;
          match toTag with
          | None => Err (Errorf "missing tag param in To header")
          | Some toTag =>
              match From_ hs with
              | None => Err (Errorf "missing To header")
              | Some from =>
                  fromTag ← tag_of from;
                  match fromTag with
                  | None => Err (Errorf "missing tag param in From header")
                  | Some fromTag =>
                      t ← MaybeString_String toTag;
                      f ← MaybeString_String fromTag;
                      Ok (MakeDialogID callID t f)
                  end
              end
          end
      end
  end.

(** ** Lemmas *)

(** [CopyHeaders] appends the clones under their own name. *)
Lemma lookup_list_Copy name from to n :
  wf_store from ->
  lookup_list (CopyHeaders name from to) n =
  if decide (ToLower (ToLower name) = n)
  then lookup_list to n ++ (Header_Clone <$> lookup_list from n)
  else lookup_list to n.
Proof.
  intros Hw. unfold CopyHeaders. rewrite lookup_list_fold. unfold GetHeaders.
  assert (Forall (fun h => key_of h = ToLower (ToLower name))
            (Header_Clone <$> lookup_list from (ToLower (ToLower name)))) as Hk.
  { unfold lookup_list. destruct (hmap from !! _) as [l|] eqn:E; [| constructor].
    apply Forall_fmap. eapply wf_keys in E; [| done]. eapply Forall_impl; [exact E |].
    intros h Hh. simpl. unfold key_of. by rewrite Header_Clone_Name. }
  case_decide as Hn.
  - subst. f_equal. by apply filter_all.
  - rewrite <- (app_nil_r (lookup_list to n)) at 2. f_equal.
    induction Hk as [|h l Hh Hl IH]; [done |].
    rewrite filter_cons_False by naive_solver. apply IH.
Qed.

Lemma wf_CopyHeaders name from to : wf_store to -> wf_store (CopyHeaders name from to).
Proof. apply wf_fold_Append. Qed.

Lemma hdrs_SetBody m b :
  forall n, n <> "content-length" ->
  lookup_list (hdrs (SetBody m b true)) n = lookup_list (hdrs m) n.
Proof.
  intros n Hn. unfold SetBody. cbn [with_body hdrs].
  destruct (GetHeaders (hdrs m) "Content-Length") as [|h l] eqn:E; cbn [with_hdrs hdrs].
  - rewrite lookup_list_Append. rewrite decide_False; [done |]. intros Hk. by apply Hn.
  - unfold ReplaceHeaders. destruct (hmap (hdrs m) !! _) eqn:E2; [| done].
    rewrite lookup_list_insert. rewrite decide_False; [done |]. intros Hk. by apply Hn.
Qed.

Lemma SetBody_length m b :
  ContentLength (hdrs (SetBody m b true)) = Some (N.of_nat (length b) mod 2 ^ 32)%N.
Proof.
  unfold SetBody, ContentLength. cbn [with_body hdrs].
  destruct (GetHeaders (hdrs m) "Content-Length") as [|h l] eqn:E; cbn [with_hdrs hdrs].
  - unfold GetHeaders in *. rewrite lookup_list_Append.
    rewrite decide_True by done. by rewrite E.
  - unfold GetHeaders, ReplaceHeaders, lookup_list in *.
    destruct (hmap (hdrs m) !! _) eqn:E2; [| done]. cbn [hmap].
    by rewrite lookup_insert_eq.
Qed.

Lemma lookup_update_first hs name f n :
  lookup_list (update_first hs name f) n =
  if decide (ToLower name = n)
  then match lookup_list hs n with h :: l => f h :: l | [] => [] end
  else lookup_list hs n.
Proof.
  unfold update_first. destruct (hmap hs !! ToLower name) as [[|h l]|] eqn:E;
    rewrite ?lookup_list_insert; case_decide; try done; subst; unfold lookup_list; by rewrite E.
Qed.

#[export] Hint Resolve wf_CopyHeaders : gosip.

End Message.
