(* ===== verification/ParserCommon.v ===== *)
(** * The parsing functions: src/sip/parser/common.go

    A Go function that returns a value and an error is a [res]: its callers
    drop the value when the error is set.  [ParseParams] keeps all three
    results, since [parseViaHeader] goes on with the parameters of a failed
    call.  Indexing and slicing that can leave the string are [Panic]. *)

From S2P Require Import Prelude GoStrings Escape Params Headers HeaderStore.
From stdpp Require Import options.
Import Escape Params Headers.

Module ParserCommon.

Definition maxCseq : N := 2147483647.

(** ** Start lines *)

Definition CRLF2 : bytes := CRLF ++ CRLF.

(** [getBodyLength]; [None] is -1. *)
Definition getBodyLength (data : bytes) : option nat :=
  match Index data CRLF2 with
  | None => None
  | Some idx => Some (length data - (idx + 4))
  end.

(** [strings.ToUpper(part[:3]) == "SIP"], guarded by the length test. *)
Definition is_sip_version (part : bytes) : bool :=
  if length part <? 3 then false else streq (ToUpper (take 3 part)) "SIP".

Definition isRequest (startLine : bytes) : bool :=
  if negb (CountByte startLine SP =? 2) then false
  else match Split startLine " " with
       | _ :: _ :: version :: _ => is_sip_version version
       | _ => false
       end.

Definition isResponse (startLine : bytes) : bool :=
  if CountByte startLine SP <? 2 then false
  else match Split startLine " " with
       | version :: _ :: _ :: _ => is_sip_version version
       | _ => false
       end.

(** ** Parameters *)

(** The variables of the loop of [ParseParams]. *)
Record pstate : Type := mkPstate {
  ps_params : headerParams;
  ps_buffer : bytes;
  ps_key : bytes;
  ps_parsingKey : bool;
  ps_inQuotes : bool
}.

Inductive loop_result : Type :=
| Continue (st : pstate)
| Break
| Return (e : error).

Definition write (st : pstate) (s : bytes) : pstate :=
  mkPstate (ps_params st) (ps_buffer st ++ s) (ps_key st) (ps_parsingKey st) (ps_inQuotes st).

Definition err_unescape (e : error) : error := Wrapf "unescape params: %w" e.
Definition err_singleton : error :=
  Errorf "singleton param '%s' when parsing params which disallow singletons".

(** Stores the key, or the key and the value, that the buffer completes. *)
Definition store_param (permitSingletons : bool) (st : pstate) : headerParams + error :=
  if ps_parsingKey st && permitSingletons then
    match Unescape (ps_buffer st) EncodeQueryComponent with
    | Ok k => inl (Add (ps_params st) k None)
    | Err e => inr (err_unescape e)
    | Panic => inr err_singleton
    end
  else if ps_parsingKey st then inr err_singleton
  else
    match Unescape (ps_key st) EncodeQueryComponent with
    | Ok k =>
        match Unescape (ps_buffer st) EncodeQueryComponent with
        | Ok v => inl (Add (ps_params st) k (Some v))
        | Err e => inr (err_unescape e)
        | Panic => inr err_singleton
        end
    | Err e => inr (err_unescape e)
    | Panic => inr err_singleton
    end.

Section params.

Variables (sep end_ : byte) (quoteValues permitSingletons : bool).

(** One iteration on the byte [c]; [next] is the byte after it, if any. *)
Definition params_step (st : pstate) (c : byte) (next : option byte) : loop_result :=
  if beq c end_ then
    if ps_inQuotes st then Continue (write st [end_]) else Break
  else if beq c sep then
    if ps_inQuotes st then Continue (write st [sep])
    else match store_param permitSingletons st with
         | inl ps => Continue (mkPstate ps [] (ps_key st) true (ps_inQuotes st))
         | inr e => Return e
         end
  else if beq c DQUOTE then
    if negb quoteValues then Continue (write st [DQUOTE])
    else if ps_parsingKey st then Return (Errorf "unexpected quote in parameter key in params")
    else if negb (ps_inQuotes st) && (0 <? length (ps_buffer st)) then
      Return (Errorf "unexpected quote in params")
    else if ps_inQuotes st && match next with Some d => negb (beq d sep) | None => false end then
      Return (Errorf "unexpected character %c after quoted param")
    else Continue (mkPstate (ps_params st) (ps_buffer st) (ps_key st) (ps_parsingKey st)
                     (negb (ps_inQuotes st)))
  else if beq c "=" then
    if length (ps_buffer st) =? 0 then Return (Errorf "key of length 0 in params")
    else if negb (ps_parsingKey st) then Return (Errorf "unexpected '=' char in value token")
    else Continue (mkPstate (ps_params st) [] (ps_buffer st) false (ps_inQuotes st))
  else if negb (ps_inQuotes st) && mem c abnfWs then Continue st
  else Continue (write st (string_of_byte c)).

(** The loop: the state it ends in, the position, the error it returns. *)
Fixpoint params_loop (s : bytes) (consumed : nat) (st : pstate) : pstate * nat * option error :=
  match s with
  | [] => (st, consumed, None)
  | c :: s' =>
      match params_step st c (head s') with
      | Continue st => params_loop s' (S consumed) st
      | Break => (st, consumed, None)
      | Return e => (st, consumed, Some e)
      end
  end.

End params.

Definition init_pstate : pstate := mkPstate NewParams [] [] true false.

(** [start] and [end_] are [NUL] when there is no such delimiter; a NUL byte of
    the source then ends the section, as in the code. *)
Definition ParseParams (source : bytes) (start sep end_ : byte)
    (quoteValues permitSingletons : bool) : headerParams * nat * option error :=
  match source with
  | [] => (NewParams, 0, None)
  | c :: rest =>
      if negb (beq start NUL) && negb (beq c start) then
        (NewParams, 0, Some (Errorf "expected %c at start of key-value section; got %c"))
      else
        let '(s, consumed) := if beq start NUL then (source, 0) else (rest, 1) in
        let '(st, consumed, err) :=
          params_loop sep end_ quoteValues permitSingletons s consumed init_pstate in
        match err with
        | Some e => (ps_params st, consumed, Some e)
        | None =>
            if ps_inQuotes st then
              (ps_params st, consumed, Some (Errorf "unclosed quotes in parameter string: %s"))
            else match store_param permitSingletons st with
                 | inl ps => (ps, consumed, None)
                 | inr e => (ps_params st, consumed, Some e)
                 end
        end
  end.

(** [ParseParams] as its callers that return on an error see it. *)
Definition parse_params (source : bytes) (start sep end_ : byte) (quoteValues permitSingletons : bool)
    : res (headerParams * nat) :=
  match ParseParams source start sep end_ quoteValues permitSingletons with
  | (ps, n, None) => Ok (ps, n)
  | (_, _, Some e) => Err e
  end.

(** ** Hosts and URIs *)

Definition host_of_raw (rawHost : bytes) : res bytes :=
  host ← (if HasPrefix rawHost "[" then
            match Index rawHost "%25" with
            | Some zone =>
                host1 ← wrap_err "unescape host: %w" (Unescape (take zone rawHost) EncodeHost);
                z ← slice rawHost zone (length rawHost - 1);
                host2 ← wrap_err "unescape zone: %w" (Unescape z EncodeZone);
                host3 ← wrap_err "unescape host: %w"
                          (Unescape (drop (length rawHost - 1) rawHost) EncodeHost);
                Ok (host1 ++ host2 ++ host3)
            | None => Ok []
            end
          else Ok []);
  match host with
  | [] => wrap_err "unescape host: %w" (Unescape rawHost EncodeHost)
  | _ => Ok host
  end.

Definition ParseHostPort (rawText : bytes) : res (bytes * option N) :=
  let '(rawHost, rawPort) :=
    match LastIndexByte rawText ":" with
    | None => (rawText, [])
    | Some i => (take i rawText, drop (i + 1) rawText)
    end in
  host ← host_of_raw rawHost;
  match rawPort with
  | [] => Ok (host, None)
  | _ => port ← wrap_err "parse port: %w" (ParseUint rawPort 16); Ok (host, Some port)
  end.

(** The user-info part, up to the first [@]: user, password and what follows. *)
Definition parse_userinfo (s : bytes) : res (MaybeString * MaybeString * bytes) :=
  match IndexByte s "@" with
  | None => Ok (None, None, s)
  | Some endOfUserInfoPart =>
      let rest := drop (endOfUserInfoPart + 1) s in
      let endOfUsernamePart :=
        match IndexByte s ":" with
        | Some i => if endOfUserInfoPart <? i then None else Some i
        | None => None
        end in
      match endOfUsernamePart with
      | None =>
          u ← wrap_err "unescape username: %w"
                (Unescape (take endOfUserInfoPart s) EncodeUserPassword);
          Ok (Some u, None, rest)
      | Some i =>
          u ← wrap_err "unescape username: %w" (Unescape (take i s) EncodeUserPassword);
          raw ← slice s (i + 1) endOfUserInfoPart;
          p ← wrap_err "unescape password: %w" (Unescape raw EncodeUserPassword);
          Ok (Some u, Some p, rest)
      end
  end.

(** Where the host and port end: the first [;], else the first [?], else the end. *)
Definition end_of_uri_part (s : bytes) : nat :=
  match IndexByte s ";" with
  | Some i => i
  | None => match IndexByte s "?" with Some i => i | None => length s end
  end.

(** The host, the port, the parameters and the headers. *)
Definition parse_uri_rest (encrypted : bool) (user password : MaybeString) (s : bytes)
    : res SipUri :=
  let e := end_of_uri_part s in
  '(host, port) ← ParseHostPort (take e s);
  match drop e s with
  | [] => Ok (mkSipUri encrypted user password host port (Some NewParams) (Some NewParams))
  | c :: t =>
      '(uriParams, n) ← (if beq c ";" then parse_params (c :: t) ";" ";" "?" true true
                         else Ok (NewParams, 0));
      let s := drop n (c :: t) in
      '(hdrs, n) ← parse_params s "?" "&" NUL true false;
      match drop n s with
      | [] => Ok (mkSipUri encrypted user password host port (Some uriParams) (Some hdrs))
      | _ => Err (Errorf "internal error: parse of SIP uri ended early! '%s'")
      end
  end.

Definition ParseSipUri (uriStr : bytes) : res SipUri :=
  scheme ← slice uriStr 0 3;
  if negb (streq (ToLower scheme) "sip") then Err (Errorf "invalid SIP uri protocol name in '%s'")
  else
    match drop 3 uriStr with
    | [] => Err (Errorf "uri too short to parse. '%s'")
    | c :: t =>
        let '(encrypted, s) := if streq (ToLower [c]) "s" then (true, t) else (false, c :: t) in
        match s with
        | [] => Err (Errorf "uri too short to parse. '%s'")
        | c :: s =>
            if negb (beq c ":") then Err (Errorf "no ':' after protocol name in SIP uri '%s'")
            else
              '(user, password, s) ← parse_userinfo s;
              parse_uri_rest encrypted user password s
        end
    end.

Definition ParseUri (uriStr : bytes) : res Uri :=
  if streq (TrimSpace uriStr) "*" then Ok WildcardUri
  else match IndexByte uriStr ":" with
       | None => Err (Errorf "no ':' in URI %s")
       | Some colonIdx =>
           let scheme := ToLower (take colonIdx uriStr) in
           if streq scheme "sip" || streq scheme "sips"
           then SipUriPtr <$> ParseSipUri uriStr
           else Err (Errorf "unsupported URI schema %s")
       end.

(** The type switch tests for [*WildcardUri]; [ParseUri] returns [WildcardUri]. *)
Definition ParseRequestLine (requestLine : bytes) : res (RequestMethod * Uri * bytes) :=
  match Split requestLine " " with
  | [p0; p1; p2] =>
      recipient ← ParseUri p1;
      match recipient with
      | WildcardUriPtr => Err (Errorf "wildcard URI '*' not permitted in request line: '%s'")
      | _ => Ok (ToUpper p0, recipient, p2)
      end
  | _ => Err (Errorf "request line should have 2 spaces: '%s'")
  end.

Definition ParseStatusLine (statusLine : bytes) : res (bytes * N * bytes) :=
  match Split statusLine " " with
  | version :: code :: part :: parts =>
      statusCode ← ParseUint code 16;
      Ok (version, statusCode, Join (part :: parts) " ")
  | _ => Err (Errorf "status line has too few spaces: '%s'")
  end.

(** ** Addresses *)

(** A pair of delimiters that quotes text. *)
Record delimiter : Type := mkDelim { d_start : byte; d_end : byte }.

Definition quotesDelim : delimiter := mkDelim DQUOTE DQUOTE.
Definition anglesDelim : delimiter := mkDelim "<" ">".

(** [endChars[c]]: a later delimiter of the list replaces an earlier one. *)
Definition end_char (delims : list delimiter) (c : byte) : option byte :=
  d_end <$> List.find (fun d => beq (d_start d) c) (reverse delims).

(** [escaped] is the closing byte while inside delimiters. *)
Fixpoint find_unescaped_from (targets : bytes) (delims : list delimiter)
    (escaped : option byte) (idx : nat) (text : bytes) : option nat :=
  match text with
  | [] => None
  | c :: t =>
      match escaped with
      | Some e =>
          find_unescaped_from targets delims (if beq c e then None else Some e) (S idx) t
      | None =>
          if mem c targets then Some idx
          else find_unescaped_from targets delims (end_char delims c) (S idx) t
      end
  end.

Definition findAnyUnescaped (text targets : bytes) (delims : list delimiter) : option nat :=
  find_unescaped_from targets delims None 0 text.

Definition findUnescaped (text : bytes) (target : byte) (delims : list delimiter) : option nat :=
  findAnyUnescaped text [target] delims.

(** The display name and the text after it. *)
Definition parse_display_name (addressText : bytes) : res (MaybeString * bytes) :=
  match findUnescaped addressText "<" [quotesDelim] with
  | Some (S k) =>
      match addressText with
      | c :: t =>
          if beq c DQUOTE then
            match IndexByte t DQUOTE with
            | None => Err (Errorf "unclosed quotes in header text: %s")
            | Some nextQuote => Ok (Some (take nextQuote t), drop (nextQuote + 1) t)
            end
          else Ok (Some (TrimSpace (take (S k) addressText)), drop (S k) addressText)
      | [] => Panic
      end
  | _ => Ok (None, addressText)
  end.

(** The text of the URI and the text of the parameters, [None] when there is
    none.  Without a closing [>] the slice [addressText[:-1]] panics. *)
Definition split_address (displayName : MaybeString) (addressText : bytes)
    : res (bytes * option bytes) :=
  match addressText with
  | [] => Panic
  | c :: t =>
      if negb (beq c "<") then
        match displayName with
        | Some _ => Err (Errorf "invalid character '%c' following display name in address line; expected '<': %s")
        | None =>
            let endOfUri := match IndexByte addressText ";" with
                            | Some i => i
                            | None => length addressText
                            end in
            Ok (take endOfUri addressText,
                if length addressText <=? endOfUri then None
                else Some (drop endOfUri addressText))
        end
      else
        match IndexByte t ">" with
        | Some 0 => Err (Errorf "'<' without closing '>' in address %s")
        | Some endOfUri =>
            Ok (take endOfUri t,
                if length t <=? endOfUri + 1 then None else Some (drop (endOfUri + 1) t))
        | None => Panic
        end
  end.

Definition ParseAddressValue (addressText : bytes) : res (MaybeString * Uri * headerParams) :=
  match addressText with
  | [] => Err (Errorf "address-type header has empty body")
  | _ =>
      '(displayName, addressText) ← parse_display_name (TrimSpace addressText);
      '(uriText, paramsText) ← split_address displayName (TrimSpace addressText);
      uri ← ParseUri uriText;
      match paramsText with
      | None => Ok (displayName, uri, NewParams)
      | Some text =>
          '(ps, _) ← parse_params text ";" ";" "," true true;
          Ok (displayName, uri, ps)
      end
  end.

(** The loop of [ParseAddressValues]; [seg] is [addresses[prevIdx:idx]].  The
    code ranges over runes and compares them with ASCII characters only, which
    are single bytes and never part of a longer encoding. *)
Fixpoint addresses_loop (s : bytes) (seg : bytes) (inBrackets inQuotes : bool)
    (acc : list (MaybeString * Uri * headerParams)) : res (list (MaybeString * Uri * headerParams)) :=
  match s with
  | [] => Ok acc
  | c :: s' =>
      if beq c "<" && negb inQuotes then addresses_loop s' (seg ++ [c]) true inQuotes acc
      else if beq c ">" && negb inQuotes then addresses_loop s' (seg ++ [c]) false inQuotes acc
      else if beq c DQUOTE then addresses_loop s' (seg ++ [c]) inBrackets (negb inQuotes) acc
      else if negb inQuotes && negb inBrackets && beq c "," then
        a ← ParseAddressValue seg;
        addresses_loop s' [] inBrackets inQuotes (acc ++ [a])
      else addresses_loop s' (seg ++ [c]) inBrackets inQuotes acc
  end.

Definition ParseAddressValues (addresses : bytes) : res (list (MaybeString * Uri * headerParams)) :=
  addresses_loop (addresses ++ ",") [] false false [].

(** ** Header parsers *)

(** The header a To, From or Contact name builds from the address at [idx]. *)
Definition address_header (headerName : bytes) (idx : nat)
    (a : MaybeString * Uri * headerParams) : res Header :=
  let '(name, uri, ps) := a in
  if streq headerName "to" || streq headerName "t" then
    if 0 <? idx then Err (Errorf "multiple to: headers in message")
    else match uri with
         | WildcardUri => Err (Errorf "wildcard uri not permitted in to: header: %s")
         | _ => Ok (HTo (mkNameAddr name (Some uri) (Some ps)))
         end
  else if streq headerName "from" || streq headerName "f" then
    if 0 <? idx then Err (Errorf "multiple from: headers in message")
    else match uri with
         | WildcardUri => Err (Errorf "wildcard uri not permitted in from: header: %s")
         | _ => Ok (HFrom (mkNameAddr name (Some uri) (Some ps)))
         end
  else
    if Uri_IsWildcard uri && (0 <? Length ps) then
      Err (Errorf "wildcard contact header should contain no parameters: '%s")
    else if Uri_IsWildcard uri && isSome name then
      Err (Errorf "wildcard contact header should contain no display name %s")
    else Ok (HContact (mkContact name uri (Some ps))).

Fixpoint address_headers (headerName : bytes) (idx : nat)
    (l : list (MaybeString * Uri * headerParams)) : res (list Header) :=
  match l with
  | [] => Ok []
  | a :: l' =>
      h ← address_header headerName idx a;
      hs ← address_headers headerName (S idx) l';
      Ok (h :: hs)
  end.

Definition parseAddressHeader (headerName headerText : bytes) : res (list Header) :=
  if existsb (streq headerName) ["to"; "from"; "contact"; "t"; "f"; "m"] then
    l ← ParseAddressValues headerText;
    address_headers headerName 0 l
  else Ok [].

(** The loop of [SplitByWhitespace]. *)
Fixpoint split_ws (rs : list bytes) (buffer : bytes) (inString : bool) : list bytes :=
  match rs with
  | [] => match buffer with [] => [] | _ => [buffer] end
  | s :: rs' =>
      if Contains abnfWs s then
        (if inString then [buffer] else []) ++
        split_ws rs' (if inString then [] else buffer) false
      else split_ws rs' (buffer ++ s) true
  end.

Definition SplitByWhitespace (text : bytes) : list bytes := split_ws (runes text) [] true.

Definition parseCSeq (headerName headerText : bytes) : res (list Header) :=
  match SplitByWhitespace headerText with
  | [p0; p1] =>
      seqno ← ParseUint p0 32;
      if (maxCseq <? seqno)%N then Err (Errorf "invalid CSeq %d: exceeds maximum permitted value 2**31 - 1")
      else
        let methodName := TrimSpace p1 in
        if ContainsByte methodName ";" then Err (Errorf "unexpected ';' in CSeq body: %s")
        else Ok [HCSeq seqno methodName]
  | _ => Err (Errorf "CSeq field should have precisely one whitespace section: '%s'")
  end.

Definition parseCallId (headerName headerText : bytes) : res (list Header) :=
  let callId := TrimSpace headerText in
  if ContainsAny callId abnfWs then Err (Errorf "unexpected whitespace in CallID header body '%s'")
  else if ContainsByte callId ";" then Err (Errorf "unexpected semicolon in CallID header body '%s'")
  else match callId with
       | [] => Err (Errorf "empty Call-ID body")
       | _ => Ok [HCallID callId]
       end.

(** The sent-protocol part of a section: name, version, transport, the rest. *)
Definition via_protocol (section : bytes) : res (bytes * bytes * bytes * bytes) :=
  match Split section "/" with
  | p0 :: p1 :: p2 :: ps =>
      let part := Join (p2 :: ps) "/" in
      let initialSpaces := length part - length (TrimLeft part abnfWs) in
      (* IndexAny(...) + initialSpaces + 1, with -1 for not found *)
      let sentByIdx := match IndexAny (drop initialSpaces part) abnfWs with
                       | Some i => i + initialSpaces + 1
                       | None => initialSpaces
                       end in
      if sentByIdx =? 0 then
        Err (Errorf "expected whitespace after sent-protocol part in via header '%s'")
      else if sentByIdx =? 1 then Err (Errorf "empty transport field in via header '%s'")
      else
        t ← slice part 0 (sentByIdx - 1);
        body ← slice part sentByIdx (length part);
        Ok (TrimSpace p0, TrimSpace p1, TrimSpace t, body)
  | _ => Err (Errorf "not enough protocol parts in via header: '%s'")
  end.

(** The hop of a section and the error its parameters leave in [err]. *)
Definition via_hop (name version transport viaBody : bytes) : res (ViaHop * option error) :=
  match IndexByte viaBody ";" with
  | None =>
      '(host, port) ← ParseHostPort viaBody;
      Ok (mkViaHop name version transport host port (Some NewParams), None)
  | Some paramsIdx =>
      '(host, port) ← ParseHostPort (take paramsIdx viaBody);
      let '(ps, _, err) := ParseParams (drop paramsIdx viaBody) ";" ";" NUL true true in
      Ok (mkViaHop name version transport host port (Some ps), err)
  end.

(** [err] is what the previous section left; the check after the protocol
    fields returns it. *)
Fixpoint via_loop (sections : list bytes) (err : option error) (via : list ViaHop)
    : res (list ViaHop) :=
  match sections with
  | [] => match err with Some e => Err e | None => Ok via end
  | section :: rest =>
      '(name, version, transport, viaBody) ← via_protocol section;
      match name, version, transport with
      | [], _, _ => Err (Errorf "no protocol name provided in via header '%s'")
      | _, [], _ => Err (Errorf "no version provided in via header '%s'")
      | _, _, [] => Err (Errorf "no transport provided in via header '%s'")
      | _, _, _ =>
          match err with
          | Some e => Err e
          | None =>
              '(hop, err) ← via_hop name version transport viaBody;
              via_loop rest err (via ++ [hop])
          end
      end
  end.

Definition parseViaHeader (headerName headerText : bytes) : res (list Header) :=
  via ← via_loop (Split headerText ",") None [];
  Ok [HVia via].

Definition parseMaxForwards (headerName headerText : bytes) : res (list Header) :=
  value ← ParseUint (TrimSpace headerText) 32; Ok [HMaxForwards value].

Definition parseExpires (headerName headerText : bytes) : res (list Header) :=
  value ← ParseUint (TrimSpace headerText) 32; Ok [HExpires value].

Definition parseContentLength (headerName headerText : bytes) : res (list Header) :=
  value ← ParseUint (TrimSpace headerText) 32; Ok [HContentLength value].

Definition parseUserAgent (headerName headerText : bytes) : res (list Header) :=
  Ok [HUserAgent (TrimSpace headerText)].

Definition parseServer (headerName headerText : bytes) : res (list Header) :=
  Ok [HServer (TrimSpace headerText)].

Definition parseContentType (headerName headerText : bytes) : res (list Header) :=
  Ok [HContentType (TrimSpace headerText)].

Definition parseAccept (headerName headerText : bytes) : res (list Header) :=
  Ok [HAccept (TrimSpace headerText)].

Definition parseAllow (headerName headerText : bytes) : res (list Header) :=
  Ok [HAllow (TrimSpace <$> Split headerText ",")].

Definition parseRequire (headerName headerText : bytes) : res (list Header) :=
  Ok [HRequire (TrimSpace <$> Split headerText ",")].

Definition parseSupported (headerName headerText : bytes) : res (list Header) :=
  Ok [HSupported (TrimSpace <$> Split headerText ",")].

Definition uri_of (a : MaybeString * Uri * headerParams) : Uri := let '(_, u, _) := a in u.

Definition parseRouteHeader (headerName headerText : bytes) : res (list Header) :=
  l ← ParseAddressValues headerText; Ok [HRoute (uri_of <$> l)].

Definition parseRecordRouteHeader (headerName headerText : bytes) : res (list Header) :=
  l ← ParseAddressValues headerText; Ok [HRecordRoute (uri_of <$> l)].

(** A [HeaderParser] gets the lower-cased name and the text. *)
Abbreviation HeaderParser := (bytes -> bytes -> res (list Header)).

Definition defaultHeaderParsers : list (bytes * HeaderParser) :=
  [("to", parseAddressHeader); ("t", parseAddressHeader);
   ("from", parseAddressHeader); ("f", parseAddressHeader);
   ("contact", parseAddressHeader); ("m", parseAddressHeader);
   ("call-id", parseCallId); ("i", parseCallId);
   ("cseq", parseCSeq); ("via", parseViaHeader); ("v", parseViaHeader);
   ("max-forwards", parseMaxForwards);
   ("content-length", parseContentLength); ("l", parseContentLength);
   ("expires", parseExpires); ("user-agent", parseUserAgent); ("server", parseServer);
   ("allow", parseAllow); ("content-type", parseContentType); ("c", parseContentType);
   ("accept", parseAccept); ("require", parseRequire);
   ("supported", parseSupported); ("k", parseSupported);
   ("route", parseRouteHeader); ("record-route", parseRecordRouteHeader)].

(** The lines joined so far and how many were consumed. *)
Fixpoint next_header_lines (contents : list bytes) : bytes * nat :=
  match contents with
  | [] => ([], 0)
  | l :: rest =>
      match space_len wide_spaces l with
      | 0 => ([], 0)
      | S _ =>
          let '(text, n) := next_header_lines rest in
          (" " ++ TrimSpace l ++ text, S n)
      end
  end.

Definition GetNextHeaderLine (contents : list bytes) : bytes * nat :=
  match contents with
  | [] => ([], 0)
  | [] :: _ => ([], 0)
  | l :: rest => let '(text, n) := next_header_lines rest in (l ++ text, S n)
  end.

End ParserCommon.
