(* ===== verification/ParamsRoundTrip.v ===== *)
(** * Parameters: parsing what was printed

    [ParseParams] on the output of [ToString] gives the parameter set back,
    for the delimiters the code uses and parameters whose bytes survive
    ([clean_param]).  The proof follows the loop of [ParseParams] over one
    printed parameter at a time. *)

From S2P Require Import Prelude GoStrings Escape Params Headers ParserCommon.
From stdpp Require Import options.
Import Escape Params ParserCommon.

Module ParamsRoundTrip.

Abbreviation Q := EncodeQueryComponent.

(** The (separator, end) pairs the sources call [ParseParams] with. *)
Definition used_delims : list (byte * byte) :=
  [(";", "?"); ("&", NUL); (";", NUL); (";", ",")]%char.

Definition delims_ok (sep end_ : byte) : bool :=
  existsb (fun p => beq sep p.1 && beq end_ p.2) used_delims.

(** A byte the loop copies to the buffer outside quotes. *)
Definition plain_byte (sep end_ c : byte) : bool :=
  negb (beq c end_) && negb (beq c sep) && negb (beq c DQUOTE) && negb (beq c "=") &&
  negb (mem c abnfWs) && (code c <? 128)%N.

(** A byte the loop copies inside quotes. *)
Definition quoted_byte (c : byte) : bool :=
  negb (beq c DQUOTE) && negb (beq c "=") && (code c <? 128)%N.

(** The bytes a key or an unquoted value may have so that its escaped form is
    plain: no [=] and no space, and no unescaped end delimiter. *)
Definition clean_byte (end_ c : byte) : bool :=
  negb (beq c "=") && negb (beq c SP) && (shouldEscape c Q || negb (beq c end_)).

Definition clean_value (end_ : byte) (v : bytes) : bool :=
  negb (quoted_literal v) &&
  if ContainsAny v abnfWs then forallb (fun c => negb (beq c "=")) v
  else forallb (clean_byte end_) v.

Definition clean_key (end_ : byte) (k : bytes) : bool :=
  negb (length k =? 0) && forallb (clean_byte end_) k.

Definition clean_param (end_ : byte) (kv : bytes * MaybeString) : bool :=
  clean_key end_ kv.1 && match kv.2 with Some v => clean_value end_ v | None => true end.

(** The value is printed between quotes. *)
Definition is_quoted (kv : bytes * MaybeString) : bool :=
  match kv.2 with Some v => ContainsAny v abnfWs | None => false end.

(** ** Bytes *)

Lemma delims_escape (P : byte -> byte -> byte -> bool) :
  forallb (fun p => forallb (P p.1 p.2) all_bytes) used_delims = true ->
  forall sep end_ c, delims_ok sep end_ = true -> P sep end_ c = true.
Proof.
  intros H sep end_ c Hd. apply existsb_exists in Hd as ([s e] & Hin & He).
  apply andb_true_iff in He as [->%beq_eq ->%beq_eq].
  pose proof (proj1 (forallb_forall _ _) H _ Hin) as Hb.
  exact (proj1 (forallb_forall _ _) Hb _ (all_bytes_complete c)).
Qed.

Lemma escape_plain sep end_ c :
  delims_ok sep end_ = true ->
  implb (clean_byte end_ c) (forallb (plain_byte sep end_) (escape_byte Q c)) = true.
Proof. revert sep end_ c. apply delims_escape. by vm_compute. Qed.

Lemma escape_quoted c :
  implb (negb (beq c "=")) (forallb quoted_byte (escape_byte Q c)) = true.
Proof. revert c. apply byte_forall. by vm_compute. Qed.

Lemma Escape_forallb (P R : byte -> bool) mode s :
  (forall c, R c = true -> forallb P (escape_byte mode c) = true) ->
  forallb R s = true -> forallb P (Escape s mode) = true.
Proof.
  intros H. induction s as [|c s IH]; simpl; [done |]. intros Hs. simp_bool.
  rewrite forallb_app, H, IH; done.
Qed.

Lemma Escape_plain_ok sep end_ s :
  delims_ok sep end_ = true -> forallb (clean_byte end_) s = true ->
  forallb (plain_byte sep end_) (Escape s Q) = true.
Proof.
  intros Hd. apply Escape_forallb. intros c Hc.
  pose proof (escape_plain sep end_ c Hd) as H. by rewrite Hc in H.
Qed.

Lemma Escape_quoted_ok s :
  forallb (fun c => negb (beq c "=")) s = true -> forallb quoted_byte (Escape s Q) = true.
Proof.
  apply Escape_forallb. intros c Hc. pose proof (escape_quoted c) as H. by rewrite Hc in H.
Qed.

Lemma string_of_ascii c : (code c <? 128)%N = true -> string_of_byte c = [c].
Proof. intros H. unfold string_of_byte. by rewrite H. Qed.

Lemma ReplaceByte_absent s c new : mem c s = false -> ReplaceByte s c new = s.
Proof.
  induction s as [|d s IH]; simpl; [done |]. intros H. apply orb_false_iff in H as [H1 H2].
  replace (beq d c) with false; [simpl; by rewrite IH |].
  symmetry. apply beq_neq. apply beq_neq in H1. congruence.
Qed.

(** A quoted literal apart, a quoted value is printed between plain quotes. *)
Lemma value_string_quoted v :
  quoted_literal v = false -> ContainsAny v abnfWs = true ->
  value_string (Some v) = "=" ++ [DQUOTE] ++ Escape v Q ++ [DQUOTE].
Proof.
  intros Hq Hw. unfold value_string. rewrite Hq, Hw.
  rewrite ReplaceByte_absent; [done |]. by apply Escape_avoids.
Qed.

(** ** The loop on one printed parameter *)

Section loop.

Context (sep end_ : byte) (permit : bool) (Hd : delims_ok sep end_ = true).

Abbreviation loop := (params_loop sep end_ true permit).

Lemma delims_distinct :
  negb (beq sep end_) && negb (beq DQUOTE end_) && negb (beq DQUOTE sep) &&
  negb (beq "=" end_) && negb (beq "=" sep) = true.
Proof using Hd.
  apply (delims_escape (fun sep end_ _ =>
    negb (beq sep end_) && negb (beq DQUOTE end_) && negb (beq DQUOTE sep) &&
    negb (beq "=" end_) && negb (beq "=" sep)) ltac:(by vm_compute) sep end_ NUL Hd).
Qed.

Lemma loop_plain s rest n st :
  ps_inQuotes st = false -> forallb (plain_byte sep end_) s = true ->
  loop (s ++ rest) n st = loop rest (n + length s) (write st s).
Proof using.
  revert n st. induction s as [|c s IH]; intros n st Hq Hs; simpl.
  { rewrite Nat.add_0_r. destruct st; unfold write; simpl. by rewrite app_nil_r. }
  simpl in Hs. apply andb_true_iff in Hs as [Hc Hs]. unfold plain_byte in Hc.
  repeat (apply andb_true_iff in Hc as [Hc ?]). unfold params_step.
  repeat match goal with H : negb _ = true |- _ => apply negb_true_iff in H; rewrite H end.
  rewrite Hq. simpl. rewrite string_of_ascii by done. rewrite IH by done.
  unfold write. simpl. rewrite <- app_assoc. f_equal; lia.
Qed.

Lemma loop_quoted s rest n st :
  ps_inQuotes st = true -> forallb quoted_byte s = true ->
  loop (s ++ rest) n st = loop rest (n + length s) (write st s).
Proof using.
  revert n st. induction s as [|c s IH]; intros n st Hq Hs; simpl.
  { rewrite Nat.add_0_r. destruct st; unfold write; simpl. by rewrite app_nil_r. }
  simpl in Hs. apply andb_true_iff in Hs as [Hc Hs]. unfold quoted_byte in Hc.
  repeat (apply andb_true_iff in Hc as [Hc ?]). unfold params_step.
  repeat match goal with H : negb _ = true |- _ => apply negb_true_iff in H; rewrite H end.
  rewrite Hq. simpl. rewrite string_of_ascii by done.
  replace (n + S (length s)) with (S n + length s) by lia.
  destruct (beq c end_) eqn:E1; [apply beq_eq in E1 as -> |
    destruct (beq c sep) eqn:E2; [apply beq_eq in E2 as -> |]];
    rewrite IH by done; unfold write; simpl; by rewrite <- app_assoc.
Qed.

(** The state in which a key starts. *)
Definition at_key (ps : headerParams) (key : bytes) : pstate := mkPstate ps [] key true false.

(** After [key=]. *)
Lemma loop_key_eq k rest n ps key0 :
  clean_key end_ k = true ->
  loop (Escape k Q ++ "=" ++ rest) n (at_key ps key0) =
  loop rest (n + length (Escape k Q) + 1) (mkPstate ps [] (Escape k Q) false false).
Proof using Hd.
  intros Hk. unfold clean_key in Hk. simp_bool.
  rewrite loop_plain by (done || by apply Escape_plain_ok).
  pose proof delims_distinct as Hx. simp_bool.
  cbn [app params_loop]. unfold params_step, write. cbn [ps_buffer at_key app ps_parsingKey].
  rewrite (proj2 (beq_neq "=" end_)), (proj2 (beq_neq "=" sep)) by done. simpl.
  assert (length (Escape k Q) =? 0 = false) as ->.
  { rewrite Escape_length. apply Nat.eqb_neq.
    match goal with H : (length k =? 0) = false |- _ => apply Nat.eqb_neq in H end. lia. }
  f_equal. lia.
Qed.

(** What the loop holds after one printed parameter: storing it adds it. *)
Lemma loop_param kv rest n ps key0 :
  clean_param end_ kv = true ->
  (is_quoted kv = true -> head rest = None \/ head rest = Some sep) ->
  (kv.2 = None -> permit = true) ->
  exists st, loop (param_string kv.1 kv.2 ++ rest) n (at_key ps key0) =
             loop rest (n + length (param_string kv.1 kv.2)) st /\
    ps_inQuotes st = false /\ ps_params st = ps /\
    store_param permit st = inl (Add ps kv.1 kv.2).
Proof using Hd.
  destruct kv as [k [v|]]; unfold clean_param, is_quoted; simpl; intros Hc Hq Hp; simp_bool.
  - assert (Hst : forall b, store_param permit (mkPstate ps (Escape v Q) (Escape k Q) false b)
              = inl (Add ps k (Some v))).
    { intros b. unfold store_param. simpl. by rewrite !Unescape_Escape by auto with gosip. }
    unfold param_string. rewrite <- app_assoc.
    match goal with H : clean_value _ _ = true |- _ =>
      unfold clean_value in H; apply andb_true_iff in H as [Hlit Hv] end.
    apply negb_true_iff in Hlit. pose proof delims_distinct as Hx. simp_bool.
    destruct (ContainsAny v abnfWs) eqn:Hw.
    + rewrite value_string_quoted by done.
      exists (mkPstate ps (Escape v Q) (Escape k Q) false false).
      split; [| by rewrite Hst]. rewrite <- !app_assoc. rewrite loop_key_eq by done.
      cbn [app params_loop]. unfold params_step at 1. simpl.
      rewrite (proj2 (beq_neq DQUOTE end_)), (proj2 (beq_neq DQUOTE sep)) by done. simpl.
      rewrite loop_quoted by (done || by apply Escape_quoted_ok).
      unfold write. cbn [app params_loop ps_params ps_buffer ps_key ps_parsingKey ps_inQuotes].
      unfold params_step.
      rewrite (proj2 (beq_neq DQUOTE end_)), (proj2 (beq_neq DQUOTE sep)) by done. simpl.
      assert (match head rest with Some d => negb (beq d sep) | None => false end = false) as ->.
      { destruct Hq as [-> | ->]; [done | done | by rewrite beq_refl]. }
      f_equal. rewrite !length_app. simpl. rewrite !length_app. simpl. lia.
    + unfold value_string. rewrite Hlit, Hw.
      exists (mkPstate ps (Escape v Q) (Escape k Q) false false).
      split; [| by rewrite Hst]. rewrite <- app_assoc, loop_key_eq by done.
      rewrite loop_plain by (done || by apply Escape_plain_ok).
      unfold write. simpl. f_equal. rewrite !length_app. simpl. lia.
  - unfold param_string. simpl. rewrite app_nil_r.
    exists (mkPstate ps (Escape k Q) key0 true false).
    match goal with H : clean_key _ _ = true |- _ =>
      unfold clean_key in H; apply andb_true_iff in H as [_ Hk] end.
    rewrite loop_plain by (done || by apply Escape_plain_ok). split; [done |].
    repeat split. unfold store_param. simpl. rewrite Hp by done.
    by rewrite Unescape_Escape by auto with gosip.
Qed.

Definition add_all (ps : headerParams) (es : list (bytes * MaybeString)) : headerParams :=
  foldl (fun ps kv => Add ps kv.1 kv.2) ps es.

(** What may follow the printed parameters: nothing, or the end delimiter when
    no value is quoted. *)
Definition rest_ok (es : list (bytes * MaybeString)) (rest : bytes) : Prop :=
  rest = [] \/ (exists r, rest = end_ :: r) /\ forallb (fun kv => negb (is_quoted kv)) es = true.

Lemma loop_params kv es rest n ps key0 :
  forallb (clean_param end_) (kv :: es) = true ->
  Forall (fun kv => kv.2 = None -> permit = true) (kv :: es) ->
  rest_ok (kv :: es) rest ->
  let text := Join ((fun kv => param_string kv.1 kv.2) <$> kv :: es) [sep] in
  exists st, loop (text ++ rest) n (at_key ps key0) = (st, n + length text, None) /\
    ps_inQuotes st = false /\
    store_param permit st = inl (add_all ps (kv :: es)).
Proof using Hd.
  revert kv n ps key0. induction es as [|kv' es IH]; intros kv n ps key0 Hc Hp Hr text.
  - subst text. cbn [fmap list_fmap Join] in *. simpl in Hc. rewrite andb_true_r in Hc. inv Hp.
    destruct (loop_param kv rest n ps key0) as (st & -> & Hq & Hps & Hst); try done.
    { intros Hquo. destruct Hr as [-> | [[r ->] Hnq]]; [by left |].
      simpl in Hnq. by rewrite Hquo in Hnq. }
    exists st. split; [| done].
    destruct Hr as [-> | [[r ->] _]]; [done |]. simpl. unfold params_step.
    by rewrite beq_refl, Hq.
  - set (f := fun kv : bytes * MaybeString => param_string kv.1 kv.2) in *.
    set (more := Join (f <$> kv' :: es) [sep]).
    assert (text = f kv ++ [sep] ++ more) as -> by done.
    apply andb_true_iff in Hc as [Hc1 Hc2]. inv Hp. rewrite <- !app_assoc.
    destruct (loop_param kv ([sep] ++ more ++ rest) n ps key0) as (st & E & Hq & Hps & Hst);
      try done; [by right |].
    unfold f at 1. rewrite E. clear E.
    assert (sep <> end_) as Hse by (pose proof delims_distinct; by simp_bool).
    cbn [app params_loop]. unfold params_step.
    rewrite (proj2 (beq_neq sep end_)), beq_refl, Hq, Hst by done.
    destruct (IH kv' (S (n + length (f kv))) (Add ps kv.1 kv.2) (ps_key st))
      as (st' & E & Hq' & Hst'); [exact Hc2 | assumption | |].
    { destruct Hr as [-> | [? Hnq]]; [by left |]. right.
      apply andb_true_iff in Hnq as [_ Hnq]. done. }
    exists st'. split; [| done]. fold more in E. unfold at_key in E. unfold f at 1 in E.
    rewrite E. unfold f. do 2 f_equal. rewrite !length_app. simpl. lia.
Qed.

End loop.

(** ** Rebuilding the set *)

Lemma add_all_entries p : wf p -> add_all NewParams (entries p) = p.
Proof.
  intros Hw. etrans; [| by apply Clone_id].
  unfold add_all, Clone, entries, Keys. generalize NewParams as dup.
  induction (paramOrder p) as [|a l IH]; intros dup; [done |].
  rewrite omap_entry_cons. cbn [foldl]. unfold clone_step at 2, Get.
  destruct (params p !! a); [apply IH | apply IH].
Qed.

(** The parsed set and the number of bytes consumed, whatever may follow. *)
Lemma ParseParams_ToString p start sep end_ permit rest :
  wf p -> entries p <> [] -> delims_ok sep end_ = true -> start <> NUL ->
  forallb (clean_param end_) (entries p) = true ->
  Forall (fun kv => kv.2 = None -> permit = true) (entries p) ->
  rest_ok end_ (entries p) rest ->
  ParseParams (start :: ToString p sep ++ rest) start sep end_ true permit
  = (p, S (length (ToString p sep)), None).
Proof.
  intros Hw Hne Hd Hs Hc Hp Hr. unfold ParseParams.
  rewrite (beq_refl start), (proj2 (beq_neq start NUL)) by done. cbn [negb andb].
  rewrite ToString_entries.
  pose proof (add_all_entries p Hw) as Hadd.
  destruct (entries p) as [|kv es]; [done |].
  destruct (loop_params sep end_ permit Hd kv es rest 1 NewParams [] Hc Hp Hr) as (st & E & Hq & Hst).
  unfold at_key in E. unfold init_pstate. rewrite E, Hq, Hst, Hadd. done.
Qed.

Lemma Length_entries p : wf p -> Length p = length (entries p).
Proof.
  intros Hw. rewrite <- (length_fmap fst), entries_keys by done. destruct Hw as [Hnd Hd].
  unfold Length. rewrite <- size_dom, <- (size_list_to_set (C := gset (list ascii))) by done.
  f_equal. apply set_eq. intros k. rewrite elem_of_dom, elem_of_list_to_set. by rewrite Hd.
Qed.

Lemma Length_zero p : wf p -> (0 <? Length p) = match entries p with [] => false | _ => true end.
Proof. intros Hw. rewrite Length_entries by done. by destruct (entries p). Qed.

End ParamsRoundTrip.
