(* ===== verification/UriRoundTrip.v ===== *)
(** * URIs: parsing what was printed, and parsing without panics

    [ParseUri] after [Uri_String] is the identity on the URIs of [clean_uri];
    [ParseUri] and the header parsers built on it never leave their strings. *)

From S2P Require Import Prelude GoStrings Escape Params Headers ParserCommon ParamsRoundTrip.
From stdpp Require Import options.
Import Escape Params Headers ParserCommon ParamsRoundTrip.

Module UriRoundTrip.

(** ** Lemmas on the string functions *)

Lemma Index_bound s sub i : Index s sub = Some i -> i + length sub <= length s.
Proof.
  revert i. induction s as [|c s IH]; intros i H; simpl in H.
  - destruct (HasPrefix [] sub) eqn:E; [| done]. simplify_eq.
    destruct sub; [done | simpl in E; done].
  - destruct (HasPrefix (c :: s) sub) eqn:E.
    + simplify_eq. apply HasPrefix_spec in E as [t ->]. rewrite length_app. lia.
    + apply fmap_Some in H as (j & Hj & ->). apply IH in Hj. simpl. lia.
Qed.

Lemma Index_absent s c sub : mem c s = false -> Index s (c :: sub) = None.
Proof.
  induction s as [|d s IH]; intros H; [done |].
  cbn [mem existsb] in H. apply orb_false_iff in H as [H1 H2].
  cbn [Index HasPrefix]. rewrite H1. cbn [andb]. by rewrite IH.
Qed.

Lemma trim_from_suffix spaces k s : trim_from spaces k s `suffix_of` s.
Proof.
  revert k. induction s as [|c s IH]; intros k; [done |].
  cbn [trim_from]. destruct k as [|k].
  - destruct (space_len spaces (c :: s)); [done |]. by apply suffix_cons_r.
  - by apply suffix_cons_r.
Qed.

(** What [TrimSpace] leaves of a string that starts with no space is a prefix. *)
Lemma TrimSpace_prefix c s :
  space_len wide_spaces (c :: s) = 0 -> TrimSpace (c :: s) `prefix_of` c :: s.
Proof.
  intros H. unfold TrimSpace. cbn [trim_from]. rewrite H.
  destruct (trim_from_suffix (reverse <$> wide_spaces) 0 (reverse (c :: s))) as [k E].
  exists (reverse k). rewrite <- reverse_app, <- E. by rewrite reverse_involutive.
Qed.

(** A string that starts with an ASCII letter is not the wildcard. *)
Lemma not_star c s :
  ascii_space c = false -> (code c <? 128)%N = true -> c <> "*"%char ->
  streq (TrimSpace (c :: s)) "*" = false.
Proof.
  intros Hs Hc Hne. apply streq_neq. intros E.
  assert (space_len wide_spaces (c :: s) = 0) as H0.
  { cbn [space_len]. rewrite Hs.
    destruct (List.find (HasPrefix (c :: s)) wide_spaces) as [p|] eqn:F; [| done].
    apply find_some in F as [Hin Hp]. apply HasPrefix_spec in Hp as [t Ht].
    assert (forallb (fun p => match p with b :: _ => negb (code b <? 128)%N | [] => false end)
              wide_spaces = true) as Hall by done.
    apply (proj1 (forallb_forall _ _)) with (x := p) in Hall; [| done].
    destruct p as [|b p]; [done |]. simpl in Ht. simplify_eq. by rewrite Hc in Hall. }
  pose proof (TrimSpace_prefix c s H0) as [t Ht]. rewrite E in Ht. injection Ht as -> _. done.
Qed.

Lemma slice_mid (x y z : bytes) i j :
  i = length x -> j = length x + length y -> slice (x ++ y ++ z) i j = Ok y.
Proof.
  intros -> ->. unfold slice. rewrite decide_True by (rewrite !length_app; lia).
  rewrite drop_app_length. f_equal.
  replace (length x + length y - length x) with (length y) by lia. apply take_app_length.
Qed.

Lemma mem_digits c s : is_digit c = false -> forallb is_digit s = true -> mem c s = false.
Proof.
  intros Hc. induction s as [|d s IH]; simpl; [done |]. intros H. simp_bool.
  rewrite IH, orb_false_r by done. apply beq_neq. intros ->. congruence.
Qed.

Lemma mem_forallb c (P : byte -> bool) s : P c = false -> forallb P s = true -> mem c s = false.
Proof.
  intros Hc. induction s as [|d s IH]; simpl; [done |]. intros H. simp_bool.
  rewrite IH, orb_false_r by done. apply beq_neq. intros ->. congruence.
Qed.

(** ** URIs that survive *)

(** A host byte that is printed as it is. *)
Definition host_byte (c : byte) : bool :=
  negb (shouldEscape c EncodeHost) && negb (beq c ";").

(** Without a port the host has no colon: the parser would take what follows
    the last one for a port. *)
Definition clean_host (port : option N) (h : bytes) : bool :=
  forallb host_byte h && (isSome port || negb (mem ":" h)).

Record clean_uri (u : SipUri) (p q : headerParams) : Prop := mkCleanUri {
  cu_user : FUser u <> Some [];
  cu_password : FPassword u <> Some [] /\ (FUser u = None -> FPassword u = None);
  cu_host : clean_host (FPort u) (FHost u) = true;
  cu_port : forall n, FPort u = Some n -> (n < 2 ^ 16)%N;
  cu_params : FUriParams u = Some p /\ wf p;
  cu_params_clean : forallb (fun kv => clean_param "?" kv && negb (is_quoted kv)) (entries p) = true;
  cu_headers : FHeaders u = Some q /\ wf q;
  cu_headers_clean : forallb (fun kv => clean_param NUL kv && isSome kv.2) (entries q) = true;
  cu_at : FUser u = None ->
          mem "@" (params_suffix ";" ";" (Some p) ++ params_suffix "?" "&" (Some q)) = false
}.

Lemma Escape_host h : forallb host_byte h = true -> Escape h EncodeHost = h.
Proof.
  induction h as [|c h IH]; intros H; [done |]. cbn [forallb] in H.
  apply andb_true_iff in H as [Hc H]. apply andb_true_iff in Hc as [Hc _].
  apply negb_true_iff in Hc. simpl. rewrite IH by done. unfold escape_byte.
  rewrite Hc. by rewrite andb_false_r.
Qed.

Lemma host_escapable h : forallb host_byte h = true -> escapable EncodeHost h = true.
Proof.
  intros H. apply forallb_forall. intros c Hc. rewrite forallb_forall in H.
  apply H, andb_true_iff in Hc as [Hc _]. unfold escapable_byte. by rewrite Hc.
Qed.

Lemma host_of_raw_clean h : forallb host_byte h = true -> host_of_raw h = Ok h.
Proof.
  intros H. unfold host_of_raw.
  assert (Index h "%25" = None) as -> by (apply Index_absent; by apply (mem_forallb _ host_byte)).
  assert (Unescape h EncodeHost = Ok h) as Hu.
  { rewrite <- (Escape_host h) at 1 by done. apply Unescape_Escape. by apply host_escapable. }
  destruct (HasPrefix h "["); cbn [mbind res_bind]; rewrite Hu; done.
Qed.

Lemma ParseHostPort_clean h port :
  clean_host port h = true -> (forall n, port = Some n -> (n < 2 ^ 16)%N) ->
  ParseHostPort (h ++ port_string port) = Ok (h, port).
Proof.
  intros Hh Hp. apply andb_true_iff in Hh as [Hh Hc]. unfold ParseHostPort.
  destruct port as [n|]; cbn [port_string].
  - assert (LastIndexByte (h ++ ":" ++ show_N n) ":" = Some (length h)) as ->.
    { apply LastIndexByte_app_cons. eapply mem_digits; [done | apply show_N_all_digits]. }
    rewrite take_app_length, host_of_raw_clean by done.
    rewrite (app_assoc h), drop_app_length' by (rewrite length_app; simpl; lia). cbn [mbind res_bind].
    pose proof (show_N_nonempty n). destruct (show_N n) eqn:E; [done |]. rewrite <- E.
    rewrite ParseUint_show by auto. done.
  - rewrite app_nil_r. cbn [isSome orb] in Hc. apply negb_true_iff in Hc.
    apply LastIndexByte_None in Hc as ->. by rewrite host_of_raw_clean.
Qed.

(** *** The user-info part *)

Lemma user_avoids c s :
  mem c "@:/?" = true -> mem c (Escape s EncodeUserPassword) = false.
Proof.
  intros H. apply mem_In in H. simpl in H.
  destruct H as [<-|[<-|[<-|[<-|[]]]]]; by apply Escape_avoids.
Qed.

(** The first colon of [pre@rest], when [pre] has none, is after the [@]. *)
Lemma colon_after_at (pre rest : bytes) i :
  mem ":" pre = false -> IndexByte (pre ++ "@" ++ rest) ":" = Some i -> length pre <? i = true.
Proof.
  intros Hp Hi. rewrite IndexByte_app_r in Hi by done.
  apply fmap_Some in Hi as (j & Hj & ->). apply Nat.ltb_lt.
  destruct j; [| lia]. simpl in Hj. destruct (IndexByte rest ":"); done.
Qed.

Lemma drop_at_cons {A} (l r : list A) x : drop (length l + 1) (l ++ [x] ++ r) = r.
Proof.
  rewrite app_assoc.
  apply drop_app_length'. by rewrite length_app.
Qed.

Lemma nonempty_string_Some m : m <> Some [] -> nonempty_string m = m.
Proof. by destruct m as [[|c s]|]. Qed.

Lemma parse_userinfo_clean user password rest :
  user <> Some [] -> password <> Some [] -> (user = None -> password = None) ->
  (user = None -> mem "@" rest = false) ->
  parse_userinfo (userinfo_string user password ++ rest) = Ok (user, password, rest).
Proof.
  intros Hu Hp Hup Hat. unfold userinfo_string, parse_userinfo.
  rewrite (nonempty_string_Some user Hu), (nonempty_string_Some password Hp).
  destruct user as [u|].
  2:{ simpl. rewrite Hup, (proj2 (IndexByte_None _ _)) by auto. done. }
  assert (Unescape (Escape u EncodeUserPassword) EncodeUserPassword = Ok u) as Eu
    by auto using Unescape_Escape with gosip.
  destruct password as [p|].
  - assert (Unescape (Escape p EncodeUserPassword) EncodeUserPassword = Ok p) as Ep
      by auto using Unescape_Escape with gosip.
    set (U := Escape u EncodeUserPassword) in *. set (P := Escape p EncodeUserPassword) in *.
    replace ((U ++ (":" ++ P) ++ "@") ++ rest) with ((U ++ ":" ++ P) ++ "@" ++ rest)
      by (by rewrite <- !app_assoc).
    assert (mem "@" (U ++ ":" ++ P) = false) as Hno.
    { rewrite !mem_app. unfold U, P. by rewrite !user_avoids. }
    rewrite (IndexByte_app_cons _ rest "@") by done.
    rewrite drop_at_cons. rewrite <- !app_assoc.
    rewrite (IndexByte_app_cons U (P ++ "@" ++ rest) ":") by (by apply user_avoids).
    rewrite (proj2 (Nat.ltb_ge _ _)) by (rewrite length_app; lia).
    rewrite take_app_length, Eu. cbn [wrap_err mbind res_bind].
    rewrite (app_assoc U ":"), slice_mid by (rewrite ?length_app; simpl; lia).
    cbn [mbind res_bind]. by rewrite Ep.
  - set (U := Escape u EncodeUserPassword) in *. simpl.
    replace ((U ++ "@") ++ rest) with (U ++ "@" ++ rest) by (by rewrite <- app_assoc).
    rewrite (IndexByte_app_cons _ rest "@") by (by apply user_avoids).
    rewrite drop_at_cons, take_app_length, Eu.
    destruct (IndexByte (U ++ "@" ++ rest) ":") as [i|] eqn:Ei; [| done].
    apply colon_after_at in Ei; [| by apply user_avoids]. by rewrite Ei.
Qed.

(** *** Host, parameters and headers *)

(** The bytes [param_string] can print for a clean parameter exclude [;]. *)
Lemma no_semicolon_Escape s : mem ";" (Escape s EncodeQueryComponent) = false.
Proof. by apply Escape_avoids. Qed.

Lemma no_semicolon_param end_ kv :
  clean_param end_ kv = true -> mem ";" (param_string kv.1 kv.2) = false.
Proof.
  destruct kv as [k [v|]]; unfold clean_param, param_string; cbn [fst snd]; intros H;
    rewrite mem_app, no_semicolon_Escape; [| done].
  apply andb_true_iff in H as [_ H]. unfold clean_value in H.
  apply andb_true_iff in H as [Hlit _]. apply negb_true_iff in Hlit.
  destruct (ContainsAny v abnfWs) eqn:Hw.
  - rewrite value_string_quoted by done. by rewrite !mem_app, no_semicolon_Escape.
  - unfold value_string. rewrite Hlit, Hw. by rewrite mem_app, no_semicolon_Escape.
Qed.

Lemma mem_Join c l sep :
  mem c sep = false -> (forall s, In s l -> mem c s = false) -> mem c (Join l sep) = false.
Proof.
  intros Hs. induction l as [|s l IH]; intros H; [done |].
  destruct l as [|s' l]; [apply H; by left |].
  change (Join (s :: s' :: l) sep) with (s ++ sep ++ Join (s' :: l) sep).
  rewrite !mem_app, Hs, (H s) by (by left). rewrite IH; [done |]. intros x Hx. apply H. by right.
Qed.

Lemma no_semicolon_headers q :
  forallb (clean_param NUL) (entries q) = true -> mem ";" (ToString q "&") = false.
Proof.
  intros H. rewrite ToString_entries. apply mem_Join; [done |].
  intros s Hs. apply list_elem_of_In, list_elem_of_fmap in Hs as (kv & -> & Hin%list_elem_of_In).
  apply (no_semicolon_param NUL). exact (proj1 (forallb_forall _ _) H _ Hin).
Qed.

(** The three shapes of what follows host and port, as [end_of_uri_part] sees them. *)
Lemma end_of_uri_part_params hp t :
  mem ";" hp = false -> end_of_uri_part (hp ++ ";" ++ t) = length hp.
Proof. intros H. unfold end_of_uri_part. by rewrite IndexByte_app_cons. Qed.

Lemma end_of_uri_part_headers hp t :
  mem ";" hp = false -> mem ";" t = false -> mem "?" hp = false ->
  end_of_uri_part (hp ++ "?" ++ t) = length hp.
Proof.
  intros H1 H2 H3. unfold end_of_uri_part.
  rewrite (proj2 (IndexByte_None _ _)) by (by rewrite !mem_app, H1, H2).
  by rewrite IndexByte_app_cons.
Qed.

Lemma end_of_uri_part_end hp :
  mem ";" hp = false -> mem "?" hp = false -> end_of_uri_part hp = length hp.
Proof.
  intros H1 H2. unfold end_of_uri_part.
  by rewrite !(proj2 (IndexByte_None _ _)).
Qed.

Lemma hostport_no c h port :
  host_byte c = false -> is_digit c = false -> beq c ":" = false ->
  forallb host_byte h = true -> mem c (h ++ port_string port) = false.
Proof.
  intros H1 H2 H3 Hh. rewrite mem_app, (mem_forallb c host_byte h) by done.
  destruct port as [n|]; [| done]. cbn [port_string]. rewrite mem_app.
  rewrite (mem_digits c (show_N n)) by (done || apply show_N_all_digits).
  cbn. by rewrite H3.
Qed.

Lemma params_suffix_entries i sep p :
  wf p -> params_suffix i sep (Some p) =
          match entries p with [] => [] | _ => [i] ++ ToString p sep end.
Proof. intros Hw. unfold params_suffix. rewrite Length_zero by done. by destruct (entries p). Qed.

(** The headers of a URI, or nothing. *)
Lemma parse_headers_clean q :
  wf q -> forallb (fun kv => clean_param NUL kv && isSome kv.2) (entries q) = true ->
  parse_params (params_suffix "?" "&" (Some q)) "?" "&" NUL true false
  = Ok (q, length (params_suffix "?" "&" (Some q))).
Proof.
  intros Hw Hc. unfold params_suffix. rewrite Length_zero by done.
  destruct (entries q) as [|kv es] eqn:E.
  - rewrite <- (add_all_entries q Hw), E. done.
  - unfold parse_params. rewrite <- (app_nil_r (ToString q "&")) at 1.
    rewrite ParseParams_ToString; try done; rewrite ?E; try done.
    + apply forallb_forall. intros x Hx. rewrite forallb_forall in Hc.
      by apply Hc, andb_true_iff in Hx as [Hx _].
    + apply Forall_forall. intros x Hx%list_elem_of_In. rewrite forallb_forall in Hc.
      apply Hc, andb_true_iff in Hx as [_ Hx]. intros Hn. by rewrite Hn in Hx.
    + by left.
Qed.

Lemma clean_params_parts p :
  forallb (fun kv => clean_param "?" kv && negb (is_quoted kv)) (entries p) = true ->
  forallb (clean_param "?") (entries p) = true /\
  forallb (fun kv => negb (is_quoted kv)) (entries p) = true.
Proof.
  intros H. rewrite forallb_forall in H.
  split; apply forallb_forall; intros x Hx; apply H, andb_true_iff in Hx; tauto.
Qed.

Lemma clean_headers_parts q :
  forallb (fun kv => clean_param NUL kv && isSome kv.2) (entries q) = true ->
  forallb (clean_param NUL) (entries q) = true.
Proof.
  intros H. rewrite forallb_forall in H.
  apply forallb_forall; intros x Hx; apply H, andb_true_iff in Hx; tauto.
Qed.

(** The parameters of a URI, when it has some, up to its headers. *)
Lemma parse_uri_params_clean p q :
  wf p -> entries p <> [] -> wf q ->
  forallb (fun kv => clean_param "?" kv && negb (is_quoted kv)) (entries p) = true ->
  parse_params (";" ++ ToString p ";" ++ params_suffix "?" "&" (Some q)) ";" ";" "?" true true
  = Ok (p, S (length (ToString p ";"))).
Proof.
  intros Hw Hne Hq Hc. apply clean_params_parts in Hc as [Hc1 Hc2]. unfold parse_params.
  cbn [app]. rewrite (ParseParams_ToString p ";" ";" "?" true); try done.
  - by apply Forall_forall.
  - unfold params_suffix. rewrite Length_zero by done.
    destruct (entries q); [by left |]. right. eauto.
Qed.

Lemma parse_uri_rest_clean u p q :
  clean_uri u p q ->
  parse_uri_rest (FIsEncrypted u) (FUser u) (FPassword u)
    (Escape (FHost u) EncodeHost ++ port_string (FPort u) ++
     params_suffix ";" ";" (Some p) ++ params_suffix "?" "&" (Some q))
  = Ok u.
Proof.
  intros [_ _ Hh Hp [Ep Hwp] Hcp [Eq Hwq] Hcq _].
  assert (u = mkSipUri (FIsEncrypted u) (FUser u) (FPassword u) (FHost u) (FPort u)
            (Some p) (Some q)) as Eu by (destruct u; simpl in *; congruence).
  pose proof (ParseHostPort_clean (FHost u) (FPort u) Hh Hp) as Hhp.
  apply andb_true_iff in Hh as [Hh _]. rewrite Escape_host by done.
  rewrite app_assoc. set (hp := FHost u ++ port_string (FPort u)) in *.
  assert (mem ";" hp = false) as H1 by (by apply hostport_no).
  assert (mem "?" hp = false) as H2 by (by apply hostport_no).
  pose proof (parse_headers_clean q Hwq Hcq) as Hph.
  pose proof (parse_uri_params_clean p q Hwp) as Hpp.
  pose proof (no_semicolon_headers q (clean_headers_parts q Hcq)) as Hsc.
  pose proof (add_all_entries p Hwp) as Hap. pose proof (add_all_entries q Hwq) as Haq.
  rewrite (params_suffix_entries _ _ p Hwp). unfold parse_uri_rest.
  destruct (entries p) as [|kp esp] eqn:E1.
  - rewrite app_nil_l. rewrite (params_suffix_entries _ _ q Hwq) in *.
    destruct (entries q) as [|kq esq] eqn:E2.
    + rewrite app_nil_r, end_of_uri_part_end, firstn_all, drop_all, Hhp by done.
      cbn [mbind res_bind]. rewrite Eu. by rewrite <- Hap, <- Haq.
    + rewrite end_of_uri_part_headers, take_app_length, drop_app_length, Hhp by done.
      cbn [mbind res_bind app] in *. change (beq "?" ";") with false.
      cbn [mbind res_bind drop]. rewrite Hph. cbn [mbind res_bind].
      rewrite drop_all, Eu, <- Hap. done.
  - rewrite <- (app_assoc ";").
    rewrite end_of_uri_part_params, take_app_length, drop_app_length, Hhp by done.
    cbn [mbind res_bind app] in *. rewrite (beq_refl ";"), Hpp by done.
    cbn [mbind res_bind drop].
    rewrite drop_app_length, Hph. cbn [mbind res_bind]. by rewrite drop_all, <- Eu.
Qed.

Lemma ParseSipUri_String u p q : clean_uri u p q -> ParseSipUri (SipUri_String u) = Ok u.
Proof.
  intros Hc. pose proof (parse_uri_rest_clean u p q Hc) as Hr.
  destruct Hc as [Hu [Hp Hup] Hh _ [Ep _] _ [Eq _] _ Hat].
  assert (parse_userinfo (userinfo_string (FUser u) (FPassword u) ++
    Escape (FHost u) EncodeHost ++ port_string (FPort u) ++
    params_suffix ";" ";" (Some p) ++ params_suffix "?" "&" (Some q)) = Ok (FUser u, FPassword u,
    Escape (FHost u) EncodeHost ++ port_string (FPort u) ++
    params_suffix ";" ";" (Some p) ++ params_suffix "?" "&" (Some q))) as Hi.
  { apply parse_userinfo_clean; try done. intros Hn. apply andb_true_iff in Hh as [Hh _].
    rewrite Escape_host by done. rewrite app_assoc, mem_app, Hat by done.
    by rewrite hostport_no. }
  unfold SipUri_String. rewrite Ep, Eq. unfold ParseSipUri.
  set (rest := userinfo_string _ _ ++ _) in *. clearbody rest.
  assert (forall t, slice ("sip" ++ t) 0 3 = Ok "sip") as Hsl
    by (intros t; by apply (slice_mid [] "sip" t)).
  destruct (FIsEncrypted u).
  - change ("sips:" ++ rest) with ("sip" ++ "s:" ++ rest). rewrite Hsl. cbn [mbind res_bind].
    change (streq (ToLower "sip") "sip") with true. cbn [negb drop app].
    change (streq (ToLower ["s"%char]) "s") with true. change (beq ":" ":") with true.
    cbn [negb]. rewrite Hi. exact Hr.
  - change ("sip:" ++ rest) with ("sip" ++ ":" ++ rest). rewrite Hsl. cbn [mbind res_bind].
    change (streq (ToLower "sip") "sip") with true. cbn [negb drop app].
    change (streq (ToLower [":"%char]) "s") with false. cbv iota. change (beq ":" ":") with true.
    cbn [negb]. rewrite Hi. exact Hr.
Qed.

Lemma ParseUri_String u p q :
  clean_uri u p q -> ParseUri (Uri_String (SipUriPtr u)) = Ok (SipUriPtr u).
Proof.
  intros Hc. pose proof (ParseSipUri_String u p q Hc) as Hs. unfold ParseUri. cbn [Uri_String].
  assert (exists t, SipUri_String u = "s"%char :: t) as [t Et].
  { unfold SipUri_String. destruct (FIsEncrypted u); by eexists. }
  assert (streq (TrimSpace (SipUri_String u)) "*" = false) as ->
    by (rewrite Et; by apply not_star).
  rewrite Hs. clear Hs Et. unfold SipUri_String. by destruct (FIsEncrypted u).
Qed.

End UriRoundTrip.
