(* ===== verification/NoPanic.v ===== *)
(** * Parsing never leaves its strings

    Every slice and index the parsing functions take is in range, so they
    return a value or an error for every input; the address parser is the
    exception, and [ParserTheorems] shows inputs on which it panics. *)

From S2P Require Import Prelude GoStrings Escape Params Headers ParserCommon UriRoundTrip.
From stdpp Require Import options.
Import Escape Params Headers ParserCommon UriRoundTrip.

Module NoPanic.

(** ** The error monad *)

Lemma bind_np {A B} (m : res A) (f : A -> res B) :
  m <> Panic -> (forall a, m = Ok a -> f a <> Panic) -> m ≫= f <> Panic.
Proof. destruct m; simpl; auto. Qed.

Lemma fmap_np {A B} (m : res A) (f : A -> B) : m <> Panic -> f <$> m <> Panic.
Proof. by destruct m. Qed.

Lemma wrap_np {A} fmt (m : res A) : m <> Panic -> wrap_err fmt m <> Panic.
Proof. by destruct m. Qed.

Lemma slice_np s i j : i <= j <= length s -> slice s i j <> Panic.
Proof. intros H. unfold slice. by rewrite decide_True. Qed.

#[export] Hint Resolve bind_np fmap_np wrap_np slice_np Unescape_no_panic ParseUint_no_panic : nopanic.

(** Steps through binds, matches and tests until a returned value is in sight. *)
Ltac np :=
  repeat (first
    [ discriminate
    | progress intros
    | apply wrap_np
    | apply fmap_np
    | apply Unescape_no_panic
    | apply ParseUint_no_panic
    | apply bind_np
    | assumption
    | match goal with
      | |- (let '_ := ?x in _) <> Panic => destruct x eqn:?
      | |- (match ?x with _ => _ end) <> Panic => destruct x eqn:?
      end ]).

(** ** URIs *)

Lemma host_of_raw_np h : host_of_raw h <> Panic.
Proof.
  unfold host_of_raw. apply bind_np; [| np].
  destruct (HasPrefix h "["); [| done].
  destruct (Index h "%25") as [zone|] eqn:E; [| done].
  apply Index_bound in E. simpl in E.
  apply bind_np; [np |]. intros h1 _. apply bind_np; [apply slice_np; lia | np].
Qed.

Lemma ParseHostPort_np s : ParseHostPort s <> Panic.
Proof.
  unfold ParseHostPort. destruct (LastIndexByte s ":");
    (apply bind_np; [apply host_of_raw_np | np]).
Qed.

Lemma parse_params_np s st sep e q p : parse_params s st sep e q p <> Panic.
Proof. unfold parse_params. np. Qed.

Lemma IndexByte_nth s c i : IndexByte s c = Some i -> s !! i = Some c.
Proof.
  intros H. pose proof (IndexByte_lt _ _ _ H) as Hl. apply IndexByte_Some in H as [H _].
  rewrite H, lookup_app_r; rewrite length_take; [| lia].
  by replace (i - i `min` length s) with 0 by lia.
Qed.

Lemma parse_userinfo_np s : parse_userinfo s <> Panic.
Proof.
  unfold parse_userinfo. destruct (IndexByte s "@") as [e|] eqn:Ee; [| done].
  pose proof (IndexByte_lt _ _ _ Ee) as He. apply IndexByte_nth in Ee.
  destruct (IndexByte s ":") as [i|] eqn:Ei; [| np].
  apply IndexByte_nth in Ei. destruct (e <? i) eqn:El; [np |].
  apply Nat.ltb_ge in El. apply bind_np; [np |]. intros u _.
  apply bind_np; [| np]. apply slice_np. assert (i <> e) by congruence. lia.
Qed.

Lemma parse_uri_rest_np e u p s : parse_uri_rest e u p s <> Panic.
Proof.
  unfold parse_uri_rest. apply bind_np; [apply ParseHostPort_np |]. intros [h port] _.
  destruct (drop _ s) as [|c t]; [done |]. apply bind_np.
  - destruct (beq c ";"); [apply parse_params_np | done].
  - intros [ps n] _. apply bind_np; [apply parse_params_np | np].
Qed.

Lemma ParseSipUri_np s : 3 <= length s -> ParseSipUri s <> Panic.
Proof.
  intros Hl. unfold ParseSipUri. apply bind_np; [apply slice_np; lia |]. intros scheme _.
  destruct (negb _); [done |]. destruct (drop 3 s) as [|c t]; [done |].
  destruct (streq (ToLower [c]) "s").
  - destruct t as [|d t]; [done |]. destruct (negb _); [done |].
    apply bind_np; [apply parse_userinfo_np |]. intros [[u p] r] _. apply parse_uri_rest_np.
  - destruct (negb _); [done |].
    apply bind_np; [apply parse_userinfo_np |]. intros [[u p] r] _. apply parse_uri_rest_np.
Qed.

Lemma ParseUri_np s : ParseUri s <> Panic.
Proof.
  unfold ParseUri. destruct (streq _ "*"); [done |].
  destruct (IndexByte s ":") as [i|] eqn:E; [| done].
  destruct (_ || _) eqn:Es; [| done]. apply fmap_np, ParseSipUri_np.
  assert (3 <= length (take i s)) as H.
  { apply orb_true_iff in Es as [Es|Es]; apply streq_eq, (f_equal length) in Es;
      unfold ToLower in Es; rewrite length_map in Es; simpl in Es; lia. }
  rewrite length_take in H. lia.
Qed.

Lemma ParseRequestLine_np s : ParseRequestLine s <> Panic.
Proof.
  unfold ParseRequestLine. destruct (Split s " ") as [|a [|b [|c [|d l]]]]; try done.
  apply bind_np; [apply ParseUri_np | np].
Qed.

Lemma ParseStatusLine_np s : ParseStatusLine s <> Panic.
Proof.
  unfold ParseStatusLine. destruct (Split s " ") as [|a [|b [|c l]]]; try done. np.
Qed.

(** ** Via *)

Lemma TrimLeft_length s cut : length (TrimLeft s cut) <= length s.
Proof. induction s as [|c s IH]; simpl; [done |]. destruct (mem c cut); simpl; lia. Qed.

Lemma IndexAny_lt s chars i : IndexAny s chars = Some i -> i < length s.
Proof.
  revert i. induction s as [|c s IH]; intros i H; simpl in *; [done |].
  destruct (mem c chars); [simplify_eq; lia |].
  apply fmap_Some in H as (j & Hj & ->). apply IH in Hj. lia.
Qed.

Lemma via_protocol_np s : via_protocol s <> Panic.
Proof.
  unfold via_protocol. destruct (Split s "/") as [|a [|b [|c l]]]; try done.
  set (part := Join (c :: l) "/"). clearbody part.
  pose proof (TrimLeft_length part abnfWs) as Hl.
  set (n := length part - length (TrimLeft part abnfWs)).
  assert (match IndexAny (drop n part) abnfWs with Some i => i + n + 1 | None => n end
          <= length part) as Hb.
  { destruct (IndexAny _ _) as [i|] eqn:E; [| unfold n; lia].
    apply IndexAny_lt in E. rewrite length_drop in E. lia. }
  destruct (_ =? 0); [done |]. destruct (_ =? 1); [done |].
  apply bind_np; [apply slice_np; lia |]. intros t _.
  apply bind_np; [apply slice_np; lia | np].
Qed.

Lemma via_hop_np n v t b : via_hop n v t b <> Panic.
Proof.
  unfold via_hop. destruct (IndexByte b ";") as [i|];
    (apply bind_np; [apply ParseHostPort_np | intros [h p] _]); [| done].
  by destruct (ParseParams _ _ _ _ _ _) as [[ps ?] e].
Qed.

Lemma via_loop_np l err via : via_loop l err via <> Panic.
Proof.
  revert err via. induction l as [|s l IH]; intros err via; cbn [via_loop].
  - by destruct err.
  - apply bind_np; [apply via_protocol_np |]. intros [[[n v] t] b] _.
    destruct n, v, t; try done. destruct err; [done |].
    apply bind_np; [apply via_hop_np |]. intros [hop e] _. apply IH.
Qed.

Lemma parseViaHeader_np n s : parseViaHeader n s <> Panic.
Proof. unfold parseViaHeader. apply bind_np; [apply via_loop_np | np]. Qed.

Lemma parseCSeq_np n s : parseCSeq n s <> Panic.
Proof.
  unfold parseCSeq. destruct (SplitByWhitespace s) as [|a [|b [|c l]]]; try done. np.
Qed.

Lemma parseCallId_np n s : parseCallId n s <> Panic.
Proof. unfold parseCallId. np. Qed.

End NoPanic.
