(* ===== verification/Packet.v ===== *)
(** * The packet parser: src/sip/parser/packet.go

    [ParseMessage] parses one datagram: a start line, folded header lines and
    a body.  A message is a request or a response; [uuid] is the identifier
    the constructor draws when it gets none. *)

From S2P Require Import Prelude GoStrings Escape Params Headers HeaderStore Message ParserCommon UriRoundTrip NoPanic.
From stdpp Require Import options.
Import Params Headers HeaderStore Message ParserCommon NoPanic.

Module Packet.

Inductive msg : Type :=
| MRequest (r : request)
| MResponse (r : response).

Definition msg_map (f : message -> message) (m : msg) : msg :=
  match m with
  | MRequest r => MRequest (rq_map f r)
  | MResponse r => MResponse (rs_map f r)
  end.

Definition msg_of (m : msg) : message :=
  match m with MRequest r => rq_msg r | MResponse r => rs_msg r end.

Definition msg_String (m : msg) : bytes :=
  match m with MRequest r => request_String r | MResponse r => response_String r end.

Definition msg_AppendHeader (m : msg) (h : Header) : msg :=
  msg_map (fun x => with_hdrs x (AppendHeader (hdrs x) h)) m.

(** What [Fields] and [Short] evaluate. *)
Definition msg_shown (m : msg) : res unit :=
  match m with MRequest r => request_shown r | MResponse r => response_shown r end.

Lemma msg_shown_cases m : msg_shown m = Ok tt \/ msg_shown m = Panic.
Proof.
  assert (forall v, MaybeString_String v = Panic \/ exists s, MaybeString_String v = Ok s) as Hm
    by (intros [s|]; cbn; eauto).
  assert (forall r, request_Transport r = Panic \/ exists t, request_Transport r = Ok t) as Ht.
  { intros r. unfold request_Transport, uri_transport. destruct (tp _); [| eauto].
    destruct (match route_uri _ with Some _ => _ | None => _ end) as [u|]; [| cbn; eauto].
    destruct (Uri_UriParams u) as [ps|]; [| cbn; eauto]. destruct (Get ps "transport") as [v|]; [| cbn; eauto].
    destruct (Hm v) as [-> | [s ->]]; cbn; eauto. }
  assert (forall hop t, (t = Panic \/ exists s, t = Ok s) -> via_target hop t = Panic \/ exists s, via_target hop t = Ok s) as Hv.
  { intros hop t Hs. unfold via_target. assert (exists p, p = match Port hop with Some p => Ok p | None => DefaultPort <$> t end /\
      (p = Panic \/ exists n, p = Ok n)) as (p & <- & [-> | [n ->]]); [| by left |].
    - eexists. split; [done |]. destruct (Port hop); [eauto |]. destruct Hs as [-> | [s ->]]; cbn; eauto.
    - cbn. destruct (vh_params hop) as [ps|]; [| eauto]. destruct (Get ps "received") as [v|]; [| cbn; eauto].
      destruct (Hm v) as [-> | [s ->]]; cbn; eauto. }
  destruct m as [r|r]; cbn [msg_shown]; unfold request_shown, response_shown.
  - destruct (Ht r) as [-> | [t Et]]; [by right |]. rewrite Et. cbn [mbind res_bind]. unfold request_Source.
    destruct (match src (rq_msg r) with [] => _ | _ => _ end) as [s|e|] eqn:Es; [| | by right].
    + cbn [mbind res_bind]. unfold request_Destination. destruct (dest (rq_msg r)); [| by left].
      rewrite Et. destruct (route_uri _) as [[| |]|]; try (by right).
      * cbn. destruct (FPort _); by left.
      * destruct (recipient r) as [[| |]|]; try (by left). cbn. destruct (FPort _); by left.
    + exfalso. destruct (src (rq_msg r)); [| done]. destruct (ViaHop_ _) as [hop|]; [| done].
      destruct (Hv hop (request_Transport r) (Ht r)) as [E|[? E]]; congruence.
  - unfold response_Destination. destruct (dest _); [| by left]. destruct (ViaHop_ _) as [hop|]; [| by left].
    destruct (Hv hop (Ok (response_Transport r))) as [-> | [s ->]]; [eauto | by right | by left].
Qed.

(** ** The registry of header parsers *)

Record PacketParser : Type := mkPacketParser {
  headerParsers : gmap (list ascii) HeaderParser
}.

Definition SetHeaderParser (pp : PacketParser) (headerName : bytes) (p : HeaderParser)
    : PacketParser :=
  mkPacketParser (<[ToLower headerName := p]> (headerParsers pp)).

Definition NewPacketParser : PacketParser :=
  foldl (fun pp np => SetHeaderParser pp np.1 np.2) (mkPacketParser ∅) defaultHeaderParsers.

Definition ParseHeader (pp : PacketParser) (headerText : bytes) : res (list Header) :=
  match IndexByte headerText ":" with
  | None => Err (Errorf "field name with no value in header: %s")
  | Some colonIdx =>
      let fieldName := TrimSpace (take colonIdx headerText) in
      let lowerFieldName := ToLower fieldName in
      let fieldText := TrimSpace (drop (colonIdx + 1) headerText) in
      match headerParsers pp !! lowerFieldName with
      | Some headerParser => headerParser lowerFieldName fieldText
      | None => Ok [HGeneric fieldName fieldText]
      end
  end.

(** ** Header lines *)

(** [flushBuffer]: a header that does not parse is skipped. *)
Definition flushBuffer (pp : PacketParser) (buffer : bytes) (hs : list Header)
    : res (list Header) :=
  match buffer with
  | [] => Ok hs
  | _ :: _ =>
      match ParseHeader pp buffer with
      | Ok new => Ok (hs ++ new)
      | Err _ => Ok hs
      | Panic => Panic
      end
  end.

(** The loop over the lines; [line[0]] panics on an empty line.  A continuation line
    at the start is discarded, and [msg.Short()] evaluated for the log. *)
Fixpoint fill_loop (pp : PacketParser) (m : msg) (lines : list bytes) (buffer : bytes) (hs : list Header)
    : res (list Header) :=
  match lines with
  | [] => flushBuffer pp buffer hs
  | line :: rest =>
      c ← at_ line 0;
      match Contains abnfWs (string_of_byte c), buffer with
      | false, _ => hs ← flushBuffer pp buffer hs; fill_loop pp m rest line hs
      | true, _ :: _ => fill_loop pp m rest (buffer ++ " " ++ line) hs
      | true, [] => _ ← msg_shown m; fill_loop pp m rest buffer hs
      end
  end.

Definition fillHeaders (pp : PacketParser) (m : msg) (lines : list bytes) : res msg :=
  hs ← fill_loop pp m lines [] [];
  Ok (foldl msg_AppendHeader m hs).

Definition fillBody (m : msg) (body : bytes) (bodyLen : nat) : res msg :=
  if negb (length body =? bodyLen) then
    Err (BrokenMessageError
           (Errorf "incomplete message body: read %d bytes, expected %d bytes") (msg_String m))
  else if streq (TrimSpace body) "" then Ok m
  else Ok (msg_map (fun x => SetBody x body false) m).

Definition parseStartLine (uuid : bytes) (startLine : bytes) : res msg :=
  if isRequest startLine then
    '(meth, rcpt, version) ← ParseRequestLine startLine;
    Ok (MRequest (NewRequest uuid [] meth (Some rcpt) version [] []))
  else if isResponse startLine then
    '(version, code, rsn) ← ParseStatusLine startLine;
    Ok (MResponse (NewResponse uuid [] version code rsn [] []))
  else Err (Errorf "transmission beginning '%s' is not a SIP message").

(** The error of [parseStartLine] is formatted into an InvalidStartLineError. *)
Definition start_line_error {A} (m : res A) : res A :=
  match m with Err e => Err (InvalidStartLineError e) | r => r end.

Definition nonempty_lines (lines : list bytes) : list bytes :=
  filter (fun l => l <> []) lines.

Definition ParseMessage (pp : PacketParser) (uuid : bytes) (data : bytes) : res msg :=
  match getBodyLength data with
  | None => Err InvalidMessageFormat
  | Some bodyLen =>
      let bodyStart := length data - bodyLen in
      match nonempty_lines (Split (take bodyStart data) CRLF) with
      | [] => Err InvalidMessageFormat
      | startLine :: lines =>
          m ← start_line_error (parseStartLine uuid startLine);
          m ← fillHeaders pp m lines;
          fillBody m (drop bodyStart data) bodyLen
      end
  end.

End Packet.
