(* ===== verification/Stream.v ===== *)
(** * The stream parser: src/sip/parser/stream.go and parserbuffer.go

    The parser goroutine reads a pipe that [Write] fills.  Its state here is
    the bytes written and not yet consumed by a finished iteration of the
    loop of [parse]; a read that has to block is [Wait], and the iteration is
    tried again from its start when more bytes are there, which reads the
    same lines again.  [Stop] closes the pipe: the bytes the buffered reader
    already holds are still read, then every read fails.  Messages and errors
    sent on the two channels are one list of events in the order of sending. *)

From S2P Require Import Prelude GoStrings Escape Params Headers HeaderStore Message ParserCommon UriRoundTrip NoPanic Packet.
From stdpp Require Import options.
Import Params Headers HeaderStore Message ParserCommon NoPanic Packet.

Module Stream.

(** ** parserBuffer *)

Inductive read (A : Type) : Type :=
| Got (a : A) (rest : bytes)
| Closed
| Wait.
Arguments Got {A} a rest.
Arguments Closed {A}.
Arguments Wait {A}.

(** [ReadString('\r')] and one more byte, until that byte is a line feed: the
    byte after a carriage return is consumed with it. *)
Fixpoint scan_line (s : bytes) : option (bytes * bytes) :=
  match s with
  | [] => None
  | c :: s' =>
      if beq c CR then
        match s' with
        | [] => None
        | b :: s'' =>
            if beq b LF then Some ([], s'')
            else '(l, rest) ← scan_line s''; Some (CR :: b :: l, rest)
        end
      else '(l, rest) ← scan_line s'; Some (c :: l, rest)
  end.

Definition NextLine (closed : bool) (input : bytes) : read bytes :=
  match scan_line input with
  | Some (line, rest) => Got line rest
  | None => if closed then Closed else Wait
  end.

(** [make([]byte, n)] panics for a negative [n]. *)
Definition NextChunk (closed : bool) (n : Z) (input : bytes) : res (read bytes) :=
  if (n <? 0)%Z then Panic
  else if Z.to_nat n <=? length input
       then Ok (Got (take (Z.to_nat n) input) (drop (Z.to_nat n) input))
       else Ok (if closed then Closed else Wait).

(** ** The parser *)

Inductive event : Type :=
| Output (m : msg)
| Errs (e : error).

(** What one iteration of the loop does: goes on with the rest of the input,
    blocks, leaves the loop. *)
Inductive iteration : Type :=
| Next (skipStreamedErr : bool) (rest : bytes) (events : list event)
| Block
| Break.

(** The header lines up to the empty one, or up to a failing read.  Every
    line takes two bytes at least, so the length of the input is fuel enough
    ([header_lines_eq]). *)
Fixpoint header_lines_fuel (fuel : nat) (closed : bool) (input : bytes) : read (list bytes) :=
  match fuel with
  | 0 => Wait
  | S fuel =>
      match NextLine closed input with
      | Got [] rest => Got [] rest
      | Got line rest =>
          match header_lines_fuel fuel closed rest with
          | Got lines rest => Got (line :: lines) rest
          | r => r
          end
      | Closed => Got [] []
      | Wait => Wait
      end
  end.

Definition header_lines (closed : bool) (input : bytes) : read (list bytes) :=
  header_lines_fuel (S (length input)) closed input.

(** The [bodyLen|msgLen] line before a datagram: [None] is [continue]. *)
Definition frame_lengths (line : bytes) : option (Z * Z) :=
  match Split line "|" with
  | [b; m] =>
      match Atoi b, Atoi m with
      | Ok bodyLen, Ok msgLen => Some (bodyLen, msgLen)
      | _, _ => None
      end
  | _ => None
  end.

Definition missing_length : error := Errorf "missing required 'Content-Length' header".
Definition multiple_lengths : error :=
  Errorf "multiple 'Content-Length' headers on message".

(** The body of the message, [contentLength] bytes. *)
Definition read_body (closed : bool) (m : msg) (contentLength : Z) (input : bytes)
    : res iteration :=
  r ← NextChunk closed contentLength input;
  match r with
  | Got body rest =>
      match fillBody m body (Z.to_nat contentLength) with
      | Ok m => Ok (Next false rest [Output m])
      | Err e => Ok (Next false rest [Errs e])
      | Panic => Panic
      end
  | Closed =>
      Ok (Next false [] [Errs (BrokenMessageError
            (Wrapf "read message body failed: %w" ErrClosedPipe) (msg_String m))])
  | Wait => Ok Block
  end.

(** After the header lines of a message; [bodyLen] is set for datagrams only. *)
Definition read_rest (closed : bool) (bodyLen : option Z) (m : msg) (input : bytes)
    : res iteration :=
  match bodyLen with
  | Some n => read_body closed m n input
  | None =>
      match GetHeaders (hdrs (msg_of m)) "Content-Length" with
      | [] => Ok (Next true input [Errs (MalformedMessageError missing_length (msg_String m))])
      | [HContentLength n] => read_body closed m (Z.of_N n) input
      | [_] => Panic
      | _ => _ ← msg_shown m; Ok (Next true input [Errs (MalformedMessageError multiple_lengths (msg_String m))])
      end
  end.

(** A start line that does not parse: a stream reports the first of a run of
    such lines, a datagram is skipped to its end. *)
Definition bad_start_line (closed skip : bool) (msgLen : option Z) (startLine : bytes)
    (e : error) (input : bytes) : res iteration :=
  match msgLen with
  | None => Ok (Next true input (if skip then [] else [Errs (InvalidStartLineError e)]))
  | Some n =>
      r ← NextChunk closed (n - Z.of_nat (length startLine) - 2) input;
      match r with
      | Got _ rest => Ok (Next skip rest [Errs (InvalidStartLineError e)])
      | Closed => Ok (Next skip [] [Errs (InvalidStartLineError e)])
      | Wait => Ok Block
      end
  end.

(** From the start line on. *)
Definition read_message (pp : PacketParser) (uuid : bytes) (closed skip : bool)
    (lens : option (Z * Z)) (input : bytes) : res iteration :=
  match NextLine closed input with
  | Closed => Ok Break
  | Wait => Ok Block
  | Got startLine input =>
      match parseStartLine uuid startLine with
      | Panic => Panic
      | Err e => bad_start_line closed skip (snd <$> lens) startLine e input
      | Ok m =>
          match header_lines closed input with
          | Got lines input =>
              m ← fillHeaders pp m lines;
              read_rest closed (fst <$> lens) m input
          | Closed => Ok Break
          | Wait => Ok Block
          end
      end
  end.

Definition parse_iteration (pp : PacketParser) (uuid : bytes) (streamed closed skip : bool)
    (input : bytes) : res iteration :=
  if streamed then read_message pp uuid closed skip None input
  else
    match NextLine closed input with
    | Closed => Ok Break
    | Wait => Ok Block
    | Got line input' =>
        match frame_lengths line with
        | None => Ok (Next skip input' [])
        | Some lens => read_message pp uuid closed skip (Some lens) input'
        end
    end.

(** ** The parser's state and operations *)

Inductive goroutine : Type := Reading | Finished | Crashed.

Record parser : Type := mkParser {
  p_pp : PacketParser;
  p_streamed : bool;
  p_skip : bool;
  p_input : bytes;
  p_closed : bool;
  p_goroutine : goroutine;
  p_drawn : nat;
  p_events : list event
}.

Section operations.

(** The identifier the n-th message gets. *)
Variable uuid : nat -> bytes.

(** Runs the loop of [parse] until it blocks or ends. *)
Fixpoint parse_loop (fuel : nat) (p : parser) : parser :=
  match fuel, p_goroutine p with
  | S fuel, Reading =>
      match parse_iteration (p_pp p) (uuid (p_drawn p)) (p_streamed p) (p_closed p)
              (p_skip p) (p_input p) with
      | Ok (Next skip rest events) =>
          parse_loop fuel
            (mkParser (p_pp p) (p_streamed p) skip rest (p_closed p) Reading
               (S (p_drawn p)) (p_events p ++ events))
      | Ok Block => p
      | Ok Break =>
          mkParser (p_pp p) (p_streamed p) (p_skip p) [] (p_closed p) Finished
            (p_drawn p) (p_events p)
      | Err _ | Panic =>
          mkParser (p_pp p) (p_streamed p) (p_skip p) (p_input p) (p_closed p) Crashed
            (p_drawn p) (p_events p)
      end
  | _, _ => p
  end.

(** An iteration that goes on has read two bytes or more, so the length of
    the input is fuel enough. *)
Definition parse (p : parser) : parser := parse_loop (S (length (p_input p))) p.

Definition NewParser (pp : PacketParser) (streamed : bool) : parser :=
  mkParser pp streamed false [] false Reading 0 [].

Definition frame (bl : nat) (data : bytes) : bytes :=
  show_N (N.of_nat bl) ++ "|" ++ show_N (N.of_nat (length data)) ++ CRLF ++ data.

Definition append_input (p : parser) (data : bytes) : parser :=
  mkParser (p_pp p) (p_streamed p) (p_skip p) (p_input p ++ data) (p_closed p)
    (p_goroutine p) (p_drawn p) (p_events p).

(** [Write], with the goroutine run as far as the new bytes take it. *)
Definition Write (p : parser) (data : bytes) : parser * option error :=
  if p_closed p then (p, Some (Errorf "cannot write data to stopped %s"))
  else if p_streamed p then (parse (append_input p data), None)
  else match getBodyLength data with
       | None => (p, Some InvalidMessageFormat)
       | Some bl => (parse (append_input p (frame bl data)), None)
       end.

(** [Stop]: the buffered reader holds the first [held] unread bytes. *)
Definition Stop (held : nat) (p : parser) : parser :=
  if p_closed p then p
  else parse (mkParser (p_pp p) (p_streamed p) (p_skip p) (take held (p_input p)) true
                (p_goroutine p) (p_drawn p) (p_events p)).

(** [Reset] starts a new goroutine on a new pipe. *)
Definition Reset (held : nat) (p : parser) : parser :=
  let p := Stop held p in
  match p_goroutine p with
  | Crashed => p
  | _ => mkParser (p_pp p) (p_streamed p) false [] false Reading (p_drawn p) (p_events p)
  end.

End operations.

End Stream.
