(* ===== verification/StreamProofs.v ===== *)
(** * The stream parser does not depend on how the bytes arrive

    The iterations of [parse] read a finite prefix of the input and leave the
    rest, so writing two pieces is writing their concatenation; and a
    datagram goes through the framing of [Write] as it goes through the
    packet parser. *)

From S2P Require Import Prelude GoStrings Escape Params Headers HeaderStore Message ParserCommon UriRoundTrip NoPanic Packet Stream.
From stdpp Require Import options.
Import Params Headers HeaderStore Message ParserCommon NoPanic Packet Stream.

Module StreamProofs.

(** ** Reading lines *)

(** [scan_line] by its own steps: at most two bytes at a time. *)
Lemma scan_ind (P : bytes -> Prop) :
  P [] -> (forall c s, P s -> (forall b s', s = b :: s' -> P s') -> P (c :: s)) -> forall s, P s.
Proof.
  intros H0 Hc s. assert (P s /\ forall b s', s = b :: s' -> P s') as [H _]; [| done].
  induction s as [|c s [IH1 IH2]]; [split; [done | discriminate] |].
  split; [by apply Hc | by intros ? ? [= <- <-]].
Qed.

Lemma scan_line_app s t l r :
  scan_line s = Some (l, r) -> scan_line (s ++ t) = Some (l, r ++ t).
Proof.
  revert l r. induction s as [|c s IH IH'] using scan_ind; intros l r H; [done |].
  cbn [scan_line app] in *. destruct (beq c CR).
  - destruct s as [|b s]; [done |]. cbn [app]. destruct (beq b LF); [by simplify_eq |].
    apply bind_Some in H as ([l' r'] & H & [= <- <-]).
    by rewrite (IH' b s eq_refl _ _ H).
  - apply bind_Some in H as ([l' r'] & H & [= <- <-]). by rewrite (IH _ _ H).
Qed.

Lemma scan_line_length s l r : scan_line s = Some (l, r) -> length r + 2 <= length s.
Proof.
  revert l r. induction s as [|c s IH IH'] using scan_ind; intros l r H; [done |].
  cbn [scan_line length] in *. destruct (beq c CR).
  - destruct s as [|b s]; [done |]. cbn [length]. destruct (beq b LF).
    + simplify_eq. lia.
    + apply bind_Some in H as ([l' r'] & H & [= <- <-]). apply (IH' b s eq_refl) in H. lia.
  - apply bind_Some in H as ([l' r'] & H & [= <- <-]). apply IH in H. lia.
Qed.

Lemma NextLine_length closed s l r : NextLine closed s = Got l r -> length r + 2 <= length s.
Proof.
  unfold NextLine. destruct (scan_line s) as [[l' r']|] eqn:E; [| by destruct closed].
  intros [= -> ->]. by eapply scan_line_length.
Qed.

Lemma NextLine_app s t l r :
  NextLine false s = Got l r -> NextLine false (s ++ t) = Got l (r ++ t).
Proof.
  unfold NextLine. destruct (scan_line s) as [[l' r']|] eqn:E; [| done].
  intros [= -> ->]. by rewrite (scan_line_app _ _ _ _ E).
Qed.

Lemma NextLine_open s : NextLine false s <> Closed.
Proof. unfold NextLine. by destruct (scan_line s) as [[? ?]|]. Qed.

Lemma header_lines_more closed f1 f2 s :
  length s < f1 -> length s < f2 ->
  header_lines_fuel f1 closed s = header_lines_fuel f2 closed s.
Proof.
  revert f2 s. induction f1 as [|f1 IH]; intros [|f2] s H1 H2; try lia. cbn [header_lines_fuel].
  destruct (NextLine closed s) as [[|c l] r| |] eqn:E; try done.
  apply NextLine_length in E. by rewrite (IH f2) by lia.
Qed.

(** The loop of [parse] over the header lines, without the fuel. *)
Lemma header_lines_eq closed s :
  header_lines closed s =
  match NextLine closed s with
  | Got [] rest => Got [] rest
  | Got line rest =>
      match header_lines closed rest with
      | Got lines rest => Got (line :: lines) rest
      | r => r
      end
  | Closed => Got [] []
  | Wait => Wait
  end.
Proof.
  unfold header_lines at 1. cbn [header_lines_fuel].
  destruct (NextLine closed s) as [[|c l] r| |] eqn:E; try done.
  apply NextLine_length in E. unfold header_lines.
  by rewrite (header_lines_more closed (length s) (S (length r))) by lia.
Qed.

Lemma length_ind (P : bytes -> Prop) :
  (forall s, (forall r, length r < length s -> P r) -> P s) -> forall s, P s.
Proof.
  intros H s. remember (length s) as n eqn:E. revert s E.
  induction n as [n IH] using lt_wf_ind. intros s ->. apply H. intros r Hr. by eapply IH.
Qed.

Lemma header_lines_app s t ls r :
  header_lines false s = Got ls r -> header_lines false (s ++ t) = Got ls (r ++ t).
Proof.
  revert ls r. induction s as [s IH] using length_ind. intros ls r.
  rewrite (header_lines_eq _ s), (header_lines_eq _ (s ++ t)).
  destruct (NextLine false s) as [l r'| |] eqn:E.
  - rewrite (NextLine_app _ _ _ _ E). apply NextLine_length in E.
    destruct l as [|c l]; [by intros [= <- <-] |].
    destruct (header_lines false r') as [ls' r''| |] eqn:E'; try done.
    intros [= <- <-]. by rewrite (IH r' ltac:(lia) _ _ E').
  - by destruct (NextLine_open s).
  - done.
Qed.

Lemma header_lines_length closed s ls r :
  header_lines closed s = Got ls r -> length r <= length s.
Proof.
  revert ls r. induction s as [s IH] using length_ind. intros ls r.
  rewrite header_lines_eq. destruct (NextLine closed s) as [l r'| |] eqn:E; try done.
  - apply NextLine_length in E. destruct l as [|c l]; [intros [= <- <-]; lia |].
    destruct (header_lines closed r') as [ls' r''| |] eqn:E'; try done.
    intros [= <- <-]. apply IH in E'; lia.
  - intros [= <- <-]. simpl. lia.
Qed.

Lemma NextChunk_app n s t l r :
  NextChunk false n s = Ok (Got l r) -> NextChunk false n (s ++ t) = Ok (Got l (r ++ t)).
Proof.
  unfold NextChunk. destruct (n <? 0)%Z; [done |].
  destruct (Z.to_nat n <=? length s) eqn:E; [| done]. apply Nat.leb_le in E.
  intros [= <- <-]. rewrite length_app, (proj2 (Nat.leb_le _ _)) by lia.
  by rewrite take_app_le, drop_app_le by lia.
Qed.

Lemma NextChunk_cases closed n s r :
  NextChunk closed n s = r ->
  r = Panic \/ r = Ok Closed /\ closed = true \/ r = Ok Wait \/
  exists l rest, r = Ok (Got l rest) /\ length rest <= length s.
Proof.
  unfold NextChunk. intros <-. destruct (n <? 0)%Z; [by left |].
  destruct (_ <=? _); [| destruct closed; naive_solver].
  do 3 right. eexists _, _. split; [done |]. rewrite length_drop. lia.
Qed.

(** ** One iteration *)

(** What an iteration over more input has to do, given what it did. *)
Definition extends (t : bytes) (r r' : res iteration) : Prop :=
  match r with
  | Ok (Next skip rest ev) => r' = Ok (Next skip (rest ++ t) ev)
  | Ok Block => True
  | Ok Break => False
  | Err e => r' = Err e
  | Panic => r' = Panic
  end.

Lemma read_body_extends m n s t :
  extends t (read_body false m n s) (read_body false m n (s ++ t)).
Proof.
  unfold read_body. destruct (NextChunk false n s) as [[l r| |]| |] eqn:E.
  - rewrite (NextChunk_app _ _ _ _ _ E). cbn [mbind res_bind]. by destruct (fillBody _ _ _).
  - apply NextChunk_cases in E; naive_solver.
  - done.
  - unfold NextChunk in E. repeat case_match; done.
  - unfold NextChunk in *. by destruct (n <? 0)%Z; [| repeat case_match].
Qed.

Lemma read_rest_extends bl m s t :
  extends t (read_rest false bl m s) (read_rest false bl m (s ++ t)).
Proof.
  unfold read_rest. destruct bl; [apply read_body_extends |].
  destruct (GetHeaders _ _) as [|h [|]]; [done | | by destruct h; destruct (msg_shown m)].
  destruct h; try done. apply read_body_extends.
Qed.

Lemma bad_start_line_extends skip ml l e s t :
  extends t (bad_start_line false skip ml l e s) (bad_start_line false skip ml l e (s ++ t)).
Proof.
  unfold bad_start_line. destruct ml as [n|]; [| done].
  destruct (NextChunk false _ s) as [[l' r| |]| |] eqn:E.
  - by rewrite (NextChunk_app _ _ _ _ _ E).
  - apply NextChunk_cases in E; naive_solver.
  - done.
  - unfold NextChunk in E. repeat case_match; done.
  - unfold NextChunk in *. by destruct (_ <? 0)%Z; [| repeat case_match].
Qed.

Lemma read_message_extends pp u skip lens s t :
  extends t (read_message pp u false skip lens s) (read_message pp u false skip lens (s ++ t)).
Proof.
  unfold read_message. destruct (NextLine false s) as [l r| |] eqn:E; [| by destruct (NextLine_open s) | done].
  rewrite (NextLine_app _ _ _ _ E). destruct (parseStartLine u l) as [m|e|];
    [| apply bad_start_line_extends | done].
  destruct (header_lines false r) as [ls r'| |] eqn:E'; [| | done].
  - rewrite (header_lines_app _ _ _ _ E'). destruct (fillHeaders pp m ls) as [m'| |]; [| done..].
    apply read_rest_extends.
  - exfalso. revert E'. generalize r. clear. induction r as [r IH] using length_ind.
    rewrite header_lines_eq. destruct (NextLine false r) as [[|c l] r'| |] eqn:E; try done.
    apply NextLine_length in E. destruct (header_lines false r') eqn:E'; [done | | done].
    intros _. eapply (IH r'); [lia | done].
Qed.

Lemma parse_iteration_extends pp u streamed skip s t :
  extends t (parse_iteration pp u streamed false skip s)
            (parse_iteration pp u streamed false skip (s ++ t)).
Proof.
  unfold parse_iteration. destruct streamed; [apply read_message_extends |].
  destruct (NextLine false s) as [l r| |] eqn:E; [| by destruct (NextLine_open s) | done].
  rewrite (NextLine_app _ _ _ _ E). destruct (frame_lengths l); [apply read_message_extends | done].
Qed.

(** An iteration that goes on has consumed input. *)
Definition shrinks (s : bytes) (n : nat) (r : res iteration) : Prop :=
  match r with Ok (Next _ rest _) => length rest + n <= length s | _ => True end.

Lemma read_body_shrinks closed m k s : shrinks s 0 (read_body closed m k s).
Proof.
  unfold read_body. destruct (NextChunk closed k s) as [[l r| |]| |] eqn:E; try done.
  - apply NextChunk_cases in E as [?|[[? ?]|[?|(l' & r' & [= <- <-] & H)]]]; try done.
    cbn. destruct (fillBody _ _ _); simpl; lia.
  - simpl. lia.
Qed.

Lemma read_rest_shrinks closed bl m s : shrinks s 0 (read_rest closed bl m s).
Proof.
  unfold read_rest. destruct bl; [apply read_body_shrinks |].
  destruct (GetHeaders _ _) as [|h [|]]; [simpl; lia | | destruct h; destruct (msg_shown m); simpl; lia || done].
  destruct h; try done. apply read_body_shrinks.
Qed.

Lemma bad_start_line_shrinks closed skip ml l e s :
  shrinks s 0 (bad_start_line closed skip ml l e s).
Proof.
  unfold bad_start_line. destruct ml as [n|]; [| simpl; lia].
  destruct (NextChunk closed _ s) as [[l' r| |]| |] eqn:E; try done; [| simpl; lia].
  apply NextChunk_cases in E as [?|[[? ?]|[?|(x & y & [= <- <-] & H)]]]; try done. simpl. lia.
Qed.

Lemma shrinks_le s s' n r : length s' + n <= length s -> shrinks s' 0 r -> shrinks s n r.
Proof. destruct r as [[]| |]; simpl; lia || done. Qed.

Lemma read_message_shrinks pp u closed skip lens s :
  shrinks s 2 (read_message pp u closed skip lens s).
Proof.
  unfold read_message. destruct (NextLine closed s) as [l r| |] eqn:E; [| done..].
  apply NextLine_length in E.
  destruct (parseStartLine u l) as [m|e|]; [| by eapply shrinks_le, bad_start_line_shrinks | done].
  destruct (header_lines closed r) as [ls r'| |] eqn:E'; [| done..].
  apply header_lines_length in E'. destruct (fillHeaders pp m ls); [| done..].
  eapply shrinks_le, read_rest_shrinks. lia.
Qed.

Lemma parse_iteration_shrinks pp u streamed closed skip s :
  shrinks s 2 (parse_iteration pp u streamed closed skip s).
Proof.
  unfold parse_iteration. destruct streamed; [apply read_message_shrinks |].
  destruct (NextLine closed s) as [l r| |] eqn:E; [| done..]. apply NextLine_length in E.
  destruct (frame_lengths l) as [lens|]; [| simpl; lia].
  pose proof (read_message_shrinks pp u closed skip (Some lens) r) as H.
  destruct (read_message _ _ _ _ _ _) as [[]| |]; simpl in *; lia || done.
Qed.

(** ** The loop *)

Section loop.

Variable uuid : nat -> bytes.

Definition step_iteration (p : parser) : res iteration :=
  parse_iteration (p_pp p) (uuid (p_drawn p)) (p_streamed p) (p_closed p) (p_skip p) (p_input p).

(** The parser after an iteration that goes on. *)
Definition advance (p : parser) (skip : bool) (rest : bytes) (events : list event) : parser :=
  mkParser (p_pp p) (p_streamed p) skip rest (p_closed p) Reading
    (S (p_drawn p)) (p_events p ++ events).

Definition ended (p : parser) (g : goroutine) (rest : bytes) : parser :=
  mkParser (p_pp p) (p_streamed p) (p_skip p) rest (p_closed p) g (p_drawn p) (p_events p).

Lemma parse_loop_more f1 f2 p :
  length (p_input p) < f1 -> length (p_input p) < f2 ->
  parse_loop uuid f1 p = parse_loop uuid f2 p.
Proof.
  revert f2 p. induction f1 as [|f1 IH]; intros [|f2] p H1 H2; try lia. cbn [parse_loop].
  destruct (p_goroutine p); try done.
  pose proof (parse_iteration_shrinks (p_pp p) (uuid (p_drawn p)) (p_streamed p) (p_closed p)
                (p_skip p) (p_input p)) as Hs.
  destruct (parse_iteration _ _ _ _ _ _) as [[sk r ev| |]| |]; try done. simpl in Hs.
  apply IH; simpl; lia.
Qed.

(** [parse] is the loop of the source: no fuel in sight. *)
Lemma parse_eq p :
  parse uuid p =
  match p_goroutine p with
  | Reading =>
      match step_iteration p with
      | Ok (Next skip rest events) => parse uuid (advance p skip rest events)
      | Ok Block => p
      | Ok Break => ended p Finished []
      | Err _ | Panic => ended p Crashed (p_input p)
      end
  | _ => p
  end.
Proof.
  unfold parse at 1. cbn [parse_loop]. unfold step_iteration, ended. destruct (p_goroutine p); try done.
  pose proof (parse_iteration_shrinks (p_pp p) (uuid (p_drawn p)) (p_streamed p) (p_closed p)
                (p_skip p) (p_input p)) as Hs.
  destruct (parse_iteration _ _ _ _ _ _) as [[sk r ev| |]| |]; try done. simpl in Hs.
  unfold parse, advance. apply parse_loop_more; simpl; lia.
Qed.

Lemma append_input_app p a b : append_input (append_input p a) b = append_input p (a ++ b).
Proof. unfold append_input. simpl. by rewrite app_assoc. Qed.

(** Running the goroutine before more bytes come changes nothing. *)
Lemma parse_append p t :
  p_closed p = false -> parse uuid (append_input (parse uuid p) t) = parse uuid (append_input p t).
Proof.
  remember (p_input p) as s eqn:Es. revert p Es.
  induction s as [s IH] using length_ind. intros p Es Hc.
  rewrite (parse_eq p), (parse_eq (append_input p t)). cbn [append_input p_goroutine].
  destruct (p_goroutine p) eqn:Eg.
  - pose proof (parse_iteration_extends (p_pp p) (uuid (p_drawn p)) (p_streamed p)
                  (p_skip p) (p_input p) t) as He.
    pose proof (parse_iteration_shrinks (p_pp p) (uuid (p_drawn p)) (p_streamed p) false
                  (p_skip p) (p_input p)) as Hs.
    unfold step_iteration in *. cbn [append_input p_pp p_drawn p_streamed p_closed p_skip p_input].
    rewrite Hc in *. destruct (parse_iteration _ _ _ _ _ (p_input p)) as [[sk r ev| |]| |];
      cbn [extends shrinks] in *; try done.
    + rewrite He, (IH r); [done | subst; lia | done | done].
    + rewrite parse_eq. cbn [append_input p_goroutine]. rewrite Eg. unfold step_iteration.
      cbn [append_input p_pp p_drawn p_streamed p_closed p_skip p_input]. by rewrite Hc.
    + by rewrite He, parse_eq.
    + by rewrite He, parse_eq.
  - rewrite parse_eq. cbn [append_input p_goroutine]. by rewrite Eg.
  - rewrite parse_eq. cbn [append_input p_goroutine]. by rewrite Eg.
Qed.

Lemma parse_closed p : p_closed (parse uuid p) = p_closed p.
Proof.
  remember (p_input p) as s eqn:Es. revert p Es. induction s as [s IH] using length_ind. intros p Es.
  rewrite parse_eq. destruct (p_goroutine p); try done. unfold step_iteration.
  pose proof (parse_iteration_shrinks (p_pp p) (uuid (p_drawn p)) (p_streamed p) (p_closed p)
                (p_skip p) (p_input p)) as Hs.
  destruct (parse_iteration _ _ _ _ _ _) as [[sk r ev| |]| |]; try done. simpl in Hs.
  rewrite (IH r); [done | subst; lia | done].
Qed.

Lemma parse_streamed p : p_streamed (parse uuid p) = p_streamed p.
Proof.
  remember (p_input p) as s eqn:Es. revert p Es. induction s as [s IH] using length_ind. intros p Es.
  rewrite parse_eq. destruct (p_goroutine p); try done. unfold step_iteration.
  pose proof (parse_iteration_shrinks (p_pp p) (uuid (p_drawn p)) (p_streamed p) (p_closed p)
                (p_skip p) (p_input p)) as Hs.
  destruct (parse_iteration _ _ _ _ _ _) as [[sk r ev| |]| |]; try done. simpl in Hs.
  rewrite (IH r); [done | subst; lia | done].
Qed.

End loop.

(** ** Datagrams *)

(** A header section: the lines, each with its line end. *)
Definition unlines (lines : list bytes) : bytes := flat_map (fun l => l ++ CRLF) lines.

Lemma unlines_cons l ls s : unlines (l :: ls) ++ s = l ++ CRLF ++ unlines ls ++ s.
Proof. cbn [unlines flat_map]. by rewrite <- !app_assoc. Qed.

(** A line that [scan_line] and [Split] agree on. *)
Definition plain_line (l : bytes) : bool := negb (streq l "") && negb (mem CR l).

Lemma scan_line_plain l s : mem CR l = false -> scan_line (l ++ CRLF ++ s) = Some (l, s).
Proof.
  induction l as [|c l IH]; intros H; [done |].
  cbn [mem existsb] in H. apply orb_false_iff in H as [Hc Hl]. fold (mem CR l) in Hl.
  change ((c :: l) ++ CRLF ++ s) with (c :: (l ++ CRLF ++ s)). cbn [scan_line].
  assert (beq c CR = false) as -> by (apply beq_neq; apply beq_neq in Hc; congruence).
  by rewrite (IH Hl).
Qed.

Lemma header_lines_unlines closed ls body :
  forallb plain_line ls = true ->
  header_lines closed (unlines ls ++ CRLF ++ body) = Got ls body.
Proof.
  induction ls as [|l ls IH]; intros H; rewrite header_lines_eq.
  - done.
  - cbn [forallb] in H. apply andb_true_iff in H as [Hl Hls].
    unfold plain_line in Hl. simp_bool. rewrite unlines_cons.
    unfold NextLine. rewrite scan_line_plain by done.
    destruct l as [|c l]; [done |]. by rewrite IH.
Qed.

Lemma HasPrefix_head s c p : HasPrefix s (c :: p) = true -> exists t, s = c :: t.
Proof. intros [t ->]%HasPrefix_spec. eauto. Qed.

(** The first empty line is where the body length is measured from. *)
Lemma Index_plain l s n :
  mem CR l = false -> Index s CRLF2 = Some n -> Index (l ++ s) CRLF2 = Some (length l + n).
Proof.
  induction l as [|c l IH]; intros H Hs; [done |].
  cbn [mem existsb] in H. apply orb_false_iff in H as [Hc Hl]. fold (mem CR l) in Hl.
  cbn [app Index]. assert (HasPrefix (c :: l ++ s) CRLF2 = false) as ->.
  { destruct (HasPrefix _ _) eqn:E; [| done]. apply HasPrefix_head in E as [t [= ->]].
    by rewrite beq_refl in Hc. }
  by rewrite (IH Hl Hs).
Qed.

Lemma HasPrefix_plain l s : plain_line l = true -> HasPrefix (CRLF ++ l ++ s) CRLF2 = false.
Proof.
  unfold plain_line. intros H. simp_bool. destruct l as [|c l]; [done |]. cbn [app HasPrefix CRLF CRLF2].
  cbn [mem existsb] in *. simp_bool. rewrite (proj2 (beq_neq CR c)) by done.
  by rewrite andb_false_l, !andb_false_r.
Qed.

Lemma Index_unlines l ls body :
  forallb plain_line (l :: ls) = true ->
  exists n, Index (unlines (l :: ls) ++ CRLF ++ body) CRLF2 = Some n /\
            n + 2 = length (unlines (l :: ls)).
Proof.
  revert l. induction ls as [|l' ls IH]; intros l H; cbn [forallb] in H;
    apply andb_true_iff in H as [Hl Hls];
    assert (mem CR l = false) as Hm by (unfold plain_line in Hl; simp_bool; done).
  - rewrite unlines_cons. exists (length l + 0). split; [by apply Index_plain |].
    cbn [unlines flat_map]. rewrite !length_app. simpl. lia.
  - destruct (IH l') as (n & Hn & Hlen); [done |].
    rewrite unlines_cons. exists (length l + S (S n)). split.
    + apply Index_plain; [done |]. rewrite unlines_cons in Hn |- *.
      change (CRLF ++ ?x) with (CR :: LF :: x) at 1. cbn [Index].
      cbn [forallb] in Hls. apply andb_true_iff in Hls as [Hl' _].
      pose proof (HasPrefix_plain l' (CRLF ++ unlines ls ++ CRLF ++ body) Hl') as Hp.
      change (CRLF ++ l' ++ ?x) with (CR :: LF :: l' ++ x) in Hp. rewrite Hp.
      assert (forall s, HasPrefix (LF :: s) CRLF2 = false) as -> by done.
      by rewrite Hn.
    + change (unlines (l :: l' :: ls)) with ((l ++ CRLF) ++ unlines (l' :: ls)).
      rewrite !length_app, <- Hlen. simpl. lia.
Qed.

Lemma getBodyLength_unlines l ls body :
  forallb plain_line (l :: ls) = true ->
  getBodyLength (unlines (l :: ls) ++ CRLF ++ body) = Some (length body).
Proof.
  intros H. destruct (Index_unlines l ls body H) as (n & Hn & Hl).
  unfold getBodyLength. rewrite Hn. f_equal. rewrite !length_app, <- Hl.
  change (length CRLF) with 2. lia.
Qed.

Lemma Split_plain l s : mem CR l = false -> Split (l ++ CRLF ++ s) CRLF = l :: Split s CRLF.
Proof.
  unfold Split. induction l as [|c l IH]; intros H; [done |].
  cbn [mem existsb] in H. apply orb_false_iff in H as [Hc Hl]. fold (mem CR l) in Hl.
  change ((c :: l) ++ CRLF ++ s) with (c :: (l ++ CRLF ++ s)). cbn [split_from].
  rewrite (IH Hl). destruct (HasPrefix _ _) eqn:E; [| done].
  apply HasPrefix_head in E as [t [= ->]]. by rewrite beq_refl in Hc.
Qed.

Lemma nonempty_unlines ls :
  forallb plain_line ls = true -> nonempty_lines (Split (unlines ls ++ CRLF) CRLF) = ls.
Proof.
  induction ls as [|l ls IH]; intros H; [done |].
  cbn [forallb] in H. apply andb_true_iff in H as [Hl Hls]. rewrite unlines_cons.
  unfold plain_line in Hl. simp_bool. rewrite Split_plain by done. unfold nonempty_lines in *.
  rewrite filter_cons_True by done. by rewrite IH.
Qed.

Lemma not_digit_mem c s : is_digit c = false -> forallb is_digit s = true -> mem c s = false.
Proof.
  intros Hc Hs. destruct (mem c s) eqn:E; [| done]. apply mem_In in E.
  rewrite forallb_forall in Hs. apply Hs in E. congruence.
Qed.

Lemma Split_byte l s c : mem c l = false -> Split (l ++ [c] ++ s) [c] = l :: Split s [c].
Proof.
  unfold Split. induction l as [|d l IH]; intros H.
  - cbn. by rewrite beq_refl.
  - cbn [mem existsb] in H. apply orb_false_iff in H as [Hc Hl]. fold (mem c l) in Hl.
    change ((d :: l) ++ [c] ++ s) with (d :: (l ++ [c] ++ s)). cbn [split_from].
    rewrite (IH Hl). cbn [HasPrefix]. by rewrite Hc.
Qed.

Lemma Split_byte_end l c : mem c l = false -> Split l [c] = [l].
Proof.
  unfold Split. induction l as [|d l IH]; intros H; [done |].
  cbn [mem existsb] in H. apply orb_false_iff in H as [Hc Hl]. fold (mem c l) in Hl.
  cbn [split_from]. rewrite (IH Hl). cbn [HasPrefix]. by rewrite Hc.
Qed.

Lemma Atoi_show n : (n < 2 ^ 63)%N -> Atoi (show_N n) = Ok (Z.of_N n).
Proof.
  intros Hn. pose proof (show_N_digits n) as Hd. pose proof (show_N_all_digits n) as Ha.
  pose proof (show_N_nonempty n) as He. unfold Atoi. destruct (show_N n) as [|c s]; [done |].
  cbn [forallb] in Ha. apply andb_true_iff in Ha as [Hc _].
  assert ((match c :: s with
           | "-"%char :: t => (true, t)
           | "+"%char :: t => (false, t)
           | _ => (false, c :: s)
           end) = (false, c :: s)) as ->.
  { by destruct c as [[] [] [] [] [] [] [] []]. }
  rewrite Hd. change (2 ^ 63)%Z with (Z.of_N (2 ^ 63)).
  rewrite (proj2 (Z.ltb_lt _ _)) by lia. rewrite (proj2 (Z.leb_le _ _)) by lia. done.
Qed.

Lemma frame_lengths_show b m :
  (b < 2 ^ 63)%N -> (m < 2 ^ 63)%N ->
  frame_lengths (show_N b ++ "|" ++ show_N m) = Some (Z.of_N b, Z.of_N m).
Proof.
  intros Hb Hm. unfold frame_lengths. change "|" with ["|"%char].
  rewrite Split_byte, Split_byte_end by (apply not_digit_mem; [done | apply show_N_all_digits]).
  by rewrite !Atoi_show.
Qed.

(** A parser between datagrams. *)
Definition idle (p : parser) : Prop :=
  p_goroutine p = Reading /\ p_closed p = false /\ p_streamed p = false /\ p_input p = [].

Definition event_of (r : res msg) : list event :=
  match r with Ok m => [Output m] | Err e => [Errs e] | Panic => [] end.

Lemma NextChunk_all closed s : NextChunk closed (Z.of_nat (length s)) s = Ok (Got s []).
Proof.
  unfold NextChunk. rewrite (proj2 (Z.ltb_ge _ _)) by lia. rewrite Nat2Z.id, Nat.leb_refl.
  by rewrite take_ge, drop_ge by lia.
Qed.

(** A header that does not parse is skipped: [fillHeaders] reports no error. *)
Lemma fill_loop_not_Err pp m ls b hs e : fill_loop pp m ls b hs <> Err e.
Proof.
  revert b hs. induction ls as [|x ls IH]; intros b hs; cbn [fill_loop]; unfold flushBuffer.
  - repeat case_match; done.
  - destruct (at_ x 0) as [c| |] eqn:Ea; cbn [mbind res_bind].
    + destruct (Contains _ _), b; try apply IH.
      { destruct (msg_shown_cases m) as [-> | ->]; [apply IH | done]. }
      destruct (ParseHeader pp _); [apply IH | apply IH | done].
    + unfold at_ in Ea. by destruct (x !! 0).
    + done.
Qed.

Section datagram.

Variables (uuid : bytes) (pp : PacketParser) (l : bytes) (ls : list bytes) (body : bytes).
Hypothesis Hplain : forallb plain_line (l :: ls) = true.

Let data := unlines (l :: ls) ++ CRLF ++ body.

Lemma ParseMessage_lines :
  ParseMessage pp uuid data =
  (m ← start_line_error (parseStartLine uuid l);
   m ← fillHeaders pp m ls;
   fillBody m body (length body)).
Proof using Hplain.
  unfold ParseMessage, data. rewrite getBodyLength_unlines by done.
  replace (length _ - length body) with (length (unlines (l :: ls) ++ CRLF))
    by (rewrite !length_app; lia).
  rewrite app_assoc, take_app_length, drop_app_length. by rewrite nonempty_unlines.
Qed.

(** The datagram, after its frame line, is one iteration of the loop. *)
Lemma read_message_datagram skip :
  exists skip',
    read_message pp uuid false skip (Some (Z.of_nat (length body), Z.of_nat (length data))) data
    = match ParseMessage pp uuid data with
      | Panic => Panic
      | r => Ok (Next skip' [] (event_of r))
      end.
Proof using Hplain.
  rewrite ParseMessage_lines.
  pose proof Hplain as H. cbn [forallb] in H. apply andb_true_iff in H as [Hl Hls].
  unfold plain_line in Hl. simp_bool.
  unfold read_message, data. rewrite unlines_cons.
  unfold NextLine. rewrite scan_line_plain by done.
  destruct (parseStartLine uuid l) as [m|e|]; [| | by exists skip].
  - rewrite header_lines_unlines by done. cbn [start_line_error mbind res_bind] in *.
    destruct (fillHeaders pp m ls) as [m'|e|] eqn:E; [| | by exists skip].
    + cbn [fmap option_fmap option_map read_rest fst mbind res_bind] in *. unfold read_body.
      rewrite NextChunk_all. cbn [mbind res_bind]. rewrite Nat2Z.id.
      destruct (fillBody m' body (length body)); [eauto.. | by exists skip].
    + unfold fillHeaders in E. destruct (fill_loop pp m ls [] []) eqn:E'; try done.
      by apply fill_loop_not_Err in E'.
  - exists skip. cbn [start_line_error mbind res_bind event_of fmap option_fmap option_map
      bad_start_line snd].
    replace (Z.of_nat _ - Z.of_nat (length l) - 2)%Z
      with (Z.of_nat (length (unlines ls ++ CRLF ++ body))).
    + by rewrite NextChunk_all.
    + rewrite !length_app. simpl. lia.
Qed.

End datagram.

Lemma Write_datagram uuid p l ls body :
  let data := unlines (l :: ls) ++ CRLF ++ body in
  let r := ParseMessage (p_pp p) (uuid (p_drawn p)) data in
  idle p -> forallb plain_line (l :: ls) = true -> (N.of_nat (length data) < 2 ^ 63)%N ->
  exists p', Write uuid p data = (p', None) /\ p_pp p' = p_pp p /\ p_events p' = p_events p ++ event_of r /\
    match r with Panic => p_goroutine p' = Crashed | _ => idle p' end.
Proof.
  intros data r (Hg & Hc & Hs & Hi) Hp Hlen. unfold Write. rewrite Hc, Hs.
  unfold data. rewrite getBodyLength_unlines by done. fold data.
  set (q := append_input p (frame (length body) data)).
  destruct (read_message_datagram (uuid (p_drawn p)) (p_pp p) l ls body Hp (p_skip p))
    as [sk Hsk]. fold data r in Hsk.
  assert (step_iteration uuid q = match r with Panic => Panic | r => Ok (Next sk [] (event_of r)) end) as Hstep.
  { unfold step_iteration, parse_iteration, q. cbn [append_input p_streamed p_input p_closed].
    rewrite Hs, Hc, Hi. cbn [app]. unfold frame, NextLine.
    replace (show_N (N.of_nat (length body)) ++ "|" ++ show_N (N.of_nat (length data)) ++ CRLF ++ data)
      with ((show_N (N.of_nat (length body)) ++ "|" ++ show_N (N.of_nat (length data)))
              ++ CRLF ++ data) by (by rewrite <- !app_assoc).
    rewrite scan_line_plain.
    - rewrite frame_lengths_show, !nat_N_Z; [etrans; [apply Hsk | by destruct r] | | done].
      unfold data in Hlen. rewrite !length_app in Hlen. lia.
    - rewrite !mem_app, !(not_digit_mem _ (show_N _)); done || apply show_N_all_digits. }
  eexists. split; [done |]. rewrite parse_eq. cbn [append_input p_goroutine q]. rewrite Hg, Hstep.
  destruct r; [| | by cbn; rewrite app_nil_r]; rewrite parse_eq; unfold step_iteration, parse_iteration, q;
    cbn [advance append_input p_goroutine p_streamed p_closed p_input p_pp p_events];
    rewrite Hs, Hc; by cbn.
Qed.

End StreamProofs.
