(* ===== verification/ParserBuffer.v ===== *)
(** * The goroutine of the stream parser over its pipe: src/sip/parser/parserbuffer.go, stream.go

    [Stream] treats the bytes written to a parser as one input.  Here they take the
    way they take in the code: [Write] offers them on an [io.Pipe] and waits, the
    buffered reader fetches as many as it has room for, [NextLine] and [NextChunk]
    collect them, and the goroutine of [parse] goes on from where it waits.  The
    theorems show that every order of these steps ends in the result of
    [Stream.parse]. *)

From S2P Require Import Prelude GoStrings Escape Params Headers HeaderStore Message ParserCommon UriRoundTrip NoPanic Packet Stream StreamProofs.
From stdpp Require Import options.
Import Params Headers HeaderStore Message ParserCommon NoPanic Packet Stream StreamProofs.

Module ParserBuffer.

(** ** The pipe and the buffered reader

    Both are from Go's library.  A [Read] of the pipe takes what it has room for
    from the [Write] that waits; that one returns when its last byte was taken, and
    an empty one after one empty read.  The buffered reader has 4096 bytes and gives
    up after a hundred empty reads in a row. *)

Definition buffer_size : nat := 4096.
Definition max_empty_reads : nat := 100.

Record buffer : Type := mkBuffer {
  held : bytes;
  pending : option bytes;
  pipe_closed : bool;
  empties : nat
}.

Inductive piped : Type :=
| PipeRead (d : bytes) (rest : option bytes)
| PipeClosed
| PipeWait.

Definition pipe_read (room : nat) (b : buffer) : piped :=
  if pipe_closed b then PipeClosed
  else match pending b with
       | None => PipeWait
       | Some d => PipeRead (take room d) (match drop room d with [] => None | rest => Some rest end)
       end.

(** ** NextLine and NextChunk

    Where a call waits: in [ReadString], in [ReadByte], or in the loop of
    [NextChunk]. *)

Inductive reading : Type :=
| ReadingLine (buffer : bytes)
| ReadingByte (buffer : bytes)
| ReadingChunk (n : nat) (data : bytes).

Inductive progress : Type :=
| More (r : reading) (b : buffer)
| Done (response : bytes) (b : buffer)
| Failed (b : buffer)
| Blocked.

(** One try of [fill]; a failed call takes what the reader holds. *)
Definition fill (r : reading) (b : buffer) : progress :=
  match pipe_read (buffer_size - length (held b)) b with
  | PipeClosed => Failed (mkBuffer [] (pending b) (pipe_closed b) 0)
  | PipeWait => Blocked
  | PipeRead [] rest =>
      if S (empties b) <? max_empty_reads
      then More r (mkBuffer (held b) rest (pipe_closed b) (S (empties b)))
      else Failed (mkBuffer [] rest (pipe_closed b) 0)
  | PipeRead d rest => More r (mkBuffer (held b ++ d) rest (pipe_closed b) 0)
  end.

(** The bytes up to the first carriage return, with it. *)
Fixpoint up_to_CR (s : bytes) : option (bytes * bytes) :=
  match s with
  | [] => None
  | c :: s => if beq c CR then Some ([c], s) else '(l, rest) ← up_to_CR s; Some (c :: l, rest)
  end.

Definition keep (h : bytes) (b : buffer) : buffer := mkBuffer h (pending b) (pipe_closed b) 0.

Definition read_step (r : reading) (b : buffer) : progress :=
  match r with
  | ReadingLine acc =>
      match up_to_CR (held b) with
      | Some (data, rest) => More (ReadingByte (acc ++ data)) (keep rest b)
      | None =>
          if buffer_size <=? length (held b) then More (ReadingLine (acc ++ held b)) (keep [] b)
          else fill r b
      end
  | ReadingByte acc =>
      match held b with
      | c :: rest =>
          let buf := acc ++ [c] in
          if beq c LF then Done (take (length buf - 2) buf) (keep rest b)
          else More (ReadingLine buf) (keep rest b)
      | [] => fill r b
      end
  | ReadingChunk n data =>
      let want := n - length data in
      if n <=? length data then Done data b
      else match held b with
           | [] =>
               match pipe_read (Nat.max want buffer_size) b with
               | PipeClosed => Failed b
               | PipeWait => Blocked
               | PipeRead d rest =>
                   More (ReadingChunk n (data ++ take want d)) (mkBuffer (drop want d) rest (pipe_closed b) 0)
               end
           | h => More (ReadingChunk n (data ++ take want h)) (keep (drop want h) b)
           end
  end.

(** ** The goroutine

    Where the loop of [parse] waits for its input: for the lengths of a datagram,
    for a start line, for a header line, for the rest of a datagram it skips, for a
    body. *)

Inductive place : Type :=
| AtLengths
| AtStartLine (lens : option (Z * Z))
| AtHeaders (lens : option (Z * Z)) (m : msg) (lines : list bytes)
| AtSkip (e : error) (n : nat)
| AtBody (m : msg) (contentLength : nat).

(** What it does with the result of a call: it makes another call, starts the next
    iteration with events to send, or leaves the loop. *)
Inductive next : Type :=
| Call (skipStreamedErr : bool) (at_ : place) (r : reading)
| Again (skipStreamedErr : bool) (events : list event)
| Leave.

(** [NextChunk], which panics for a negative length. *)
Definition call_chunk (skip : bool) (n : Z) (at_ : nat -> place) : res next :=
  if (n <? 0)%Z then Panic else Ok (Call skip (at_ (Z.to_nat n)) (ReadingChunk (Z.to_nat n) [])).

Definition call_body (skip : bool) (lens : option (Z * Z)) (m : msg) : res next :=
  match lens with
  | Some (bodyLen, _) => call_chunk skip bodyLen (AtBody m)
  | None =>
      match GetHeaders (hdrs (msg_of m)) "Content-Length" with
      | [] => Ok (Again true [Errs (MalformedMessageError missing_length (msg_String m))])
      | [HContentLength n] => call_chunk skip (Z.of_N n) (AtBody m)
      | [_] => Panic
      | _ => _ ← msg_shown m; Ok (Again true [Errs (MalformedMessageError multiple_lengths (msg_String m))])
      end
  end.

(** [response] is [None] for an error of the call. *)
Definition go_on (pp : PacketParser) (uuid : bytes) (skip : bool) (at_ : place) (response : option bytes) : res next :=
  match at_, response with
  | AtLengths, None | AtStartLine _, None => Ok Leave
  | AtLengths, Some line =>
      match frame_lengths line with
      | None => Ok (Again skip [])
      | Some lens => Ok (Call skip (AtStartLine (Some lens)) (ReadingLine []))
      end
  | AtStartLine lens, Some startLine =>
      match parseStartLine uuid startLine with
      | Panic => Panic
      | Err e =>
          match lens with
          | None => Ok (Again true (if skip then [] else [Errs (InvalidStartLineError e)]))
          | Some (_, msgLen) => call_chunk skip (msgLen - Z.of_nat (length startLine) - 2) (AtSkip e)
          end
      | Ok m => Ok (Call false (AtHeaders lens m []) (ReadingLine []))
      end
  | AtHeaders lens m lines, Some (c :: line) => Ok (Call skip (AtHeaders lens m (lines ++ [c :: line])) (ReadingLine []))
  | AtHeaders lens m lines, _ => m ← fillHeaders pp m lines; call_body skip lens m
  | AtSkip e _, _ => Ok (Again skip [Errs (InvalidStartLineError e)])
  | AtBody m n, None =>
      Ok (Again skip [Errs (BrokenMessageError (Wrapf "read message body failed: %w" ErrClosedPipe) (msg_String m))])
  | AtBody m n, Some body =>
      match fillBody m body n with
      | Ok m => Ok (Again skip [Output m])
      | Err e => Ok (Again skip [Errs e])
      | Panic => Panic
      end
  end.

Record state : Type := mkState {
  st_pp : PacketParser;
  st_streamed : bool;
  st_skip : bool;
  st_buffer : buffer;
  st_place : place;
  st_reading : reading;
  st_drawn : nat;
  st_sending : list event;
  st_sent : list event;
  st_goroutine : goroutine;
  st_stopped : bool;
  st_written : bytes
}.

Definition first_place (streamed : bool) : place := if streamed then AtStartLine None else AtLengths.

Definition start (pp : PacketParser) (streamed : bool) (drawn : nat) (sent : list event) : state :=
  mkState pp streamed false (mkBuffer [] None false 0) (first_place streamed) (ReadingLine []) drawn [] sent Reading false [].

Section steps.

Variable uuid : nat -> bytes.

(** The goroutine after a call returned with the reader [b]. *)
Definition returned (s : state) (b : buffer) (response : option bytes) : state :=
  let go skip at_ r drawn sending g :=
    mkState (st_pp s) (st_streamed s) skip b at_ r drawn sending (st_sent s) g (st_stopped s) (st_written s) in
  match go_on (st_pp s) (uuid (st_drawn s)) (st_skip s) (st_place s) response with
  | Ok (Call skip at_ r) => go skip at_ r (st_drawn s) [] Reading
  | Ok (Again skip events) => go skip (first_place (st_streamed s)) (ReadingLine []) (S (st_drawn s)) events Reading
  | Ok Leave => go (st_skip s) (st_place s) (st_reading s) (st_drawn s) [] Finished
  | Err _ | Panic => go (st_skip s) (st_place s) (st_reading s) (st_drawn s) [] Crashed
  end.

(** A step of the goroutine: an event is taken by its receiver, or the call under
    way goes on.  [None]: it waits for bytes, or has ended. *)
Definition goroutine_step (s : state) : option state :=
  match st_goroutine s, st_sending s with
  | Reading, e :: rest =>
      Some (mkState (st_pp s) (st_streamed s) (st_skip s) (st_buffer s) (st_place s) (st_reading s) (st_drawn s)
              rest (st_sent s ++ [e]) Reading (st_stopped s) (st_written s))
  | Reading, [] =>
      match read_step (st_reading s) (st_buffer s) with
      | More r b =>
          Some (mkState (st_pp s) (st_streamed s) (st_skip s) b (st_place s) r (st_drawn s) [] (st_sent s)
                  Reading (st_stopped s) (st_written s))
      | Done response b => Some (returned s b (Some response))
      | Failed b => Some (returned s b None)
      | Blocked => None
      end
  | _, _ => None
  end.

Definition set_buffer (s : state) (b : buffer) (stopped : bool) (written : bytes) : state :=
  mkState (st_pp s) (st_streamed s) (st_skip s) b (st_place s) (st_reading s) (st_drawn s) (st_sending s) (st_sent s)
    (st_goroutine s) stopped written.

(** What [Write] puts on the pipe; [None]: it returns an error at once. *)
Definition framed (s : state) (data : bytes) : option bytes :=
  if st_stopped s then None
  else if st_streamed s then Some data
  else (fun bl => frame bl data) <$> getBodyLength data.

(** [Write] up to its wait; a second one waits for the first ([None]). *)
Definition write_step (data : bytes) (s : state) : option state :=
  d ← framed s data;
  match pending (st_buffer s) with
  | Some _ => None
  | None =>
      Some (set_buffer s (mkBuffer (held (st_buffer s)) (Some d) (pipe_closed (st_buffer s)) (empties (st_buffer s)))
              (st_stopped s) (st_written s ++ d))
  end.

(** [Stop] up to its wait for the goroutine; a [Write] that waits fails, and what
    was not taken of it is lost. *)
Definition stop_step (s : state) : option state :=
  if st_stopped s then None
  else Some (set_buffer s (mkBuffer (held (st_buffer s)) None true (empties (st_buffer s))) true
               (take (length (st_written s) - length (default [] (pending (st_buffer s)))) (st_written s))).

(** [Reset] after its wait: a new pipe and a new goroutine. *)
Definition reset_step (s : state) : option state :=
  match st_goroutine s with
  | Finished => if st_stopped s then Some (start (st_pp s) (st_streamed s) (st_drawn s) (st_sent s)) else None
  | _ => None
  end.

Inductive event_ : Type := Goroutine | WriteCall (data : bytes) | StopCall | ResetCall.

Definition step (e : event_) (s : state) : option state :=
  match e with
  | Goroutine => goroutine_step s
  | WriteCall data => write_step data s
  | StopCall => stop_step s
  | ResetCall => reset_step s
  end.

(** The goroutine run for so many steps, or until it waits. *)
Fixpoint run (fuel : nat) (s : state) : state :=
  match fuel with
  | 0 => s
  | S fuel => match goroutine_step s with Some s' => run fuel s' | None => s end
  end.

End steps.

(** ** What is left to do in an iteration *)

(** The bytes a call has collected so far. *)
Definition collected (r : reading) : bytes :=
  match r with ReadingLine a | ReadingByte a => a | ReadingChunk _ d => d end.

Definition chunk (closed : bool) (n : nat) (input : bytes) : read bytes :=
  if n <=? length input then Got (take n input) (drop n input) else if closed then Closed else Wait.

(** The result of the call of a place on an input. *)
Definition awaited (closed : bool) (at_ : place) (input : bytes) : read bytes :=
  match at_ with
  | AtSkip _ n | AtBody _ n => chunk closed n input
  | _ => NextLine closed input
  end.

(** The rest of the iteration from a place on. *)
Definition rest_of (pp : PacketParser) (uuid : bytes) (closed skip : bool) (at_ : place) (input : bytes) : res iteration :=
  match at_ with
  | AtLengths => parse_iteration pp uuid false closed skip input
  | AtStartLine lens => read_message pp uuid closed skip lens input
  | AtHeaders lens m lines =>
      match header_lines closed input with
      | Got ls input => m ← fillHeaders pp m (lines ++ ls); read_rest closed (fst <$> lens) m input
      | Closed => Ok Break
      | Wait => Ok Block
      end
  | AtSkip e n =>
      match awaited closed at_ input with
      | Got _ rest => Ok (Next skip rest [Errs (InvalidStartLineError e)])
      | Closed => Ok (Next skip [] [Errs (InvalidStartLineError e)])
      | Wait => Ok Block
      end
  | AtBody m n => read_body closed m (Z.of_nat n) input
  end.

(** After the start line the flag is down. *)
Definition skip_ok (at_ : place) (skip : bool) : Prop :=
  match at_ with AtHeaders _ _ _ | AtBody _ _ => skip = false | _ => True end.

Definition is_line (at_ : place) : Prop := match at_ with AtSkip _ _ | AtBody _ _ => False | _ => True end.

Definition first_call (at_ : place) : reading :=
  match at_ with AtSkip _ n | AtBody _ n => ReadingChunk n [] | _ => ReadingLine [] end.

(** The next step of the goroutine leaves what is left to do as it is. *)
Definition continues (pp : PacketParser) (uuid : bytes) (closed : bool) (todo : res iteration) (rest : bytes) (n : res next) : Prop :=
  match n with
  | Ok (Call skip at_ r) => todo = rest_of pp uuid closed skip at_ rest /\ r = first_call at_ /\ skip_ok at_ skip
  | Ok (Again skip events) => todo = Ok (Next skip rest events)
  | Ok Leave => todo = Ok Break
  | Err e => todo = Err e
  | Panic => todo = Panic
  end.

Lemma NextChunk_chunk closed n s :
  NextChunk closed n s = if (n <? 0)%Z then Panic else Ok (chunk closed (Z.to_nat n) s).
Proof. unfold NextChunk, chunk. destruct (n <? 0)%Z; [done |]. by destruct (_ <=? _). Qed.

Lemma call_body_continues pp uuid closed lens m rest :
  continues pp uuid closed (read_rest closed (fst <$> lens) m rest) rest (call_body false lens m).
Proof.
  assert (forall n, continues pp uuid closed (read_body closed m n rest) rest (call_chunk false n (AtBody m))) as Hc.
  { intros n. unfold call_chunk. destruct (n <? 0)%Z eqn:E; cbn.
    - unfold read_body, NextChunk. by rewrite E.
    - split_and!; [| done..]. by rewrite Z2Nat.id by lia. }
  unfold call_body, read_rest. destruct lens as [[b l]|]; [apply Hc |].
  destruct (GetHeaders _ _) as [| h [|]]; [done | | by destruct h; destruct (msg_shown m)]. by destruct h; try apply Hc.
Qed.

Lemma header_lines_not_closed closed s : header_lines closed s <> Closed.
Proof.
  induction s as [s IH] using length_ind. rewrite header_lines_eq.
  destruct (NextLine closed s) as [[| c l] r| |] eqn:E; try done. apply NextLine_length in E.
  specialize (IH r ltac:(lia)). by destruct (header_lines closed r).
Qed.

Lemma header_continues pp uuid closed lens m lines input :
  match awaited closed (AtHeaders lens m lines) input with
  | Got l rest => continues pp uuid closed (rest_of pp uuid closed false (AtHeaders lens m lines) input) rest (go_on pp uuid false (AtHeaders lens m lines) (Some l))
  | Closed => continues pp uuid closed (rest_of pp uuid closed false (AtHeaders lens m lines) input) [] (go_on pp uuid false (AtHeaders lens m lines) None)
  | Wait => rest_of pp uuid closed false (AtHeaders lens m lines) input = Ok Block
  end.
Proof.
  cbn [awaited rest_of go_on]. rewrite header_lines_eq.
  destruct (NextLine closed input) as [[| c l] rest| |] eqn:E; try done.
  - rewrite app_nil_r. destruct (fillHeaders pp m lines) as [m'| |]; try done. apply call_body_continues.
  - cbn [continues rest_of]. split_and!; try done. pose proof (header_lines_not_closed closed rest).
    destruct (header_lines closed rest) as [ls r| |]; try done. by rewrite <- app_assoc.
  - rewrite app_nil_r. destruct (fillHeaders pp m lines) as [m'| |]; try done. apply call_body_continues.
Qed.

(** [go_on] makes one step of [Stream.parse_iteration]. *)
Lemma go_on_continues pp uuid closed skip at_ input :
  skip_ok at_ skip ->
  let todo := rest_of pp uuid closed skip at_ input in
  match awaited closed at_ input with
  | Got l rest => continues pp uuid closed todo rest (go_on pp uuid skip at_ (Some l))
  | Closed => continues pp uuid closed todo [] (go_on pp uuid skip at_ None)
  | Wait => todo = Ok Block
  end.
Proof.
  intros Hs todo. subst todo. destruct at_ as [| lens | lens m lines | e n | m n].
  - cbn. destruct (NextLine closed input) as [l rest| |]; try done.
    by destruct (frame_lengths l).
  - cbn. unfold read_message. destruct (NextLine closed input) as [l rest| |]; try done.
    destruct (parseStartLine uuid l) as [m | e |]; [by cbn | | done].
    destruct lens as [[b n]|]; cbn; [| done].
    unfold call_chunk. rewrite NextChunk_chunk. by destruct (_ <? 0)%Z.
  - cbn in Hs. subst skip. apply header_continues.
  - cbn. by destruct (chunk closed n input).
  - cbn in Hs. subst skip. cbn [rest_of go_on]. unfold read_body.
    rewrite NextChunk_chunk. assert ((Z.of_nat n <? 0)%Z = false) as -> by (apply Z.ltb_ge; lia).
    cbn [mbind res_bind]. rewrite Nat2Z.id.
    cbn [awaited]. destruct (chunk closed n input); try done. cbn. by destruct (fillBody m a n).
Qed.

(** ** The calls *)

(** A call has collected a part of the input that it has not answered yet. *)
Definition reading_ok (at_ : place) (r : reading) : Prop :=
  match r with
  | ReadingLine a =>
      is_line at_ /\ forall t, scan_line (a ++ t) = '(l, rest) ← scan_line t; Some (a ++ l, rest)
  | ReadingByte a =>
      is_line at_ /\ exists a', a = a' ++ [CR] /\ forall t, scan_line (a ++ t) =
        match t with
        | [] => None
        | b :: t => if beq b LF then Some (a', t) else '(l, rest) ← scan_line t; Some (a ++ b :: l, rest)
        end
  | ReadingChunk n d => first_call at_ = ReadingChunk n [] /\ length d <= n
  end.

Lemma reading_ok_first at_ : reading_ok at_ (first_call at_).
Proof.
  destruct at_; cbn; (split; [done |]); try lia; intros t; by destruct (scan_line t) as [[]|].
Qed.

Lemma awaited_line closed at_ s : is_line at_ -> awaited closed at_ s = NextLine closed s.
Proof. by destruct at_. Qed.

Lemma awaited_chunk closed at_ n s : first_call at_ = ReadingChunk n [] -> awaited closed at_ s = chunk closed n s.
Proof. destruct at_; cbn; congruence. Qed.

Lemma up_to_CR_None s : up_to_CR s = None -> scan_line s = None.
Proof.
  induction s as [| c s IH]; cbn; [done |]. destruct (beq c CR); [done |].
  destruct (up_to_CR s) as [[]|]; [done |]. intros _. by rewrite IH.
Qed.

Lemma up_to_CR_None_app s t :
  up_to_CR s = None -> scan_line (s ++ t) = '(l, rest) ← scan_line t; Some (s ++ l, rest).
Proof.
  induction s as [| c s IH]; cbn; intros E; [by destruct (scan_line t) as [[]|] |].
  destruct (beq c CR); [done |]. destruct (up_to_CR s) as [[]|]; [done |].
  rewrite IH by done. by destruct (scan_line t) as [[]|].
Qed.

Lemma up_to_CR_Some s d r t :
  up_to_CR s = Some (d, r) ->
  s = d ++ r /\ exists d', d = d' ++ [CR] /\ scan_line (d ++ t) =
    match t with
    | [] => None
    | b :: t => if beq b LF then Some (d', t) else '(l, rest) ← scan_line t; Some (d ++ b :: l, rest)
    end.
Proof.
  revert d r. induction s as [| c s IH]; intros d r; cbn; [done |]. destruct (beq c CR) eqn:Ec.
  - intros [= <- <-]. apply beq_eq in Ec. subst c. split; [done |]. by exists [].
  - intros ([d0 r0] & E & [= <- <-])%bind_Some. destruct (IH _ _ E) as (-> & d' & -> & H).
    split; [done |]. exists (c :: d'). split; [done |]. cbn. rewrite Ec, H.
    destruct t as [| b t]; [done |]. destruct (beq b LF); [done |]. by destruct (scan_line t) as [[]|].
Qed.

Lemma pipe_read_spec room b :
  0 < room -> pending b <> Some [] ->
  match pipe_read room b with
  | PipeClosed => pipe_closed b = true
  | PipeWait => pipe_closed b = false /\ pending b = None
  | PipeRead d rest =>
      pipe_closed b = false /\ d <> [] /\ default [] (pending b) = d ++ default [] rest /\ rest <> Some [] /\ is_Some (pending b)
  end.
Proof.
  intros Hr Hp. unfold pipe_read. destruct (pipe_closed b); [done |]. destruct (pending b) as [d|]; [| done].
  split_and!; [done | | | | by eexists].
  - destruct d as [| c d]; [done |]. destruct room; [lia | done].
  - pose proof (take_drop room d) as E. cbn. by destruct (drop room d).
  - by destruct (drop room d).
Qed.

(** A step of a call: bytes go from the pipe to the reader and from there to what
    is collected, none is lost or read twice; the call returns what
    [Stream.NextLine] and [Stream.NextChunk] give on the bytes that came. *)
Definition unread (r : reading) (b : buffer) : bytes := collected r ++ held b.

Definition step_ok (at_ : place) (r : reading) (b : buffer) (x : progress) : Prop :=
  match x with
  | More r' b' =>
      reading_ok at_ r' /\ pipe_closed b' = pipe_closed b /\ pending b' <> Some [] /\
      exists d, unread r' b' = unread r b ++ d /\ default [] (pending b) = d ++ default [] (pending b') /\
        (pipe_closed b = true -> pending b' = pending b)
  | Done l b' =>
      (forall closed t, awaited closed at_ (unread r b ++ t) = Got l (held b' ++ t)) /\
      pipe_closed b' = pipe_closed b /\ pending b' = pending b
  | Failed b' =>
      pipe_closed b = true /\ awaited true at_ (unread r b) = Closed /\ held b' = [] /\
      pipe_closed b' = true /\ pending b' = pending b
  | Blocked => pipe_closed b = false /\ pending b = None /\ awaited false at_ (unread r b) = Wait
  end.

Lemma fill_ok at_ r b :
  reading_ok at_ r -> pending b <> Some [] -> length (held b) < buffer_size ->
  (forall closed, awaited closed at_ (unread r b) = if closed then Closed else Wait) ->
  step_ok at_ r b (fill r b).
Proof.
  intros Hr Hp Hl Ha. unfold fill. pose proof (pipe_read_spec (buffer_size - length (held b)) b ltac:(lia) Hp) as H.
  destruct (pipe_read _ b) as [d rest | |].
  - destruct H as (Hc & Hd & He & Hrest & _). destruct d as [| c d]; [done |]. cbn. split_and!; try done.
    exists (c :: d). unfold unread. cbn. rewrite app_assoc. split_and!; [done.. | congruence].
  - by cbn; rewrite Ha.
  - destruct H. by cbn; rewrite Ha.
Qed.

Lemma NextLine_None closed s : scan_line s = None -> NextLine closed s = if closed then Closed else Wait.
Proof. unfold NextLine. by intros ->. Qed.

Lemma more_collected at_ r r' b h :
  reading_ok at_ r' -> pending b <> Some [] -> unread r' (keep h b) = unread r b -> step_ok at_ r b (More r' (keep h b)).
Proof. intros Hr Hp E. cbn. split_and!; try done. exists []. by rewrite app_nil_r. Qed.

Lemma line_step_ok at_ a b :
  reading_ok at_ (ReadingLine a) -> pending b <> Some [] -> step_ok at_ (ReadingLine a) b (read_step (ReadingLine a) b).
Proof.
  intros Hr Hp. pose proof Hr as [Hi Ha]. cbn [read_step]. destruct (up_to_CR (held b)) as [[d rest]|] eqn:E.
  - apply more_collected; [| done |].
    + cbn. split; [done |]. destruct (up_to_CR_Some _ _ _ [] E) as (_ & d' & -> & _). exists (a ++ d').
      split; [by rewrite app_assoc |]. intros t. destruct (up_to_CR_Some _ _ _ t E) as (_ & d2 & [-> _]%app_inj_tail & H).
      rewrite <- app_assoc, Ha, H. destruct t as [| c t]; [done |]. cbn. destruct (beq c LF); [done |].
      destruct (scan_line t) as [[]|]; cbn; by rewrite <- ?app_assoc.
    + destruct (up_to_CR_Some _ _ _ [] E) as (E1 & _). unfold unread. cbn. by rewrite E1, app_assoc.
  - destruct (buffer_size <=? length (held b)) eqn:El.
    + apply more_collected; [| done |].
      * cbn. split; [done |]. intros t. rewrite <- app_assoc, Ha, (up_to_CR_None_app _ _ E).
        destruct (scan_line t) as [[]|]; cbn; by rewrite ?app_assoc.
      * unfold unread. cbn. by rewrite app_nil_r.
    + apply Nat.leb_gt in El. apply fill_ok; try done. intros closed. rewrite awaited_line by done.
      apply NextLine_None. unfold unread. cbn. by rewrite Ha, (up_to_CR_None _ E).
Qed.

Lemma byte_step_ok at_ a b :
  reading_ok at_ (ReadingByte a) -> pending b <> Some [] -> step_ok at_ (ReadingByte a) b (read_step (ReadingByte a) b).
Proof.
  intros Hr Hp. pose proof Hr as [Hi (a' & -> & Ha)]. cbn [read_step]. destruct (held b) as [| c rest] eqn:E.
  - apply fill_ok; try done; [rewrite E; cbn; unfold buffer_size; lia |]. intros closed. rewrite awaited_line by done.
    apply NextLine_None. unfold unread. cbn [collected]. by rewrite E, Ha.
  - destruct (beq c LF) eqn:Ec.
    + cbn. split_and!; try done. intros closed t. rewrite awaited_line by done. unfold unread, NextLine. cbn [collected].
      rewrite <- app_assoc, Ha, E. cbn. rewrite Ec. f_equal. rewrite <- app_assoc. cbn.
      rewrite length_app. cbn. replace (length a' + 2 - 2) with (length a') by lia. by rewrite take_app_length.
    + apply more_collected; [| done |].
      * cbn. split; [done |]. intros t. rewrite <- app_assoc, Ha. cbn. rewrite Ec.
        destruct (scan_line t) as [[]|]; cbn; by rewrite <- ?app_assoc.
      * unfold unread. cbn. rewrite E. by rewrite <- !app_assoc.
Qed.

Lemma chunk_step_ok at_ n d b :
  reading_ok at_ (ReadingChunk n d) -> pending b <> Some [] ->
  step_ok at_ (ReadingChunk n d) b (read_step (ReadingChunk n d) b).
Proof.
  intros [Hi Hd] Hp. cbn [read_step]. destruct (n <=? length d) eqn:El.
  - apply Nat.leb_le in El. cbn. split_and!; try done. intros closed t. rewrite (awaited_chunk _ _ n) by done.
    unfold chunk, unread. cbn. rewrite !length_app, (proj2 (Nat.leb_le _ _)) by lia.
    replace n with (length d) by lia. by rewrite <- app_assoc, take_app_length, drop_app_length.
  - apply Nat.leb_gt in El. destruct (held b) as [| c h] eqn:Eh.
    + assert (forall closed, awaited closed at_ (unread (ReadingChunk n d) b) = if closed then Closed else Wait) as Ha.
      { intros closed. rewrite (awaited_chunk _ _ n) by done. unfold chunk, unread. cbn.
        by rewrite Eh, app_nil_r, (proj2 (Nat.leb_gt _ _)) by lia. }
      pose proof (pipe_read_spec (Nat.max (n - length d) buffer_size) b ltac:(lia) Hp) as H.
      destruct (pipe_read _ b) as [x rest | |]; cbn; [| by rewrite Ha | destruct H; by rewrite Ha].
      destruct H as (Hc & Hx & He & Hrest & _). split_and!; try done.
      * rewrite length_app, length_take. lia.
      * exists x. unfold unread. cbn. rewrite Eh, app_nil_r, <- app_assoc, take_drop. split_and!; [done.. | congruence].
    + apply more_collected; [| done |].
      * cbn [reading_ok]. rewrite length_app, length_take. split; [done | lia].
      * unfold unread. cbn [collected keep held]. by rewrite <- app_assoc, take_drop, Eh.
Qed.

Lemma read_step_ok at_ r b : reading_ok at_ r -> pending b <> Some [] -> step_ok at_ r b (read_step r b).
Proof. destruct r; [apply line_step_ok | apply byte_step_ok | apply chunk_step_ok]. Qed.

(** ** Closing the pipe *)

(** What an iteration that does not wait does, it does on a closed pipe, too. *)
Definition closes (r r' : res iteration) : Prop := r = Ok Block \/ r <> Ok Break /\ r' = r.

Lemma NextLine_closes s : NextLine false s = Wait \/ NextLine true s = NextLine false s.
Proof. unfold NextLine. destruct (scan_line s) as [[]|]; auto. Qed.

Lemma NextChunk_closes n s : NextChunk false n s = Ok Wait \/ NextChunk true n s = NextChunk false n s.
Proof. unfold NextChunk. destruct (n <? 0)%Z; [by right |]. destruct (_ <=? _); auto. Qed.

Lemma header_lines_closes s : header_lines false s = Wait \/ header_lines true s = header_lines false s.
Proof.
  induction s as [s IH] using length_ind. rewrite !(header_lines_eq _ s).
  destruct (NextLine_closes s) as [-> | ->]; [by left |].
  destruct (NextLine false s) as [[| c l] r| |] eqn:E; auto. apply NextLine_length in E.
  destruct (IH r ltac:(lia)) as [-> | ->]; [by left | by right].
Qed.

Lemma read_body_closes m n s : closes (read_body false m n s) (read_body true m n s).
Proof.
  unfold read_body, closes. destruct (NextChunk_closes n s) as [-> | ->]; [by left |].
  destruct (NextChunk false n s) as [[]| |]; cbn; auto. by destruct (fillBody _ _ _); right.
Qed.

Lemma read_rest_closes bl m s : closes (read_rest false bl m s) (read_rest true bl m s).
Proof.
  unfold read_rest. destruct bl; [apply read_body_closes |].
  destruct (GetHeaders _ _) as [| h [|]]; [by right | | by destruct h; destruct (msg_shown m); right].
  destruct h; try (by right). apply read_body_closes.
Qed.

Lemma read_message_closes pp u skip lens s : closes (read_message pp u false skip lens s) (read_message pp u true skip lens s).
Proof.
  unfold read_message. destruct (NextLine_closes s) as [-> | ->]; [by left |].
  destruct (NextLine false s) as [l r| |] eqn:E; [| by destruct (NextLine_open s) | by left].
  destruct (parseStartLine u l) as [m | e |]; [| | by right].
  - destruct (header_lines_closes r) as [-> | ->]; [by left |]. pose proof (header_lines_not_closed false r).
    destruct (header_lines false r) as [ls r'| |]; [| done | by left].
    destruct (fillHeaders pp m ls); [apply read_rest_closes | by right..].
  - unfold bad_start_line, closes. destruct (snd <$> lens) as [n|]; [| by right].
    destruct (NextChunk_closes (n - Z.of_nat (length l) - 2) r) as [-> | ->]; [by left |].
    destruct (NextChunk false _ r) as [[]| |]; cbn; auto.
Qed.

Lemma parse_iteration_closes pp u streamed skip s :
  closes (parse_iteration pp u streamed false skip s) (parse_iteration pp u streamed true skip s).
Proof.
  unfold parse_iteration. destruct streamed; [apply read_message_closes |].
  destruct (NextLine_closes s) as [-> | ->]; [by left |].
  destruct (NextLine false s) as [l r| |] eqn:E; [| by destruct (NextLine_open s) | by left].
  destruct (frame_lengths l); [apply read_message_closes | by right].
Qed.

Definition close (p : parser) : parser :=
  mkParser (p_pp p) (p_streamed p) (p_skip p) (p_input p) true (p_goroutine p) (p_drawn p) (p_events p).

(** Running the goroutine before the pipe is closed changes nothing. *)
Lemma parse_close uuid p : p_closed p = false -> parse uuid (close (parse uuid p)) = parse uuid (close p).
Proof.
  remember (p_input p) as s eqn:Es. revert p Es. induction s as [s IH] using length_ind. intros p Es Hc.
  rewrite (parse_eq _ p). destruct (p_goroutine p) eqn:Eg; [| done..].
  pose proof (parse_iteration_closes (p_pp p) (uuid (p_drawn p)) (p_streamed p) (p_skip p) (p_input p)) as Hp.
  pose proof (parse_iteration_shrinks (p_pp p) (uuid (p_drawn p)) (p_streamed p) false (p_skip p) (p_input p)) as Hs.
  rewrite (parse_eq _ (close p)). unfold step_iteration in *. cbn [close p_goroutine p_pp p_drawn p_streamed p_closed p_skip p_input].
  rewrite Eg, Hc. destruct Hp as [Hb | [Hb Hr]].
  - rewrite Hb. rewrite parse_eq. cbn [close p_goroutine]. by rewrite Eg.
  - rewrite Hr. destruct (parse_iteration _ _ _ false _ (p_input p)) as [[sk r ev| |]| |]; try done; cbn [shrinks] in Hs.
    + rewrite (IH r); [| subst; lia | done..]. unfold close, advance. done.
    + rewrite parse_eq. unfold step_iteration. cbn [close p_goroutine p_pp p_drawn p_streamed p_closed p_skip p_input].
      by rewrite Eg, Hr.
Qed.

(** ** The goroutine and [Stream.parse] *)

Section simulation.

Context (uuid : nat -> bytes).

Definition iteration_of (p : parser) (closed : bool) (input : bytes) : res iteration :=
  parse_iteration (p_pp p) (uuid (p_drawn p)) (p_streamed p) closed (p_skip p) input.

Definition todo (s : state) (closed : bool) (input : bytes) : res iteration :=
  rest_of (st_pp s) (uuid (st_drawn s)) closed (st_skip s) (st_place s) input.

(** The fields of the goroutine and of the parser agree. *)
Record same (s : state) (p : parser) : Prop := {
  sm_pp : p_pp p = st_pp s;
  sm_streamed : p_streamed p = st_streamed s;
  sm_closed : p_closed p = pipe_closed (st_buffer s);
  sm_goroutine : p_goroutine p = st_goroutine s;
  sm_events : p_events p = st_sent s ++ st_sending s;
  sm_drawn : p_drawn p = st_drawn s;
  sm_pending : pending (st_buffer s) <> Some [];
  sm_lost : pipe_closed (st_buffer s) = true -> pending (st_buffer s) = None
}.

(** The parser [p] has the bytes that were taken from the pipe and not yet used up
    by an iteration: those of the returned calls, those the call under way has
    collected, and those the reader holds. *)
Definition halfway (s : state) (p : parser) : Prop :=
  reading_ok (st_place s) (st_reading s) /\ skip_ok (st_place s) (st_skip s) /\
  exists c, p_input p = c ++ unread (st_reading s) (st_buffer s) /\
    if pipe_closed (st_buffer s)
    then iteration_of p true (p_input p) = todo s true (unread (st_reading s) (st_buffer s))
    else forall closed t, iteration_of p closed (c ++ t) = todo s closed t.

Definition sim (s : state) (p : parser) : Prop := same s p /\ (st_goroutine s = Reading -> halfway s p).

Lemma sim_todo s p :
  sim s p -> st_goroutine s = Reading -> step_iteration uuid p = todo s (pipe_closed (st_buffer s)) (unread (st_reading s) (st_buffer s)).
Proof using.
  intros [H Hh] Hg. destruct (Hh Hg) as (_ & _ & c & Hi & Hc). unfold step_iteration. rewrite (sm_closed _ _ H).
  destruct (pipe_closed (st_buffer s)); [exact Hc |]. rewrite Hi. apply Hc.
Qed.

Lemma first_place_ok streamed :
  reading_ok (first_place streamed) (ReadingLine []) /\ forall skip, skip_ok (first_place streamed) skip.
Proof using.
  destruct streamed; split; try done; [apply (reading_ok_first (AtStartLine None)) | apply (reading_ok_first AtLengths)].
Qed.

(** The goroutine goes on with another reader, place and events. *)
Lemma same_go s p p' b skip at_ r sending g :
  same s p -> st_sending s = [] -> pipe_closed b = pipe_closed (st_buffer s) -> pending b = pending (st_buffer s) ->
  p_pp p' = p_pp p -> p_streamed p' = p_streamed p -> p_closed p' = p_closed p -> p_goroutine p' = g ->
  p_events p' = p_events p ++ sending ->
  same (mkState (st_pp s) (st_streamed s) skip b at_ r (p_drawn p') sending (st_sent s) g (st_stopped s) (st_written s)) p'.
Proof using.
  intros [H1 H2 H3 H4 H5 H6 H7 H8] Hs Hc Hp. rewrite Hs, app_nil_r in H5. intros.
  split; cbn; rewrite ?Hc, ?Hp; try done; congruence.
Qed.

(** The result of a call is passed on; [c] is what the iteration has read. *)
Lemma sim_returned s p b response c :
  sim s p -> st_goroutine s = Reading -> st_sending s = [] ->
  pipe_closed b = pipe_closed (st_buffer s) -> pending b = pending (st_buffer s) ->
  p_input p = c ++ held b ->
  continues (st_pp s) (uuid (st_drawn s)) (pipe_closed b) (step_iteration uuid p) (held b)
    (go_on (st_pp s) (uuid (st_drawn s)) (st_skip s) (st_place s) response) ->
  (pipe_closed b = false ->
     forall closed t, continues (st_pp s) (uuid (st_drawn s)) closed (iteration_of p closed (c ++ t)) t
       (go_on (st_pp s) (uuid (st_drawn s)) (st_skip s) (st_place s) response)) ->
  exists p', sim (returned uuid s b response) p' /\ parse uuid p' = parse uuid p.
Proof using.
  intros [H _] Hg Hsend Hbc Hbp Hin Hcont Hopen. unfold returned. pose proof H as [Hpp Hst Hcl Hgo _ Hdr _ _].
  assert (forall g i, g <> Reading -> parse uuid (ended p g i) = ended p g i) as Hend
    by (intros g i Hgr; rewrite parse_eq; by destruct g).
  rewrite (parse_eq _ p), Hgo, Hg.
  destruct (go_on _ _ _ _ _) as [[skip at_ r | skip events |] | e |]; cbn [continues] in Hcont.
  - exists p. split; [split |].
    + rewrite <- Hdr. apply (same_go s p); try done; by rewrite ?app_nil_r, ?Hgo.
    + intros _. destruct Hcont as (Hc & -> & Hsk). cbn.
      assert (unread (first_call at_) b = held b) as Hu by (unfold unread; by destruct at_).
      split_and!; [apply reading_ok_first | done |]. exists c. cbn. rewrite Hu. split; [done |].
      destruct (pipe_closed b) eqn:Eb; [| intros closed t; by destruct (Hopen eq_refl closed t) as [? _]].
      unfold step_iteration in Hc. by rewrite Hcl, <- Hbc in Hc.
    + by rewrite (parse_eq _ p), Hgo, Hg.
  - exists (advance p skip (held b) events). split; [split |].
    + rewrite <- Hdr. by apply (same_go s p (advance p skip (held b) events)).
    + intros _. pose proof (first_place_ok (st_streamed s)) as [? ?]. split_and!; [done.. |].
      exists []. split; [done |]. cbn. unfold iteration_of, todo. cbn. rewrite Hpp, Hst, Hdr.
      by destruct (pipe_closed b), (st_streamed s).
    + by rewrite Hcont.
  - exists (ended p Finished []). rewrite Hend, Hcont by done. split; [| done]. split; [| done].
    rewrite <- Hdr. apply (same_go s p (ended p Finished [])); try done. by rewrite app_nil_r.
  - exists (ended p Crashed (p_input p)). rewrite Hend, Hcont by done. split; [| done]. split; [| done].
    rewrite <- Hdr. apply (same_go s p (ended p Crashed (p_input p))); try done. by rewrite app_nil_r.
  - exists (ended p Crashed (p_input p)). rewrite Hend, Hcont by done. split; [| done]. split; [| done].
    rewrite <- Hdr. apply (same_go s p (ended p Crashed (p_input p))); try done. by rewrite app_nil_r.
Qed.

(** A call reads a prefix of its input, whatever follows. *)
Lemma scan_line_prefix s l r : scan_line s = Some (l, r) -> exists u, s = u ++ r /\ forall t, scan_line (u ++ t) = Some (l, t).
Proof using.
  revert l r. induction s as [| c s IH IH'] using scan_ind; intros l r H; [done |]. cbn [scan_line] in H.
  destruct (beq c CR) eqn:Ec.
  - destruct s as [| b s]; [done |]. destruct (beq b LF) eqn:Eb.
    + injection H as <- <-. exists [c; b]. split; [done |]. intros t. cbn. by rewrite Ec, Eb.
    + apply bind_Some in H as ([l' r'] & H & [= <- <-]). destruct (IH' b s eq_refl _ _ H) as (u & -> & Hu).
      exists (c :: b :: u). split; [done |]. intros t. cbn. by rewrite Ec, Eb, Hu.
  - apply bind_Some in H as ([l' r'] & H & [= <- <-]). destruct (IH _ _ H) as (u & -> & Hu).
    exists (c :: u). split; [done |]. intros t. cbn. by rewrite Ec, Hu.
Qed.

Lemma awaited_prefix closed at_ s l r :
  awaited closed at_ s = Got l r -> exists u, s = u ++ r /\ forall closed' t, awaited closed' at_ (u ++ t) = Got l t.
Proof using.
  assert (NextLine closed s = Got l r -> exists u, s = u ++ r /\ forall closed' t, NextLine closed' (u ++ t) = Got l t) as Hline.
  { unfold NextLine. destruct (scan_line s) as [[l' r']|] eqn:E; [| by destruct closed]. intros [= -> ->].
    destruct (scan_line_prefix _ _ _ E) as (u & -> & Hu). exists u. split; [done |]. intros closed' t. by rewrite Hu. }
  assert (forall n, chunk closed n s = Got l r -> exists u, s = u ++ r /\ forall closed' t, chunk closed' n (u ++ t) = Got l t) as Hchunk.
  { intros n. unfold chunk. destruct (n <=? length s) eqn:E; [| by destruct closed]. apply Nat.leb_le in E.
    intros [= <- <-]. exists (take n s). split; [by rewrite take_drop |]. intros closed' t.
    rewrite length_app, length_take, (proj2 (Nat.leb_le _ _)) by lia.
    by rewrite take_app_length', drop_app_length' by (rewrite length_take; lia). }
  destruct at_; cbn [awaited]; first [exact Hline | apply Hchunk].
Qed.

Lemma append_input_nil p : append_input p [] = p.
Proof using. destruct p. unfold append_input. cbn. by rewrite app_nil_r. Qed.

(** ** Every step of the goroutine is a part of [parse] *)

Context (pp : PacketParser) (streamed : bool) (drawn : nat) (sent : list event).

(** The parser that got [taken] at once. *)
Definition spec (taken : bytes) (closed : bool) : parser := mkParser pp streamed false taken closed Reading drawn sent.

(** [taken] is what came through the pipe; the rest of what was written waits. *)
Definition agrees (s : state) (p : parser) (taken : bytes) : Prop :=
  sim s p /\ st_written s = taken ++ default [] (pending (st_buffer s)) /\
  parse uuid p = parse uuid (spec taken (pipe_closed (st_buffer s))).

Lemma agrees_more s p taken r b :
  agrees s p taken -> st_goroutine s = Reading -> st_sending s = [] ->
  step_ok (st_place s) (st_reading s) (st_buffer s) (More r b) ->
  exists p' taken', agrees (mkState (st_pp s) (st_streamed s) (st_skip s) b (st_place s) r (st_drawn s) [] (st_sent s)
                              Reading (st_stopped s) (st_written s)) p' taken'.
Proof using.
  intros ([H Hh] & Hw & Hp) Hg Hs (Hr & Hc & Hne & d & Hu & Hd & Hsame). exists (append_input p d), (taken ++ d).
  assert (pipe_closed (st_buffer s) = true -> d = []) as Hd0.
  { intros E. rewrite (sm_lost _ _ H E) in Hd. by destruct d. }
  destruct (Hh Hg) as (_ & Hsk & c & Hi & Hit). split_and!.
  - split.
    + destruct H. split; cbn; rewrite ?Hc; try done; try congruence. intros E. rewrite (Hsame E); auto.
    + intros _. split_and!; [done.. |]. exists c. cbn. rewrite Hi, Hu, Hc, app_assoc. split; [done |].
      destruct (pipe_closed (st_buffer s)); [| done]. rewrite (Hd0 eq_refl), !app_nil_r, append_input_nil. by rewrite <- Hi.
  - cbn. by rewrite Hw, Hd, app_assoc.
  - cbn [st_buffer]. rewrite Hc. destruct (pipe_closed (st_buffer s)) eqn:E.
    + by rewrite (Hd0 eq_refl), append_input_nil, app_nil_r, Hp.
    + rewrite <- parse_append, Hp by (rewrite (sm_closed _ _ H); done). by rewrite parse_append.
Qed.

Lemma agrees_returned s p taken b response c :
  agrees s p taken -> st_goroutine s = Reading -> st_sending s = [] ->
  pipe_closed b = pipe_closed (st_buffer s) -> pending b = pending (st_buffer s) ->
  p_input p = c ++ held b ->
  continues (st_pp s) (uuid (st_drawn s)) (pipe_closed b) (step_iteration uuid p) (held b)
    (go_on (st_pp s) (uuid (st_drawn s)) (st_skip s) (st_place s) response) ->
  (pipe_closed b = false ->
     forall closed t, continues (st_pp s) (uuid (st_drawn s)) closed (iteration_of p closed (c ++ t)) t
       (go_on (st_pp s) (uuid (st_drawn s)) (st_skip s) (st_place s) response)) ->
  exists p', agrees (returned uuid s b response) p' taken.
Proof using.
  intros (H & Hw & Hp) Hg Hs Hc Hpe Hi Hcont Hopen.
  destruct (sim_returned s p b response c H Hg Hs Hc Hpe Hi Hcont Hopen) as (p' & Hsim & Hp'). exists p'.
  assert (st_written (returned uuid s b response) = st_written s /\ st_buffer (returned uuid s b response) = b) as [Hwr Hb]
    by (unfold returned; by destruct (go_on _ _ _ _ _) as [[]| |]).
  split_and!; [done | by rewrite Hwr, Hb, Hpe | by rewrite Hb, Hp', Hc].
Qed.

Lemma agrees_goroutine s s' p taken :
  agrees s p taken -> goroutine_step uuid s = Some s' -> exists p' taken', agrees s' p' taken'.
Proof using.
  intros Ha. pose proof Ha as ([H Hh] & Hw & Hp). unfold goroutine_step. destruct (st_goroutine s) eqn:Hg; [| done..].
  destruct (st_sending s) as [| e rest] eqn:Hs.
  - destruct (Hh eq_refl) as (Hr & Hsk & c & Hi & Hit).
    pose proof (sim_todo _ _ (proj1 Ha) Hg) as Htodo.
    pose proof (read_step_ok _ _ _ Hr (sm_pending _ _ H)) as Hstep.
    pose proof (fun closed t => go_on_continues (st_pp s) (uuid (st_drawn s)) closed (st_skip s) (st_place s) t Hsk) as Hgo.
    destruct (read_step _ _) as [r b | l b | b |]; [intros [= <-].. | done].
    + by apply (agrees_more s p taken r b).
    + destruct Hstep as (Hall & Hc & Hpe). pose proof (Hall false []) as Hu. rewrite !app_nil_r in Hu.
      destruct (awaited_prefix _ _ _ _ _ Hu) as (u & Eu & Hpre).
      destruct (agrees_returned s p taken b (Some l) (c ++ u)) as (p' & Hp'); try done.
      * by rewrite Hi, Eu, app_assoc.
      * rewrite Htodo, Hc. specialize (Hgo (pipe_closed (st_buffer s)) (unread (st_reading s) (st_buffer s))).
        rewrite Eu, Hpre in Hgo. by rewrite Eu.
      * intros E closed t. rewrite Hc in E. rewrite E in Hit. rewrite <- app_assoc, Hit.
        specialize (Hgo closed (u ++ t)). by rewrite Hpre in Hgo.
      * eauto.
    + destruct Hstep as (Hc & Hf & Hh0 & Hc' & Hpe).
      destruct (agrees_returned s p taken b None (p_input p)) as (p' & Hp'); try done.
      * congruence.
      * by rewrite Hh0, app_nil_r.
      * rewrite Htodo, Hc, Hc', Hh0. specialize (Hgo true (unread (st_reading s) (st_buffer s))). by rewrite Hf in Hgo.
      * congruence.
      * eauto.
  - intros [= <-]. exists p, taken. split_and!; [| done..]. split; [| done].
    destruct H. split; cbn; try done; [congruence |]. by rewrite sm_events0, Hs, <- app_assoc.
Qed.

End simulation.

(** ** Termination

    A byte moves from the pipe to the reader, from there to the call, and is used
    up; what a call without bytes can still do is bounded by its place. *)

Definition place_work (at_ : place) : nat :=
  match at_ with AtHeaders _ _ _ => 6 | AtSkip _ _ | AtBody _ _ => 4 | _ => 2 end.

Definition pipe_work (b : buffer) : nat :=
  20 * length (held b) + match pending b with Some d => S (30 * length d) | None => 0 end.

Definition work (s : state) : nat :=
  match st_goroutine s with
  | Reading =>
      pipe_work (st_buffer s) + 10 * length (collected (st_reading s)) + place_work (st_place s) + length (st_sending s)
  | _ => 0
  end.

(** What a returned call leaves to do. *)
Lemma go_on_work pp uuid skip at_ response :
  match go_on pp uuid skip at_ response with
  | Ok (Call _ at' r) => collected r = [] /\ (is_Some response /\ is_line at_ \/ place_work at' < place_work at_)
  | Ok (Again _ events) => length events <= 1 /\ (is_Some response /\ is_line at_ \/ 4 <= place_work at_)
  | _ => True
  end.
Proof.
  assert (forall skip' n f, match call_chunk skip' n f with Ok (Call _ _ r) => collected r = [] | Ok _ => False | _ => True end) as Hc
    by (intros; unfold call_chunk; by destruct (n <? 0)%Z).
  assert (forall lens m, match call_body skip lens m with
    | Ok (Call _ at' r) => collected r = [] /\ place_work at' = 4
    | Ok (Again _ events) => length events <= 1
    | _ => True end) as Hb.
  { intros lens m. unfold call_body, call_chunk. destruct lens as [[n ?]|]; [by destruct (n <? 0)%Z |].
    destruct (GetHeaders _ _) as [| h [|]]; [done | | destruct h; destruct (msg_shown m); cbn; lia || done]. destruct h; try done. by destruct (_ <? 0)%Z. }
  destruct at_ as [| lens | lens m lines | e n | m n], response as [x|]; cbn [go_on is_line place_work]; try done.
  - destruct (frame_lengths x); cbn; eauto.
  - destruct (parseStartLine uuid x) as [m | e |]; [cbn; eauto | | done].
    destruct lens as [[b n]|]; [| destruct skip; cbn; eauto].
    pose proof (Hc skip (n - Z.of_nat (length x) - 2)%Z (AtSkip e)) as H. destruct (call_chunk _ _ _) as [[]| |]; cbn; eauto; done.
  - destruct x as [| c x]; [| cbn; eauto]. destruct (fillHeaders pp m lines) as [m'| |]; [| done..]. cbn [mbind res_bind].
    specialize (Hb lens m'). destruct (call_body skip lens m') as [[]| |]; cbn; eauto; try done. split; [by destruct Hb |]. left; eauto.
  - destruct (fillHeaders pp m lines) as [m'| |]; [| done..]. cbn [mbind res_bind].
    specialize (Hb lens m'). destruct (call_body skip lens m') as [[]| |]; try done; cbn.
    + destruct Hb as [? ->]. split; [done |]. right. lia.
    + split; [done |]. right. lia.
  - split; [done | right; lia].
  - split; [done | right; lia].
  - destruct (fillBody m x n); try done; split; try done; right; lia.
  - split; [done | right; lia].
Qed.

Definition pending_work (p : option bytes) : nat := match p with Some d => S (30 * length d) | None => 0 end.

Lemma pipe_read_work room b x rest :
  0 < room -> pipe_read room b = PipeRead x rest -> 20 * length x + pending_work rest < pending_work (pending b).
Proof.
  intros Hr. unfold pipe_read. destruct (pipe_closed b); [done |]. destruct (pending b) as [d|]; [| done].
  intros [= <- <-]. pose proof (f_equal length (take_drop room d)) as E. rewrite length_app in E.
  destruct (drop room d) as [| c r]; cbn [pending_work length] in *; [lia |].
  destruct d as [| c' d]; [by destruct room |]. destruct room as [| room]; [lia |]. cbn in *. lia.
Qed.

Lemma fill_work r b :
  length (held b) < buffer_size ->
  match fill r b with
  | More r' b' => r' = r /\ pipe_work b' < pipe_work b
  | Failed b' => pipe_work b' <= pipe_work b
  | Done _ _ => False
  | Blocked => True
  end.
Proof.
  intros Hl. unfold fill. destruct (pipe_read _ b) as [x rest | |] eqn:E; [| unfold pipe_work; cbn; lia | done].
  apply pipe_read_work in E; [| lia]. unfold pending_work in E. unfold pipe_work. destruct x as [| c x].
  - destruct (_ <? _); cbn in *; [split; [done |] |]; lia.
  - cbn [held pending]. rewrite length_app. split; [done | lia].
Qed.

Lemma read_step_work at_ r b :
  reading_ok at_ r ->
  match read_step r b with
  | More r' b' => pipe_work b' + 10 * length (collected r') < pipe_work b + 10 * length (collected r)
  | Done _ b' => is_line at_ /\ pipe_work b' + 10 < pipe_work b \/ ~ is_line at_ /\ pipe_work b' <= pipe_work b
  | Failed b' => pipe_work b' <= pipe_work b
  | Blocked => True
  end.
Proof.
  intros Hr. destruct r as [a | a | n d]; cbn [read_step].
  - destruct (up_to_CR (held b)) as [[d rest]|] eqn:E.
    + destruct (up_to_CR_Some _ _ _ [] E) as (E1 & d' & -> & _). unfold pipe_work. cbn [keep held pending collected].
      rewrite E1, !length_app. cbn. lia.
    + destruct (buffer_size <=? length (held b)) eqn:El.
      * apply Nat.leb_le in El. unfold pipe_work. cbn [keep held pending collected length]. rewrite length_app.
        unfold buffer_size in El. lia.
      * apply Nat.leb_gt in El. pose proof (fill_work (ReadingLine a) b El) as H. destruct (fill _ b); try done. destruct H as [-> ?]. lia.
  - destruct (held b) as [| c rest] eqn:E.
    + pose proof (fill_work (ReadingByte a) b) as H. rewrite E in H. specialize (H ltac:(unfold buffer_size; cbn; lia)).
      destruct (fill _ b); try done. destruct H as [-> ?]. lia.
    + destruct (beq c LF).
      * left. split; [by destruct Hr |]. unfold pipe_work. rewrite E. cbn. lia.
      * unfold pipe_work. rewrite E. cbn. rewrite length_app. cbn. lia.
  - destruct Hr as [Hf Hd]. destruct (n <=? length d) eqn:El; [right; split; [intros Hi; by destruct at_ | lia] |].
    apply Nat.leb_gt in El. destruct (held b) as [| c h] eqn:E.
    + destruct (pipe_read _ b) as [x rest | |] eqn:Ep; [| done..]. apply pipe_read_work in Ep; [| unfold buffer_size; lia].
      unfold pending_work in Ep. unfold pipe_work. cbn [held pending collected]. rewrite E, length_app, length_take, length_drop. cbn [length]. lia.
    + unfold pipe_work. cbn [keep held pending collected]. rewrite E, length_app, length_take, length_drop. cbn [length]. lia.
Qed.

Lemma returned_work uuid s b response :
  st_goroutine s = Reading ->
  (is_line (st_place s) /\ pipe_work b + 10 < pipe_work (st_buffer s) \/
   (response = None \/ ~ is_line (st_place s)) /\ pipe_work b <= pipe_work (st_buffer s)) ->
  work (returned uuid s b response) < work s.
Proof.
  intros Hg H. unfold returned. pose proof (go_on_work (st_pp s) (uuid (st_drawn s)) (st_skip s) (st_place s) response) as Hw.
  assert (2 <= place_work (st_place s)) as H2 by (destruct (st_place s); cbn; lia).
  destruct (go_on _ _ _ _ _) as [[skip at' r | skip ev |] | |]; unfold work; rewrite Hg; cbn [st_goroutine st_buffer st_reading st_place st_sending collected length]; try lia.
  - destruct Hw as [-> Hw]. cbn [length]. assert (place_work at' <= 6) by (destruct at'; cbn; lia).
    destruct H as [[_ H] | [[-> | Hn] H]]; [lia | |]; destruct Hw as [[[? Hx] Hl] | Hw]; try done; lia.
  - destruct Hw as [Hev Hw]. assert (place_work (first_place (st_streamed s)) = 2) as -> by by destruct (st_streamed s).
    destruct H as [[_ H] | [[-> | Hn] H]]; [lia | |]; destruct Hw as [[[? Hx] Hl] | Hw]; try done; lia.
Qed.

Lemma goroutine_work uuid s s' :
  (st_goroutine s = Reading -> reading_ok (st_place s) (st_reading s)) -> goroutine_step uuid s = Some s' -> work s' < work s.
Proof.
  intros Hr. unfold goroutine_step. destruct (st_goroutine s) eqn:Hg; [| done..]. specialize (Hr eq_refl).
  destruct (st_sending s) as [| e rest] eqn:Hs.
  - pose proof (read_step_work _ _ (st_buffer s) Hr) as H.
    destruct (read_step _ _) as [r b | l b | b |]; [intros [= <-].. | done].
    + unfold work. rewrite Hg. cbn [st_goroutine st_buffer st_reading st_place st_sending]. rewrite Hs. cbn [length]. lia.
    + apply returned_work; [done |]. destruct H as [H | [H1 H2]]; auto.
    + apply returned_work; [done |]. right. auto.
  - intros [= <-]. unfold work. rewrite Hg. cbn [st_goroutine st_buffer st_reading st_place st_sending]. rewrite Hs. cbn [length]. lia.
Qed.

(** ** Theorems *)

Section theorems.

Context (uuid : nat -> bytes) (pp : PacketParser) (streamed : bool) (drawn : nat) (sent : list event).

(** Writes with a byte at least; [Reset] begins anew. *)
Definition ordinary (e : event_) : Prop := match e with WriteCall [] | ResetCall => False | _ => True end.

Inductive reaches : state -> Prop :=
| reaches_start : reaches (start pp streamed drawn sent)
| reaches_step s e s' : reaches s -> ordinary e -> step uuid e s = Some s' -> reaches s'.

(** The parser of [Stream] after the same bytes and the same [Stop]. *)
Definition expected (s : state) : parser :=
  parse uuid (spec pp streamed drawn sent (st_written s) (st_stopped s)).

Record tidy (s : state) : Prop := {
  td_stopped : st_stopped s = pipe_closed (st_buffer s);
  td_sending : st_goroutine s <> Reading -> st_sending s = [];
  td_finished : st_goroutine s = Finished -> pipe_closed (st_buffer s) = true
}.

Definition ok (s : state) : Prop := tidy s /\ exists p taken, agrees uuid pp streamed drawn sent s p taken.

Lemma go_on_Leave pp' skip at_ u response : go_on pp' u skip at_ response = Ok Leave -> response = None.
Proof using.
  destruct response as [x|]; [| done]. destruct at_ as [| lens | lens m lines | e n | m n]; cbn [go_on].
  - by destruct (frame_lengths x).
  - destruct (parseStartLine u x); [done | | done]. destruct lens as [[]|]; [| done]. unfold call_chunk. by destruct (_ <? 0)%Z.
  - destruct x; [| done]. destruct (fillHeaders pp' m lines) as [m'| |]; [| done..]. cbn. unfold call_body, call_chunk.
    destruct lens as [[]|]; [by destruct (_ <? 0)%Z |].
    destruct (GetHeaders _ _) as [| h [|]]; [done | | by destruct h; destruct (msg_shown m')].
    destruct h; try done. by destruct (_ <? 0)%Z.
  - done.
  - by destruct (fillBody m x n).
Qed.

Lemma tidy_returned s b response :
  st_stopped s = pipe_closed b -> is_Some response \/ pipe_closed b = true ->
  tidy (returned uuid s b response) /\
  st_written (returned uuid s b response) = st_written s /\ st_stopped (returned uuid s b response) = st_stopped s.
Proof using.
  intros Hs Hr. pose proof (go_on_Leave (st_pp s) (st_skip s) (st_place s) (uuid (st_drawn s)) response) as Hl. unfold returned.
  destruct (go_on _ _ _ _ _) as [[]| |]; (split; [split; cbn; try done | done]).
  intros _. destruct Hr as [[x ->] | Hr]; [by specialize (Hl eq_refl) | done].
Qed.

Lemma tidy_goroutine s p s' :
  tidy s -> sim uuid s p -> goroutine_step uuid s = Some s' ->
  tidy s' /\ st_written s' = st_written s /\ st_stopped s' = st_stopped s.
Proof using.
  intros [Hst Hse Hf] [Hsame Hh]. unfold goroutine_step. destruct (st_goroutine s) eqn:Hg; [| done..].
  destruct (st_sending s) as [| e rest].
  - destruct (Hh eq_refl) as (Hr & _). pose proof (read_step_ok _ _ _ Hr (sm_pending _ _ Hsame)) as Hok.
    destruct (read_step _ _) as [r b | l b | b |]; [intros [= <-].. | done]; cbn [step_ok] in Hok.
    + destruct Hok as (_ & Hc & _). split; [| done]. split; cbn; rewrite ?Hc; done.
    + destruct Hok as (_ & Hc & _). apply tidy_returned; [congruence | by left; eexists].
    + destruct Hok as (Hc & _ & _ & Hc' & _). apply tidy_returned; [congruence | by right].
  - intros [= <-]. split; [| done]. by split.
Qed.

Lemma ok_goroutine s s' :
  ok s -> goroutine_step uuid s = Some s' -> ok s' /\ st_written s' = st_written s /\ st_stopped s' = st_stopped s.
Proof using.
  intros [Ht (p & taken & Ha)] H. destruct (tidy_goroutine _ _ _ Ht (proj1 Ha) H) as (Ht' & ? & ?).
  split_and!; try done. split; [done |]. by apply (agrees_goroutine _ _ _ _ _ _ _ _ _ Ha).
Qed.

Lemma framed_nonempty s data d : framed s data = Some d -> ordinary (WriteCall data) -> st_stopped s = false /\ d <> [].
Proof using.
  unfold framed. destruct (st_stopped s); [done |]. destruct (st_streamed s).
  - intros [= <-] H. split; [done |]. by destruct data.
  - intros (bl & _ & ->)%fmap_Some _. split; [done |]. unfold frame. intros [_ [E _]%app_nil]%app_nil. done.
Qed.

Lemma ok_write s s' data : ok s -> ordinary (WriteCall data) -> write_step data s = Some s' -> ok s'.
Proof using.
  intros [[Hst Hse Hf] (p & taken & [Hsame Hh] & Hw & Hp)] Ho. unfold write_step. intros (d & Hd & H)%bind_Some.
  destruct (framed_nonempty _ _ _ Hd Ho) as [Hs Hne]. destruct (pending (st_buffer s)) as [x|] eqn:Epe; [done |].
  injection H as <-. split; [by split |]. exists p, taken. rewrite Hst in Hs. split_and!.
  - split; [| done]. destruct Hsame. split; cbn; try done; congruence.
  - cbn. by rewrite Hw, app_nil_r.
  - done.
Qed.

Lemma ok_stop s s' : ok s -> stop_step s = Some s' -> ok s'.
Proof using.
  intros [[Hst Hse Hf] (p & taken & [Hsame Hh] & Hw & Hp)]. unfold stop_step. destruct (st_stopped s); [done |]. intros [= <-].
  split; [by split |]. exists (close p), taken. symmetry in Hst. split_and!.
  - split; [destruct Hsame; split; cbn; done |]. intros Hg. destruct (Hh Hg) as (Hr & Hsk & c & Hi & Hit). rewrite Hst in Hit.
    split_and!; [done.. |]. exists c. cbn. split; [done |]. rewrite Hi. apply Hit.
  - cbn. rewrite Hw, length_app, app_nil_r. by rewrite take_app_length' by lia.
  - cbn [set_buffer st_buffer pipe_closed]. rewrite <- parse_close, Hp by (by rewrite (sm_closed _ _ Hsame)).
    by rewrite Hst, parse_close.
Qed.

Lemma ok_start : ok (start pp streamed drawn sent).
Proof using.
  split; [by split |]. exists (spec pp streamed drawn sent [] false), []. split_and!; try done.
  split; [by split; cbn; rewrite ?app_nil_r |]. intros _. pose proof (first_place_ok streamed) as [? ?].
  split_and!; [done.. |]. exists []. split; [done |]. intros closed t. unfold iteration_of, todo. cbn. by destruct streamed.
Qed.

Lemma buffer_reaches_ok s : reaches s -> ok s.
Proof using.
  induction 1 as [| s e s' _ IH Ho H]; [apply ok_start |]. destruct e; cbn in H; [| | | done].
  - by apply (ok_goroutine s s').
  - by apply (ok_write s s' data).
  - by apply (ok_stop s s').
Qed.

(** Where the goroutine waits or has ended, it has done what the parser does. *)
Lemma ok_idle s :
  ok s -> goroutine_step uuid s = None ->
  st_sent s = p_events (expected s) /\ st_goroutine s = p_goroutine (expected s) /\
  (st_goroutine s <> Crashed -> pending (st_buffer s) = None) /\ (st_stopped s = true -> st_goroutine s <> Reading).
Proof using.
  intros [[Hst Hse Hf] (p & taken & Hsim & Hw & Hp)] Hn. pose proof Hsim as [Hsame Hh].
  assert (parse uuid p = p /\ st_sending s = [] /\ (st_goroutine s = Reading -> pipe_closed (st_buffer s) = false /\ pending (st_buffer s) = None))
    as (Hpp & Hsend & Hread).
  { pose proof (sm_goroutine _ _ Hsame) as Hgo. rewrite parse_eq, Hgo. unfold goroutine_step in Hn.
    destruct (st_goroutine s) eqn:Hg; [| (split_and!; [done | by apply Hse | done]).. ]. destruct (st_sending s) as [| e rest]; [| done].
    destruct (Hh eq_refl) as (Hr & Hsk & _). pose proof (read_step_ok _ _ _ Hr (sm_pending _ _ Hsame)) as Hok.
    destruct (read_step _ _); try done. destruct Hok as (Hc & Hpe & Ha). split_and!; try done.
    rewrite (sim_todo _ _ _ Hsim Hg), Hc. unfold todo.
    pose proof (go_on_continues (st_pp s) (uuid (st_drawn s)) false (st_skip s) (st_place s) (unread (st_reading s) (st_buffer s)) Hsk) as H.
    cbn zeta in H. rewrite Ha in H. by rewrite H. }
  assert (expected s = parse uuid (append_input p (default [] (pending (st_buffer s))))) as ->.
  { unfold expected. rewrite Hw, Hst. destruct (pipe_closed (st_buffer s)) eqn:Hc.
    - rewrite (sm_lost _ _ Hsame Hc). cbn [default]. by rewrite append_input_nil, app_nil_r, Hp.
    - rewrite <- (parse_append uuid p), Hp by (by rewrite (sm_closed _ _ Hsame)). by rewrite parse_append. }
  pose proof (sm_events _ _ Hsame) as He. rewrite Hsend, app_nil_r in He. pose proof (sm_goroutine _ _ Hsame) as Hgo.
  destruct (st_goroutine s) eqn:Hg.
  - destruct (Hread eq_refl) as [Hc Hpe]. rewrite Hpe. cbn [default]. rewrite append_input_nil, Hpp. split_and!; try done.
    rewrite Hst. congruence.
  - rewrite (sm_lost _ _ Hsame (Hf eq_refl)). cbn [default]. by rewrite append_input_nil, Hpp.
  - rewrite parse_eq. cbn [append_input p_goroutine]. by rewrite Hgo.
Qed.

Lemma run_idle n s :
  ok s -> work s <= n ->
  ok (run uuid n s) /\ goroutine_step uuid (run uuid n s) = None /\ expected (run uuid n s) = expected s /\
  st_stopped (run uuid n s) = st_stopped s.
Proof using.
  revert s. induction n as [| n IH]; intros s Hok Hn; cbn [run].
  - destruct (goroutine_step uuid s) as [s'|] eqn:E; [| done]. exfalso.
    apply goroutine_work in E; [lia |]. intros Hg. destruct Hok as [_ (p & taken & [_ Hh] & _)]. by destruct (Hh Hg).
  - destruct (goroutine_step uuid s) as [s'|] eqn:E; [| done]. destruct (ok_goroutine _ _ Hok E) as (Hok' & Hw & Hs).
    apply goroutine_work in E; [| intros Hg; destruct Hok as [_ (p & taken & [_ Hh] & _)]; by destruct (Hh Hg)].
    destruct (IH s' Hok' ltac:(lia)) as (? & ? & He & Hst). split_and!; try done; [| congruence].
    rewrite He. unfold expected. by rewrite Hw, Hs.
Qed.

(** C24: Between the start of a parser (or its last [Reset]) and the next one, with
    no empty [Write], the bytes take the way of the pipe and the buffered reader in
    any order of steps: wherever they are, the goroutine comes to a halt after a
    bounded number of its own steps, every [Write] then has returned (unless the
    goroutine panicked), a stopped parser has ended, and the messages and errors
    sent are those of the parser that gets the same bytes at once. *)
Theorem pipe_delivers s :
  reaches s ->
  let s' := run uuid (work s) s in
  goroutine_step uuid s' = None /\ st_sent s' = p_events (expected s) /\ st_goroutine s' = p_goroutine (expected s) /\
  (st_goroutine s' <> Crashed -> pending (st_buffer s') = None) /\ (st_stopped s = true -> st_goroutine s' <> Reading).
Proof using.
  intros Hr s'. destruct (run_idle (work s) s (buffer_reaches_ok _ Hr) ltac:(lia)) as (Hok & Hn & He & Hs).
  destruct (ok_idle _ Hok Hn) as (H1 & H2 & H3 & H4). rewrite He in *. rewrite Hs in *. done.
Qed.

End theorems.

(** The parser of the theorem is the one of [Stream]: one [Write] of all the
    bytes, and a [Stop] that finds the rest of them in the reader. *)
Theorem expected_is_stream uuid pp s :
  let p := fst (Write uuid (NewParser pp true) (st_written s)) in
  expected uuid pp true 0 [] s = if st_stopped s then Stop uuid (length (p_input p)) p else p.
Proof.
  cbn zeta. unfold expected, Write. cbn [NewParser p_closed p_streamed fst].
  set (q := append_input (NewParser pp true) (st_written s)).
  destruct (st_stopped s); [| done]. unfold Stop. rewrite parse_closed. cbn [q append_input NewParser p_closed].
  rewrite firstn_all. fold q. exact (eq_sym (parse_close uuid q eq_refl)).
Qed.

(** ** Empty writes *)

Fixpoint exec (uuid : nat -> bytes) (es : list event_) (s : state) : option state :=
  match es with [] => Some s | e :: es => s' ← step uuid e s; exec uuid es s' end.

(** A hundred empty writes in a row, which a peer makes with as many empty
    WebSocket messages, end the goroutine of a parser that was not stopped; the
    next [Write] then never returns, and neither [Write] nor the goroutine says
    why. *)
Theorem empty_writes_end_parser uuid pp :
  exists s, exec uuid (concat (replicate max_empty_reads [WriteCall []; Goroutine])) (start pp true 0 []) = Some s /\
    st_goroutine s = Finished /\ st_stopped s = false /\ st_sent s = [] /\
    forall data, exists s', write_step data s = Some s' /\ is_Some (pending (st_buffer s')) /\
      (forall n, run uuid n s' = s') /\ forall data', write_step data' s' = None.
Proof.
  eexists. split; [vm_compute; reflexivity |]. split_and!; try done.
  intros data. eexists. split; [reflexivity |]. split_and!; [by eexists | by intros [] | done].
Qed.

End ParserBuffer.
