(* ===== verification/HeaderRoundTrip.v ===== *)
(** * Headers: parsing what was printed

    [ParseHeader] on the printed line of a header gives the header back, for the
    headers of [clean_header]; a header type without a parser of its own comes
    back as a generic header of its name ([reparsed]).  The file goes from the
    strings functions over addresses, hops and lists up to the registry of
    header parsers. *)

From S2P Require Import Prelude GoStrings Escape Params Headers HeaderStore Message ParserCommon ParamsRoundTrip UriRoundTrip NoPanic Packet Stream StreamProofs.
From stdpp Require Import options.
Import Escape Params Headers HeaderStore ParserCommon ParamsRoundTrip UriRoundTrip Packet StreamProofs.

Module HeaderRoundTrip.

(** ** White space at the ends *)

Definition trimmed (s : bytes) : bool := streq (TrimSpace s) s.

Lemma trim_from_zero spaces s : space_len spaces s = 0 -> trim_from spaces 0 s = s.
Proof. destruct s as [|c s]; [done |]. cbn [trim_from]. by intros ->. Qed.

Lemma trim_from_fix spaces s : trim_from spaces 0 s = s -> space_len spaces s = 0.
Proof.
  destruct s as [|c s]; [done |]. cbn [trim_from].
  destruct (space_len spaces (c :: s)) as [|k]; [done |]. intros E.
  pose proof (suffix_length _ _ (trim_from_suffix spaces k s)) as H. rewrite E in H. simpl in H. lia.
Qed.

(** A string is left alone exactly when it neither begins nor ends with a space. *)
Lemma trimmed_edges s :
  trimmed s = true <->
  space_len wide_spaces s = 0 /\ space_len (reverse <$> wide_spaces) (reverse s) = 0.
Proof.
  unfold trimmed. rewrite streq_eq. unfold TrimSpace. split.
  - intros E. set (t := trim_from wide_spaces 0 s) in E.
    pose proof (suffix_length _ _ (trim_from_suffix wide_spaces 0 s)) as H1. fold t in H1.
    pose proof (suffix_length _ _ (trim_from_suffix (reverse <$> wide_spaces) 0 (reverse t))) as H2.
    rewrite length_reverse in H2.
    assert (length (trim_from (reverse <$> wide_spaces) 0 (reverse t)) = length s) as H3
      by (rewrite <- length_reverse; by rewrite E).
    destruct (trim_from_suffix wide_spaces 0 s) as [k Hk]. fold t in Hk.
    assert (k = []) as ->. { apply nil_length_inv. apply (f_equal length) in Hk. rewrite length_app in Hk. lia. }
    simpl in Hk. rewrite <- Hk in E. split; [by apply trim_from_fix |].
    apply trim_from_fix. apply (f_equal reverse) in E. by rewrite reverse_involutive in E.
  - intros [H1 H2]. rewrite (trim_from_zero _ _ H1), (trim_from_zero _ _ H2). apply reverse_involutive.
Qed.

Lemma TrimSpace_trimmed s : trimmed s = true -> TrimSpace s = s.
Proof. apply streq_eq. Qed.

Lemma TrimSpace_space s : TrimSpace (SP :: s) = TrimSpace s.
Proof. done. Qed.

(** Spaces begin with bytes no ASCII character that is no space begins with. *)
Lemma space_len_ascii c s :
  ascii_space c = false -> (code c <? 128)%N = true -> space_len wide_spaces (c :: s) = 0.
Proof.
  intros Hs Hc. cbn [space_len]. rewrite Hs.
  destruct (List.find (HasPrefix (c :: s)) wide_spaces) as [p|] eqn:F; [| done].
  apply find_some in F as [Hin Hp]. apply HasPrefix_spec in Hp as [t Ht].
  assert (forallb (fun p => match p with b :: _ => negb (code b <? 128)%N | [] => false end)
            wide_spaces = true) as Hall by done.
  apply (proj1 (forallb_forall _ _)) with (x := p) in Hall; [| done].
  destruct p as [|b p]; [done |]. simpl in Ht. simplify_eq. by rewrite Hc in Hall.
Qed.

Lemma space_len_app spaces s t :
  s <> [] -> space_len spaces (s ++ t) = 0 -> Forall (fun p => p <> []) spaces -> space_len spaces s = 0.
Proof.
  intros Hne. destruct s as [|c s]; [done |]. cbn [app space_len].
  destruct (ascii_space c); [done |]. intros H Hsp.
  destruct (List.find (HasPrefix (c :: s)) spaces) as [p|] eqn:F; [| done].
  apply find_some in F as [Hin Hp]. apply HasPrefix_spec in Hp as [u Hu].
  destruct (List.find (HasPrefix (c :: s ++ t)) spaces) as [q|] eqn:G.
  - apply find_some in G as [Hq _]. rewrite Forall_forall in Hsp.
    specialize (Hsp q (proj2 (list_elem_of_In _ _) Hq)). by destruct q.
  - eapply find_none in G; [| exact Hin]. change (c :: s ++ t) with ((c :: s) ++ t) in G.
    by rewrite Hu, <- app_assoc, HasPrefix_app in G.
Qed.

(** What remains of a trimmed string from a character that is no space on. *)
Lemma trimmed_suffix x c s :
  trimmed (x ++ c :: s) = true -> ascii_space c = false -> (code c <? 128)%N = true ->
  trimmed (c :: s) = true.
Proof.
  rewrite !trimmed_edges. intros [_ H] Hs Hc. split; [by apply space_len_ascii |].
  rewrite reverse_app in H. apply space_len_app in H; [done | |].
  - rewrite reverse_cons. by destruct (reverse s).
  - by apply (bool_decide_unpack _).
Qed.

(** ** Lists with separators *)

Lemma Split_nonempty s sep : Split s sep <> [].
Proof.
  unfold Split. generalize 0 as k. induction s as [|c s IH]; intros k; [done |]. cbn [split_from].
  destruct k; [| apply IH]. destruct (HasPrefix _ _); [done |]. by destruct (split_from sep 0 s).
Qed.

Lemma Join_cons p ps sep : ps <> [] -> Join (p :: ps) sep = p ++ sep ++ Join ps sep.
Proof. by destruct ps. Qed.

Lemma Join_Split s c : Join (Split s [c]) [c] = s.
Proof.
  unfold Split. induction s as [|d s IH]; [done |]. cbn [split_from HasPrefix].
  pose proof (Split_nonempty s [c]) as Hn. unfold Split in Hn. rewrite andb_true_r.
  destruct (beq c d) eqn:E; [apply beq_eq in E as -> |].
  - cbn [length Nat.sub]. rewrite Join_cons by done. by rewrite IH.
  - destruct (split_from [c] 0 s) as [|h t]; [done |]. rewrite <- IH at 1. by destruct t.
Qed.

(** The elements after the first keep the space of the separator. *)
Lemma Split_Join_comma x l :
  Forall (fun s => mem "," s = false) (x :: l) ->
  Split (Join (x :: l) ", ") "," = x :: (cons SP <$> l).
Proof.
  revert x. induction l as [|y l IH]; intros x H; apply Forall_cons in H as [Hx Hl].
  - by apply Split_byte_end.
  - rewrite Join_cons by done. change (", " ++ ?t) with (["," : byte] ++ SP :: t).
    change "," with ["," : byte]. rewrite Split_byte by done. f_equal.
    assert (Split (SP :: Join (y :: l) ", ") [","%char] = (SP :: y) :: (cons SP <$> l)) as ->; [| done].
    assert (SP :: Join (y :: l) ", " = Join ((SP :: y) :: l) ", ") as -> by (by destruct l).
    apply IH. apply Forall_cons in Hl as [Hy Hl]. by constructor.
Qed.

Lemma TrimSpace_list x l :
  Forall (fun s => trimmed s = true) (x :: l) -> TrimSpace <$> (x :: (cons SP <$> l)) = x :: l.
Proof.
  intros H. apply Forall_cons in H as [Hx Hl]. rewrite fmap_cons, (TrimSpace_trimmed x Hx). f_equal.
  induction Hl as [|y l Hy Hl IH]; [done |]. rewrite !fmap_cons, TrimSpace_space, (TrimSpace_trimmed y Hy).
  by f_equal.
Qed.

(** ** Numbers, tokens and lists of options *)

(** A printable ASCII character. *)
Definition token_byte (c : byte) : bool := (code c <? 128)%N && negb (ascii_space c).
Definition token (s : bytes) : bool := negb (streq s "") && forallb token_byte s.

(** An implication between properties of bytes, by the 256 cases. *)
Lemma byte_implies (P R : byte -> bool) c :
  forallb (fun c => negb (P c) || R c) all_bytes = true -> P c = true -> R c = true.
Proof. intros H Hc. pose proof (byte_forall _ H c) as Hb. cbv beta in Hb. by rewrite Hc in Hb. Qed.

Lemma token_not_ws c : token_byte c = true -> Contains abnfWs [c] = false /\ mem c abnfWs = false.
Proof.
  intros H. apply (byte_implies _ (fun c => negb (Contains abnfWs [c]) && negb (mem c abnfWs))) in H;
    [| vm_compute; reflexivity]. by simp_bool.
Qed.

Lemma digit_token c : is_digit c = true -> token_byte c = true.
Proof. apply byte_implies. vm_compute. reflexivity. Qed.

Lemma digits_tokens s : forallb is_digit s = true -> forallb token_byte s = true.
Proof. rewrite !forallb_forall. intros H c Hc. by apply digit_token, H. Qed.

Lemma runes_ascii s : forallb (fun c => code c <? 128)%N s = true -> runes s = (fun c => [c]) <$> s.
Proof.
  unfold runes. induction s as [|c s IH]; intros H; [done |]. cbn [forallb] in H.
  apply andb_true_iff in H as [Hc Hs]. cbn [runes_from rune_width]. rewrite Hc, IH by done. done.
Qed.

Lemma split_ws_token s rs buffer b :
  token s = true -> split_ws (((fun c => [c]) <$> s) ++ rs) buffer b = split_ws rs (buffer ++ s) true.
Proof.
  intros [Hne Ht]%andb_true_iff. destruct s as [|c s]; [done |]. clear Hne.
  revert c buffer b Ht. induction s as [|d s IH]; intros c buffer b Ht;
    cbn [forallb] in Ht; apply andb_true_iff in Ht as [Hc Hs]; rewrite fmap_cons; cbn [app split_ws];
    rewrite (proj1 (token_not_ws c Hc)); [done |]. rewrite IH by done. by rewrite <- app_assoc.
Qed.

Lemma token_ascii s : forallb token_byte s = true -> forallb (fun c => code c <? 128)%N s = true.
Proof. rewrite !forallb_forall. intros H c Hc. by apply H, andb_true_iff in Hc as [Hc _]. Qed.

(** Two tokens and a space are two parts. *)
Lemma SplitByWhitespace_tokens s t :
  token s = true -> token t = true -> SplitByWhitespace (s ++ " " ++ t) = [s; t].
Proof.
  intros Hs Ht. unfold SplitByWhitespace.
  pose proof Hs as [_ Hs1%token_ascii]%andb_true_iff. pose proof Ht as [Htn Ht1%token_ascii]%andb_true_iff.
  rewrite runes_ascii by (by rewrite !forallb_app, Hs1, Ht1).
  rewrite fmap_app, split_ws_token, fmap_app by done. cbn [fmap list_fmap app split_ws].
  change (Contains abnfWs [" "%char]) with true. cbv iota. cbn [app]. f_equal.
  rewrite <- (app_nil_r ((fun c => [c]) <$> t)), split_ws_token by done. cbn. by destruct t.
Qed.

Lemma show_N_token n : token (show_N n) = true.
Proof.
  unfold token. rewrite (digits_tokens _ (show_N_all_digits n)), andb_true_r.
  pose proof (show_N_nonempty n). by destruct (show_N n).
Qed.

Lemma token_edges c s :
  forallb token_byte (c :: s) = true -> space_len wide_spaces (c :: s) = 0.
Proof.
  cbn [forallb]. intros [[H1 H2]%andb_true_iff _]%andb_true_iff. apply negb_true_iff in H2.
  by apply space_len_ascii.
Qed.

Lemma space_len_rev_ascii c s :
  ascii_space c = false -> (code c <? 128)%N = true -> space_len (reverse <$> wide_spaces) (c :: s) = 0.
Proof.
  intros Hs Hc. cbn [space_len]. rewrite Hs.
  destruct (List.find (HasPrefix (c :: s)) _) as [p|] eqn:F; [| done].
  apply find_some in F as [Hin Hp]. apply HasPrefix_spec in Hp as [t Ht].
  assert (forallb (fun p => match p with b :: _ => negb (code b <? 128)%N | [] => false end)
            (reverse <$> wide_spaces) = true) as Hall by done.
  apply (proj1 (forallb_forall _ _)) with (x := p) in Hall; [| done].
  destruct p as [|b p]; [done |]. simpl in Ht. simplify_eq. by rewrite Hc in Hall.
Qed.

Lemma token_trimmed s : forallb token_byte s = true -> trimmed s = true.
Proof.
  intros H. apply trimmed_edges. destruct s as [|c s]; [done |]. split; [by apply token_edges |].
  assert (forallb token_byte (reverse (c :: s)) = true) as Hr.
  { apply forallb_forall. intros x Hx. rewrite forallb_forall in H. apply H.
    apply list_elem_of_In. apply list_elem_of_In in Hx. by rewrite elem_of_reverse in Hx. }
  destruct (reverse (c :: s)) as [|d r]; [done |]. cbn [forallb] in Hr.
  apply andb_true_iff in Hr as [[H1 H2]%andb_true_iff _]. apply negb_true_iff in H2.
  by apply space_len_rev_ascii.
Qed.

Lemma parseCSeq_printed name n m :
  (n <= maxCseq)%N -> token m = true -> mem ";" m = false ->
  parseCSeq name (show_N n ++ " " ++ m) = Ok [HCSeq n m].
Proof.
  intros Hn Hm Hs. unfold parseCSeq. rewrite SplitByWhitespace_tokens by (done || apply show_N_token).
  rewrite ParseUint_show by (unfold maxCseq in Hn; lia). cbn [mbind res_bind].
  rewrite (proj2 (N.ltb_ge _ _)) by done. pose proof Hm as [_ Ht]%andb_true_iff.
  rewrite (TrimSpace_trimmed m) by (by apply token_trimmed). unfold ContainsByte.
  by rewrite (proj2 (IndexByte_None _ _) Hs).
Qed.

Lemma parse_number_printed n : (n < 2 ^ 32)%N -> ParseUint (TrimSpace (show_N n)) 32 = Ok n.
Proof.
  intros Hn. rewrite TrimSpace_trimmed; [by apply ParseUint_show |].
  apply token_trimmed, digits_tokens, show_N_all_digits.
Qed.

(** An element of a list of options. *)
Definition option_ok (s : bytes) : bool := trimmed s && negb (mem "," s).

Lemma parse_options_printed l :
  l <> [] -> forallb option_ok l = true -> TrimSpace <$> Split (Join l ", ") "," = l.
Proof.
  intros Hne H. destruct l as [|x l]; [done |]. rewrite forallb_forall in H.
  rewrite Split_Join_comma, TrimSpace_list; [done | |]; apply Forall_forall; intros s Hs%list_elem_of_In;
    apply H, andb_true_iff in Hs as [H1 H2]; [done | by apply negb_true_iff].
Qed.

Lemma ContainsAny_None s chars : (forall c, mem c s = true -> mem c chars = false) -> ContainsAny s chars = false.
Proof.
  unfold ContainsAny. fold (ContainsAny s chars).
  induction s as [|c s IH]; intros H; [done |]. unfold ContainsAny. cbn [IndexAny].
  rewrite (H c) by (cbn; by rewrite beq_refl). assert (ContainsAny s chars = false) as Hs.
  { apply IH. intros d Hd. apply H. change (beq d c || mem d s = true). by rewrite Hd, orb_true_r. }
  unfold ContainsAny in Hs.
  by destruct (IndexAny s chars).
Qed.

Lemma token_no_ws s : forallb token_byte s = true -> ContainsAny s abnfWs = false.
Proof.
  intros H. apply ContainsAny_None. intros c Hc%mem_In. rewrite forallb_forall in H.
  by apply H, token_not_ws in Hc as [_ ?].
Qed.

Lemma parseCallId_printed name id :
  token id = true -> mem ";" id = false -> parseCallId name id = Ok [HCallID id].
Proof.
  intros [Hn Ht]%andb_true_iff Hs. unfold parseCallId. rewrite (TrimSpace_trimmed id) by (by apply token_trimmed).
  rewrite token_no_ws by done. unfold ContainsByte. rewrite (proj2 (IndexByte_None _ _) Hs). by destruct id.
Qed.

(** ** Via hops *)

Record clean_hop (hop : ViaHop) (ps : headerParams) : Prop := mkCleanHop {
  ch_name : token (ProtocolName hop) = true /\ mem "/" (ProtocolName hop) = false;
  ch_version : token (ProtocolVersion hop) = true /\ mem "/" (ProtocolVersion hop) = false;
  ch_transport : token (Transport hop) = true;
  ch_host : clean_host (Port hop) (Host hop) = true;
  ch_port : forall n, Port hop = Some n -> (n < 2 ^ 16)%N;
  ch_params : vh_params hop = Some ps /\ wf ps;
  ch_params_clean : forallb (clean_param NUL) (entries ps) = true;
  ch_comma : mem "," (ViaHop_String hop) = false
}.

Lemma token_head s : token s = true -> exists c t, s = c :: t /\ token_byte c = true.
Proof.
  intros [Hn Ht]%andb_true_iff. destruct s as [|c t]; [done |]. cbn in Ht. apply andb_true_iff in Ht as [Hc _]. eauto.
Qed.

Lemma TrimLeft_token s t : token s = true -> TrimLeft (s ++ t) abnfWs = s ++ t.
Proof. intros (c & u & -> & Hc)%token_head. cbn [app TrimLeft]. by rewrite (proj2 (token_not_ws c Hc)). Qed.

Lemma IndexAny_token s t :
  forallb token_byte s = true -> IndexAny (s ++ SP :: t) abnfWs = Some (length s).
Proof.
  induction s as [|c s IH]; intros H; [done |]. cbn [forallb] in H. apply andb_true_iff in H as [Hc Hs].
  cbn [app IndexAny]. by rewrite (proj2 (token_not_ws c Hc)), IH.
Qed.

Lemma via_protocol_printed name version transport body sp :
  (sp = [] \/ sp = [SP]) ->
  token name = true -> mem "/" name = false -> token version = true -> mem "/" version = false ->
  token transport = true ->
  via_protocol (sp ++ name ++ "/" ++ version ++ "/" ++ transport ++ " " ++ body)
  = Ok (name, version, transport, body).
Proof.
  intros Hsp Hn Hns Hv Hvs Ht. unfold via_protocol. change "/" with ["/"%char] at 1.
  rewrite (app_assoc sp name).
  rewrite Split_byte by (rewrite mem_app, Hns; by destruct Hsp as [-> | ->]). rewrite Split_byte by done.
  pose proof (Split_nonempty (transport ++ " " ++ body) "/") as Hne.
  pose proof (Join_Split (transport ++ " " ++ body) "/") as HJ.
  destruct (Split (transport ++ " " ++ body) "/") as [|p2 ps]; [done |]. rewrite HJ.
  rewrite TrimLeft_token, Nat.sub_diag, drop_0 by done.
  pose proof Ht as [_ Ht']%andb_true_iff.
  assert (IndexAny (transport ++ " " ++ body) abnfWs = Some (length transport)) as -> by (by apply IndexAny_token).
  rewrite Nat.add_0_r. destruct (length transport + 1) as [|[|k]] eqn:El; [lia | |].
  { destruct transport; [done | cbn in El; lia]. }
  cbn [Nat.eqb]. rewrite <- El. rewrite Nat.add_sub.
  assert (slice (transport ++ " " ++ body) 0 (length transport) = Ok transport) as ->
    by (by apply (slice_mid [] transport (" " ++ body))).
  assert (slice (transport ++ " " ++ body) (length transport + 1) (length (transport ++ " " ++ body)) = Ok body) as ->.
  { rewrite <- (app_nil_r body) at 1. rewrite app_assoc.
    apply slice_mid; rewrite !length_app; cbn; lia. }
  cbn [mbind res_bind].
  pose proof Hn as [_ Hn']%andb_true_iff. pose proof Hv as [_ Hv']%andb_true_iff.
  rewrite (TrimSpace_trimmed version), (TrimSpace_trimmed transport) by (by apply token_trimmed).
  assert (TrimSpace (sp ++ name) = name) as ->; [| done].
  destruct Hsp as [-> | ->]; cbn [app]; rewrite ?TrimSpace_space; by apply TrimSpace_trimmed, token_trimmed.
Qed.

Lemma params_suffix_parsed intro sep end_ ps :
  wf ps -> delims_ok sep end_ = true -> intro <> NUL -> forallb (clean_param end_) (entries ps) = true ->
  match params_suffix intro sep (Some ps) with
  | [] => ps = NewParams
  | text => ParseParams text intro sep end_ true true = (ps, length text, None)
  end.
Proof.
  intros Hw Hd Hi Hc. unfold params_suffix. rewrite Length_zero by done.
  pose proof (add_all_entries ps Hw) as Ha. destruct (entries ps) eqn:E; [by subst ps |].
  rewrite <- (app_nil_r (ToString ps sep)), ParseParams_ToString; rewrite ?app_nil_r; try done.
  - by rewrite E.
  - by rewrite E.
  - by apply Forall_forall.
  - by left.
Qed.

Lemma via_hop_printed hop ps :
  clean_hop hop ps ->
  via_hop (ProtocolName hop) (ProtocolVersion hop) (Transport hop)
    (Host hop ++ port_string (Port hop) ++ params_suffix ";" ";" (vh_params hop)) = Ok (hop, None).
Proof.
  intros [_ _ _ Hh Hp [Eps Hw] Hc _]. rewrite Eps.
  assert (hop = mkViaHop (ProtocolName hop) (ProtocolVersion hop) (Transport hop) (Host hop) (Port hop) (Some ps))
    as Eh by (destruct hop; cbn in *; congruence).
  pose proof (params_suffix_parsed ";" ";" NUL ps Hw eq_refl ltac:(discriminate) Hc) as H.
  pose proof (ParseHostPort_clean _ _ Hh Hp) as Hhp. pose proof Hh as [Hh' _]%andb_true_iff.
  assert (mem ";" (Host hop ++ port_string (Port hop)) = false) as Hns by (by apply hostport_no).
  unfold via_hop. rewrite app_assoc. unfold params_suffix in *.
  destruct (0 <? Length ps).
  - change (";"%char :: ToString ps ";") with ([";"%char] ++ ToString ps ";") at 1.
    rewrite IndexByte_app_cons by done. rewrite take_app_length, drop_app_length, Hhp. cbn [mbind res_bind].
    cbn [app]. rewrite H. by rewrite <- Eh.
  - rewrite app_nil_r, (proj2 (IndexByte_None _ _) Hns), Hhp. cbn [mbind res_bind]. by rewrite <- H, <- Eh.
Qed.

Lemma via_loop_hop sp hop ps rest acc :
  (sp = [] \/ sp = [SP]) -> clean_hop hop ps ->
  via_loop ((sp ++ ViaHop_String hop) :: rest) None acc = via_loop rest None (acc ++ [hop]).
Proof.
  intros Hsp Hh. cbn [via_loop]. pose proof Hh as [[Hn Hns] [Hv Hvs] Ht _ _ _ _ _].
  unfold ViaHop_String. rewrite via_protocol_printed by done. cbn [mbind res_bind].
  pose proof (via_hop_printed hop ps Hh) as Hvh.
  destruct (ProtocolName hop) as [|]; [done |]. destruct (ProtocolVersion hop); [done |].
  destruct (Transport hop); [done |]. by rewrite Hvh.
Qed.

Lemma via_loop_hops hops acc :
  Forall (fun hop => exists ps, clean_hop hop ps) hops ->
  via_loop (cons SP <$> (ViaHop_String <$> hops)) None acc = Ok (acc ++ hops).
Proof.
  intros H. revert acc. induction H as [|hop hops [ps Hh] Hl IH]; intros acc; [by rewrite app_nil_r |].
  rewrite !fmap_cons. change (SP :: ViaHop_String hop) with ([SP] ++ ViaHop_String hop).
  rewrite (via_loop_hop _ _ ps) by (done || by right). rewrite IH. by rewrite <- app_assoc.
Qed.

Lemma parseViaHeader_printed name hops :
  hops <> [] -> Forall (fun hop => exists ps, clean_hop hop ps) hops ->
  parseViaHeader name (Join (ViaHop_String <$> hops) ", ") = Ok [HVia hops].
Proof.
  intros Hne H. destruct hops as [|hop hops]; [done |]. unfold parseViaHeader. rewrite fmap_cons, Split_Join_comma.
  - apply Forall_cons in H as [[ps Hh] Hl].
    change (ViaHop_String hop :: ?l) with (([] ++ ViaHop_String hop) :: l).
    rewrite (via_loop_hop [] _ ps) by (done || by left). by rewrite via_loop_hops.
  - rewrite <- fmap_cons. apply Forall_fmap. eapply Forall_impl; [exact H |]. intros x [ps Hx]. apply Hx.
Qed.

(** ** Addresses *)

(** Where the loop of [ParseAddressValues] stands after a text in which it meets
    no separating comma. *)
Fixpoint scan_address (s : bytes) (inBrackets inQuotes : bool) : option (bool * bool) :=
  match s with
  | [] => Some (inBrackets, inQuotes)
  | c :: s' =>
      if beq c "<" && negb inQuotes then scan_address s' true inQuotes
      else if beq c ">" && negb inQuotes then scan_address s' false inQuotes
      else if beq c DQUOTE then scan_address s' inBrackets (negb inQuotes)
      else if negb inQuotes && negb inBrackets && beq c "," then None
      else scan_address s' inBrackets inQuotes
  end.

Lemma addresses_loop_scan s t seg b q b' q' acc :
  scan_address s b q = Some (b', q') ->
  addresses_loop (s ++ t) seg b q acc = addresses_loop t (seg ++ s) b' q' acc.
Proof.
  revert seg b q. induction s as [|c s IH]; intros seg b q H; cbn [scan_address] in H.
  - simplify_eq. by rewrite app_nil_r.
  - cbn [app addresses_loop].
    assert (forall b q, scan_address s b q = Some (b', q') ->
      addresses_loop (s ++ t) (seg ++ [c]) b q acc = addresses_loop t (seg ++ c :: s) b' q' acc) as IH'
      by (intros b0 q0 H0; rewrite (IH _ _ _ H0); by rewrite <- app_assoc).
    repeat (case_match; [by apply IH' || done |]). by apply IH'.
Qed.

Lemma scan_address_app s t b q b' q' :
  scan_address s b q = Some (b', q') -> scan_address (s ++ t) b q = scan_address t b' q'.
Proof.
  revert b q. induction s as [|c s IH]; intros b q H; cbn [scan_address app] in *; [by simplify_eq |].
  repeat (case_match; [by apply IH || done |]). by apply IH.
Qed.

(** Outside quotes: no delimiter, and no comma outside brackets. *)
Lemma scan_plain s b :
  mem "<" s = false -> mem ">" s = false -> mem DQUOTE s = false -> b = true \/ mem "," s = false ->
  scan_address s b false = Some (b, false).
Proof.
  induction s as [|c s IH]; intros H1 H2 H3 H4; [done |]. unfold mem in *. cbn [existsb] in *.
  apply orb_false_iff in H1 as [?%beq_neq ?], H2 as [?%beq_neq ?], H3 as [?%beq_neq ?]. cbn [scan_address].
  rewrite (proj2 (beq_neq c "<")), (proj2 (beq_neq c ">")), (proj2 (beq_neq c DQUOTE)) by congruence. cbn [andb negb].
  destruct H4 as [->|[?%beq_neq ?]%orb_false_iff]; [by apply IH; auto |].
  rewrite (proj2 (beq_neq c ",")), andb_false_r by congruence. apply IH; auto.
Qed.

Lemma scan_quoted s b :
  mem DQUOTE s = false -> scan_address ([DQUOTE] ++ s ++ [DQUOTE]) b false = Some (b, false).
Proof.
  intros H. cbn [app scan_address]. change (beq DQUOTE "<") with false. change (beq DQUOTE ">") with false.
  rewrite beq_refl. cbn [andb negb].
  assert (forall t, scan_address (s ++ t) b true = scan_address t b true) as ->.
  { intros t. induction s as [|c s IH]; [done |]. cbn [mem existsb] in H. apply orb_false_iff in H as [Hc Hs].
    cbn [app scan_address]. rewrite !andb_false_r. rewrite (proj2 (beq_neq c DQUOTE)) by (apply beq_neq in Hc; congruence).
    by apply IH. }
  cbn [scan_address]. rewrite !andb_false_r, beq_refl. done.
Qed.

Lemma scan_escaped s b :
  b = true \/ forallb (clean_byte ",") s = true ->
  scan_address (Escape s Q) b false = Some (b, false).
Proof.
  intros H. apply scan_plain; try (by apply Escape_avoids).
  destruct H as [->|H]; [by left |]. right. pose proof (Escape_plain_ok ";" "," s eq_refl H) as Hp.
  by apply (mem_forallb _ (plain_byte ";" ",")).
Qed.

Lemma scan_param kv : clean_param "," kv = true -> scan_address (param_string kv.1 kv.2) false false = Some (false, false).
Proof.
  intros [[_ Hk]%andb_true_iff Hv]%andb_true_iff. unfold param_string.
  rewrite (scan_address_app _ _ _ _ _ _ (scan_escaped _ false (or_intror Hk))).
  destruct (kv.2) as [v|]; [| done]. unfold clean_value in Hv. apply andb_true_iff in Hv as [Hl%negb_true_iff Hv].
  destruct (ContainsAny v abnfWs) eqn:Hw.
  - rewrite value_string_quoted by done. rewrite (scan_address_app "=" _ _ _ false false) by done.
    apply scan_quoted. by apply Escape_avoids.
  - unfold value_string. rewrite Hl, Hw. rewrite (scan_address_app "=" _ _ _ false false) by done.
    apply scan_escaped. by right.
Qed.

Lemma scan_params ps :
  wf ps -> forallb (clean_param ",") (entries ps) = true ->
  scan_address (params_suffix ";" ";" (Some ps)) false false = Some (false, false).
Proof.
  intros Hw Hc. rewrite params_suffix_entries by done. rewrite ToString_entries.
  assert (scan_address (Join ((fun kv => param_string kv.1 kv.2) <$> entries ps) ";") false false = Some (false, false)) as H.
  { induction (entries ps) as [|kv es IH]; [done |]. cbn [forallb] in Hc. apply andb_true_iff in Hc as [Hkv Hes].
    rewrite fmap_cons. destruct es as [|kv' es]; [by apply scan_param |]. rewrite Join_cons by done.
    rewrite (scan_address_app _ _ _ _ _ _ (scan_param kv Hkv)). by apply IH. }
  destruct (entries ps); [done |]. exact H.
Qed.

(** A URI that can stand between angle brackets. *)
Inductive clean_address : Uri -> Prop :=
| clean_sip u p q :
    clean_uri u p q -> mem ">" (SipUri_String u) = false -> mem DQUOTE (SipUri_String u) = false ->
    clean_address (SipUriPtr u)
| clean_wildcard : clean_address WildcardUri.

Lemma clean_address_text u :
  clean_address u ->
  ParseUri (Uri_String u) = Ok u /\ Uri_String u <> [] /\
  mem ">" (Uri_String u) = false /\ mem DQUOTE (Uri_String u) = false.
Proof.
  intros [u' p q Hc H1 H2|]; [| done]. split_and!; try done; [by eapply ParseUri_String |].
  cbn. unfold SipUri_String. by destruct (FIsEncrypted u').
Qed.

(** The brackets, whatever the URI has in it. *)
Lemma scan_bracketed u t :
  mem ">" u = false -> mem DQUOTE u = false ->
  scan_address ("<" ++ u ++ ">" ++ t) false false = scan_address t false false.
Proof.
  intros H1 H2. cbn [app]. cbn [scan_address]. rewrite beq_refl. cbn [andb negb].
  assert (scan_address u true false = Some (true, false)) as Hu.
  { clear -H1 H2. induction u as [|c u IH]; [done |]. unfold mem in *. cbn [existsb] in *.
    apply orb_false_iff in H1 as [?%beq_neq ?], H2 as [?%beq_neq ?]. cbn [scan_address].
    rewrite (proj2 (beq_neq c ">")), (proj2 (beq_neq c DQUOTE)) by congruence.
    cbn [andb negb]. destruct (beq c "<"); by apply IH. }
  rewrite (scan_address_app _ _ _ _ _ _ Hu). cbn [scan_address]. by rewrite beq_refl.
Qed.

Definition clean_display (name : MaybeString) : Prop :=
  match name with Some s => s <> [] /\ mem DQUOTE s = false | None => True end.

Lemma scan_display name t :
  clean_display name -> scan_address (display_string name ++ t) false false = scan_address t false false.
Proof.
  destruct name as [s|]; [| done]. intros [Hne Hq]. unfold display_string. rewrite nonempty_string_Some by (by intros [= ->]).
  rewrite <- !app_assoc. rewrite (app_assoc s), (app_assoc [DQUOTE]).
  rewrite (scan_address_app _ _ _ _ _ _ (scan_quoted s false Hq)). done.
Qed.

Lemma find_unescaped_quoted targets delims idx s t :
  mem DQUOTE s = false ->
  find_unescaped_from targets delims (Some DQUOTE) idx (s ++ DQUOTE :: t)
  = find_unescaped_from targets delims None (S (idx + length s)) t.
Proof.
  revert idx. induction s as [|c s IH]; intros idx H; cbn [app find_unescaped_from].
  - rewrite beq_refl. by rewrite Nat.add_0_r.
  - unfold mem in H. cbn [existsb] in H. apply orb_false_iff in H as [Hc%beq_neq Hs].
    rewrite (proj2 (beq_neq c DQUOTE)) by congruence. rewrite (IH (S idx) Hs). cbn [length]. f_equal. lia.
Qed.

Lemma parse_display_printed name t :
  clean_display name -> trimmed (display_string name ++ "<" ++ t) = true ->
  exists rest, parse_display_name (display_string name ++ "<" ++ t) = Ok (name, rest) /\ TrimSpace rest = "<" ++ t.
Proof.
  intros Hn Ht. pose proof Ht as Ht'. apply trimmed_suffix in Ht'; [| done | done]. apply TrimSpace_trimmed in Ht'.
  destruct name as [s|]; [| by exists ("<" ++ t)]. destruct Hn as [Hne Hq].
  exists (" " ++ "<" ++ t). split; [| exact Ht'].
  unfold display_string in *. rewrite nonempty_string_Some in * by (by intros [= ->]).
  rewrite <- !app_assoc in *. unfold parse_display_name, findUnescaped, findAnyUnescaped. cbn [app find_unescaped_from].
  change (mem DQUOTE ["<"%char]) with false. change (end_char [quotesDelim] DQUOTE) with (Some DQUOTE). cbv iota.
  rewrite find_unescaped_quoted by done. cbn [find_unescaped_from].
  change (mem " " ["<"%char]) with false. change (end_char [quotesDelim] " ") with (@None byte).
  change (mem "<" ["<"%char]) with true. cbv iota. rewrite beq_refl.
  change (s ++ DQUOTE :: ?x) with (s ++ [DQUOTE] ++ x). rewrite IndexByte_app_cons by done.
  rewrite take_app_length, drop_at_cons. done.
Qed.

Lemma split_address_printed name u t :
  u <> [] -> mem ">" u = false ->
  split_address name ("<" ++ u ++ ">" ++ t) = Ok (u, match t with [] => None | _ => Some t end).
Proof.
  intros Hne Hu. cbn [app]. unfold split_address. rewrite beq_refl. cbn [negb].
  change (u ++ ">"%char :: t) with (u ++ [">"%char] ++ t). rewrite IndexByte_app_cons by done.
  destruct (length u) as [|k] eqn:El; [by destruct u |]. rewrite <- El.
  rewrite take_app_length, drop_at_cons. f_equal. f_equal. rewrite !length_app. cbn [length].
  destruct t as [|c t]; cbn [length].
  - by rewrite (proj2 (Nat.leb_le _ _)) by lia.
  - by rewrite (proj2 (Nat.leb_gt _ _)) by lia.
Qed.

Definition address_text (name : MaybeString) (u : Uri) (ps : headerParams) : bytes :=
  display_string name ++ "<" ++ Uri_String u ++ ">" ++ params_suffix ";" ";" (Some ps).

Lemma ParseAddressValue_printed name u ps sp :
  (sp = [] \/ sp = [SP]) -> clean_display name -> clean_address u -> wf ps ->
  forallb (clean_param ",") (entries ps) = true -> trimmed (address_text name u ps) = true ->
  ParseAddressValue (sp ++ address_text name u ps) = Ok (name, u, ps).
Proof.
  intros Hsp Hn Hu Hw Hc Ht. destruct (clean_address_text u Hu) as (Hp & Hne & H1 & H2).
  assert (ParseAddressValue (sp ++ address_text name u ps) =
    ('(displayName, addressText) ← parse_display_name (address_text name u ps);
     '(uriText, paramsText) ← split_address displayName (TrimSpace addressText);
     uri ← ParseUri uriText;
     match paramsText with
     | None => Ok (displayName, uri, NewParams)
     | Some text => '(ps, _) ← parse_params text ";" ";" "," true true; Ok (displayName, uri, ps)
     end)) as ->.
  { assert (TrimSpace (sp ++ address_text name u ps) = address_text name u ps) as E
      by (destruct Hsp as [-> | ->]; cbn [app]; rewrite ?TrimSpace_space; by apply TrimSpace_trimmed).
    unfold ParseAddressValue. rewrite E. destruct (sp ++ _) eqn:Es; [| done].
    apply app_eq_nil in Es as [_ Es]. unfold address_text in Es. by destruct (display_string name). }
  destruct (parse_display_printed name (Uri_String u ++ ">" ++ params_suffix ";" ";" (Some ps)) Hn Ht) as (rest & E & Er).
  unfold address_text. rewrite E. cbn [mbind res_bind]. rewrite Er, split_address_printed by done.
  cbn [mbind res_bind]. rewrite Hp. cbn [mbind res_bind].
  pose proof (params_suffix_parsed ";" ";" "," ps Hw eq_refl ltac:(discriminate) Hc) as Hs.
  destruct (params_suffix ";" ";" (Some ps)) as [|c t]; [by subst ps |]. unfold parse_params. by rewrite Hs.
Qed.

Record clean_element (a : MaybeString * Uri * headerParams) : Prop := mkCleanElement {
  ce_name : clean_display a.1.1;
  ce_uri : clean_address a.1.2;
  ce_params : wf a.2 /\ forallb (clean_param ",") (entries a.2) = true;
  ce_trimmed : trimmed (address_text a.1.1 a.1.2 a.2) = true
}.

Definition element_text (a : MaybeString * Uri * headerParams) : bytes := address_text a.1.1 a.1.2 a.2.

Lemma scan_element a : clean_element a -> scan_address (element_text a) false false = Some (false, false).
Proof.
  intros [Hn Hu [Hw Hc] _]. unfold element_text, address_text. destruct (clean_address_text _ Hu) as (_ & _ & H1 & H2).
  rewrite scan_display, scan_bracketed by done. by apply scan_params.
Qed.

Lemma addresses_loop_element sp a t acc :
  (sp = [] \/ sp = [SP]) -> clean_element a ->
  addresses_loop (sp ++ element_text a ++ "," ++ t) [] false false acc = addresses_loop t [] false false (acc ++ [a]).
Proof.
  intros Hsp Ha. pose proof (scan_element a Ha) as Hs. destruct Ha as [Hn Hu [Hw Hc] Ht].
  rewrite app_assoc, (addresses_loop_scan _ _ _ _ _ false false).
  - cbn [app addresses_loop]. change (beq "," "<") with false. change (beq "," ">") with false.
    change (beq "," DQUOTE) with false. change (beq "," ",") with true. cbn [andb negb].
    unfold element_text. rewrite ParseAddressValue_printed by done. by destruct a as [[]].
  - destruct Hsp as [-> | ->]; exact Hs.
Qed.

Lemma ParseAddressValues_printed a l :
  Forall clean_element (a :: l) -> ParseAddressValues (Join (element_text <$> a :: l) ", ") = Ok (a :: l).
Proof.
  intros H. unfold ParseAddressValues.
  assert (forall sp a acc, (sp = [] \/ sp = [SP]) -> Forall clean_element (a :: l) ->
    addresses_loop (sp ++ Join (element_text <$> a :: l) ", " ++ ",") [] false false acc = Ok (acc ++ a :: l)) as Hl.
  { clear. induction l as [|b l IH]; intros sp a acc Hsp [Ha Hl]%Forall_cons.
    - cbn [fmap list_fmap Join]. change "," with ("," ++ []). by rewrite addresses_loop_element.
    - rewrite fmap_cons, Join_cons, <- !app_assoc by done.
      change (", " ++ ?t) with ("," ++ [SP] ++ t). rewrite addresses_loop_element by done.
      rewrite IH by (done || by right). by rewrite <- app_assoc. }
  apply (Hl [] a []); [by left | done].
Qed.

(** ** Headers *)

(** What the parser makes of the printed form: the types without a parser of
    their own become generic headers, and the pointer wildcard the value one. *)
Definition reparsed (h : Header) : Header :=
  match h with
  | HProxyRequire _ | HUnsupported _ | HAuthenticate _ | HEvent _ =>
      HGeneric (Header_Name h) (Header_Value h)
  | HContact c =>
      match ct_addr c with
      | WildcardUriPtr => HContact (mkContact None WildcardUri (Some NewParams))
      | _ => h
      end
  | h => h
  end.

Definition clean_name_addr (a : NameAddr) : Prop :=
  exists u ps, na_addr a = Some (SipUriPtr u) /\ na_params a = Some ps /\
    clean_element (na_name a, SipUriPtr u, ps).

Definition clean_contact (c : ContactHeader) : Prop :=
  match ct_addr c with
  | WildcardUriPtr => ct_name c = None /\ params_suffix ";" ";" (ct_params c) = []
  | u => exists ps, ct_params c = Some ps /\ clean_element (ct_name c, u, ps) /\
           (u = WildcardUri -> ct_name c = None /\ Length ps = 0)
  end.

Definition clean_route (l : list Uri) : Prop :=
  l <> [] /\ Forall (fun u => clean_element (None, u, NewParams)) l.

(** The content of a header survives. *)
Definition clean_content (h : Header) : Prop :=
  match h with
  | HGeneric name _ => headerParsers NewPacketParser !! ToLower name = None
  | HTo a | HFrom a => clean_name_addr a
  | HContact c => clean_contact c
  | HCallID id => token id = true /\ mem ";" id = false
  | HCSeq n m => (n <= maxCseq)%N /\ token m = true /\ mem ";" m = false
  | HMaxForwards n | HExpires n | HContentLength n => (n < 2 ^ 32)%N
  | HVia hops => hops <> [] /\ Forall (fun hop => exists ps, clean_hop hop ps) hops
  | HRequire l | HSupported l | HAllow l => l <> [] /\ forallb option_ok l = true
  | HRoute l | HRecordRoute l => clean_route l
  | _ => True
  end.

(** A field of a header line. *)
Definition field_ok (s : bytes) : bool := trimmed s && negb (mem CR s).

Record clean_header (h : Header) : Prop := mkCleanHeader {
  chd_name : field_ok (Header_Name h) = true /\ mem ":" (Header_Name h) = false;
  chd_value : field_ok (Header_Value h) = true;
  chd_content : clean_content h
}.

Lemma name_addr_text a u ps :
  na_addr a = Some u -> na_params a = Some ps -> NameAddr_Value a = element_text (na_name a, u, ps).
Proof. intros Ha Hp. unfold NameAddr_Value. by rewrite Ha, Hp. Qed.

Lemma contact_text name u ps :
  u <> WildcardUriPtr -> Contact_Value (mkContact name u (Some ps)) = element_text (name, u, ps).
Proof.
  intros Hu. unfold Contact_Value, element_text, address_text. cbn [ct_addr ct_name ct_params fst snd].
  destruct u; [by rewrite <- !app_assoc.. | done].
Qed.

Lemma parse_one_address a : clean_element a -> ParseAddressValues (element_text a) = Ok [a].
Proof. intros H. apply (ParseAddressValues_printed a []). by constructor. Qed.

Lemma parse_To n a : n = "to" -> clean_name_addr a -> parseAddressHeader n (NameAddr_Value a) = Ok [HTo a].
Proof.
  intros -> (u & ps & Hu & Hp & Hc). unfold parseAddressHeader. cbn [existsb].
  rewrite (name_addr_text _ _ _ Hu Hp), parse_one_address by done. cbn. destruct a. cbn in *. by subst.
Qed.

Lemma parse_From n a : n = "from" -> clean_name_addr a -> parseAddressHeader n (NameAddr_Value a) = Ok [HFrom a].
Proof.
  intros -> (u & ps & Hu & Hp & Hc). unfold parseAddressHeader. cbn [existsb].
  rewrite (name_addr_text _ _ _ Hu Hp), parse_one_address by done. cbn. destruct a. cbn in *. by subst.
Qed.

Lemma parse_Contact n c :
  n = "contact" -> clean_contact c -> parseAddressHeader n (Contact_Value c) = Ok [reparsed (HContact c)].
Proof.
  intros -> Hc. unfold parseAddressHeader. change (existsb _ _) with true. cbv iota.
  destruct c as [name u ps]. unfold clean_contact in Hc. cbn [ct_addr ct_name ct_params] in Hc. destruct u as [u| |].
  - destruct Hc as (p & -> & Hc & _). by rewrite contact_text, parse_one_address.
  - destruct Hc as (p & -> & Hc & [-> Hl]); [done |].
    rewrite contact_text, parse_one_address by done. cbn. by rewrite Hl.
  - destruct Hc as [-> Hp]. unfold Contact_Value. cbn [ct_addr ct_name ct_params]. rewrite Hp. vm_compute. reflexivity.
Qed.

Lemma parse_routes l :
  clean_route l -> exists r, ParseAddressValues (Route_Value l) = Ok r /\ uri_of <$> r = l.
Proof.
  intros [Hne H]. destruct l as [|u l]; [done |]. unfold Route_Value.
  assert ((fun u => "<" ++ Uri_String u ++ ">") <$> u :: l
    = element_text <$> ((fun u => (None, u, NewParams)) <$> u :: l)) as ->.
  { rewrite <- list_fmap_compose. apply list_fmap_ext. done. }
  exists ((fun u => (None, u, NewParams)) <$> u :: l). split.
  - apply Forall_cons in H as [Hu Hl]. apply ParseAddressValues_printed. constructor; [done | by apply Forall_fmap].
  - rewrite <- list_fmap_compose. by apply list_fmap_id.
Qed.

(** The parser registered for the name gets the value. *)
Lemma ParseHeader_fields h :
  clean_header h ->
  ParseHeader NewPacketParser (Header_String h) =
  match headerParsers NewPacketParser !! ToLower (Header_Name h) with
  | Some parser => parser (ToLower (Header_Name h)) (Header_Value h)
  | None => Ok [HGeneric (Header_Name h) (Header_Value h)]
  end.
Proof.
  intros [[[Hn _]%andb_true_iff Hc] [Hv _]%andb_true_iff _]. unfold ParseHeader, Header_String.
  change (": " ++ ?t) with ([":"%char] ++ SP :: t). rewrite IndexByte_app_cons by done.
  rewrite take_app_length, drop_at_cons, TrimSpace_space, !TrimSpace_trimmed by done. done.
Qed.

Local Ltac lookup r :=
  match goal with
  | |- context [headerParsers NewPacketParser !! ?k] =>
      assert (headerParsers NewPacketParser !! k = r) as -> by reflexivity
  end.
Local Ltac registered p := lookup (Some p).
Local Ltac unregistered := lookup (@None HeaderParser).

(** Parsing a printed header line gives the header back. *)
Lemma ParseHeader_printed h :
  clean_header h -> ParseHeader NewPacketParser (Header_String h) = Ok [reparsed h].
Proof.
  intros Hh. rewrite (ParseHeader_fields h Hh).
  destruct Hh as [_ [Hv _]%andb_true_iff Hc].
  destruct h as [name|a|a|c|id|n m|n|n|n|hops|l|l|l|l|s|s|l|s|s|s|l|l|s];
    cbn [clean_content Header_Name Header_Value reparsed] in *.
  - by rewrite Hc.
  - registered parseAddressHeader. by apply parse_To.
  - registered parseAddressHeader. by apply parse_From.
  - registered parseAddressHeader. by apply parse_Contact.
  - registered parseCallId. destruct Hc. by apply parseCallId_printed.
  - registered parseCSeq. destruct Hc as (? & ? & ?). by apply parseCSeq_printed.
  - registered parseMaxForwards. unfold parseMaxForwards. by rewrite parse_number_printed.
  - registered parseExpires. unfold parseExpires. by rewrite parse_number_printed.
  - registered parseContentLength. unfold parseContentLength. by rewrite parse_number_printed.
  - registered parseViaHeader. destruct Hc. by apply parseViaHeader_printed.
  - registered parseRequire. destruct Hc. unfold parseRequire. by rewrite parse_options_printed.
  - registered parseSupported. destruct Hc. unfold parseSupported. by rewrite parse_options_printed.
  - by unregistered.
  - by unregistered.
  - registered parseUserAgent. unfold parseUserAgent. by rewrite TrimSpace_trimmed.
  - registered parseServer. unfold parseServer. by rewrite TrimSpace_trimmed.
  - registered parseAllow. destruct Hc. unfold parseAllow. by rewrite parse_options_printed.
  - registered parseContentType. unfold parseContentType. by rewrite TrimSpace_trimmed.
  - by unregistered.
  - registered parseAccept. unfold parseAccept. by rewrite TrimSpace_trimmed.
  - registered parseRouteHeader. destruct (parse_routes l Hc) as (r & E & <-). unfold parseRouteHeader. by rewrite E.
  - registered parseRecordRouteHeader. destruct (parse_routes l Hc) as (r & E & <-).
    unfold parseRecordRouteHeader. by rewrite E.
  - by unregistered.
Qed.

(** A header keeps its place in the store. *)
Lemma reparsed_key h : key_of (reparsed h) = key_of h.
Proof. destruct h as [| | |c| | | | | | | | | | | | | | | | | | |]; try done. cbn. by destruct (ct_addr c). Qed.

End HeaderRoundTrip.
