(* ===== verification/TxKeys.v ===== *)
(** * Transaction keys: src/transaction/transaction.go

    The keys by which the transaction layer matches retransmissions, ACKs and
    CANCELs to a server transaction, and responses to a client transaction.
    Both keys are computed from the headers alone; the text of an error shows the
    whole message ([text_shown]). *)

From S2P Require Import Prelude GoStrings Escape Params Headers HeaderStore Message.
From stdpp Require Import options.
Import Params Headers HeaderStore Message.

Module TxKeys.

Abbreviation TxKey := bytes.

(** ** Timer values, in nanoseconds ([time.Duration]) *)

Definition Millisecond : Z := 1000000.
Definition Second : Z := 1000 * Millisecond.
Definition T1 : Z := 500 * Millisecond.
Definition T2 : Z := 4 * Second.
Definition T4 : Z := 5 * Second.
Definition Timer_A : Z := T1.
Definition Timer_B : Z := 64 * T1.
Definition Timer_D : Z := 32 * Second.
Definition Timer_G : Z := T1.
Definition Timer_H : Z := 64 * T1.
Definition Timer_I : Z := T4.
Definition Timer_J : Z := 64 * T1.
Definition Timer_1xx : Z := 200 * Millisecond.
Definition Timer_L : Z := 64 * T1.
Definition Timer_M : Z := 64 * T1.

(** ** Keys *)

(** ACK and CANCEL are matched to the INVITE. *)
Definition key_method (m : RequestMethod) : RequestMethod :=
  if streq m ACK || streq m CANCEL then INVITE else m.

(** [firstViaHop.Params.Get("branch")]: a nil interface panics. *)
Definition via_branch (hop : ViaHop) : res (option MaybeString) :=
  match vh_params hop with Some ps => Ok (Get ps "branch") | None => Panic end.

(** A branch with the magic cookie and something after it; [branch.String()]
    panics on a parameter without a value. *)
Definition cookie_branch (branch : option MaybeString) : res (option bytes) :=
  match branch with
  | None => Ok None
  | Some b =>
      s ← MaybeString_String b;
      Ok (if negb (streq s "") && HasPrefix s RFC3261BranchMagicCookie &&
             negb (streq (TrimPrefix s RFC3261BranchMagicCookie) "")
          then Some s else None)
  end.

Definition hop_port (hop : ViaHop) : N :=
  match Port hop with Some p => p | None => DefaultPort (Transport hop) end.

Definition sep : bytes := "__".

Definition MakeServerTxKey (hs : headers) : res TxKey :=
  match ViaHop_ hs with
  | None => Err (Errorf "'Via' header not found or empty in message '%s'")
  | Some hop =>
      match CSeq hs with
      | None => Err (Errorf "'CSeq' header not found in message '%s'")
      | Some (seqNo, cseqMethod) =>
          let meth := key_method cseqMethod in
          b ← via_branch hop;
          branch ← cookie_branch b;
          match branch with
          | Some s => Ok (Join [s; Host hop; show_N (hop_port hop); meth] sep)
          | None =>
              match From_ hs with
              | None => Err (Errorf "'From' header not found in message '%s'")
              | Some from =>
                  fromTag ← tag_of from;
                  match fromTag with
                  | None => Err (Errorf "'tag' param not found in 'From' header of message '%s'")
                  | Some fromTag =>
                      match CallID hs with
                      | None => Err (Errorf "'Call-ID' header not found in message '%s'")
                      | Some callId =>
                          tag ← MaybeString_String fromTag;
                          Ok (Join [tag; Header_String (HCallID callId); meth; show_N seqNo; ViaHop_String hop] sep)
                      end
                  end
              end
          end
      end
  end.

Definition MakeClientTxKey (hs : headers) : res TxKey :=
  match CSeq hs with
  | None => Err (Errorf "'CSeq' header not found in message '%s'")
  | Some (_, cseqMethod) =>
      let meth := key_method cseqMethod in
      match ViaHop_ hs with
      | None => Err (Errorf "'Via' header not found or empty in message '%s'")
      | Some hop =>
          b ← via_branch hop;
          branch ← cookie_branch b;
          match branch with
          | Some s => Ok (Join [s; meth] sep)
          | None => Err (Errorf "'branch' not found or empty in 'Via' header of message '%s'")
          end
      end
  end.

(** The key of a request, whose error evaluates [msg.Short()]. *)
Definition text_shown (r : request) (key : res TxKey) : res TxKey :=
  match key with Err e => _ ← request_shown r; Err e | _ => key end.

Lemma text_shown_Ok r key k : text_shown r key = Ok k <-> key = Ok k.
Proof. destruct key; cbn; [done | | done]. by destruct (request_shown r). Qed.

(** ** What the keys depend on *)

(** The parts of the header section the keys are made of. *)
Record key_view : Type := mkView {
  kv_hop : option ViaHop;
  kv_cseq : option (N * RequestMethod);
  kv_tag : option (res (option MaybeString));
  kv_callid : option bytes
}.

Definition view (hs : headers) : key_view :=
  mkView (ViaHop_ hs) ((fun c => (c.1, key_method c.2)) <$> CSeq hs)
    (tag_of <$> From_ hs) (CallID hs).

Lemma MakeServerTxKey_view hs hs' : view hs = view hs' -> MakeServerTxKey hs = MakeServerTxKey hs'.
Proof.
  unfold view, MakeServerTxKey. intros [= -> Hc Hf ->].
  destruct (CSeq hs) as [[n m]|], (CSeq hs') as [[n' m']|]; simpl in Hc; try done.
  injection Hc as -> ->.
  by destruct (From_ hs), (From_ hs'); simpl in Hf; simplify_eq; rewrite ?Hf.
Qed.

Lemma MakeClientTxKey_view hs hs' : view hs = view hs' -> MakeClientTxKey hs = MakeClientTxKey hs'.
Proof.
  unfold view, MakeClientTxKey. intros [= -> Hc _ _].
  destruct (CSeq hs) as [[n m]|], (CSeq hs') as [[n' m']|]; simpl in Hc; try done.
  by injection Hc as -> ->.
Qed.

(** *** Header sections the constructors make *)

(** A header section with well-formed parameters, as the parser and the
    constructors make them. *)
Definition wf_section (hs : headers) : Prop :=
  wf_store hs /\ map_Forall (fun _ l => Forall wf_header l) (hmap hs).

Lemma wf_section_list hs n : wf_section hs -> Forall wf_header (lookup_list hs n).
Proof.
  intros [_ H]. unfold lookup_list. destruct (hmap hs !! n) eqn:E; [by apply H in E | constructor].
Qed.

(** [newHeaders] makes such sections. *)
Lemma wf_section_new l : Forall wf_header l -> wf_section (newHeaders l).
Proof.
  intros H. split; [apply wf_newHeaders |]. intros n l' Hl.
  assert (l' = lookup_list (newHeaders l) n) as -> by (unfold lookup_list; by rewrite Hl).
  rewrite lookup_list_new. rewrite Forall_forall in *. intros h [_ Hh]%list_elem_of_filter. by apply H.
Qed.

(** A change of the first header that keeps its name. *)
Lemma wf_section_update hs name f :
  wf_section hs -> (forall h, key_of (f h) = key_of h) -> (forall h, wf_header h -> wf_header (f h)) ->
  wf_section (update_first hs name f).
Proof.
  intros [Hs Hh] Hk Hf. unfold update_first. destruct (hmap hs !! ToLower name) as [[|h l]|] eqn:E; try done.
  pose proof (wf_keys _ _ _ Hs E) as Hl. apply Forall_cons in Hl as [Hl1 Hl2].
  pose proof (map_Forall_lookup_1 _ _ _ _ Hh E) as Hw. apply Forall_cons in Hw as [Hw1 Hw2]. split.
  - apply wf_insert_old; [done | by rewrite E |]. constructor; [by rewrite Hk | done].
  - apply map_Forall_insert_2; [| done]. constructor; [by apply Hf | done].
Qed.

Lemma wf_section_Prepend hs h : wf_section hs -> wf_header h -> wf_section (PrependHeader hs h).
Proof.
  intros [Hs Hh] Hw. split; [by apply wf_PrependHeader |]. unfold PrependHeader.
  destruct (hmap hs !! key_of h) as [l|] eqn:E; apply map_Forall_insert_2; try done.
  - constructor; [done |]. apply (map_Forall_lookup_1 _ _ _ _ Hh E).
  - by constructor.
Qed.

(** Decides the equalities of closed header names. *)
Ltac names :=
  repeat match goal with
  | |- context [decide (?a = ?b)] =>
      first [ rewrite (decide_True (P := a = b)) by reflexivity
            | rewrite (decide_False (P := a = b)) by (vm_compute; discriminate) ]
  end.

Lemma wf_copied code from : wf_store (copied_headers code from).
Proof. unfold copied_headers. destruct (_ =? _)%N; auto 10 using wf_CopyHeaders, wf_empty. Qed.

Lemma copied_list code from n :
  wf_store from -> n ∈ ["via"; "from"; "to"; "call-id"; "cseq"] ->
  lookup_list (copied_headers code from) n = Header_Clone <$> lookup_list from n.
Proof.
  intros Hw Hn. unfold copied_headers.
  assert (forall m, lookup_list empty_headers m = []) as He by done.
  repeat (apply elem_of_cons in Hn as [->|Hn]; [destruct (_ =? _)%N;
    rewrite !lookup_list_Copy, He by done; names; done |]).
  by apply elem_of_nil in Hn.
Qed.

(** The four lists the keys are read from. *)
Definition key_lists (hs : headers) : list Header * list Header * list Header * list Header :=
  (lookup_list hs "via", lookup_list hs "cseq", lookup_list hs "from", lookup_list hs "call-id").

(** A Via list with the same top hop as another, of well-formed hops. *)
Definition same_top (l l' : list Header) : Prop :=
  match l with
  | HVia (hop :: _) :: _ => match l' with HVia (hop' :: _) :: _ => hop' = hop | _ => False end
  | HVia [] :: _ => match l' with HVia [] :: _ => True | _ => False end
  | _ => match l' with HVia _ :: _ => False | _ => True end
  end.

Lemma clone_same_top l : Forall wf_header l -> same_top l (Header_Clone <$> l).
Proof.
  destruct l as [|h l]; [done |]. intros H. inv H. destruct h; try done. simpl in *.
  destruct hops as [|hop hops]; [done |]. simpl. inv H2. by apply ViaHop_Clone_id.
Qed.

(** A CSeq list whose first header differs at most in the method. *)
Definition same_cseq (l l' : list Header) : Prop :=
  match l with
  | HCSeq n m :: _ =>
      match l' with HCSeq n' m' :: _ => n' = n /\ key_method m' = key_method m | _ => False end
  | _ => match l' with HCSeq _ _ :: _ => False | _ => True end
  end.

Lemma clone_same_cseq l : same_cseq l (Header_Clone <$> l).
Proof. by destruct l as [|[] l]. Qed.

(** Headers copied from a section, up to the hops below the top one and the
    method of ACK and CANCEL, give the same keys. *)
Lemma view_copied hs hs' :
  wf_section hs ->
  same_top (lookup_list hs "via") (lookup_list hs' "via") ->
  same_cseq (lookup_list hs "cseq") (lookup_list hs' "cseq") ->
  lookup_list hs' "from" = Header_Clone <$> lookup_list hs "from" ->
  lookup_list hs' "call-id" = Header_Clone <$> lookup_list hs "call-id" ->
  view hs' = view hs.
Proof.
  intros Hw Hv Hc Hf Hi. pose proof (wf_section_list hs "from" Hw) as Hwf.
  unfold view, ViaHop_, Via, CSeq, From_, CallID, GetHeaders.
  change (ToLower "Via") with "via". change (ToLower "CSeq") with "cseq".
  change (ToLower "From") with "from". change (ToLower "Call-ID") with "call-id".
  rewrite Hf, Hi. f_equal.
  - unfold same_top in Hv. destruct (lookup_list hs "via") as [|[] ?], (lookup_list hs' "via") as [|[] ?];
      try done; by repeat case_match; simplify_eq.
  - unfold same_cseq in Hc. destruct (lookup_list hs "cseq") as [|[] ?], (lookup_list hs' "cseq") as [|[] ?];
      try done. simpl. by destruct Hc as [-> ->].
  - destruct (lookup_list hs "from") as [|h l]; [done |]. inv Hwf. destruct h; try done. simpl in *.
    unfold tag_of. simpl. destruct (na_params a) as [ps|]; [| done]. simpl in *.
    destruct H1 as [H1 _]. by rewrite Clone_id.
  - by destruct (lookup_list hs "call-id") as [|[] ?].
Qed.

(** A response has clones of the headers that identify its request ... *)
Lemma response_copied uuid id r code rsn b rs n :
  wf_section (hdrs (rq_msg r)) -> NewResponseFromRequest uuid id r code rsn b = Ok rs ->
  n ∈ ["via"; "from"; "to"; "call-id"; "cseq"] ->
  lookup_list (hdrs (rs_msg rs)) n = Header_Clone <$> lookup_list (hdrs (rq_msg r)) n.
Proof.
  intros Hw. unfold NewResponseFromRequest.
  intros (t & _ & (d & _ & (s & _ & H)%bind_Ok)%bind_Ok)%bind_Ok Hn.
  assert (hdrs (rs_msg rs) = hdrs (SetBody (with_hdrs (rs_msg (NewResponse uuid id (sipVersion (rq_msg r)) code rsn [] []))
            (copied_headers code (hdrs (rq_msg r)))) b true)) as -> by (by injection H as <-).
  rewrite hdrs_SetBody; [by apply copied_list; [apply Hw |] |].
  intros ->. by repeat (apply elem_of_cons in Hn as [Hn|Hn]; [done |]); apply elem_of_nil in Hn.
Qed.

Lemma response_view uuid id r code rsn b rs :
  wf_section (hdrs (rq_msg r)) -> NewResponseFromRequest uuid id r code rsn b = Ok rs ->
  view (hdrs (rs_msg rs)) = view (hdrs (rq_msg r)).
Proof.
  intros Hw Hr. pose proof (fun n => response_copied _ _ _ _ _ _ _ n Hw Hr) as Hl.
  apply view_copied; rewrite ?Hl by set_solver; try done.
  - by apply clone_same_top, wf_section_list.
  - apply clone_same_cseq.
Qed.

(** ... which print as they do in the request. *)
Lemma response_prints uuid id r code rsn b rs n :
  wf_section (hdrs (rq_msg r)) -> NewResponseFromRequest uuid id r code rsn b = Ok rs ->
  n ∈ ["via"; "from"; "to"; "call-id"; "cseq"] ->
  Header_String <$> lookup_list (hdrs (rs_msg rs)) n = Header_String <$> lookup_list (hdrs (rq_msg r)) n.
Proof.
  intros Hw Hr Hn. rewrite (response_copied _ _ _ _ _ _ _ _ Hw Hr Hn), <- list_fmap_compose.
  apply list_fmap_ext. intros i h Hi. cbn. unfold Header_String. rewrite Header_Clone_Name, Header_Clone_Value; [done | |].
  - eapply Forall_lookup_1, Hi. by apply wf_section_list.
  - destruct h; try done. exfalso. destruct Hw as [Hs _]. unfold lookup_list in Hi.
    destruct (hmap (hdrs (rq_msg r)) !! n) as [l|] eqn:E; [| done].
    pose proof (Forall_lookup_1 _ _ _ _ (wf_keys _ _ _ Hs E) Hi) as Hk. cbn in Hk. subst n.
    by repeat (apply elem_of_cons in Hn as [Hn|Hn]; [discriminate Hn |]); apply elem_of_nil in Hn.
Qed.

(** The answer to a request with a key has a destination, so its fields can be logged. *)
Lemma response_destined uuid id r code rsn b rs key :
  MakeServerTxKey (hdrs (rq_msg r)) = Ok key -> NewResponseFromRequest uuid id r code rsn b = Ok rs ->
  dest (rs_msg rs) <> [].
Proof.
  intros Hk. unfold NewResponseFromRequest.
  intros (t & _ & (d & _ & (s & Hs & [= <-])%bind_Ok)%bind_Ok)%bind_Ok. cbn. unfold request_Source in Hs.
  destruct (src (rq_msg r)); [| by injection Hs as <-]. unfold MakeServerTxKey in Hk.
  destruct (ViaHop_ (hdrs (rq_msg r))) as [hop|]; [| done]. unfold via_target in Hs. apply bind_Ok in Hs as (port & _ & Hs).
  assert (forall h p, host_port h p <> []) as Hp by (intros [] p; done).
  destruct (vh_params hop) as [ps|]; [| by injection Hs as <-]. apply bind_Ok in Hs as (host & _ & Hs). cbn in Hs.
  by injection Hs as <-.
Qed.

Lemma destined_shown rs : dest (rs_msg rs) <> [] -> response_shown rs = Ok tt.
Proof. unfold response_shown, response_Destination. by destruct (dest (rs_msg rs)). Qed.

Lemma copy_addressing_hdrs from to r :
  copy_addressing from to = Ok r -> hdrs (rq_msg r) = hdrs (rq_msg to).
Proof.
  unfold copy_addressing.
  by intros (t & _ & (d & _ & (s & _ & [= <-])%bind_Ok)%bind_Ok)%bind_Ok.
Qed.

(** The lists of ACK and CANCEL whose CSeq method is rewritten. *)
Lemma same_cseq_set l n m0 m rest :
  l = HCSeq n m0 :: rest -> key_method m = key_method m0 ->
  same_cseq l (match Header_Clone <$> l with
               | h :: l' => set_cseq_method m h :: l' | [] => [] end).
Proof. by intros -> Hm. Qed.

Lemma CSeq_list hs n m :
  CSeq hs = Some (n, m) -> exists l, lookup_list hs "cseq" = HCSeq n m :: l.
Proof.
  unfold CSeq, GetHeaders. change (ToLower "CSeq") with "cseq".
  destruct (lookup_list hs "cseq") as [|[] l]; try done. intros [= -> ->]. eauto.
Qed.

Lemma set_cseq_list hs m hs' n :
  set_cseq hs m = Ok hs' ->
  lookup_list hs' n =
  if decide ("cseq" = n)
  then match lookup_list hs n with h :: l => set_cseq_method m h :: l | [] => [] end
  else lookup_list hs n.
Proof.
  unfold set_cseq. destruct (CSeq hs); [| done]. intros [= <-]. apply lookup_update_first.
Qed.

Lemma cancel_view uuid id r c n m :
  wf_section (hdrs (rq_msg r)) -> CSeq (hdrs (rq_msg r)) = Some (n, m) -> key_method m = INVITE ->
  NewCancelRequest uuid id r = Ok c ->
  view (hdrs (rq_msg c)) = view (hdrs (rq_msg r)).
Proof.
  intros Hw (lc & Hcs)%CSeq_list Hm. unfold NewCancelRequest. cbv zeta.
  set (from := hdrs (rq_msg r)) in *. destruct (ViaHop_ from) as [hop|] eqn:Ev; [| done].
  set (hs := CopyHeaders "CSeq" _ _).
  intros (hs' & Hset & Hc)%bind_Ok. apply copy_addressing_hdrs in Hc. rewrite Hc.
  cbn [rq_map rq_msg hdrs]. destruct Hw as [Hws Hwh].
  assert (forall k, k <> "content-length" -> lookup_list (hdrs (SetBody
            (with_hdrs (rq_msg (NewRequest uuid id CANCEL (recipient r) (sipVersion (rq_msg r)) [] [])) hs')
            [] true)) k = lookup_list hs' k) as Hb by (intros; by apply hdrs_SetBody).
  assert (forall k, lookup_list (hdrs (rq_msg (NewRequest uuid id CANCEL (recipient r)
            (sipVersion (rq_msg r)) [] []))) k = []) as He by done.
  assert (forall k, k ∈ ["from"; "call-id"; "cseq"] ->
            lookup_list hs k = Header_Clone <$> lookup_list from k) as Hl.
  { intros k Hk. unfold hs.
    repeat (apply elem_of_cons in Hk as [->|Hk]; [
      rewrite !lookup_list_Copy, lookup_list_Append, !lookup_list_Copy, lookup_list_Append, He by done;
      names; done |]). by apply elem_of_nil in Hk. }
  apply view_copied; [done | ..]; rewrite Hb, (set_cseq_list _ _ _ _ Hset) by done; names.
  - unfold hs. rewrite !lookup_list_Copy, lookup_list_Append, !lookup_list_Copy, lookup_list_Append, He
      by done. names. pose proof (wf_section_list from "via" (conj Hws Hwh)) as Hwv.
    unfold ViaHop_, Via, GetHeaders in Ev. change (ToLower "Via") with "via" in Ev.
    destruct (lookup_list from "via") as [|[] lv]; try done. destruct hops as [|hop' hops]; [done |].
    simplify_eq. inv Hwv. simpl in *. inv H1. by apply ViaHop_Clone_id.
  - rewrite Hl by set_solver. eapply same_cseq_set; [done |]. by rewrite Hm.
  - apply Hl. set_solver.
  - apply Hl. set_solver.
Qed.

Lemma reversed_routes_keys l routes :
  reversed_routes l = Ok routes -> Forall (fun h => key_of h = "route") routes.
Proof.
  revert routes. induction l as [|h l IH]; intros routes H; [by injection H as <- |].
  destruct h; try done. cbn [reversed_routes] in H. apply bind_Ok in H as (rest & Hr & [= <-]).
  apply Forall_app. split; [by apply IH | by constructor].
Qed.

Lemma fold_Append_other l hs n k :
  Forall (fun h => key_of h = k) l -> k <> n -> lookup_list (foldl AppendHeader hs l) n = lookup_list hs n.
Proof.
  intros H Hn. rewrite lookup_list_fold. rewrite <- (app_nil_r (lookup_list hs n)) at 2. f_equal.
  induction H as [|h l Hh Hl IH]; [done |]. rewrite filter_cons_False by congruence. done.
Qed.

Lemma ack_view uuid id rnd inv rs b a n m :
  wf_section (hdrs (rq_msg inv)) -> wf_store (hdrs (rs_msg rs)) -> IsSuccess rs = false ->
  CSeq (hdrs (rq_msg inv)) = Some (n, m) -> key_method m = INVITE ->
  NewAckRequest uuid id rnd inv rs b = Ok a ->
  view (hdrs (rq_msg a)) = view (hdrs (rq_msg inv)).
Proof.
  intros Hw Hwr Hs (lc & Hcs)%CSeq_list Hm. unfold NewAckRequest.
  intros (rcpt & _ & H)%bind_Ok. cbv zeta in H. rewrite Hs in H.
  set (from := hdrs (rq_msg inv)) in *.
  set (ack := NewRequest uuid id ACK rcpt _ [] b) in *.
  set (hs0 := CopyHeaders "Via" from (hdrs (rq_msg ack))) in *.
  apply bind_Ok in H as (hs1 & E1 & H). injection E1 as <-.
  apply bind_Ok in H as (hs2 & E2 & H). apply bind_Ok in H as (hs3 & Hset & H).
  apply copy_addressing_hdrs in H. rewrite H. destruct Hw as [Hws Hwh].
  assert (forall k, k <> "route" -> lookup_list hs2 k = lookup_list hs0 k) as H2.
  { intros k Hk. destruct (GetHeaders from "Route").
    - apply bind_Ok in E2 as (routes & Hr & [= <-]).
      eapply fold_Append_other; [by eapply reversed_routes_keys | done].
    - injection E2 as <-. rewrite lookup_list_Copy by done. by rewrite decide_False. }
  set (hs4 := CopyHeaders "CSeq" _ _) in Hset.
  assert (forall k, k ∈ ["from"; "call-id"; "cseq"] ->
            lookup_list hs4 k = Header_Clone <$> lookup_list from k) as Hl.
  { intros k Hk. unfold hs4.
    repeat (apply elem_of_cons in Hk as [->|Hk]; [
      rewrite !lookup_list_Copy, lookup_list_Append, H2 by done; unfold hs0;
      rewrite lookup_list_Copy by done; names; done |]).
    by apply elem_of_nil in Hk. }
  cbn [rq_map rq_msg hdrs].
  apply view_copied; [done | ..]; rewrite hdrs_SetBody, (set_cseq_list _ _ _ _ Hset) by done; names.
  - unfold hs4. rewrite !lookup_list_Copy, lookup_list_Append, H2 by done. unfold hs0.
    rewrite lookup_list_Copy by done. names. by apply clone_same_top, wf_section_list.
  - rewrite Hl by set_solver. eapply same_cseq_set; [done |]. by rewrite Hm.
  - apply Hl. set_solver.
  - apply Hl. set_solver.
Qed.

End TxKeys.
