(* ===== verification/Fsm.v ===== *)
(** * The finite state machine library and the environment of a transaction

    The transactions run on github.com/discoviking/fsm, which is not part of
    the sources.  [Spin] is therefore a parameter, and [FsmSpin] states what
    the transactions rely on: an input is looked up among the outcomes of the
    current state; a missing outcome is an error that changes nothing; an
    outcome sets the state and runs its action, whose result is the next
    input, until an action returns NO_INPUT.  [Spin] holds a lock for all of
    this, so it is one step.  The law is asked for chains of at most
    [max_chain] inputs only; the chains of the transactions are shorter
    ([ClientInv.run_client], [ServerInv.run_server]). *)

From S2P Require Import Prelude GoStrings Params Headers HeaderStore Message ParserCommon Packet TxKeys.
From stdpp Require Import options.
Import Headers Message Packet TxKeys.

Module Fsm.

Section machines.

Context {St I S : Type}.

(** [None] is NO_INPUT. *)
Definition action : Type := S -> S * option I.

(** The outcomes of the states of a machine. *)
Definition machine : Type := St -> I -> option (St * action).

Definition NO_ACTION : action := fun s => (s, None).

(** A chain of inputs; the boolean is false for an input without an outcome.
    [None]: the chain is longer than the fuel. *)
Fixpoint run (fuel : nat) (m : machine) (i : option I) (c : St) (s : S) : option (St * S * bool) :=
  match i with
  | None => Some (c, s, true)
  | Some i =>
      match fuel with
      | 0 => None
      | Datatypes.S fuel =>
          match m c i with
          | None => Some (c, s, false)
          | Some (c', act) => let '(s', i') := act s in run fuel m i' c' s'
          end
      end
  end.

(** An invariant of the current input, state and data that every outcome
    keeps holds when the chain ends: with NO_INPUT, or with an input the state
    has no outcome for. *)
Lemma run_inv (m : machine) (P : option I -> St -> S -> Prop) :
  (forall c i c' act s, P (Some i) c s -> m c i = Some (c', act) -> P (snd (act s)) c' (fst (act s))) ->
  forall fuel i c s c' s' ok,
    P i c s -> run fuel m i c s = Some (c', s', ok) ->
    exists i', P i' c' s' /\ (i' = None \/ exists j, i' = Some j /\ m c' j = None).
Proof.
  intros HP. induction fuel as [|fuel IH]; intros [i|] c s c' s' ok H Hr; cbn in Hr; simplify_eq.
  - exists None. auto.
  - destruct (m c i) as [[c1 act]|] eqn:E.
    + pose proof (HP _ _ _ _ _ H E) as H1. destruct (act s) as [s1 i1]. by eapply IH.
    + simplify_eq. exists (Some i). split; [done |]. right. eauto.
  - exists None. auto.
Qed.

(** A machine whose actions return inputs of a lower rank only ends its
    chains within the rank of the first input. *)
Lemma run_total (m : machine) (rank : I -> nat) :
  (forall c i c' act s j, m c i = Some (c', act) -> snd (act s) = Some j -> rank j < rank i) ->
  forall fuel i c s, (forall j, i = Some j -> rank j < fuel) -> exists r, run fuel m i c s = Some r.
Proof.
  intros Hm. induction fuel as [|fuel IH]; intros [i|] c s Hi; cbn; try by eauto.
  - specialize (Hi i eq_refl). lia.
  - destruct (m c i) as [[c' act]|] eqn:E; [| by eauto].
    pose proof (Hm c i c' act s) as Hj. destruct (act s) as [s' i']. apply IH.
    intros j ->. specialize (Hj j E eq_refl). specialize (Hi i eq_refl). lia.
Qed.

End machines.
Arguments action : clear implicits.
Arguments machine : clear implicits.

Definition max_chain : nat := 8.

Definition spinner : Type :=
  forall St I S : Type, machine St I S -> option I -> St -> S -> St * S * bool.

Class FsmSpin (Spin : spinner) : Prop :=
  spin_run : forall St I S (m : machine St I S) i c s r,
    run max_chain m i c s = Some r -> Spin St I S m i c s = r.

(** A function with this behaviour. *)
Definition run_spin : spinner := fun St I S m i c s =>
  match run max_chain m i c s with Some r => r | None => (c, s, false) end.

#[export] Instance run_spin_ok : FsmSpin run_spin.
Proof. intros St I S m i c s r H. unfold run_spin. by rewrite H. Qed.

(** ** Timers and goroutines *)

(** A [timing.Timer] made by [AfterFunc]: [armed] until it fires. *)
Record timer : Type := mkTimer { armed : bool; dur : Z }.

Definition AfterFunc (d : Z) : option timer := Some (mkTimer true d).

Definition is_armed (t : option timer) : bool :=
  match t with Some t => armed t | None => false end.

(** The timer after it fired. *)
Definition fired (t : option timer) : option timer :=
  match t with Some t => Some (mkTimer false (dur t)) | None => None end.

(** int64 arithmetic of [time.Duration]. *)
Definition wrap64 (z : Z) : Z := (z + 2 ^ 63) mod 2 ^ 64 - 2 ^ 63.

(** A goroutine of a transaction: a timer callback before its test of [done],
    or one about to call [Spin]. *)
Inductive task (I : Type) : Type :=
| Fired (i : I)
| Spinning (i : I).
Arguments Fired {I} i.
Arguments Spinning {I} i.

(** ** The environment *)

(** What a transaction gets from outside: the result of its n-th
    [tpl.Send], the case a [select] takes when both are ready, and the random
    identifiers of the n-th message it makes. *)
Record env : Type := mkEnv {
  e_send : nat -> msg -> option error;
  e_pick : nat -> bool;
  e_uuid : nat -> bytes;
  e_rnd : nat -> bytes
}.

(** The errors a transaction sends on its channel. *)
Inductive tx_error : Type :=
| TxTransportError (e : option error)
| TxTimeoutError.

(** The [n]-th element of a list and the others. *)
Fixpoint pick_task {A} (n : nat) (l : list A) : option (A * list A) :=
  match l, n with
  | [], _ => None
  | a :: l, 0 => Some (a, l)
  | a :: l, S n => '(b, l') ← pick_task n l; Some (b, a :: l')
  end.

Lemma pick_task_spec {A} n (l : list A) a l' :
  pick_task n l = Some (a, l') -> exists l1 l2, l = l1 ++ a :: l2 /\ l' = l1 ++ l2.
Proof.
  revert n l'. induction l as [|b l IH]; intros [|n] l' H; try done.
  - simpl in H. simplify_eq. by exists [], l'.
  - simpl in H. apply bind_Some in H as ([b' l''] & H & [= -> <-]).
    apply IH in H as (l1 & l2 & -> & ->). by exists (b :: l1), l2.
Qed.

Lemma pick_task_elem {A} (x : A) (l : list A) : x ∈ l -> exists n l', pick_task n l = Some (x, l').
Proof.
  induction l as [|y l IH]; intros H; [by apply elem_of_nil in H |].
  apply elem_of_cons in H as [<- | H]; [by exists 0, l |].
  destruct (IH H) as (n & l' & E). exists (S n), (y :: l'). simpl. by rewrite E.
Qed.

(** Doubling a retransmission interval, capped at T2, without overflow. *)
Lemma double_bounded d :
  (T1 <= d <= T2)%Z ->
  (T1 <= (if (T2 <? wrap64 (d * 2))%Z then T2 else wrap64 (d * 2)) <= T2)%Z.
Proof.
  intros H. assert (wrap64 (d * 2) = d * 2)%Z as ->.
  { unfold wrap64. rewrite Z.mod_small; unfold T1, T2, Second, Millisecond in *; lia. }
  destruct (Z.ltb_spec T2 (d * 2)); unfold T1, T2, Second, Millisecond in *; lia.
Qed.

End Fsm.
