(* ===== verification/Samples.v ===== *)
(** * Concrete messages and environments

    The inputs on which the theorems are evaluated: an INVITE and a REGISTER
    as a user agent sends them, responses to them, and environments in which
    sends succeed or fail. *)

From S2P Require Import Prelude GoStrings Escape Params Headers HeaderStore Message ParserCommon Packet TxKeys Fsm.
From stdpp Require Import options.
Import Params Headers HeaderStore Message Packet TxKeys Fsm.

Module Samples.

Definition sip_uri (user host : bytes) : Uri :=
  SipUriPtr (mkSipUri false (Some user) None host None (Some NewParams) (Some NewParams)).

Definition tag (t : bytes) : option headerParams := Some (Add NewParams "tag" (Some t)).

Definition sample_hop (transport : bytes) : ViaHop :=
  mkViaHop "SIP" "2.0" transport "pc33.atlanta.com" (Some 5066%N)
    (Some (Add NewParams "branch" (Some "z9hG4bK776asdhds"))).

(** The headers of a request of Alice to Bob. *)
Definition sample_headers (transport meth : bytes) : list Header :=
  [ HVia [sample_hop transport];
    HFrom (mkNameAddr (Some "Alice") (Some (sip_uri "alice" "atlanta.com")) (tag "1928301774"));
    HTo (mkNameAddr None (Some (sip_uri "bob" "biloxi.com")) (Some NewParams));
    HCallID "a84b4c76e66710";
    HCSeq 314159 meth;
    HMaxForwards 70 ].

Definition sample_request (transport meth : bytes) : request :=
  NewRequest "u0" "m0" meth (Some (sip_uri "bob" "biloxi.com")) "SIP/2.0"
    (sample_headers transport meth) [].

Definition sample_invite : request := sample_request "UDP" INVITE.
Definition sample_register : request := sample_request "UDP" "REGISTER".

(** The response a user agent server makes. *)
Definition sample_response (req : request) (code : N) (rsn : bytes) : response :=
  match NewResponseFromRequest "u1" "m1" req code rsn [] with
  | Ok r => r
  | _ => NewResponse [] [] [] 0 [] [] []
  end.

Definition trying : response := sample_response sample_invite 100 "Trying".
Definition ringing : response := sample_response sample_invite 180 "Ringing".
Definition accepted : response := sample_response sample_invite 200 "OK".
Definition busy : response := sample_response sample_invite 486 "Busy Here".
Definition registered : response := sample_response sample_register 200 "OK".
Definition forbidden : response := sample_response sample_register 403 "Forbidden".
Definition reg_trying : response := sample_response sample_register 100 "Trying".

Definition sample_ack : request :=
  match NewAckRequest "u2" "m2" "rnd" sample_invite busy [] with
  | Ok a => a
  | _ => sample_invite
  end.

Definition sample_cancel : request :=
  match NewCancelRequest "u3" "m3" sample_invite with Ok c => c | _ => sample_invite end.

(** Sends succeed; sends fail from the n-th on. *)
Definition good_env : env := mkEnv (fun _ _ => None) (fun _ => true) (fun _ => "uuid") (fun _ => "rnd").

Definition env_failing_from (n : nat) : env :=
  mkEnv (fun k _ => if n <=? k then Some (Errorf "write failed") else None)
    (fun _ => true) (fun _ => "uuid") (fun _ => "rnd").

(** The constructors succeed on the samples. *)
Example samples_made :
  (status accepted, status busy, method sample_ack, method sample_cancel) = (200, 486, ACK, CANCEL)%N.
Proof. vm_compute. reflexivity. Qed.

Example invite_key :
  MakeServerTxKey (hdrs (rq_msg sample_invite)) = Ok "z9hG4bK776asdhds__pc33.atlanta.com__5066__INVITE".
Proof. vm_compute. reflexivity. Qed.

Lemma sample_wf_headers transport meth : Forall wf_header (sample_headers transport meth).
Proof.
  assert (forall k v, wf (Add NewParams k v)) as Ha by (intros; apply wf_Add, wf_NewParams).
  assert (wf NewParams) by apply wf_NewParams.
  unfold sample_headers. repeat apply Forall_cons_2; try done.
  - apply Ha.
  - split; [apply Ha |]. intros u [= <-]. by split.
  - split; [done |]. intros u [= <-]. by split.
Qed.

End Samples.
