(* ===== verification/ClientTx.v ===== *)
(** * Client transactions: src/transaction/client_tx.go

    A [clientTx] holds the fields of the source's struct and, in place of its
    channels, what was sent on them: [c_responses] and [c_errs] for the user,
    [c_sent] for the transport; [c_tasks] are the goroutines it started and
    that have not finished.  The user is assumed to read the channels (they
    hold 64 values), and the methods to run one at a time: [Receive] is called
    by the one goroutine of the layer and [Spin] holds a lock.  A panic sets
    [c_crashed]; nothing happens after it. *)

From S2P Require Import Prelude GoStrings Escape Params Headers HeaderStore Message ParserCommon Packet TxKeys Fsm.
From stdpp Require Import options.
Import Params Headers HeaderStore Message Packet TxKeys Fsm.

Module ClientTx.

Inductive client_state : Set :=
| client_state_calling
| client_state_proceeding
| client_state_completed
| client_state_accepted
| client_state_terminated.

Inductive client_input : Set :=
| client_input_1xx
| client_input_2xx
| client_input_300_plus
| client_input_timer_a
| client_input_timer_b
| client_input_timer_d
| client_input_timer_m
| client_input_transport_err
| client_input_delete
| client_input_cancel
| client_input_canceled.

#[export] Instance client_state_eq_dec : EqDecision client_state.
Proof. solve_decision. Defined.

#[export] Instance client_input_eq_dec : EqDecision client_input.
Proof. solve_decision. Defined.

Record clientTx : Type := mkClientTx {
  c_fsm : client_state;
  c_origin : request;
  c_reliable : bool;
  timer_a_time : Z;
  timer_a : option timer;
  timer_b : option timer;
  timer_d_time : Z;
  timer_d : option timer;
  timer_m : option timer;
  c_lastResp : option response;
  c_lastErr : option error;
  c_done : bool;
  c_responses : list response;
  c_errs : list tx_error;
  c_sent : list msg;
  c_tasks : list (task client_input);
  c_picks : nat;
  c_crashed : bool
}.

Definition set_c_fsm (x : client_state) (t : clientTx) : clientTx :=
  mkClientTx x (c_origin t) (c_reliable t) (timer_a_time t) (timer_a t) (timer_b t)
    (timer_d_time t) (timer_d t) (timer_m t) (c_lastResp t) (c_lastErr t) (c_done t)
    (c_responses t) (c_errs t) (c_sent t) (c_tasks t) (c_picks t) (c_crashed t).

Definition set_timer_a_time (x : Z) (t : clientTx) : clientTx :=
  mkClientTx (c_fsm t) (c_origin t) (c_reliable t) x (timer_a t) (timer_b t) (timer_d_time t)
    (timer_d t) (timer_m t) (c_lastResp t) (c_lastErr t) (c_done t) (c_responses t) (c_errs t)
    (c_sent t) (c_tasks t) (c_picks t) (c_crashed t).

Definition set_timer_a (x : option timer) (t : clientTx) : clientTx :=
  mkClientTx (c_fsm t) (c_origin t) (c_reliable t) (timer_a_time t) x (timer_b t)
    (timer_d_time t) (timer_d t) (timer_m t) (c_lastResp t) (c_lastErr t) (c_done t)
    (c_responses t) (c_errs t) (c_sent t) (c_tasks t) (c_picks t) (c_crashed t).

Definition set_timer_b (x : option timer) (t : clientTx) : clientTx :=
  mkClientTx (c_fsm t) (c_origin t) (c_reliable t) (timer_a_time t) (timer_a t) x
    (timer_d_time t) (timer_d t) (timer_m t) (c_lastResp t) (c_lastErr t) (c_done t)
    (c_responses t) (c_errs t) (c_sent t) (c_tasks t) (c_picks t) (c_crashed t).

Definition set_timer_d_time (x : Z) (t : clientTx) : clientTx :=
  mkClientTx (c_fsm t) (c_origin t) (c_reliable t) (timer_a_time t) (timer_a t) (timer_b t) x
    (timer_d t) (timer_m t) (c_lastResp t) (c_lastErr t) (c_done t) (c_responses t) (c_errs t)
    (c_sent t) (c_tasks t) (c_picks t) (c_crashed t).

Definition set_timer_d (x : option timer) (t : clientTx) : clientTx :=
  mkClientTx (c_fsm t) (c_origin t) (c_reliable t) (timer_a_time t) (timer_a t) (timer_b t)
    (timer_d_time t) x (timer_m t) (c_lastResp t) (c_lastErr t) (c_done t) (c_responses t)
    (c_errs t) (c_sent t) (c_tasks t) (c_picks t) (c_crashed t).

Definition set_timer_m (x : option timer) (t : clientTx) : clientTx :=
  mkClientTx (c_fsm t) (c_origin t) (c_reliable t) (timer_a_time t) (timer_a t) (timer_b t)
    (timer_d_time t) (timer_d t) x (c_lastResp t) (c_lastErr t) (c_done t) (c_responses t)
    (c_errs t) (c_sent t) (c_tasks t) (c_picks t) (c_crashed t).

Definition set_c_lastResp (x : option response) (t : clientTx) : clientTx :=
  mkClientTx (c_fsm t) (c_origin t) (c_reliable t) (timer_a_time t) (timer_a t) (timer_b t)
    (timer_d_time t) (timer_d t) (timer_m t) x (c_lastErr t) (c_done t) (c_responses t)
    (c_errs t) (c_sent t) (c_tasks t) (c_picks t) (c_crashed t).

Definition set_c_lastErr (x : option error) (t : clientTx) : clientTx :=
  mkClientTx (c_fsm t) (c_origin t) (c_reliable t) (timer_a_time t) (timer_a t) (timer_b t)
    (timer_d_time t) (timer_d t) (timer_m t) (c_lastResp t) x (c_done t) (c_responses t)
    (c_errs t) (c_sent t) (c_tasks t) (c_picks t) (c_crashed t).

Definition set_c_done (x : bool) (t : clientTx) : clientTx :=
  mkClientTx (c_fsm t) (c_origin t) (c_reliable t) (timer_a_time t) (timer_a t) (timer_b t)
    (timer_d_time t) (timer_d t) (timer_m t) (c_lastResp t) (c_lastErr t) x (c_responses t)
    (c_errs t) (c_sent t) (c_tasks t) (c_picks t) (c_crashed t).

Definition set_c_responses (x : list response) (t : clientTx) : clientTx :=
  mkClientTx (c_fsm t) (c_origin t) (c_reliable t) (timer_a_time t) (timer_a t) (timer_b t)
    (timer_d_time t) (timer_d t) (timer_m t) (c_lastResp t) (c_lastErr t) (c_done t) x
    (c_errs t) (c_sent t) (c_tasks t) (c_picks t) (c_crashed t).

Definition set_c_errs (x : list tx_error) (t : clientTx) : clientTx :=
  mkClientTx (c_fsm t) (c_origin t) (c_reliable t) (timer_a_time t) (timer_a t) (timer_b t)
    (timer_d_time t) (timer_d t) (timer_m t) (c_lastResp t) (c_lastErr t) (c_done t)
    (c_responses t) x (c_sent t) (c_tasks t) (c_picks t) (c_crashed t).

Definition set_c_sent (x : list msg) (t : clientTx) : clientTx :=
  mkClientTx (c_fsm t) (c_origin t) (c_reliable t) (timer_a_time t) (timer_a t) (timer_b t)
    (timer_d_time t) (timer_d t) (timer_m t) (c_lastResp t) (c_lastErr t) (c_done t)
    (c_responses t) (c_errs t) x (c_tasks t) (c_picks t) (c_crashed t).

Definition set_c_tasks (x : list (task client_input)) (t : clientTx) : clientTx :=
  mkClientTx (c_fsm t) (c_origin t) (c_reliable t) (timer_a_time t) (timer_a t) (timer_b t)
    (timer_d_time t) (timer_d t) (timer_m t) (c_lastResp t) (c_lastErr t) (c_done t)
    (c_responses t) (c_errs t) (c_sent t) x (c_picks t) (c_crashed t).

Definition set_c_picks (x : nat) (t : clientTx) : clientTx :=
  mkClientTx (c_fsm t) (c_origin t) (c_reliable t) (timer_a_time t) (timer_a t) (timer_b t)
    (timer_d_time t) (timer_d t) (timer_m t) (c_lastResp t) (c_lastErr t) (c_done t)
    (c_responses t) (c_errs t) (c_sent t) (c_tasks t) x (c_crashed t).

Definition set_c_crashed (x : bool) (t : clientTx) : clientTx :=
  mkClientTx (c_fsm t) (c_origin t) (c_reliable t) (timer_a_time t) (timer_a t) (timer_b t)
    (timer_d_time t) (timer_d t) (timer_m t) (c_lastResp t) (c_lastErr t) (c_done t)
    (c_responses t) (c_errs t) (c_sent t) (c_tasks t) (c_picks t) x.


(** ** Effects *)

Definition add_response (r : response) (t : clientTx) : clientTx :=
  set_c_responses (c_responses t ++ [r]) t.
Definition add_err (x : tx_error) (t : clientTx) : clientTx := set_c_errs (c_errs t ++ [x]) t.
Definition add_task (x : task client_input) (t : clientTx) : clientTx :=
  set_c_tasks (c_tasks t ++ [x]) t.
Definition panic (t : clientTx) : clientTx := set_c_crashed true t.

(** Statement sequence: nothing runs after a panic. *)
Definition seq (f g : clientTx -> clientTx) (t : clientTx) : clientTx :=
  let t := f t in if c_crashed t then t else g t.
Infix ">>" := seq (at level 50, left associativity).

(** [tpl.Send(m)]: the attempt is recorded, the environment says how it ends. *)
Definition Send (e : env) (m : msg) (t : clientTx) : clientTx * option error :=
  (set_c_sent (c_sent t ++ [m]) t, e_send e (length (c_sent t)) m).

(** A failed send in an action: the error is kept and a goroutine feeds it to
    the machine. *)
Definition send_failed (err : option error) (t : clientTx) : clientTx :=
  match err with
  | Some _ => add_task (Spinning client_input_transport_err) (set_c_lastErr err t)
  | None => t
  end.

Definition stop_timer_a (t : clientTx) : clientTx := set_timer_a None t.
Definition stop_timer_b (t : clientTx) : clientTx := set_timer_b None t.

(** ** Helpers of the actions

    When a send fails, [cancel] and [ack] make texts of the messages for the log.
    Those of the request were made before, by [NewClientTx]; a response that came
    through the transport has the destination that the connection gave it, so its
    text can always be made.  They are left out here. *)

Definition cancel (e : env) (t : clientTx) : clientTx :=
  if negb (IsInvite (c_origin t)) then t
  else match NewCancelRequest (e_uuid e (length (c_sent t))) [] (c_origin t) with
       | Ok cancelRequest =>
           let '(t, err) := Send e (MRequest cancelRequest) t in send_failed err t
       | _ => panic t
       end.

Definition ack (e : env) (t : clientTx) : clientTx :=
  match c_lastResp t with
  | Some lastResp =>
      match NewAckRequest (e_uuid e (length (c_sent t))) [] (e_rnd e (length (c_sent t)))
              (c_origin t) lastResp [] with
      | Ok a => let '(t, err) := Send e (MRequest a) t in send_failed err t
      | _ => panic t
      end
  | None => panic t
  end.

Definition resend (e : env) (t : clientTx) : clientTx :=
  if c_done t then t
  else
    let '(t, err) := Send e (MRequest (c_origin t)) t in
    let t := set_c_lastErr err t in
    match err with
    | Some _ => add_task (Spinning client_input_transport_err) t
    | None => t
    end.

(** The [select] of [passUp]: when the transaction is done both cases are
    ready, and the send on the closed channel panics. *)
Definition passUp (e : env) (t : clientTx) : clientTx :=
  match c_lastResp t with
  | None => t
  | Some lastResp =>
      if c_done t then
        let take_done := e_pick e (c_picks t) in
        let t := set_c_picks (S (c_picks t)) t in
        if take_done then t else panic t
      else add_response lastResp t
  end.

(** [transportErr] and [timeoutErr] recover from the panic of the closed channel. *)
Definition send_err (x : tx_error) (t : clientTx) : clientTx :=
  if c_done t then t else add_err x t.

Definition transportErr (t : clientTx) : clientTx :=
  send_err (TxTransportError (c_lastErr t)) t.

Definition timeoutErr (t : clientTx) : clientTx := send_err TxTimeoutError t.

Definition delete (t : clientTx) : clientTx :=
  if c_done t then t
  else set_timer_d None (set_timer_b None (set_timer_a None (set_c_done true t))).

(** ** Actions *)

Definition no_input (t : clientTx) : clientTx * option client_input := (t, None).

(** [tx.timer_a.Reset(tx.timer_a_time)]: a nil timer panics. *)
Definition reset_timer_a (t : clientTx) : clientTx :=
  match timer_a t with
  | Some _ => set_timer_a (AfterFunc (timer_a_time t)) t
  | None => panic t
  end.

Definition act_invite_resend (e : env) : action client_input clientTx := fun t =>
  no_input (((fun t => reset_timer_a (set_timer_a_time (wrap64 (timer_a_time t * 2)) t))
             >> resend e) t).

Definition act_invite_canceled : action client_input clientTx := no_input.

Definition act_non_invite_resend (e : env) : action client_input clientTx := fun t =>
  no_input (((fun t =>
                let d := wrap64 (timer_a_time t * 2) in
                let d := if (T2 <? d)%Z then T2 else d in
                reset_timer_a (set_timer_a_time d t))
             >> resend e) t).

Definition act_passup (e : env) : action client_input clientTx := fun t =>
  no_input ((passUp e >> stop_timer_a) t).

Definition act_invite_proceeding (e : env) : action client_input clientTx := fun t =>
  no_input ((passUp e >> stop_timer_a >> stop_timer_b) t).

Definition start_timer_d (t : clientTx) : clientTx := set_timer_d (AfterFunc (timer_d_time t)) t.

Definition act_invite_final (e : env) : action client_input clientTx := fun t =>
  no_input ((ack e >> passUp e >> stop_timer_a >> stop_timer_b >> start_timer_d) t).

Definition act_non_invite_final (e : env) : action client_input clientTx := fun t =>
  no_input ((passUp e >> stop_timer_a >> stop_timer_b >> start_timer_d) t).

Definition act_cancel (e : env) : action client_input clientTx := fun t =>
  no_input (cancel e t).

Definition act_cancel_timeout (e : env) : action client_input clientTx := fun t =>
  no_input ((cancel e >> set_timer_b (AfterFunc Timer_B)) t).

Definition act_ack (e : env) : action client_input clientTx := fun t => no_input (ack e t).

Definition act_trans_err : action client_input clientTx := fun t =>
  ((transportErr >> stop_timer_a) t, Some client_input_delete).

(** The closure of the accepted state: [act_trans_err], its input dropped. *)
Definition act_trans_err_stay : action client_input clientTx := fun t =>
  no_input (fst (act_trans_err t)).

Definition act_timeout : action client_input clientTx := fun t =>
  ((timeoutErr >> stop_timer_a) t, Some client_input_delete).

Definition act_passup_delete (e : env) : action client_input clientTx := fun t =>
  ((passUp e >> stop_timer_a) t, Some client_input_delete).

Definition act_passup_accept (e : env) : action client_input clientTx := fun t =>
  no_input ((passUp e >> stop_timer_a >> stop_timer_b >> set_timer_m (AfterFunc Timer_M)) t).

Definition act_delete : action client_input clientTx := fun t => no_input (delete t).

(** ** The machines *)

(** [initInviteFSM]; the first state of the definition is the initial one. *)
Definition invite_fsm (e : env) : machine client_state client_input clientTx := fun c i =>
  match c, i with
  | client_state_calling, client_input_1xx =>
      Some (client_state_proceeding, act_invite_proceeding e)
  | client_state_calling, client_input_2xx =>
      Some (client_state_accepted, act_passup_accept e)
  | client_state_calling, client_input_300_plus =>
      Some (client_state_completed, act_invite_final e)
  | client_state_calling, client_input_cancel =>
      Some (client_state_calling, act_cancel e)
  | client_state_calling, client_input_canceled =>
      Some (client_state_calling, act_invite_canceled)
  | client_state_calling, client_input_timer_a =>
      Some (client_state_calling, act_invite_resend e)
  | client_state_calling, client_input_timer_b =>
      Some (client_state_terminated, act_timeout)
  | client_state_calling, client_input_transport_err =>
      Some (client_state_terminated, act_trans_err)
  | client_state_proceeding, client_input_1xx =>
      Some (client_state_proceeding, act_passup e)
  | client_state_proceeding, client_input_2xx =>
      Some (client_state_accepted, act_invite_final e)
  | client_state_proceeding, client_input_300_plus =>
      Some (client_state_completed, act_invite_final e)
  | client_state_proceeding, client_input_cancel =>
      Some (client_state_proceeding, act_cancel_timeout e)
  | client_state_proceeding, client_input_canceled =>
      Some (client_state_proceeding, act_invite_canceled)
  | client_state_proceeding, client_input_timer_a =>
      Some (client_state_proceeding, NO_ACTION)
  | client_state_proceeding, client_input_timer_b =>
      Some (client_state_terminated, act_timeout)
  | client_state_proceeding, client_input_transport_err =>
      Some (client_state_terminated, act_trans_err)
  | client_state_completed, client_input_1xx =>
      Some (client_state_completed, NO_ACTION)
  | client_state_completed, client_input_2xx =>
      Some (client_state_completed, NO_ACTION)
  | client_state_completed, client_input_300_plus =>
      Some (client_state_completed, act_ack e)
  | client_state_completed, client_input_cancel =>
      Some (client_state_completed, NO_ACTION)
  | client_state_completed, client_input_canceled =>
      Some (client_state_completed, NO_ACTION)
  | client_state_completed, client_input_transport_err =>
      Some (client_state_terminated, act_trans_err)
  | client_state_completed, client_input_timer_a =>
      Some (client_state_completed, NO_ACTION)
  | client_state_completed, client_input_timer_b =>
      Some (client_state_completed, NO_ACTION)
  | client_state_completed, client_input_timer_d =>
      Some (client_state_terminated, act_delete)
  | client_state_accepted, client_input_1xx =>
      Some (client_state_accepted, NO_ACTION)
  | client_state_accepted, client_input_2xx =>
      Some (client_state_accepted, act_passup e)
  | client_state_accepted, client_input_300_plus =>
      Some (client_state_accepted, NO_ACTION)
  | client_state_accepted, client_input_cancel =>
      Some (client_state_accepted, NO_ACTION)
  | client_state_accepted, client_input_canceled =>
      Some (client_state_accepted, NO_ACTION)
  | client_state_accepted, client_input_transport_err =>
      Some (client_state_accepted, act_trans_err_stay)
  | client_state_accepted, client_input_timer_a =>
      Some (client_state_accepted, NO_ACTION)
  | client_state_accepted, client_input_timer_b =>
      Some (client_state_accepted, NO_ACTION)
  | client_state_accepted, client_input_timer_m =>
      Some (client_state_terminated, act_delete)
  | client_state_terminated, client_input_1xx =>
      Some (client_state_terminated, NO_ACTION)
  | client_state_terminated, client_input_2xx =>
      Some (client_state_terminated, NO_ACTION)
  | client_state_terminated, client_input_300_plus =>
      Some (client_state_terminated, NO_ACTION)
  | client_state_terminated, client_input_cancel =>
      Some (client_state_terminated, NO_ACTION)
  | client_state_terminated, client_input_canceled =>
      Some (client_state_terminated, NO_ACTION)
  | client_state_terminated, client_input_timer_a =>
      Some (client_state_terminated, NO_ACTION)
  | client_state_terminated, client_input_timer_b =>
      Some (client_state_terminated, NO_ACTION)
  | client_state_terminated, client_input_timer_d =>
      Some (client_state_terminated, NO_ACTION)
  | client_state_terminated, client_input_timer_m =>
      Some (client_state_terminated, NO_ACTION)
  | client_state_terminated, client_input_delete =>
      Some (client_state_terminated, act_delete)
  | client_state_terminated, client_input_transport_err =>
      Some (client_state_terminated, NO_ACTION)
  | _, _ => None
  end.

(** [initNonInviteFSM]. *)
Definition non_invite_fsm (e : env) : machine client_state client_input clientTx := fun c i =>
  match c, i with
  | client_state_calling, client_input_1xx =>
      Some (client_state_proceeding, act_passup e)
  | client_state_calling, client_input_2xx =>
      Some (client_state_completed, act_non_invite_final e)
  | client_state_calling, client_input_300_plus =>
      Some (client_state_completed, act_non_invite_final e)
  | client_state_calling, client_input_timer_a =>
      Some (client_state_calling, act_non_invite_resend e)
  | client_state_calling, client_input_timer_b =>
      Some (client_state_terminated, act_timeout)
  | client_state_calling, client_input_transport_err =>
      Some (client_state_terminated, act_trans_err)
  | client_state_calling, client_input_cancel =>
      Some (client_state_calling, NO_ACTION)
  | client_state_proceeding, client_input_1xx =>
      Some (client_state_proceeding, act_passup e)
  | client_state_proceeding, client_input_2xx =>
      Some (client_state_completed, act_non_invite_final e)
  | client_state_proceeding, client_input_300_plus =>
      Some (client_state_completed, act_non_invite_final e)
  | client_state_proceeding, client_input_timer_a =>
      Some (client_state_proceeding, act_non_invite_resend e)
  | client_state_proceeding, client_input_timer_b =>
      Some (client_state_terminated, act_timeout)
  | client_state_proceeding, client_input_transport_err =>
      Some (client_state_terminated, act_trans_err)
  | client_state_proceeding, client_input_cancel =>
      Some (client_state_proceeding, NO_ACTION)
  | client_state_completed, client_input_1xx =>
      Some (client_state_completed, NO_ACTION)
  | client_state_completed, client_input_2xx =>
      Some (client_state_completed, NO_ACTION)
  | client_state_completed, client_input_300_plus =>
      Some (client_state_completed, NO_ACTION)
  | client_state_completed, client_input_timer_a =>
      Some (client_state_completed, NO_ACTION)
  | client_state_completed, client_input_timer_b =>
      Some (client_state_completed, NO_ACTION)
  | client_state_completed, client_input_timer_d =>
      Some (client_state_terminated, act_delete)
  | client_state_completed, client_input_cancel =>
      Some (client_state_completed, NO_ACTION)
  | client_state_terminated, client_input_1xx =>
      Some (client_state_terminated, NO_ACTION)
  | client_state_terminated, client_input_2xx =>
      Some (client_state_terminated, NO_ACTION)
  | client_state_terminated, client_input_300_plus =>
      Some (client_state_terminated, NO_ACTION)
  | client_state_terminated, client_input_timer_a =>
      Some (client_state_terminated, NO_ACTION)
  | client_state_terminated, client_input_timer_b =>
      Some (client_state_terminated, NO_ACTION)
  | client_state_terminated, client_input_timer_d =>
      Some (client_state_terminated, NO_ACTION)
  | client_state_terminated, client_input_delete =>
      Some (client_state_terminated, act_delete)
  | client_state_terminated, client_input_cancel =>
      Some (client_state_terminated, NO_ACTION)
  | _, _ => None
  end.

Definition client_fsm (e : env) (t : clientTx) : machine client_state client_input clientTx :=
  if IsInvite (c_origin t) then invite_fsm e else non_invite_fsm e.

(** ** Methods *)

Section methods.

Context (spin : spinner) (e : env).

Definition Spin (i : client_input) (t : clientTx) : clientTx * bool :=
  let '(c, t', ok) := spin _ _ _ (client_fsm e t) (Some i) (c_fsm t) t in (set_c_fsm c t', ok).

(** [prepareClientRequest]: the top Via gets a branch if it has none. *)
Definition add_branch (hop : ViaHop) (branch : bytes) : ViaHop :=
  let ps := match vh_params hop with Some ps => ps | None => NewParams end in
  mkViaHop (ProtocolName hop) (ProtocolVersion hop) (Transport hop) (Host hop) (Port hop)
    (Some (if Has ps "branch" then ps else Add ps "branch" (Some branch))).

Definition prepareClientRequest (branch : bytes) (origin : request) : request :=
  rq_map (fun m =>
    match ViaHop_ (hdrs m) with
    | Some _ => with_hdrs m (update_first (hdrs m) "Via" (update_hop (fun hop => add_branch hop branch)))
    | None =>
        with_hdrs m (PrependHeader (hdrs m)
          (HVia [mkViaHop "SIP" "2.0" [] [] None (Some (Add NewParams "branch" (Some branch)))]))
    end) origin.

Definition new_clientTx (origin : request) (reliable : bool) : clientTx :=
  mkClientTx client_state_calling origin reliable 0 None None 0 None None None None false
    [] [] [] [] 0 false.

(** [NewClientTx]: the key and the transaction. *)
Definition NewClientTx (is_reliable : bytes -> bool) (rnd : bytes) (origin : request)
    : res (TxKey * clientTx) :=
  let origin := prepareClientRequest (GenerateBranch rnd) origin in
  key ← text_shown origin (MakeClientTxKey (hdrs (rq_msg origin)));
  _ ← request_shown origin;
  t ← request_Transport origin;
  Ok (key, new_clientTx origin (is_reliable t)).

Lemma NewClientTx_Ok is_reliable rnd rq key t :
  NewClientTx is_reliable rnd rq = Ok (key, t) <->
  let o := prepareClientRequest (GenerateBranch rnd) rq in
  MakeClientTxKey (hdrs (rq_msg o)) = Ok key /\ request_shown o = Ok tt /\
  exists tr, request_Transport o = Ok tr /\ t = new_clientTx o (is_reliable tr).
Proof using.
  unfold NewClientTx. split.
  - intros (k & Hk%text_shown_Ok & ([] & Hs & (tr & Ht & [= <- <-])%bind_Ok)%bind_Ok)%bind_Ok. eauto.
  - intros (Hk & Hs & tr & Ht & ->). by rewrite (proj2 (text_shown_Ok _ _ _) Hk), Hs, Ht.
Qed.

Definition Init (t : clientTx) : clientTx * option error :=
  let '(t, err) := Send e (MRequest (c_origin t)) t in
  match err with
  | Some _ => (fst (Spin client_input_transport_err (set_c_lastErr err t)), err)
  | None =>
      let t := if c_reliable t then set_timer_d_time 0 t
               else set_timer_d_time Timer_D (set_timer_a (AfterFunc Timer_A)
                      (set_timer_a_time Timer_A t)) in
      let t := set_timer_b (AfterFunc Timer_B) t in
      (t, c_lastErr t)
  end.

Definition response_input (r : response) : client_input :=
  if IsProvisional r then client_input_1xx
  else if IsSuccess r then client_input_2xx else client_input_300_plus.

(** The boolean is [err == nil]. *)
Definition Receive (m : msg) (t : clientTx) : clientTx * bool :=
  match m with
  | MRequest _ => (t, false)
  | MResponse r =>
      if response_IsCancel r then Spin client_input_canceled t
      else Spin (response_input r) (set_c_lastResp (Some r) t)
  end.

Definition Cancel (t : clientTx) : clientTx * bool := Spin client_input_cancel t.

Definition Terminate (t : clientTx) : clientTx := if c_done t then t else delete t.

(** ** Steps *)

Inductive client_timer : Set := TimerA | TimerB | TimerD | TimerM.

Definition timer_of (k : client_timer) (t : clientTx) : option timer :=
  match k with
  | TimerA => timer_a t | TimerB => timer_b t | TimerD => timer_d t | TimerM => timer_m t
  end.

Definition set_timer (k : client_timer) (x : option timer) : clientTx -> clientTx :=
  match k with
  | TimerA => set_timer_a x | TimerB => set_timer_b x
  | TimerD => set_timer_d x | TimerM => set_timer_m x
  end.

Definition timer_input (k : client_timer) : client_input :=
  match k with
  | TimerA => client_input_timer_a | TimerB => client_input_timer_b
  | TimerD => client_input_timer_d | TimerM => client_input_timer_m
  end.

(** What can happen to a transaction: the layer delivers a message, the user
    cancels or terminates it, a timer fires, a goroutine takes its next step. *)
Inductive client_event : Type :=
| CReceive (m : msg)
| CCancel
| CTerminate
| CFire (k : client_timer)
| CRun (n : nat).

Definition run_task (x : task client_input) (t : clientTx) : clientTx :=
  match x with
  | Fired i => if c_done t then t else add_task (Spinning i) t
  | Spinning i => fst (Spin i t)
  end.

Definition client_step (ev : client_event) (t : clientTx) : option clientTx :=
  if c_crashed t then None
  else match ev with
       | CReceive m => Some (fst (Receive m t))
       | CCancel => Some (fst (Cancel t))
       | CTerminate => Some (Terminate t)
       | CFire k =>
           if is_armed (timer_of k t)
           then Some (add_task (Fired (timer_input k)) (set_timer k (fired (timer_of k t)) t))
           else None
       | CRun n =>
           '(x, rest) ← pick_task n (c_tasks t);
           Some (run_task x (set_c_tasks rest t))
       end.

(** The states a transaction that was initialised can reach. *)
Inductive creach (allowed : client_event -> Prop) (t0 : clientTx) : clientTx -> Prop :=
| creach_init : creach allowed t0 t0
| creach_step t ev t' :
    creach allowed t0 t -> allowed ev -> client_step ev t = Some t' -> creach allowed t0 t'.

(** A run of events, for concrete executions. *)
Fixpoint client_run (evs : list client_event) (t : clientTx) : option clientTx :=
  match evs with
  | [] => Some t
  | ev :: evs => t' ← client_step ev t; client_run evs t'
  end.

End methods.

End ClientTx.
