(* ===== verification/ServerTx.v ===== *)
(** * Server transactions: src/transaction/server_tx.go

    As for the client transactions: the fields of the struct, the values sent
    on the channels as lists, the goroutines as tasks.  [s_tasks] holds timer
    callbacks; the callback of timer_1xx responds instead of spinning. *)

From S2P Require Import Prelude GoStrings Escape Params Headers HeaderStore Message ParserCommon Packet TxKeys Fsm.
From stdpp Require Import options.
Import Params Headers HeaderStore Message Packet TxKeys Fsm.

Module ServerTx.

Inductive server_state : Set :=
| server_state_trying
| server_state_proceeding
| server_state_completed
| server_state_confirmed
| server_state_accepted
| server_state_terminated.

Inductive server_input : Set :=
| server_input_request
| server_input_ack
| server_input_cancel
| server_input_user_1xx
| server_input_user_2xx
| server_input_user_300_plus
| server_input_timer_g
| server_input_timer_h
| server_input_timer_i
| server_input_timer_j
| server_input_timer_l
| server_input_transport_err
| server_input_delete.

#[export] Instance server_state_eq_dec : EqDecision server_state.
Proof. solve_decision. Defined.

#[export] Instance server_input_eq_dec : EqDecision server_input.
Proof. solve_decision. Defined.

(** What a timer callback does: feeds the machine or responds 100. *)
Inductive server_task : Set :=
| SpinInput (i : server_input)
| RespondTrying.

Record serverTx : Type := mkServerTx {
  s_fsm : server_state;
  s_origin : request;
  s_reliable : bool;
  lastAck : option request;
  lastCancel : option request;
  timer_g : option timer;
  timer_g_time : Z;
  timer_h : option timer;
  timer_i : option timer;
  timer_i_time : Z;
  timer_j : option timer;
  timer_1xx : option timer;
  timer_l : option timer;
  s_lastResp : option response;
  s_lastErr : option error;
  s_done : bool;
  s_acks : list request;
  s_cancels : list request;
  s_errs : list tx_error;
  s_sent : list msg;
  s_tasks : list (task server_task);
  s_picks : nat;
  s_crashed : bool
}.

Definition set_s_fsm (x : server_state) (t : serverTx) : serverTx :=
  mkServerTx x (s_origin t) (s_reliable t) (lastAck t) (lastCancel t) (timer_g t)
    (timer_g_time t) (timer_h t) (timer_i t) (timer_i_time t) (timer_j t) (timer_1xx t)
    (timer_l t) (s_lastResp t) (s_lastErr t) (s_done t) (s_acks t) (s_cancels t) (s_errs t)
    (s_sent t) (s_tasks t) (s_picks t) (s_crashed t).

Definition set_lastAck (x : option request) (t : serverTx) : serverTx :=
  mkServerTx (s_fsm t) (s_origin t) (s_reliable t) x (lastCancel t) (timer_g t)
    (timer_g_time t) (timer_h t) (timer_i t) (timer_i_time t) (timer_j t) (timer_1xx t)
    (timer_l t) (s_lastResp t) (s_lastErr t) (s_done t) (s_acks t) (s_cancels t) (s_errs t)
    (s_sent t) (s_tasks t) (s_picks t) (s_crashed t).

Definition set_lastCancel (x : option request) (t : serverTx) : serverTx :=
  mkServerTx (s_fsm t) (s_origin t) (s_reliable t) (lastAck t) x (timer_g t) (timer_g_time t)
    (timer_h t) (timer_i t) (timer_i_time t) (timer_j t) (timer_1xx t) (timer_l t)
    (s_lastResp t) (s_lastErr t) (s_done t) (s_acks t) (s_cancels t) (s_errs t) (s_sent t)
    (s_tasks t) (s_picks t) (s_crashed t).

Definition set_timer_g (x : option timer) (t : serverTx) : serverTx :=
  mkServerTx (s_fsm t) (s_origin t) (s_reliable t) (lastAck t) (lastCancel t) x
    (timer_g_time t) (timer_h t) (timer_i t) (timer_i_time t) (timer_j t) (timer_1xx t)
    (timer_l t) (s_lastResp t) (s_lastErr t) (s_done t) (s_acks t) (s_cancels t) (s_errs t)
    (s_sent t) (s_tasks t) (s_picks t) (s_crashed t).

Definition set_timer_g_time (x : Z) (t : serverTx) : serverTx :=
  mkServerTx (s_fsm t) (s_origin t) (s_reliable t) (lastAck t) (lastCancel t) (timer_g t) x
    (timer_h t) (timer_i t) (timer_i_time t) (timer_j t) (timer_1xx t) (timer_l t)
    (s_lastResp t) (s_lastErr t) (s_done t) (s_acks t) (s_cancels t) (s_errs t) (s_sent t)
    (s_tasks t) (s_picks t) (s_crashed t).

Definition set_timer_h (x : option timer) (t : serverTx) : serverTx :=
  mkServerTx (s_fsm t) (s_origin t) (s_reliable t) (lastAck t) (lastCancel t) (timer_g t)
    (timer_g_time t) x (timer_i t) (timer_i_time t) (timer_j t) (timer_1xx t) (timer_l t)
    (s_lastResp t) (s_lastErr t) (s_done t) (s_acks t) (s_cancels t) (s_errs t) (s_sent t)
    (s_tasks t) (s_picks t) (s_crashed t).

Definition set_timer_i (x : option timer) (t : serverTx) : serverTx :=
  mkServerTx (s_fsm t) (s_origin t) (s_reliable t) (lastAck t) (lastCancel t) (timer_g t)
    (timer_g_time t) (timer_h t) x (timer_i_time t) (timer_j t) (timer_1xx t) (timer_l t)
    (s_lastResp t) (s_lastErr t) (s_done t) (s_acks t) (s_cancels t) (s_errs t) (s_sent t)
    (s_tasks t) (s_picks t) (s_crashed t).

Definition set_timer_i_time (x : Z) (t : serverTx) : serverTx :=
  mkServerTx (s_fsm t) (s_origin t) (s_reliable t) (lastAck t) (lastCancel t) (timer_g t)
    (timer_g_time t) (timer_h t) (timer_i t) x (timer_j t) (timer_1xx t) (timer_l t)
    (s_lastResp t) (s_lastErr t) (s_done t) (s_acks t) (s_cancels t) (s_errs t) (s_sent t)
    (s_tasks t) (s_picks t) (s_crashed t).

Definition set_timer_j (x : option timer) (t : serverTx) : serverTx :=
  mkServerTx (s_fsm t) (s_origin t) (s_reliable t) (lastAck t) (lastCancel t) (timer_g t)
    (timer_g_time t) (timer_h t) (timer_i t) (timer_i_time t) x (timer_1xx t) (timer_l t)
    (s_lastResp t) (s_lastErr t) (s_done t) (s_acks t) (s_cancels t) (s_errs t) (s_sent t)
    (s_tasks t) (s_picks t) (s_crashed t).

Definition set_timer_1xx (x : option timer) (t : serverTx) : serverTx :=
  mkServerTx (s_fsm t) (s_origin t) (s_reliable t) (lastAck t) (lastCancel t) (timer_g t)
    (timer_g_time t) (timer_h t) (timer_i t) (timer_i_time t) (timer_j t) x (timer_l t)
    (s_lastResp t) (s_lastErr t) (s_done t) (s_acks t) (s_cancels t) (s_errs t) (s_sent t)
    (s_tasks t) (s_picks t) (s_crashed t).

Definition set_timer_l (x : option timer) (t : serverTx) : serverTx :=
  mkServerTx (s_fsm t) (s_origin t) (s_reliable t) (lastAck t) (lastCancel t) (timer_g t)
    (timer_g_time t) (timer_h t) (timer_i t) (timer_i_time t) (timer_j t) (timer_1xx t) x
    (s_lastResp t) (s_lastErr t) (s_done t) (s_acks t) (s_cancels t) (s_errs t) (s_sent t)
    (s_tasks t) (s_picks t) (s_crashed t).

Definition set_s_lastResp (x : option response) (t : serverTx) : serverTx :=
  mkServerTx (s_fsm t) (s_origin t) (s_reliable t) (lastAck t) (lastCancel t) (timer_g t)
    (timer_g_time t) (timer_h t) (timer_i t) (timer_i_time t) (timer_j t) (timer_1xx t)
    (timer_l t) x (s_lastErr t) (s_done t) (s_acks t) (s_cancels t) (s_errs t) (s_sent t)
    (s_tasks t) (s_picks t) (s_crashed t).

Definition set_s_lastErr (x : option error) (t : serverTx) : serverTx :=
  mkServerTx (s_fsm t) (s_origin t) (s_reliable t) (lastAck t) (lastCancel t) (timer_g t)
    (timer_g_time t) (timer_h t) (timer_i t) (timer_i_time t) (timer_j t) (timer_1xx t)
    (timer_l t) (s_lastResp t) x (s_done t) (s_acks t) (s_cancels t) (s_errs t) (s_sent t)
    (s_tasks t) (s_picks t) (s_crashed t).

Definition set_s_done (x : bool) (t : serverTx) : serverTx :=
  mkServerTx (s_fsm t) (s_origin t) (s_reliable t) (lastAck t) (lastCancel t) (timer_g t)
    (timer_g_time t) (timer_h t) (timer_i t) (timer_i_time t) (timer_j t) (timer_1xx t)
    (timer_l t) (s_lastResp t) (s_lastErr t) x (s_acks t) (s_cancels t) (s_errs t) (s_sent t)
    (s_tasks t) (s_picks t) (s_crashed t).

Definition set_s_acks (x : list request) (t : serverTx) : serverTx :=
  mkServerTx (s_fsm t) (s_origin t) (s_reliable t) (lastAck t) (lastCancel t) (timer_g t)
    (timer_g_time t) (timer_h t) (timer_i t) (timer_i_time t) (timer_j t) (timer_1xx t)
    (timer_l t) (s_lastResp t) (s_lastErr t) (s_done t) x (s_cancels t) (s_errs t) (s_sent t)
    (s_tasks t) (s_picks t) (s_crashed t).

Definition set_s_cancels (x : list request) (t : serverTx) : serverTx :=
  mkServerTx (s_fsm t) (s_origin t) (s_reliable t) (lastAck t) (lastCancel t) (timer_g t)
    (timer_g_time t) (timer_h t) (timer_i t) (timer_i_time t) (timer_j t) (timer_1xx t)
    (timer_l t) (s_lastResp t) (s_lastErr t) (s_done t) (s_acks t) x (s_errs t) (s_sent t)
    (s_tasks t) (s_picks t) (s_crashed t).

Definition set_s_errs (x : list tx_error) (t : serverTx) : serverTx :=
  mkServerTx (s_fsm t) (s_origin t) (s_reliable t) (lastAck t) (lastCancel t) (timer_g t)
    (timer_g_time t) (timer_h t) (timer_i t) (timer_i_time t) (timer_j t) (timer_1xx t)
    (timer_l t) (s_lastResp t) (s_lastErr t) (s_done t) (s_acks t) (s_cancels t) x (s_sent t)
    (s_tasks t) (s_picks t) (s_crashed t).

Definition set_s_sent (x : list msg) (t : serverTx) : serverTx :=
  mkServerTx (s_fsm t) (s_origin t) (s_reliable t) (lastAck t) (lastCancel t) (timer_g t)
    (timer_g_time t) (timer_h t) (timer_i t) (timer_i_time t) (timer_j t) (timer_1xx t)
    (timer_l t) (s_lastResp t) (s_lastErr t) (s_done t) (s_acks t) (s_cancels t) (s_errs t) x
    (s_tasks t) (s_picks t) (s_crashed t).

Definition set_s_tasks (x : list (task server_task)) (t : serverTx) : serverTx :=
  mkServerTx (s_fsm t) (s_origin t) (s_reliable t) (lastAck t) (lastCancel t) (timer_g t)
    (timer_g_time t) (timer_h t) (timer_i t) (timer_i_time t) (timer_j t) (timer_1xx t)
    (timer_l t) (s_lastResp t) (s_lastErr t) (s_done t) (s_acks t) (s_cancels t) (s_errs t)
    (s_sent t) x (s_picks t) (s_crashed t).

Definition set_s_picks (x : nat) (t : serverTx) : serverTx :=
  mkServerTx (s_fsm t) (s_origin t) (s_reliable t) (lastAck t) (lastCancel t) (timer_g t)
    (timer_g_time t) (timer_h t) (timer_i t) (timer_i_time t) (timer_j t) (timer_1xx t)
    (timer_l t) (s_lastResp t) (s_lastErr t) (s_done t) (s_acks t) (s_cancels t) (s_errs t)
    (s_sent t) (s_tasks t) x (s_crashed t).

Definition set_s_crashed (x : bool) (t : serverTx) : serverTx :=
  mkServerTx (s_fsm t) (s_origin t) (s_reliable t) (lastAck t) (lastCancel t) (timer_g t)
    (timer_g_time t) (timer_h t) (timer_i t) (timer_i_time t) (timer_j t) (timer_1xx t)
    (timer_l t) (s_lastResp t) (s_lastErr t) (s_done t) (s_acks t) (s_cancels t) (s_errs t)
    (s_sent t) (s_tasks t) (s_picks t) x.


(** ** Effects *)

Definition panic (t : serverTx) : serverTx := set_s_crashed true t.

(** [tpl.Send(m)]. *)
Definition Send (e : env) (m : msg) (t : serverTx) : serverTx * option error :=
  (set_s_sent (s_sent t ++ [m]) t, e_send e (length (s_sent t)) m).

Definition send_err (x : tx_error) (t : serverTx) : serverTx :=
  if s_done t then t else set_s_errs (s_errs t ++ [x]) t.

Definition transportErr (t : serverTx) : serverTx :=
  send_err (TxTransportError (s_lastErr t)) t.

Definition timeoutErr (t : serverTx) : serverTx := send_err TxTimeoutError t.

(** [delete] leaves timer_l alone. *)
Definition delete (t : serverTx) : serverTx :=
  if s_done t then t
  else set_timer_1xx None (set_timer_j None (set_timer_h None (set_timer_g None
         (set_timer_i None (set_s_done true t))))).

(** ** Actions *)

Definition no_input (t : serverTx) : serverTx * option server_input := (t, None).

(** Sends the last response; [after] is what follows a successful send. *)
Definition send_last (e : env) (after : serverTx -> serverTx) : action server_input serverTx :=
  fun t =>
  match s_lastResp t with
  | None => no_input t
  | Some r =>
      let '(t, lastErr) := Send e (MResponse r) t in
      let t := set_s_lastErr lastErr t in
      match lastErr with
      | Some _ => (t, Some server_input_transport_err)
      | None => no_input (after t)
      end
  end.

Definition act_respond (e : env) : action server_input serverTx := send_last e (fun t => t).

Definition start_timer_g (t : serverTx) : serverTx :=
  if s_reliable t then t
  else match timer_g t with
       | None => set_timer_g (AfterFunc (timer_g_time t)) t
       | Some _ =>
           let d := wrap64 (timer_g_time t * 2) in
           let d := if (T2 <? d)%Z then T2 else d in
           set_timer_g (AfterFunc d) (set_timer_g_time d t)
       end.

Definition start_timer_h (t : serverTx) : serverTx :=
  match timer_h t with None => set_timer_h (AfterFunc Timer_H) t | Some _ => t end.

Definition act_respond_complete (e : env) : action server_input serverTx :=
  send_last e (fun t => start_timer_h (start_timer_g t)).

Definition act_respond_accept (e : env) : action server_input serverTx :=
  send_last e (set_timer_l (AfterFunc Timer_L)).

(** The [select] between [done] and a channel that is closed with it:
    [closed] is what a send on the closed channel does. *)
Definition select_send (e : env) (send : serverTx -> serverTx)
    (closed : serverTx -> serverTx * option server_input) : action server_input serverTx := fun t =>
  if s_done t then
    let take_done := e_pick e (s_picks t) in
    let t := set_s_picks (S (s_picks t)) t in
    if take_done then no_input t else closed t
  else no_input (send t).

(** A recovered panic returns the zero input, which is [server_input_request]. *)
Definition recovered (t : serverTx) : serverTx * option server_input :=
  (t, Some server_input_request).

Definition act_passup_ack (e : env) : action server_input serverTx := fun t =>
  match lastAck t with
  | None => no_input t
  | Some a =>
      select_send e (fun t => set_s_acks (s_acks t ++ [a]) t) (fun t => no_input (panic t)) t
  end.

Definition act_final (e : env) : action server_input serverTx :=
  send_last e (set_timer_j (AfterFunc Timer_J)).

Definition act_trans_err : action server_input serverTx := fun t =>
  (transportErr t, Some server_input_delete).

Definition act_timeout : action server_input serverTx := fun t =>
  (timeoutErr t, Some server_input_delete).

Definition act_delete : action server_input serverTx := fun t => no_input (delete t).

(** [tpl.Send] of a nil response is a nil dereference. *)
Definition act_respond_delete (e : env) : action server_input serverTx := fun t =>
  let t := delete t in
  match s_lastResp t with
  | None => no_input (panic t)
  | Some _ => send_last e (fun t => t) t
  end.

Definition act_confirm (e : env) : action server_input serverTx := fun t =>
  let t := set_timer_i (AfterFunc Timer_I) (set_timer_h None (set_timer_g None t)) in
  match lastAck t with
  | None => no_input t
  | Some a => select_send e (fun t => set_s_acks (s_acks t ++ [a]) t) recovered t
  end.

Definition act_cancel (e : env) : action server_input serverTx := fun t =>
  match lastCancel t with
  | None => no_input t
  | Some c => select_send e (fun t => set_s_cancels (s_cancels t ++ [c]) t) recovered t
  end.

(** ** The machines *)

(** [initInviteFSM]. *)
Definition invite_fsm (e : env) : machine server_state server_input serverTx := fun c i =>
  match c, i with
  | server_state_proceeding, server_input_request =>
      Some (server_state_proceeding, act_respond e)
  | server_state_proceeding, server_input_cancel =>
      Some (server_state_proceeding, act_cancel e)
  | server_state_proceeding, server_input_user_1xx =>
      Some (server_state_proceeding, act_respond e)
  | server_state_proceeding, server_input_user_2xx =>
      Some (server_state_accepted, act_respond_accept e)
  | server_state_proceeding, server_input_user_300_plus =>
      Some (server_state_completed, act_respond_complete e)
  | server_state_proceeding, server_input_transport_err =>
      Some (server_state_terminated, act_trans_err)
  | server_state_completed, server_input_request =>
      Some (server_state_completed, act_respond e)
  | server_state_completed, server_input_ack =>
      Some (server_state_confirmed, act_confirm e)
  | server_state_completed, server_input_cancel =>
      Some (server_state_completed, NO_ACTION)
  | server_state_completed, server_input_user_1xx =>
      Some (server_state_completed, NO_ACTION)
  | server_state_completed, server_input_user_2xx =>
      Some (server_state_completed, NO_ACTION)
  | server_state_completed, server_input_user_300_plus =>
      Some (server_state_completed, NO_ACTION)
  | server_state_completed, server_input_timer_g =>
      Some (server_state_completed, act_respond_complete e)
  | server_state_completed, server_input_timer_h =>
      Some (server_state_terminated, act_delete)
  | server_state_completed, server_input_transport_err =>
      Some (server_state_terminated, act_trans_err)
  | server_state_confirmed, server_input_request =>
      Some (server_state_confirmed, NO_ACTION)
  | server_state_confirmed, server_input_ack =>
      Some (server_state_confirmed, NO_ACTION)
  | server_state_confirmed, server_input_cancel =>
      Some (server_state_confirmed, NO_ACTION)
  | server_state_confirmed, server_input_user_1xx =>
      Some (server_state_confirmed, NO_ACTION)
  | server_state_confirmed, server_input_user_2xx =>
      Some (server_state_confirmed, NO_ACTION)
  | server_state_confirmed, server_input_user_300_plus =>
      Some (server_state_confirmed, NO_ACTION)
  | server_state_confirmed, server_input_timer_i =>
      Some (server_state_terminated, act_delete)
  | server_state_confirmed, server_input_timer_g =>
      Some (server_state_confirmed, NO_ACTION)
  | server_state_confirmed, server_input_timer_h =>
      Some (server_state_confirmed, NO_ACTION)
  | server_state_accepted, server_input_request =>
      Some (server_state_accepted, NO_ACTION)
  | server_state_accepted, server_input_ack =>
      Some (server_state_accepted, act_passup_ack e)
  | server_state_accepted, server_input_cancel =>
      Some (server_state_accepted, NO_ACTION)
  | server_state_accepted, server_input_user_1xx =>
      Some (server_state_accepted, NO_ACTION)
  | server_state_accepted, server_input_user_2xx =>
      Some (server_state_accepted, act_respond e)
  | server_state_accepted, server_input_user_300_plus =>
      Some (server_state_accepted, NO_ACTION)
  | server_state_accepted, server_input_transport_err =>
      Some (server_state_accepted, NO_ACTION)
  | server_state_accepted, server_input_timer_l =>
      Some (server_state_terminated, act_delete)
  | server_state_terminated, server_input_request =>
      Some (server_state_terminated, NO_ACTION)
  | server_state_terminated, server_input_ack =>
      Some (server_state_terminated, NO_ACTION)
  | server_state_terminated, server_input_cancel =>
      Some (server_state_terminated, NO_ACTION)
  | server_state_terminated, server_input_user_1xx =>
      Some (server_state_terminated, NO_ACTION)
  | server_state_terminated, server_input_user_2xx =>
      Some (server_state_terminated, NO_ACTION)
  | server_state_terminated, server_input_user_300_plus =>
      Some (server_state_terminated, NO_ACTION)
  | server_state_terminated, server_input_delete =>
      Some (server_state_terminated, act_delete)
  | server_state_terminated, server_input_timer_i =>
      Some (server_state_terminated, NO_ACTION)
  | server_state_terminated, server_input_timer_l =>
      Some (server_state_terminated, NO_ACTION)
  | _, _ => None
  end.

(** [initNonInviteFSM]. *)
Definition non_invite_fsm (e : env) : machine server_state server_input serverTx := fun c i =>
  match c, i with
  | server_state_trying, server_input_request =>
      Some (server_state_trying, NO_ACTION)
  | server_state_trying, server_input_cancel =>
      Some (server_state_trying, NO_ACTION)
  | server_state_trying, server_input_user_1xx =>
      Some (server_state_proceeding, act_respond e)
  | server_state_trying, server_input_user_2xx =>
      Some (server_state_completed, act_final e)
  | server_state_trying, server_input_user_300_plus =>
      Some (server_state_completed, act_final e)
  | server_state_trying, server_input_transport_err =>
      Some (server_state_terminated, act_trans_err)
  | server_state_proceeding, server_input_request =>
      Some (server_state_proceeding, act_respond e)
  | server_state_proceeding, server_input_cancel =>
      Some (server_state_proceeding, NO_ACTION)
  | server_state_proceeding, server_input_user_1xx =>
      Some (server_state_proceeding, act_respond e)
  | server_state_proceeding, server_input_user_2xx =>
      Some (server_state_completed, act_final e)
  | server_state_proceeding, server_input_user_300_plus =>
      Some (server_state_completed, act_final e)
  | server_state_proceeding, server_input_transport_err =>
      Some (server_state_terminated, act_trans_err)
  | server_state_completed, server_input_request =>
      Some (server_state_completed, act_respond e)
  | server_state_completed, server_input_cancel =>
      Some (server_state_completed, NO_ACTION)
  | server_state_completed, server_input_user_1xx =>
      Some (server_state_completed, NO_ACTION)
  | server_state_completed, server_input_user_2xx =>
      Some (server_state_completed, NO_ACTION)
  | server_state_completed, server_input_user_300_plus =>
      Some (server_state_completed, NO_ACTION)
  | server_state_completed, server_input_timer_j =>
      Some (server_state_terminated, act_delete)
  | server_state_completed, server_input_transport_err =>
      Some (server_state_terminated, act_trans_err)
  | server_state_terminated, server_input_request =>
      Some (server_state_terminated, NO_ACTION)
  | server_state_terminated, server_input_cancel =>
      Some (server_state_terminated, NO_ACTION)
  | server_state_terminated, server_input_user_1xx =>
      Some (server_state_terminated, NO_ACTION)
  | server_state_terminated, server_input_user_2xx =>
      Some (server_state_terminated, NO_ACTION)
  | server_state_terminated, server_input_user_300_plus =>
      Some (server_state_terminated, NO_ACTION)
  | server_state_terminated, server_input_timer_j =>
      Some (server_state_terminated, NO_ACTION)
  | server_state_terminated, server_input_delete =>
      Some (server_state_terminated, act_delete)
  | _, _ => None
  end.

Definition server_fsm (e : env) (t : serverTx) : machine server_state server_input serverTx :=
  if IsInvite (s_origin t) then invite_fsm e else non_invite_fsm e.

(** The first state of the machine's definition. *)
Definition initial_state (origin : request) : server_state :=
  if IsInvite origin then server_state_proceeding else server_state_trying.

(** ** Methods *)

Section methods.

Context (spin : spinner) (e : env).

Definition Spin (i : server_input) (t : serverTx) : serverTx * bool :=
  let '(c, t', ok) := spin _ _ _ (server_fsm e t) (Some i) (s_fsm t) t in (set_s_fsm c t', ok).

Definition new_serverTx (origin : request) (reliable : bool) : serverTx :=
  mkServerTx (initial_state origin) origin reliable None None None 0 None None 0 None None None
    None None false [] [] [] [] [] 0 false.

(** [NewServerTx]: the key and the transaction. *)
Definition NewServerTx (is_reliable : bytes -> bool) (origin : request) : res (TxKey * serverTx) :=
  key ← text_shown origin (MakeServerTxKey (hdrs (rq_msg origin)));
  _ ← request_shown origin;
  t ← request_Transport origin;
  Ok (key, new_serverTx origin (is_reliable t)).

Lemma NewServerTx_Ok is_reliable origin key t :
  NewServerTx is_reliable origin = Ok (key, t) <->
  MakeServerTxKey (hdrs (rq_msg origin)) = Ok key /\ request_shown origin = Ok tt /\
  exists tr, request_Transport origin = Ok tr /\ t = new_serverTx origin (is_reliable tr).
Proof using.
  unfold NewServerTx. split.
  - intros (k & Hk%text_shown_Ok & ([] & Hs & (tr & Ht & [= <- <-])%bind_Ok)%bind_Ok)%bind_Ok. eauto.
  - intros (Hk & Hs & tr & Ht & ->). by rewrite (proj2 (text_shown_Ok _ _ _) Hk), Hs, Ht.
Qed.

(** [Init] never fails. *)
Definition Init (t : serverTx) : serverTx :=
  let t := if s_reliable t then set_timer_i_time 0 t
           else set_timer_i_time Timer_I (set_timer_g_time Timer_G t) in
  if IsInvite (s_origin t) then set_timer_1xx (AfterFunc Timer_1xx) t else t.

(** A message that is no request reaches [req.String()] with a nil [req]. *)
Definition Receive (m : msg) (t : serverTx) : serverTx * bool :=
  match m with
  | MResponse _ => (panic t, false)
  | MRequest req =>
      let t := set_timer_1xx None t in
      if streq (method req) (method (s_origin t)) then Spin server_input_request t
      else if request_IsAck req then Spin server_input_ack (set_lastAck (Some req) t)
      else if request_IsCancel req then Spin server_input_cancel (set_lastCancel (Some req) t)
      else (t, false)
  end.

Definition response_input (r : response) : server_input :=
  if IsProvisional r then server_input_user_1xx
  else if IsSuccess r then server_input_user_2xx else server_input_user_300_plus.

Definition Respond (r : response) (t : serverTx) : serverTx * bool :=
  if response_IsCancel r then (fst (Send e (MResponse r) t), true)
  else Spin (response_input r) (set_timer_1xx None (set_s_lastResp (Some r) t)).

(** The callback of timer_1xx. *)
Definition respond_trying (t : serverTx) : serverTx :=
  match NewResponseFromRequest (e_uuid e (length (s_sent t))) [] (s_origin t) 100 "Trying" [] with
  | Ok r => fst (Respond r t)
  | _ => panic t
  end.

Definition Terminate (t : serverTx) : serverTx := if s_done t then t else delete t.

(** ** Steps *)

Inductive server_timer : Set := TimerG | TimerH | TimerI | TimerJ | TimerL | Timer1xx.

Definition timer_of (k : server_timer) (t : serverTx) : option timer :=
  match k with
  | TimerG => timer_g t | TimerH => timer_h t | TimerI => timer_i t
  | TimerJ => timer_j t | TimerL => timer_l t | Timer1xx => timer_1xx t
  end.

Definition set_timer (k : server_timer) (x : option timer) : serverTx -> serverTx :=
  match k with
  | TimerG => set_timer_g x | TimerH => set_timer_h x | TimerI => set_timer_i x
  | TimerJ => set_timer_j x | TimerL => set_timer_l x | Timer1xx => set_timer_1xx x
  end.

Definition timer_task (k : server_timer) : server_task :=
  match k with
  | TimerG => SpinInput server_input_timer_g
  | TimerH => SpinInput server_input_timer_h
  | TimerI => SpinInput server_input_timer_i
  | TimerJ => SpinInput server_input_timer_j
  | TimerL => SpinInput server_input_timer_l
  | Timer1xx => RespondTrying
  end.

Inductive server_event : Type :=
| SReceive (m : msg)
| SRespond (r : response)
| STerminate
| SFire (k : server_timer)
| SRun (n : nat).

Definition run_task (x : task server_task) (t : serverTx) : serverTx :=
  match x with
  | Fired k => if s_done t then t else set_s_tasks (s_tasks t ++ [Spinning k]) t
  | Spinning (SpinInput i) => fst (Spin i t)
  | Spinning RespondTrying => respond_trying t
  end.

Definition server_step (ev : server_event) (t : serverTx) : option serverTx :=
  if s_crashed t then None
  else match ev with
       | SReceive m => Some (fst (Receive m t))
       | SRespond r => Some (fst (Respond r t))
       | STerminate => Some (Terminate t)
       | SFire k =>
           if is_armed (timer_of k t)
           then Some (set_s_tasks (s_tasks t ++ [Fired (timer_task k)])
                        (set_timer k (fired (timer_of k t)) t))
           else None
       | SRun n =>
           '(x, rest) ← pick_task n (s_tasks t);
           Some (run_task x (set_s_tasks rest t))
       end.

Inductive sreach (allowed : server_event -> Prop) (t0 : serverTx) : serverTx -> Prop :=
| sreach_init : sreach allowed t0 t0
| sreach_step t ev t' :
    sreach allowed t0 t -> allowed ev -> server_step ev t = Some t' -> sreach allowed t0 t'.

Fixpoint server_run (evs : list server_event) (t : serverTx) : option serverTx :=
  match evs with
  | [] => Some t
  | ev :: evs => t' ← server_step ev t; server_run evs t'
  end.

End methods.

End ServerTx.
