(* ===== verification/ClientInv.v ===== *)
(** * Invariants of client transactions

    What holds in every state a client transaction reaches, whatever the
    transport answers, in whatever order responses, timers, goroutines and
    the user's calls come. *)

From S2P Require Import Prelude GoStrings Escape Params Headers HeaderStore Message ParserCommon Packet TxKeys Fsm ClientTx.
From stdpp Require Import options.
Import Params Headers HeaderStore Message Packet TxKeys Fsm ClientTx.

Module ClientInv.

Section client.

Context (spin : spinner) `{!FsmSpin spin} (e : env).

(** The chains of the client machines end within the bound of the law. *)
Lemma run_client t i c : exists r, run max_chain (client_fsm e t) (Some i) c t = Some r.
Proof using.
  unfold client_fsm. destruct (IsInvite (c_origin t)), c, i; cbn; eauto.
Qed.

(** [Spin] is the run of the machine. *)
Lemma Spin_run i t :
  exists c t' ok, run max_chain (client_fsm e t) (Some i) (c_fsm t) t = Some (c, t', ok) /\
                  Spin spin e i t = (set_c_fsm c t', ok).
Proof using FsmSpin0.
  destruct (run_client t i (c_fsm t)) as [[[c t'] ok] Hr]. exists c, t', ok. split; [done |].
  unfold Spin. by rewrite (spin_run _ _ _ _ _ _ _ _ Hr).
Qed.

(** Takes [Spin spin e i t] apart: one goal per state and input, with the
    effects of the actions written out. *)
Ltac client_effects :=
  unfold act_invite_proceeding, act_passup_accept, act_invite_final, act_cancel, act_invite_canceled,
    act_invite_resend, act_timeout, act_trans_err, act_passup, act_cancel_timeout, act_ack, act_delete,
    act_trans_err_stay, act_non_invite_final, act_non_invite_resend, NO_ACTION, no_input,
    transportErr, timeoutErr, send_err, delete, resend, cancel, ack, passUp, reset_timer_a,
    stop_timer_a, stop_timer_b, start_timer_d, seq, Send, send_failed, add_task, add_err,
    add_response, panic; cbn.

Ltac spin_cases i t :=
  let Hr := fresh "Hr" in
  destruct (Spin_run i t) as (? & ? & ? & Hr & ->); cbn [fst];
  unfold client_fsm in Hr;
  destruct (IsInvite (c_origin t)) eqn:?, (c_fsm t) eqn:?, i; cbn in Hr;
  first [injection Hr as <- <- <- | discriminate Hr].

Ltac client_auto := client_effects; repeat (case_match; cbn); first [done | congruence | eauto].

(** ** Relations every action respects *)

(** A preorder that holds across each effect of the actions holds across
    [Spin]. *)
Record closed (R : clientTx -> clientTx -> Prop) : Prop := {
  cl_refl : forall t, R t t;
  cl_trans : forall t t' t'', R t t' -> R t' t'' -> R t t'';
  cl_fsm : forall c t, R t (set_c_fsm c t);
  cl_passUp : forall t, R t (passUp e t);
  cl_ack : forall t, R t (ack e t);
  cl_cancel : forall t, R t (cancel e t);
  cl_resend : forall t, R t (resend e t);
  cl_send_err : forall x t, R t (send_err x t);
  cl_delete : forall t, R t (delete t);
  cl_reset : forall t, R t (reset_timer_a t);
  cl_time : forall d t, R t (set_timer_a_time d t);
  cl_stop_a : forall t, R t (stop_timer_a t);
  cl_set_b : forall x t, R t (set_timer_b x t);
  cl_set_d : forall x t, R t (set_timer_d x t);
  cl_set_m : forall x t, R t (set_timer_m x t)
}.

Section closed_relation.

Context (R : clientTx -> clientTx -> Prop) (HR : closed R).

Definition within (f : clientTx -> clientTx) : Prop := forall t, R t (f t).

Lemma within_seq f g : within f -> within g -> within (f >> g).
Proof using HR.
  intros Hf Hg t. unfold seq. destruct (c_crashed (f t)); [apply Hf |].
  eapply (cl_trans _ HR); [apply Hf | apply Hg].
Qed.

Lemma within_comp f g t : within f -> R t (g t) -> R t (f (g t)).
Proof using HR. intros Hf Hg. eapply (cl_trans _ HR); [apply Hg | apply Hf]. Qed.

Lemma within_reset d : within (fun t => reset_timer_a (set_timer_a_time (d t) t)).
Proof using HR.
  intros t. eapply (cl_trans _ HR); [apply (cl_time _ HR (d t)) | apply (cl_reset _ HR)].
Qed.

Lemma Spin_closed i t : R t (fst (Spin spin e i t)).
Proof using HR FsmSpin0.
  assert (within (passUp e) /\ within (ack e) /\ within (cancel e) /\ within (resend e) /\
          within delete /\ within (send_err TxTimeoutError) /\ within timeoutErr /\ within transportErr)
    as (Hp & Ha & Hc & Hr & Hd & He & Hto & Htr) by (repeat split; intros ?; apply HR).
  assert (within stop_timer_a /\ within stop_timer_b /\ within start_timer_d /\
          (forall x, within (set_timer_b x)) /\ (forall x, within (set_timer_m x)))
    as (Hsa & Hsb & Hsd & Htb & Htm) by (repeat split; intros ?; first [intros ?; apply HR | apply HR]).
  spin_cases i t; (eapply (cl_trans _ HR); [| apply (cl_fsm _ HR)]);
    first [ apply HR
          | by repeat first [apply within_seq | apply Htb | apply Htm]
          | apply within_comp; [done |]; by apply within_seq
          | apply within_seq; [apply (within_reset (fun t => _)) | done] ].
Qed.

End closed_relation.

(** *** What no step changes *)

(** The request and the transport stay; once the transaction is done it stays
    done and the user gets nothing more. *)
Definition keeps (t t' : clientTx) : Prop :=
  c_origin t' = c_origin t /\ c_reliable t' = c_reliable t /\
  (c_done t = true -> c_done t' = true /\ c_responses t' = c_responses t /\ c_errs t' = c_errs t).

Lemma keeps_trans t t' t'' : keeps t t' -> keeps t' t'' -> keeps t t''.
Proof using.
  intros (H1 & H2 & H3) (H4 & H5 & H6). unfold keeps. rewrite H4, H5.
  split; [done | split; [done |]]. intros Hd. destruct (H3 Hd) as (Hd' & Hr & He).
  destruct (H6 Hd') as (Hd'' & Hr' & He'). repeat split; congruence.
Qed.

(** Case analysis on what one effect depends on. *)
Ltac effect :=
  unfold passUp, ack, cancel, resend, send_err, delete, reset_timer_a, Send, send_failed,
    add_task, add_err, add_response, panic;
  repeat case_match; cbn; simplify_eq; try done.

Lemma closed_keeps : closed keeps.
Proof using.
  split; try done; [exact keeps_trans | ..]; intros; effect;
    unfold keeps; cbn; repeat split; congruence.
Qed.

(** ** The inputs of the goroutines *)

Definition task_input (x : task client_input) : client_input :=
  match x with Fired i | Spinning i => i end.

(** Inputs that come from timers and failed sends, not from messages. *)
Definition internal (i : client_input) : bool :=
  match i with
  | client_input_timer_a | client_input_timer_b | client_input_timer_d | client_input_timer_m
  | client_input_transport_err => true
  | _ => false
  end.

Definition tasks_internal (t : clientTx) : Prop :=
  Forall (fun x => internal (task_input x) = true) (c_tasks t).

(** The machine starts no goroutine but those of failed sends, and ends none. *)
Definition more_tasks (t t' : clientTx) : Prop :=
  exists l, c_tasks t' = c_tasks t ++ l /\ Forall (fun x => x = Spinning client_input_transport_err) l.

Lemma closed_more_tasks : closed more_tasks.
Proof using.
  assert (forall t t', c_tasks t' = c_tasks t -> more_tasks t t') as H0
    by (intros t t' H; exists []; by rewrite app_nil_r).
  assert (forall t t', c_tasks t' = c_tasks t ++ [Spinning client_input_transport_err] ->
                       more_tasks t t') as H1 by (intros t t' H; eexists; split; [done | by constructor]).
  split; try (intros; apply H0; done).
  - intros t t' t'' (l & H & Hl) (l' & H' & Hl'). exists (l ++ l'). rewrite H', H, app_assoc.
    split; [done | by apply Forall_app].
  - intros t. apply H0. effect.
  - intros t. unfold ack, Send, send_failed, add_task, panic. repeat case_match; simplify_eq;
      first [by apply H0 | by apply H1].
  - intros t. unfold cancel, Send, send_failed, add_task, panic. repeat case_match; simplify_eq;
      first [by apply H0 | by apply H1].
  - intros t. unfold resend, Send, add_task. repeat case_match; simplify_eq;
      first [by apply H0 | by apply H1].
  - intros x t. apply H0. effect.
  - intros t. apply H0. effect.
  - intros t. apply H0. effect.
Qed.

Lemma Spin_tasks_internal i t : tasks_internal t -> tasks_internal (fst (Spin spin e i t)).
Proof using FsmSpin0.
  unfold tasks_internal. destruct (Spin_closed _ closed_more_tasks i t) as (l & -> & Hl).
  intros H. apply Forall_app. split; [done |]. eapply Forall_impl; [exact Hl |]. by intros ? ->.
Qed.

(** ** Induction over the steps *)

(** A property every step preserves, by the kinds of steps.  A goroutine
    leaves the task list when it takes its last step. *)
Record preserved (allowed : client_event -> Prop) (P : clientTx -> Prop) : Prop := {
  p_response : forall r t, c_crashed t = false -> allowed (CReceive (MResponse r)) ->
    response_IsCancel r = false -> P t ->
    P (fst (Spin spin e (response_input r) (set_c_lastResp (Some r) t)));
  p_user : forall i t, c_crashed t = false ->
    i = client_input_cancel \/ i = client_input_canceled -> P t -> P (fst (Spin spin e i t));
  p_terminate : forall t, c_crashed t = false -> allowed CTerminate -> c_done t = false ->
    P t -> P (delete t);
  p_fire : forall k t, is_armed (timer_of k t) = true -> P t ->
    P (add_task (Fired (timer_input k)) (set_timer k (fired (timer_of k t)) t));
  p_check_done : forall i t l1 l2, c_tasks t = l1 ++ Fired i :: l2 -> c_done t = true -> P t ->
    P (set_c_tasks (l1 ++ l2) t);
  p_check_live : forall i t l1 l2, c_tasks t = l1 ++ Fired i :: l2 -> c_done t = false -> P t ->
    P (set_c_tasks ((l1 ++ l2) ++ [Spinning i]) t);
  p_spin : forall i t l1 l2, c_crashed t = false -> c_tasks t = l1 ++ Spinning i :: l2 ->
    internal i = true -> P t -> P (fst (Spin spin e i (set_c_tasks (l1 ++ l2) t)))
}.

Lemma preserved_step allowed P ev t t' :
  preserved allowed P -> allowed ev -> client_step spin e ev t = Some t' ->
  tasks_internal t -> P t -> P t'.
Proof using.
  intros HP Ha Hs Ht Hp. unfold client_step in Hs. destruct (c_crashed t) eqn:Ec; [done |].
  destruct ev as [m | | | k | n].
  - simplify_eq. unfold Receive. destruct m as [q|r]; [done |].
    destruct (response_IsCancel r) eqn:Er; [apply HP; auto | by apply (p_response _ _ HP)].
  - simplify_eq. apply HP; auto.
  - simplify_eq. unfold Terminate. destruct (c_done t) eqn:Ed; [done |]. by apply HP.
  - destruct (is_armed (timer_of k t)) eqn:Ek; simplify_eq. by apply HP.
  - apply bind_Some in Hs as ([x rest] & Hpk & [= <-]).
    apply pick_task_spec in Hpk as (l1 & l2 & E & ->).
    unfold tasks_internal in Ht. rewrite E in Ht. apply Forall_app in Ht as [_ Ht]. inv Ht.
    destruct x as [i|i]; cbn [run_task].
    + cbn [set_c_tasks c_done]. destruct (c_done t) eqn:Ed; [by eapply (p_check_done _ _ HP) |].
      exact (p_check_live _ _ HP i t l1 l2 E Ed Hp).
    + by eapply (p_spin _ _ HP).
Qed.

Lemma preserved_tasks : preserved (fun _ => True) tasks_internal.
Proof using FsmSpin0.
  split; intros; unfold tasks_internal in *; try (by apply Spin_tasks_internal).
  - unfold delete. by rewrite H1.
  - destruct k; cbn in *; apply Forall_app; by split; [| constructor].
  - rewrite H in H1. cbn. by apply Forall_app in H1 as [? [? ?]%Forall_cons]; apply Forall_app.
  - rewrite H in H1. cbn. apply Forall_app in H1 as [? [? ?]%Forall_cons].
    apply Forall_app; split; [by apply Forall_app | by constructor].
  - apply Spin_tasks_internal. unfold tasks_internal. cbn. rewrite H0 in H2.
    by apply Forall_app in H2 as [? [? ?]%Forall_cons]; apply Forall_app.
Qed.

Lemma creach_inv allowed P t0 t :
  preserved allowed P -> tasks_internal t0 -> P t0 -> creach spin e allowed t0 t ->
  P t /\ tasks_internal t.
Proof using FsmSpin0.
  intros HP Hi0 Hp0. induction 1 as [| t ev t' Hr [IHp IHi] Ha Hs]; [done |]. split.
  - by eapply preserved_step.
  - eapply (preserved_step (fun _ => True) tasks_internal); [apply preserved_tasks | done..].
Qed.

(** ** Terminated transactions are done *)

Definition term_done (t : clientTx) : Prop :=
  c_fsm t = client_state_terminated -> c_done t = true.

Lemma delete_done t : c_done (delete t) = true.
Proof using. unfold delete. by destruct (c_done t) eqn:?. Qed.

Lemma Spin_term_done i t : term_done t -> term_done (fst (Spin spin e i t)).
Proof using FsmSpin0.
  intros Ht. unfold term_done in *.
  spin_cases i t; intros [=]; first [apply delete_done | by apply Ht].
Qed.

Lemma preserved_term_done : preserved (fun _ => True) term_done.
Proof using FsmSpin0.
  split; intros; try (by apply Spin_term_done); try (destruct k); try done; unfold term_done.
  intros _. apply delete_done.
Qed.

(** ** Sequences of effects *)

(** What the last effect leaves alone. *)
Lemma seq_frame {A} (p : clientTx -> A) f g t :
  (forall x, p (g x) = p x) -> p ((f >> g) t) = p (f t).
Proof using. intros H. unfold seq. destruct (c_crashed (f t)); [done | apply H]. Qed.

(** A sequence that did not panic ran to its end. *)
Lemma seq_last f g t : c_crashed ((f >> g) t) = false -> (f >> g) t = g (f t).
Proof using. unfold seq. by destruct (c_crashed (f t)) eqn:E; [rewrite E |]. Qed.

(** ** Final responses of non-INVITE transactions *)

Definition finals (l : list response) : nat :=
  length (filter (fun r => IsProvisional r = false) l).

Lemma finals_snoc l r : finals (l ++ [r]) = finals l + (if IsProvisional r then 0 else 1).
Proof using.
  unfold finals. rewrite filter_app, length_app. f_equal. rewrite filter_cons, filter_nil.
  by destruct (IsProvisional r).
Qed.

(** How many final responses a transaction may have passed up in a state. *)
Definition final_budget (c : client_state) : nat :=
  match c with client_state_calling | client_state_proceeding => 0 | _ => 1 end.

Definition one_final (t : clientTx) : Prop :=
  IsInvite (c_origin t) = false -> finals (c_responses t) <= final_budget (c_fsm t).

Lemma passUp_finals t :
  finals (c_responses (passUp e t)) <= finals (c_responses t) +
    match c_lastResp t with Some r => if IsProvisional r then 0 else 1 | None => 0 end.
Proof using.
  unfold passUp, add_response, panic. destruct (c_lastResp t) as [r|]; [| lia].
  destruct (c_done t); [destruct (e_pick e _); cbn [c_responses set_c_picks set_c_crashed]; lia |].
  cbn [set_c_responses c_responses]. rewrite finals_snoc. lia.
Qed.

Lemma resend_responses t : c_responses (resend e t) = c_responses t.
Proof using. effect. Qed.

Lemma reset_responses t : c_responses (reset_timer_a t) = c_responses t.
Proof using. effect. Qed.

Lemma delete_responses t : c_responses (delete t) = c_responses t.
Proof using. effect. Qed.

Lemma send_err_responses x t : c_responses (send_err x t) = c_responses t.
Proof using. effect. Qed.

Lemma Spin_one_final i t :
  one_final t ->
  (forall r, c_lastResp t = Some r -> i = client_input_1xx -> IsProvisional r = true) ->
  one_final (fst (Spin spin e i t)).
Proof using FsmSpin0.
  unfold one_final. intros Ht Hl. destruct (Spin_closed _ closed_keeps i t) as (-> & _ & _).
  intros Hi. specialize (Ht Hi). pose proof (passUp_finals t) as Hp.
  spin_cases i t; try congruence; cbn [set_c_fsm c_responses c_fsm final_budget] in *;
    rewrite ?seq_frame, ?resend_responses, ?reset_responses, ?delete_responses by
      (intros; first [done | apply resend_responses]); try lia.
  all: rewrite ?seq_frame by done; unfold timeoutErr, transportErr; rewrite ?send_err_responses; try lia.
  all: try (destruct (c_lastResp t) as [r|]; [| lia]; rewrite (Hl r) in Hp by done; lia).
  all: try (destruct (c_lastResp t) as [r|]; [destruct (IsProvisional r) |]; lia).
  all: cbn [c_responses set_timer_a_time]; lia.
Qed.

Lemma preserved_one_final : preserved (fun _ => True) one_final.
Proof using FsmSpin0.
  split; intros; try (apply Spin_one_final; [done |]); try (destruct k; done); try done.
  - intros r' [= <-]. unfold response_input. destruct (IsProvisional r); [done |].
    by destruct (IsSuccess r).
  - intros r' _ ->. naive_solver.
  - unfold one_final, delete. by rewrite H1.
  - by intros r' _ ->.
Qed.

(** ** The timer that ends a state *)

(** The timer is running, or its callback is on its way to the machine. *)
Definition alive (k : client_timer) (t : clientTx) : Prop :=
  is_armed (timer_of k t) = true \/
  Fired (timer_input k) ∈ c_tasks t \/ Spinning (timer_input k) ∈ c_tasks t.

(** The timer that bounds a state.  INVITE transactions have none in
    Proceeding and Accepted. *)
Definition watch (invite : bool) (c : client_state) : option client_timer :=
  match invite, c with
  | _, client_state_calling => Some TimerB
  | false, client_state_proceeding => Some TimerB
  | _, client_state_completed => Some TimerD
  | _, _ => None
  end.

Definition guarded (t : clientTx) : Prop :=
  c_crashed t = false -> c_done t = false ->
  forall k, watch (IsInvite (c_origin t)) (c_fsm t) = Some k -> alive k t.

Lemma alive_frame k t t' :
  timer_of k t' = timer_of k t -> more_tasks t t' -> alive k t -> alive k t'.
Proof using.
  unfold alive. intros -> (l & -> & _) H. rewrite !elem_of_app. naive_solver.
Qed.

Lemma timer_b_frames t :
  timer_b (passUp e t) = timer_b t /\ timer_b (resend e t) = timer_b t /\
  (forall d, timer_b (reset_timer_a (set_timer_a_time d t)) = timer_b t) /\ timer_b (cancel e t) = timer_b t /\
  timer_d (ack e t) = timer_d t.
Proof using. split_and!; intros; effect. Qed.

Lemma Spin_guarded i t :
  c_crashed t = false ->
  (forall k, c_done t = false -> watch (IsInvite (c_origin t)) (c_fsm t) = Some k ->
             alive k t \/ i = timer_input k) ->
  guarded (fst (Spin spin e i t)).
Proof using FsmSpin0.
  intros Hc Ht Hc' Hd' k Hk. pose proof (Spin_closed _ closed_more_tasks i t) as Hm.
  destruct (Spin_closed _ closed_keeps i t) as (Ho & _ & Hdm). rewrite Ho in Hk. clear Ho.
  assert (c_done t = false) as Hd.
  { destruct (c_done t); [| done]. destruct Hdm as (Hd1 & _); [done | congruence]. }
  clear Hdm. specialize (fun k => Ht k Hd).
  revert Hc' Hd' Hk Hm. spin_cases i t; intros Hc' Hd' Hk Hm;
    cbn [set_c_fsm c_fsm c_done watch] in *; try discriminate Hk;
    try (by rewrite delete_done in Hd'); injection Hk as <-;
    first
      [ destruct (Ht _ eq_refl) as [Ha|[=]];
        apply (alive_frame _ t); [| exact Hm | exact Ha];
        cbn [timer_of set_c_fsm timer_b timer_d];
        rewrite ?seq_frame by (intros; first [done | apply timer_b_frames]);
        first [done | cbn beta; apply timer_b_frames]
      | left; cbn [set_c_fsm c_crashed] in Hc'; apply seq_last in Hc';
        cbn [timer_of set_c_fsm timer_d]; by rewrite Hc'].
Qed.

Lemma preserved_guarded : preserved (fun _ => True) guarded.
Proof using FsmSpin0.
  split.
  - intros r t Hc _ _ Hg. apply Spin_guarded; [done |]. intros k Hd Hk. left. by apply Hg.
  - intros i t Hc _ Hg. apply Spin_guarded; [done |]. intros k Hd Hk. left. by apply Hg.
  - intros t _ _ _ _ _ Hd. by rewrite delete_done in Hd.
  - intros k t Hk Hg Hc Hd k' Hk'. unfold alive. cbn [add_task set_c_tasks c_tasks].
    assert (c_tasks (set_timer k (fired (timer_of k t)) t) = c_tasks t) as -> by by destruct k.
    assert (alive k' t) as Ha by (apply Hg; by destruct k).
    destruct Ha as [Ha|Ha]; [| rewrite !elem_of_app; naive_solver].
    assert (k = k' \/ timer_of k' (set_timer k (fired (timer_of k t)) t) = timer_of k' t) as [->|E]
      by (destruct k, k'; auto).
    + right. left. apply elem_of_app. right. by constructor.
    + left. etransitivity; [| exact Ha]. by rewrite <- E; destruct k'.
  - intros i t l1 l2 _ Hd _ _ Hd'. cbn in Hd'. congruence.
  - intros i t l1 l2 Hl _ Hg Hc Hd k Hk. specialize (Hg Hc Hd k Hk).
    destruct Hg as [Ha|Ha]; [by left; destruct k |]. right. cbn [set_c_tasks c_tasks].
    rewrite Hl in Ha. set_solver.
  - intros i t l1 l2 Hc Hl _ Hg. apply Spin_guarded; [done |]. intros k Hd Hk.
    specialize (Hg Hc Hd k Hk). destruct Hg as [Ha|Ha]; [by left; left; destruct k |].
    rewrite Hl, !elem_of_app, !elem_of_cons in Ha. unfold alive. cbn [set_c_tasks c_tasks].
    rewrite !elem_of_app. naive_solver.
Qed.

(** Running a goroutine that is about to feed the watched timer to the
    machine ends the transaction. *)
Lemma Spin_watch_done k t :
  watch (IsInvite (c_origin t)) (c_fsm t) = Some k ->
  c_done (fst (Spin spin e (timer_input k) t)) = true.
Proof using FsmSpin0.
  intros Hk. remember (timer_input k) as i eqn:Ei. revert Hk.
  spin_cases i t; cbn; intros [= <-]; try discriminate Ei; apply delete_done.
Qed.

(** The events that need nobody: timers and goroutines. *)
Definition timer_event (ev : client_event) : bool :=
  match ev with CFire _ | CRun _ => true | _ => false end.

Lemma spinning_to_done k t :
  c_crashed t = false -> watch (IsInvite (c_origin t)) (c_fsm t) = Some k ->
  Spinning (timer_input k) ∈ c_tasks t ->
  exists n t', client_step spin e (CRun n) t = Some t' /\ c_done t' = true.
Proof using FsmSpin0.
  intros Hc Hk Hin. destruct (pick_task_elem _ _ Hin) as (n & l' & Hp).
  exists n. eexists. unfold client_step. rewrite Hc, Hp. split; [done |].
  cbn [run_task]. by apply Spin_watch_done.
Qed.

Lemma fired_to_done k t :
  c_crashed t = false -> c_done t = false ->
  watch (IsInvite (c_origin t)) (c_fsm t) = Some k -> Fired (timer_input k) ∈ c_tasks t ->
  exists n m t', client_run spin e [CRun n; CRun m] t = Some t' /\ c_done t' = true.
Proof using FsmSpin0.
  intros Hc Hd Hk Hin. destruct (pick_task_elem _ _ Hin) as (n & l' & Hp).
  set (t1 := add_task (Spinning (timer_input k)) (set_c_tasks l' t)).
  assert (client_step spin e (CRun n) t = Some t1) as E1.
  { unfold client_step. rewrite Hc, Hp. cbn [mbind option_bind run_task set_c_tasks c_done].
    by rewrite Hd. }
  destruct (spinning_to_done k t1) as (m & t2 & E2 & Hd2); [done | done | |].
  { apply elem_of_app. right. by constructor. }
  exists n, m, t2. cbn [client_run]. rewrite E1. cbn [mbind option_bind]. by rewrite E2.
Qed.

(** From a guarded state the timers alone end the transaction. *)
Lemma guarded_to_done k t :
  guarded t -> c_crashed t = false -> c_done t = false ->
  watch (IsInvite (c_origin t)) (c_fsm t) = Some k ->
  exists evs t', forallb timer_event evs = true /\ length evs <= 3 /\
    client_run spin e evs t = Some t' /\ c_done t' = true.
Proof using FsmSpin0.
  intros Hg Hc Hd Hk. destruct (Hg Hc Hd k Hk) as [Ha|[Ha|Ha]].
  - set (t1 := add_task (Fired (timer_input k)) (set_timer k (fired (timer_of k t)) t)).
    assert (client_step spin e (CFire k) t = Some t1) as E1.
    { unfold client_step. by rewrite Hc, Ha. }
    destruct (fired_to_done k t1) as (n & m & t' & Hr & Hd').
    + by destruct k.
    + by destruct k.
    + by destruct k.
    + apply elem_of_app. right. by constructor.
    + exists [CFire k; CRun n; CRun m], t'. split_and!; [done | simpl; lia | | done].
      cbn [client_run] in *. rewrite E1. exact Hr.
  - destruct (fired_to_done k t Hc Hd Hk Ha) as (n & m & t' & Hr & Hd').
    exists [CRun n; CRun m], t'. split_and!; [done | simpl; lia | done | done].
  - destruct (spinning_to_done k t Hc Hk Ha) as (n & t' & Hr & Hd').
    exists [CRun n], t'. split_and!; [done | simpl; lia | | done]. cbn [client_run]. by rewrite Hr.
Qed.

(** ** Retransmission intervals *)

(** Timer A of a non-INVITE transaction over an unreliable transport. *)
Definition timer_a_bounded (t : clientTx) : Prop :=
  IsInvite (c_origin t) = false -> c_reliable t = false -> c_done t = false ->
  (T1 <= timer_a_time t <= T2)%Z /\ forall tm, timer_a t = Some tm -> dur tm = timer_a_time t.

Lemma timer_a_frames t :
  (timer_a_time (passUp e t) = timer_a_time t /\ timer_a (passUp e t) = timer_a t) /\
  (timer_a_time (resend e t) = timer_a_time t /\ timer_a (resend e t) = timer_a t).
Proof using. split_and!; effect. Qed.

Lemma Spin_timer_a i t : timer_a_bounded t -> timer_a_bounded (fst (Spin spin e i t)).
Proof using FsmSpin0.
  intros Ht Hi Hr Hd. destruct (Spin_closed _ closed_keeps i t) as (Ho & Hre & Hdm).
  rewrite Ho in Hi. rewrite Hre in Hr.
  assert (c_done t = false) as Hd0.
  { destruct (c_done t); [| done]. destruct Hdm as (Hd1 & _); [done | congruence]. }
  destruct (Ht Hi Hr Hd0) as [Hb Hdur]. clear Ht Ho Hre Hdm. revert Hd.
  destruct (timer_a_frames t) as [[Hp1 Hp2] _].
  spin_cases i t; try discriminate Hi; cbn [set_c_fsm c_done timer_a_time timer_a]; intros Hd;
    try (by rewrite delete_done in Hd); try done.
  all: rewrite ?(seq_frame timer_a_time) by (intros; first [done | apply timer_a_frames]).
  all: rewrite ?Hp1; cbn beta.
  all: try (split; [done |]; intros tm; rewrite ?(seq_frame timer_a _ start_timer_d),
    ?(seq_frame timer_a _ stop_timer_b) by done; unfold seq; destruct (c_crashed _);
    [rewrite Hp2; apply Hdur | done]).
  all: rewrite (seq_frame timer_a) by (intros; apply timer_a_frames); cbn beta.
  all: set (d := if (T2 <? _)%Z then _ else _).
  all: assert (T1 <= d <= T2)%Z as Hd' by (by apply double_bounded).
  all: unfold reset_timer_a, AfterFunc; cbn; destruct (timer_a t) eqn:Ea; cbn; split; try done.
  all: intros tm; rewrite ?Ea; by intros [= <-].
Qed.

Lemma preserved_timer_a : preserved (fun _ => True) timer_a_bounded.
Proof using FsmSpin0.
  split; intros; try (apply Spin_timer_a; done); try done.
  - intros Hi Hr Hd. by rewrite delete_done in Hd.
  - intros Hi Hr Hd. destruct (H0 ltac:(by destruct k) ltac:(by destruct k) ltac:(by destruct k)) as [Hb Ha].
    destruct k; try done. cbn in *. split; [done |]. intros tm Htm.
    destruct (timer_a t) as [tm'|] eqn:E; [| done]. injection Htm as <-. cbn. by apply (Ha tm').
Qed.

(** ** A transaction that no timer ends *)

(** An INVITE transaction in Accepted without timer M. *)
Definition orphan (t : clientTx) : Prop :=
  IsInvite (c_origin t) = true /\ c_fsm t = client_state_accepted /\ c_done t = false /\
  timer_m t = None /\ Forall (fun x => task_input x <> client_input_timer_m) (c_tasks t).

Lemma orphan_frames t :
  c_done (passUp e t) = c_done t /\ timer_m (passUp e t) = timer_m t /\
  (forall x, c_done (send_err x t) = c_done t /\ timer_m (send_err x t) = timer_m t).
Proof using. split_and!; intros; split_and?; effect. Qed.

Lemma Spin_orphan i t : i <> client_input_timer_m -> orphan t -> orphan (fst (Spin spin e i t)).
Proof using FsmSpin0.
  intros Hi (Ho & Hf & Hd & Hm & Ht).
  destruct (Spin_closed _ closed_keeps i t) as (Ho' & _ & _).
  destruct (Spin_closed _ closed_more_tasks i t) as (l & Hl & Hal).
  split; [by rewrite Ho' |]. clear Ho'.
  assert (Forall (fun x => task_input x <> client_input_timer_m) (c_tasks (fst (Spin spin e i t)))) as Htt.
  { rewrite Hl. apply Forall_app. split; [done |]. eapply Forall_impl; [exact Hal |]. by intros ? ->. }
  clear Hl. revert Htt. destruct (orphan_frames t) as (F1 & F2 & F3).
  spin_cases i t; try congruence; intros Htt; split; try done; cbn [set_c_fsm c_done timer_m];
    rewrite ?seq_frame by done; unfold transportErr; rewrite ?F1, ?F2;
    try (destruct (F3 (TxTransportError (c_lastErr t))) as [-> ->]); done.
Qed.

Lemma preserved_orphan : preserved (fun ev => ev <> CTerminate) orphan.
Proof using FsmSpin0.
  split.
  - intros r t _ _ _ H. apply Spin_orphan; [| done]. unfold response_input.
    by destruct (IsProvisional r), (IsSuccess r).
  - intros i t _ Hi H. apply Spin_orphan; [| done]. by destruct Hi as [-> | ->].
  - done.
  - intros k t Hk (Ho & Hf & Hd & Hm & Ht). destruct k; cbn in *; try (by rewrite Hm in Hk);
      (split_and!; try done; apply Forall_app; split; [done |]; by constructor).
  - intros i t l1 l2 Hl Hd' (_ & _ & Hd & _). congruence.
  - intros i t l1 l2 Hl _ (Ho & Hf & Hd & Hm & Ht). split_and!; try done. cbn.
    rewrite Hl in Ht. apply Forall_app in Ht as [? [? ?]%Forall_cons].
    apply Forall_app; split; [by apply Forall_app | by constructor].
  - intros i t l1 l2 _ Hl _ (Ho & Hf & Hd & Hm & Ht).
    rewrite Hl in Ht. apply Forall_app in Ht as [? [? ?]%Forall_cons].
    apply Spin_orphan; [done |]. split_and!; try done. cbn. by apply Forall_app.
Qed.

(** ** Transactions that never panic *)

(** The ACK of a response can be built. *)
Definition ackable (origin : request) (r : response) : Prop :=
  forall u rnd, is_ok (NewAckRequest u [] rnd origin r []) = true.

Definition cancelable (origin : request) : Prop :=
  forall u, is_ok (NewCancelRequest u [] origin) = true.

(** A running transaction whose CANCEL, or whose CANCEL and ACK, can be built. *)
Definition live (t : clientTx) : Prop :=
  c_done t = false /\ c_crashed t = false /\ cancelable (c_origin t).

Definition live_final (t : clientTx) : Prop :=
  live t /\ exists r, c_lastResp t = Some r /\ ackable (c_origin t) r.

Lemma seq_pres (P : clientTx -> Prop) f g :
  (forall t, P t -> P (f t)) -> (forall t, P t -> P (g t)) -> forall t, P t -> P ((f >> g) t).
Proof using. intros Hf Hg t Hp. unfold seq. destruct (c_crashed (f t)); auto. Qed.

Lemma live_passUp t : live t -> live (passUp e t).
Proof using.
  intros (Hd & Hc & Hca). unfold passUp. destruct (c_lastResp t); [rewrite Hd |]; done.
Qed.

Lemma live_cancel t : live t -> live (cancel e t).
Proof using.
  intros (Hd & Hc & Hca). unfold cancel. destruct (IsInvite _); [| done].
  pose proof (Hca (e_uuid e (length (c_sent t)))) as Hk. cbn.
  destruct (NewCancelRequest _ _ _) as [c| |] eqn:E; try done. unfold Send. cbn.
  by destruct (e_send e _ _).
Qed.

Lemma live_resend t : live t -> live (resend e t).
Proof using.
  intros (Hd & Hc & Hca). unfold resend. rewrite Hd. unfold Send. cbn. by destruct (e_send e _ _).
Qed.

Lemma live_final_ack t : live_final t -> live_final (ack e t).
Proof using.
  intros ((Hd & Hc & Hca) & r & Hr & Ha). unfold ack. rewrite Hr.
  pose proof (Ha (e_uuid e (length (c_sent t))) (e_rnd e (length (c_sent t)))) as Hk.
  destruct (NewAckRequest _ _ _ _ _ _); try done. unfold Send. cbn.
  destruct (e_send e _ _); (split; [done | by exists r]).
Qed.

Lemma live_final_passUp t : live_final t -> live_final (passUp e t).
Proof using.
  intros (Hl & r & Hr & Ha). unfold passUp. rewrite Hr. destruct Hl as (Hd & Hc). rewrite Hd.
  split; [done | by exists r].
Qed.

(** Timer A: over a reliable transport it is never set; an INVITE transaction
    keeps it as long as it is in Calling. *)
Definition timer_a_safe (t : clientTx) : Prop :=
  (c_reliable t = true /\ timer_a t = None /\
   Forall (fun x => task_input x <> client_input_timer_a) (c_tasks t)) \/
  (IsInvite (c_origin t) = true /\ (c_fsm t = client_state_calling -> timer_a t <> None)).

Definition safe (t : clientTx) : Prop :=
  c_crashed t = false /\ (c_done t = true -> c_fsm t = client_state_terminated) /\
  cancelable (c_origin t) /\ (forall r, c_lastResp t = Some r -> ackable (c_origin t) r) /\
  timer_a_safe t.

Lemma timer_a_safe_frame t t' :
  keeps t t' -> more_tasks t t' ->
  (timer_a t' = timer_a t \/ timer_a t' = None /\ c_fsm t' <> client_state_calling) ->
  (c_fsm t' = client_state_calling -> c_fsm t = client_state_calling) ->
  timer_a_safe t -> timer_a_safe t'.
Proof using.
  intros (Ho & Hr & _) (l & Hl & Hal) Ha Hf [(H1 & H2 & H3)|[H1 H2]].
  - left. rewrite Hr, Hl. split_and!; [done | by destruct Ha as [-> | [-> _]] |].
    apply Forall_app. split; [done |]. eapply Forall_impl; [exact Hal |]. by intros ? ->.
  - right. rewrite Ho. split; [done |]. intros Hc. destruct Ha as [-> | [_ ?]]; auto.
Qed.

Lemma closed_lastResp : closed (fun t t' => c_lastResp t' = c_lastResp t).
Proof using. split; try done; intros; [congruence | effect..]. Qed.

Lemma timer_a_kept t :
  timer_a (passUp e t) = timer_a t /\ timer_a (cancel e t) = timer_a t /\
  timer_a (ack e t) = timer_a t.
Proof using. split_and!; effect. Qed.

(** What one chain of the machine does to timer A, by the kind of its action. *)
Lemma timer_a_stopped f t :
  timer_a (f t) = timer_a t ->
  timer_a ((f >> stop_timer_a) t) = timer_a t \/ timer_a ((f >> stop_timer_a) t) = None.
Proof using. intros H. unfold seq. destruct (c_crashed (f t)); [by left | by right]. Qed.

Lemma delete_crashed t : c_crashed (delete t) = c_crashed t.
Proof using. effect. Qed.

Lemma err_crashed t :
  c_crashed ((timeoutErr >> stop_timer_a) t) = c_crashed t /\
  c_crashed ((transportErr >> stop_timer_a) t) = c_crashed t.
Proof using. rewrite !seq_frame by done. unfold timeoutErr, transportErr. split; effect. Qed.

Lemma live_err t : live t -> live ((transportErr >> stop_timer_a) t).
Proof using.
  revert t. apply seq_pres; [| done]. intros t (Hd & H). unfold transportErr, send_err. by rewrite Hd.
Qed.

Lemma resend_timer_a d t :
  timer_a t <> None ->
  timer_a (((fun t => reset_timer_a (set_timer_a_time (d t) t)) >> resend e) t) <> None.
Proof using.
  intros Ha. rewrite (seq_frame timer_a) by (intros; apply timer_a_frames).
  unfold reset_timer_a. cbn. by destruct (timer_a t).
Qed.

Lemma invite_resend_live d t :
  live t -> timer_a t <> None ->
  live (((fun t => reset_timer_a (set_timer_a_time (d t) t)) >> resend e) t).
Proof using.
  intros Hl Ha. destruct (timer_a t) as [tm|] eqn:E; [| done].
  unfold seq, reset_timer_a. cbn. rewrite E. cbn. destruct (c_crashed t) eqn:Ec; [by destruct Hl as (_ & ? & _); congruence |].
  by apply live_resend.
Qed.

(** The sequences of the table that keep a transaction running. *)
Lemma live_chains t :
  live t ->
  live ((passUp e >> stop_timer_a) t) /\ live ((passUp e >> stop_timer_a >> stop_timer_b) t) /\
  live ((passUp e >> stop_timer_a >> stop_timer_b >> set_timer_m (AfterFunc Timer_M)) t) /\
  live ((passUp e >> stop_timer_a >> stop_timer_b >> start_timer_d) t) /\
  live ((cancel e >> set_timer_b (AfterFunc Timer_B)) t).
Proof using.
  intros H. split_and!; revert t H; repeat (apply seq_pres; [| done]);
    first [apply live_passUp | apply live_cancel].
Qed.

Lemma live_final_chain t :
  live_final t -> live ((ack e >> passUp e >> stop_timer_a >> stop_timer_b >> start_timer_d) t).
Proof using.
  intros H. apply proj1 with (B := exists r, c_lastResp
    ((ack e >> passUp e >> stop_timer_a >> stop_timer_b >> start_timer_d) t) = Some r /\
    ackable (c_origin ((ack e >> passUp e >> stop_timer_a >> stop_timer_b >> start_timer_d) t)) r).
  change (live_final ((ack e >> passUp e >> stop_timer_a >> stop_timer_b >> start_timer_d) t)).
  revert t H. repeat (apply seq_pres; [| first [done | apply live_final_passUp]]). apply live_final_ack.
Qed.

Lemma Spin_no_panic i t :
  safe t -> (i = client_input_timer_a ->
               IsInvite (c_origin t) = true /\ (c_fsm t = client_state_calling -> timer_a t <> None)) ->
  (i = client_input_2xx \/ i = client_input_300_plus -> c_lastResp t <> None) ->
  c_crashed (fst (Spin spin e i t)) = false /\
  (c_done (fst (Spin spin e i t)) = true -> c_fsm (fst (Spin spin e i t)) = client_state_terminated).
Proof using FsmSpin0.
  intros (Hc & Hd & Hca & Hak & _) Hia Hir.
  assert (c_fsm t <> client_state_terminated -> live t) as Hlive.
  { intros H. split; [| done]. destruct (c_done t); [by destruct H; apply Hd | done]. }
  assert (c_fsm t <> client_state_terminated -> c_lastResp t <> None -> live_final t) as Hfin.
  { intros H Hr. split; [by apply Hlive |]. destruct (c_lastResp t) as [r|] eqn:E; [| done].
    exists r. split; [done | by apply Hak]. }
  assert (forall x, live x -> c_crashed x = false /\ (c_done x = true -> forall c, c = client_state_terminated))
    as Hdone by (intros x (H1 & H2 & _); split; [done | intros; congruence]).
  spin_cases i t; cbn [set_c_fsm c_crashed c_done c_fsm];
    first
      [ by split
      | rewrite delete_crashed; by split
      | rewrite delete_crashed, (proj1 (err_crashed t)); by split
      | rewrite delete_crashed, (proj2 (err_crashed t)); by split
      | by destruct (Hia eq_refl)
      | specialize (Hlive ltac:(discriminate)); specialize (Hfin ltac:(discriminate));
        match goal with
        | |- c_crashed ?x = _ /\ _ =>
            enough (live x) as Hx by (destruct (Hdone x Hx) as [? H']; split; [done | intros; by apply H'])
        end;
        first [ apply live_chains; exact Hlive
              | apply live_final_chain, Hfin; auto
              | apply live_cancel; exact Hlive
              | apply live_final_ack, Hfin; auto
              | apply live_err; exact Hlive
              | apply (invite_resend_live _ t Hlive); apply Hia; done ] ].
Qed.

(** The sequences of the table keep timer A or stop it. *)
Lemma timer_a_chains t :
  let kept f := timer_a (f t) = timer_a t \/ timer_a (f t) = None in
  kept (passUp e >> stop_timer_a) /\ kept (passUp e >> stop_timer_a >> stop_timer_b) /\
  kept (passUp e >> stop_timer_a >> stop_timer_b >> set_timer_m (AfterFunc Timer_M)) /\
  kept (passUp e >> stop_timer_a >> stop_timer_b >> start_timer_d) /\
  kept (ack e >> passUp e >> stop_timer_a >> stop_timer_b >> start_timer_d) /\
  kept (timeoutErr >> stop_timer_a) /\ kept (transportErr >> stop_timer_a).
Proof using.
  cbv beta zeta. rewrite !(seq_frame timer_a _ start_timer_d), !(seq_frame timer_a _ (set_timer_m _)),
    !(seq_frame timer_a _ stop_timer_b) by done.
  split_and!; apply timer_a_stopped; rewrite ?(seq_frame timer_a) by (intros; apply timer_a_kept);
    first [apply timer_a_kept | unfold timeoutErr, transportErr; effect].
Qed.

Lemma Spin_timer_a_safe i t :
  timer_a_safe t ->
  (i = client_input_timer_a ->
     IsInvite (c_origin t) = true /\ (c_fsm t = client_state_calling -> timer_a t <> None)) ->
  timer_a_safe (fst (Spin spin e i t)).
Proof using FsmSpin0.
  intros Ha Hia. pose proof (Spin_closed _ closed_keeps i t) as Hk.
  pose proof (Spin_closed _ closed_more_tasks i t) as Hm.
  assert (forall x, timer_a (delete x) = timer_a x \/ timer_a (delete x) = None) as Hdel
    by (intros x; unfold delete; destruct (c_done x); auto).
  assert (forall f, timer_a (f t) = timer_a t \/ timer_a (f t) = None ->
            timer_a (delete (f t)) = timer_a t \/ timer_a (delete (f t)) = None) as Hdel'
    by (intros f [H|H]; destruct (Hdel (f t)) as [-> | ->]; auto).
  destruct (timer_a_chains t) as (C1 & C2 & C3 & C4 & C5 & C6 & C7).
  pose proof (Hdel t) as D0. pose proof (Hdel' _ C6) as D1. pose proof (Hdel' _ C7) as D2.
  clear Hdel Hdel'.
  destruct (timer_a_kept t) as (_ & K1 & K2). revert Hk Hm.
  spin_cases i t; intros Hk Hm; try (by destruct (Hia eq_refl));
    first
      [ eapply (timer_a_safe_frame t); [exact Hk | exact Hm | | | exact Ha];
        cbn [set_c_fsm timer_a c_fsm]; [| congruence];
        rewrite ?(seq_frame timer_a _ (set_timer_b _)) by done;
        first
          [ by left
          | match goal with
            | H : ?a = _ \/ ?a = None |- ?a = _ \/ _ =>
                destruct H as [H|H]; [by left | right; split; [exact H | discriminate]]
            end ]
      | right; split; [rewrite (proj1 Hk); assumption |]; cbn [set_c_fsm c_fsm timer_a];
        intros _; apply resend_timer_a; by apply Hia ].
Qed.

Lemma Spin_safe i t :
  safe t -> (i = client_input_timer_a ->
               IsInvite (c_origin t) = true /\ (c_fsm t = client_state_calling -> timer_a t <> None)) ->
  (i = client_input_2xx \/ i = client_input_300_plus -> c_lastResp t <> None) ->
  safe (fst (Spin spin e i t)).
Proof using FsmSpin0.
  intros Hs Hia Hir. destruct (Spin_no_panic i t Hs Hia Hir) as [H1 H2].
  destruct Hs as (Hc & Hd & Hca & Hak & Ha).
  destruct (Spin_closed _ closed_keeps i t) as (Ho & _).
  pose proof (Spin_closed _ closed_lastResp i t) as Hl. cbn beta in Hl.
  unfold safe. rewrite Ho, Hl. split_and!; try done. by apply Spin_timer_a_safe.
Qed.

(** The layer delivers responses whose ACK can be built, and nobody
    terminates the transaction from outside. *)
Definition orderly (origin : request) (ev : client_event) : Prop :=
  match ev with
  | CTerminate => False
  | CReceive (MResponse r) => ackable origin r
  | _ => True
  end.

Lemma preserved_safe origin :
  preserved (orderly origin) (fun t => safe t /\ c_origin t = origin).
Proof using FsmSpin0.
  assert (forall i t, c_origin (fst (Spin spin e i t)) = c_origin t) as Ho
    by (intros i t; apply (Spin_closed _ closed_keeps i t)).
  split.
  - intros r t Hc Ha Hr [(Hs1 & Hs2 & Hs3 & Hs4 & Hs5) <-]. split; [| by rewrite Ho].
    apply Spin_safe; [| | done].
    + split_and!; try done. by intros r' [= <-].
    + unfold response_input. by destruct (IsProvisional r), (IsSuccess r).
  - intros i t Hc Hi Hs. split; [| by rewrite Ho; destruct Hs].
    destruct Hs as [Hs _]. apply Spin_safe; [apply Hs | |]; destruct Hi as [-> | ->]; try done; by intros [?|?].
  - done.
  - intros k t Hk [(Hs1 & Hs2 & Hs3 & Hs4 & Hs5) <-]. split; [| by destruct k].
    split_and!; try (by destruct k). unfold timer_a_safe in *.
    destruct Hs5 as [(H1 & H2 & H3)|[H1 H2]].
    + left. destruct k; cbn in *; try (by rewrite H2 in Hk); (split_and!; [done.. |];
        apply Forall_app; split; [done | by constructor]).
    + right. destruct k; cbn in *; (split; [done |]); intros Hf; try (by apply H2).
      by destruct (timer_a t).
  - intros i t l1 l2 Hl Hd [(Hs1 & Hs2 & Hs3 & Hs4 & Hs5) <-]. split; [| done].
    split_and!; try done. destruct Hs5 as [(H1 & H2 & H3)|[H1 H2]]; [left | by right].
    split_and!; try done. cbn. rewrite Hl in H3.
    apply Forall_app in H3 as [? [? ?]%Forall_cons]. by apply Forall_app.
  - intros i t l1 l2 Hl Hd [(Hs1 & Hs2 & Hs3 & Hs4 & Hs5) <-]. split; [| done].
    split_and!; try done. destruct Hs5 as [(H1 & H2 & H3)|[H1 H2]]; [left | by right].
    split_and!; try done. cbn. rewrite Hl in H3.
    apply Forall_app in H3 as [? [? ?]%Forall_cons].
    apply Forall_app; split; [by apply Forall_app | by constructor].
  - intros i t l1 l2 Hc Hl Hi [(Hs1 & Hs2 & Hs3 & Hs4 & Hs5) <-].
    assert (safe (set_c_tasks (l1 ++ l2) t) /\ (i = client_input_timer_a ->
      IsInvite (c_origin t) = true /\ (c_fsm t = client_state_calling -> timer_a t <> None))) as [Hsafe Hia].
    { destruct Hs5 as [(H1 & H2 & H3)|[H1 H2]].
      - rewrite Hl in H3. apply Forall_app in H3 as [? [? ?]%Forall_cons]. split; [| done].
        split_and!; try done. left. split_and!; try done. by apply Forall_app.
      - split; [| done]. split_and!; try done. by right. }
    split; [apply Spin_safe; [done | done |] | by rewrite Ho].
    intros [-> | ->]; done.
Qed.

(** ** More invariants *)

(** Without [Terminate] a transaction is done in the terminated state only. *)
Definition done_term (t : clientTx) : Prop :=
  c_done t = true -> c_fsm t = client_state_terminated.

Lemma done_frames t :
  c_done (passUp e t) = c_done t /\ c_done (ack e t) = c_done t /\ c_done (cancel e t) = c_done t /\
  c_done (resend e t) = c_done t /\ c_done (reset_timer_a t) = c_done t /\
  (forall x, c_done (send_err x t) = c_done t).
Proof using. split_and!; intros; effect. Qed.

Lemma Spin_done_term i t : done_term t -> done_term (fst (Spin spin e i t)).
Proof using FsmSpin0.
  intros Ht. unfold done_term in *. destruct (done_frames t) as (F1 & F2 & F3 & F4 & F5 & F6).
  spin_cases i t; cbn [set_c_fsm c_done c_fsm]; try done; intros Hd;
    rewrite ?(seq_frame c_done) in Hd by (intros; first [done | apply done_frames]); cbn beta in Hd;
    unfold timeoutErr, transportErr in Hd; rewrite ?F1, ?F2, ?F3, ?F4, ?F6 in Hd;
    try (rewrite (proj1 (proj2 (proj2 (proj2 (proj2 (done_frames _)))))) in Hd);
    specialize (Ht Hd); discriminate Ht.
Qed.

Lemma preserved_done_term : preserved (fun ev => ev <> CTerminate) done_term.
Proof using FsmSpin0.
  split; intros; try (by apply Spin_done_term); try (destruct k); done.
Qed.

(** Timer M starts when a 2xx is the first response to an INVITE, and non-INVITE
    transactions have no Accepted state. *)
Definition early (c : client_state) : bool :=
  match c with client_state_calling | client_state_proceeding => true | _ => false end.

Definition no_timer_m (t : clientTx) : Prop :=
  (early (c_fsm t) = true -> timer_m t = None /\
     Forall (fun x => task_input x <> client_input_timer_m) (c_tasks t)) /\
  (IsInvite (c_origin t) = false -> c_fsm t <> client_state_accepted).

Lemma timer_m_frames t :
  timer_m (passUp e t) = timer_m t /\ timer_m (ack e t) = timer_m t /\ timer_m (cancel e t) = timer_m t /\
  timer_m (resend e t) = timer_m t /\ (forall d, timer_m (reset_timer_a (set_timer_a_time d t)) = timer_m t).
Proof using. split_and!; intros; effect. Qed.

Lemma Spin_no_timer_m i t : no_timer_m t -> no_timer_m (fst (Spin spin e i t)).
Proof using FsmSpin0.
  intros [H1 H2]. destruct (Spin_closed _ closed_keeps i t) as (Ho & _ & _).
  destruct (Spin_closed _ closed_more_tasks i t) as (l & Hl & Hal).
  unfold no_timer_m. rewrite Ho, Hl.
  assert (early (c_fsm t) = true ->
          Forall (fun x => task_input x <> client_input_timer_m) (c_tasks t ++ l)) as Ht.
  { intros Hc. apply Forall_app. split; [by apply H1 |]. eapply Forall_impl; [exact Hal |]. by intros ? ->. }
  clear Ho Hl. destruct (timer_m_frames t) as (F1 & F2 & F3 & F4 & F5). revert Ht.
  spin_cases i t; intros Ht; cbn [set_c_fsm timer_m c_fsm early] in *; split; intros Hc; try done; try congruence;
    try (by destruct (H2 Hc)); (split; [| by apply Ht]);
    rewrite ?(seq_frame timer_m) by (intros; first [done | apply timer_m_frames]);
    rewrite ?F1, ?F3; cbn beta; rewrite ?F5; by apply H1.
Qed.

Lemma preserved_no_timer_m : preserved (fun _ => True) no_timer_m.
Proof using FsmSpin0.
  split; intros; try (by apply Spin_no_timer_m).
  - unfold delete. by rewrite H1.
  - destruct H0 as [H1 H2]. split; [| by destruct k]. intros Hc.
    assert (early (c_fsm t) = true) as Hc' by (by destruct k). destruct (H1 Hc') as [Hm Ht].
    destruct k; cbn in *; try (by rewrite Hm in H); (split; [done |]; apply Forall_app; split; [done |];
      by constructor).
  - destruct H1 as [H1 H2]. split; [| done]. intros Hc. destruct (H1 Hc) as [Hm Ht]. split; [done |].
    cbn. rewrite H in Ht. apply Forall_app in Ht as [? [? ?]%Forall_cons]. by apply Forall_app.
  - destruct H1 as [H1 H2]. split; [| done]. intros Hc. destruct (H1 Hc) as [Hm Ht]. split; [done |].
    cbn. rewrite H in Ht. apply Forall_app in Ht as [? [? ?]%Forall_cons].
    apply Forall_app; split; [by apply Forall_app | by constructor].
  - apply Spin_no_timer_m. destruct H2 as [H3 H4]. split; [| done]. intros Hc.
    destruct (H3 Hc) as [Hm Ht]. split; [done |]. cbn. rewrite H0 in Ht.
    apply Forall_app in Ht as [? [? ?]%Forall_cons]. by apply Forall_app.
Qed.

(** Timer A's callback after the timer was stopped. *)
Lemma timer_a_race t n l :
  IsInvite (c_origin t) = false -> c_fsm t = client_state_proceeding -> timer_a t = None ->
  c_crashed t = false -> pick_task n (c_tasks t) = Some (Spinning client_input_timer_a, l) ->
  exists t', client_step spin e (CRun n) t = Some t' /\ c_crashed t' = true.
Proof using FsmSpin0.
  intros Hi Hf Ha Hc Hp. unfold client_step. rewrite Hc, Hp. eexists. split; [reflexivity |].
  cbn [run_task]. set (x := set_c_tasks l t).
  assert (c_origin x = c_origin t /\ c_fsm x = c_fsm t /\ timer_a x = timer_a t) as (E1 & E2 & E3) by done.
  clearbody x. destruct (Spin_run client_input_timer_a x) as (c & t1 & ok & Hrun & ->).
  unfold client_fsm in Hrun. rewrite E1, E2, Hi, Hf in Hrun. unfold max_chain in Hrun.
  cbn [run non_invite_fsm act_non_invite_resend no_input] in Hrun. injection Hrun as <- <- <-.
  unfold seq, reset_timer_a. cbn [set_timer_a_time timer_a fst set_c_fsm c_crashed]. by rewrite E3, Ha.
Qed.

(** ** Runs *)

Lemma creach_weaken (P Q : client_event -> Prop) t0 t :
  (forall ev, P ev -> Q ev) -> creach spin e P t0 t -> creach spin e Q t0 t.
Proof using. intros H. induction 1; econstructor; eauto. Qed.

(** The state after a run of events. *)
Definition after (evs : list client_event) (t : clientTx) : clientTx :=
  default t (client_run spin e evs t).

Lemma run_reach allowed t0 t evs t' :
  creach spin e allowed t0 t -> Forall allowed evs -> client_run spin e evs t = Some t' ->
  creach spin e allowed t0 t'.
Proof using.
  revert t. induction evs as [|ev evs IH]; intros t Hr Ha H; [by injection H as <- |].
  apply Forall_cons in Ha as [Ha1 Ha2]. apply bind_Some in H as (t1 & H1 & H2).
  apply (IH t1); [by eapply creach_step | done | done].
Qed.

Lemma after_reach allowed evs t : Forall allowed evs -> creach spin e allowed t (after evs t).
Proof using.
  intros Ha. unfold after. destruct (client_run spin e evs t) as [t'|] eqn:E; [| constructor].
  eapply run_reach; [constructor | exact Ha | exact E].
Qed.

(** A finished transaction hands nothing more to the user. *)
Definition silent (t t' : clientTx) : Prop :=
  c_done t' = true /\ c_responses t' = c_responses t /\ c_errs t' = c_errs t.

Lemma keeps_silent i t : c_done t = true -> silent t (fst (Spin spin e i t)).
Proof using FsmSpin0. intros Hd. by apply (Spin_closed _ closed_keeps i t). Qed.

Lemma step_silent ev t t' : c_done t = true -> client_step spin e ev t = Some t' -> silent t t'.
Proof using FsmSpin0.
  intros Hd Hs. unfold client_step in Hs. destruct (c_crashed t); [done |].
  destruct ev as [m | | | k | n].
  - simplify_eq. unfold Receive. destruct m as [q|r]; [done |].
    destruct (response_IsCancel r); [by apply keeps_silent |].
    apply (keeps_silent _ (set_c_lastResp (Some r) t)). done.
  - simplify_eq. by apply keeps_silent.
  - simplify_eq. unfold Terminate. by rewrite Hd.
  - destruct (is_armed _); simplify_eq. by destruct k.
  - apply bind_Some in Hs as ([x rest] & _ & [= <-]). destruct x as [i|i]; cbn [run_task].
    + cbn [set_c_tasks c_done]. by rewrite Hd.
    + by apply (keeps_silent i (set_c_tasks rest t)).
Qed.

Lemma run_silent evs t t' : c_done t = true -> client_run spin e evs t = Some t' -> silent t t'.
Proof using FsmSpin0.
  revert t. induction evs as [|ev evs IH]; intros t Hd H; [by injection H as <- |].
  apply bind_Some in H as (t1 & H1 & H2). destruct (step_silent _ _ _ Hd H1) as (D1 & R1 & E1).
  destruct (IH _ D1 H2) as (D2 & R2 & E2). split_and!; congruence.
Qed.

(** A 2xx in Proceeding enters Accepted and starts timer D, not timer M. *)
Lemma proceeding_accept r t :
  IsInvite (c_origin t) = true -> c_fsm t = client_state_proceeding -> no_timer_m t ->
  c_done t = false -> response_IsCancel r = false -> IsSuccess r = true ->
  orphan (fst (Receive spin e (MResponse r) t)).
Proof using FsmSpin0.
  intros Hi Hf [Hm _] Hd Hr Hs. unfold Receive. rewrite Hr.
  assert (response_input r = client_input_2xx) as ->.
  { unfold response_input, IsProvisional. rewrite Hs. unfold IsSuccess in Hs. simp_bool.
    apply N.leb_le in H. by rewrite (proj2 (N.ltb_ge _ _)). }
  set (x := set_c_lastResp (Some r) t).
  assert (c_origin x = c_origin t /\ c_fsm x = c_fsm t /\ c_done x = c_done t /\ timer_m x = timer_m t /\
          c_tasks x = c_tasks t) as (E1 & E2 & E3 & E4 & E5) by done. clearbody x.
  destruct (Spin_closed _ closed_keeps client_input_2xx x) as (Ho & _ & _).
  destruct (Spin_closed _ closed_more_tasks client_input_2xx x) as (l & Hl & Hal).
  rewrite Hf in Hm. destruct (Hm eq_refl) as [Hm' Ht]. unfold orphan. rewrite Ho, Hl, E1.
  destruct (Spin_run client_input_2xx x) as (c & t1 & ok & Hrun & ->).
  unfold client_fsm in Hrun. rewrite E1, E2, Hi, Hf in Hrun. cbn in Hrun. injection Hrun as <- <- <-.
  cbn [fst set_c_fsm c_fsm c_done timer_m].
  rewrite !(seq_frame c_done), !(seq_frame timer_m) by (intros; first [done | apply done_frames | apply timer_m_frames]).
  split_and!; try done.
  - rewrite (proj1 (proj2 (done_frames _))). congruence.
  - rewrite (proj1 (proj2 (timer_m_frames _))). congruence.
  - rewrite E5. apply Forall_app. split; [done |]. eapply Forall_impl; [exact Hal |]. by intros ? ->.
Qed.

(** ** Initialised transactions *)

(** A transaction after [NewClientTx] and [Init]. *)
Definition started (origin : request) (reliable : bool) : clientTx :=
  fst (Init spin e (new_clientTx origin reliable)).

(** The first send failed. *)
Definition unsent (origin : request) (reliable : bool) : clientTx :=
  set_c_lastErr (e_send e 0 (MRequest origin))
    (set_c_sent [MRequest origin] (new_clientTx origin reliable)).

Lemma started_cases origin reliable :
  (e_send e 0 (MRequest origin) <> None /\
   started origin reliable = fst (Spin spin e client_input_transport_err (unsent origin reliable))) \/
  (e_send e 0 (MRequest origin) = None /\
   started origin reliable =
     set_timer_b (AfterFunc Timer_B)
       (if reliable then set_timer_d_time 0 (set_c_sent [MRequest origin] (new_clientTx origin reliable))
        else set_timer_d_time Timer_D (set_timer_a (AfterFunc Timer_A) (set_timer_a_time Timer_A
               (set_c_sent [MRequest origin] (new_clientTx origin reliable)))))).
Proof using.
  unfold started, Init, unsent, Send. cbn [new_clientTx c_sent length app c_origin].
  destruct (e_send e 0 (MRequest origin)) as [err|] eqn:E; [left | right]; done.
Qed.

(** A transport error in Calling ends the transaction. *)
Lemma calling_transport_err t :
  c_fsm t = client_state_calling -> c_done t = false ->
  fst (Spin spin e client_input_transport_err t) =
  set_c_fsm client_state_terminated (delete ((transportErr >> stop_timer_a) t)).
Proof using FsmSpin0.
  intros Hf Hd. remember client_input_transport_err as i eqn:Ei.
  spin_cases i t; try discriminate; done.
Qed.

Lemma unsent_done origin reliable :
  let t := fst (Spin spin e client_input_transport_err (unsent origin reliable)) in
  c_done t = true /\ c_crashed t = false /\ c_fsm t = client_state_terminated /\
  c_tasks t = [] /\ timer_a t = None /\ c_lastResp t = None.
Proof using FsmSpin0.
  intros t. unfold t. rewrite calling_transport_err by done. by split_and!.
Qed.

Lemma started_origin origin reliable :
  c_origin (started origin reliable) = origin /\ c_reliable (started origin reliable) = reliable.
Proof using FsmSpin0.
  destruct (started_cases origin reliable) as [[_ ->]|[_ ->]]; [| by destruct reliable].
  by destruct (Spin_closed _ closed_keeps client_input_transport_err (unsent origin reliable))
    as (-> & -> & _).
Qed.

Lemma reach_origin allowed origin reliable t :
  creach spin e allowed (started origin reliable) t -> c_origin t = origin /\ c_reliable t = reliable.
Proof using FsmSpin0.
  induction 1 as [| t ev t' Hr [IH1 IH2] Ha Hs]; [apply started_origin |].
  assert (forall i x, c_origin (fst (Spin spin e i x)) = c_origin x /\
                      c_reliable (fst (Spin spin e i x)) = c_reliable x) as H
    by (intros i x; by destruct (Spin_closed _ closed_keeps i x) as (-> & -> & _)).
  unfold client_step in Hs. destruct (c_crashed t); [done |]. destruct ev as [m | | | k | n].
  - simplify_eq. unfold Receive. destruct m as [q|r]; [done |].
    destruct (response_IsCancel r); [apply H |].
    destruct (H (response_input r) (set_c_lastResp (Some r) t)) as [-> ->]. done.
  - simplify_eq. apply H.
  - simplify_eq. unfold Terminate, delete. by destruct (c_done t).
  - destruct (is_armed _); simplify_eq. by destruct k.
  - apply bind_Some in Hs as ([x rest] & _ & [= <-]). destruct x as [i|i]; cbn [run_task].
    + cbn [set_c_tasks c_done]. by destruct (c_done t).
    + destruct (H i (set_c_tasks rest t)) as [-> ->]. done.
Qed.

Lemma started_tasks origin reliable : tasks_internal (started origin reliable).
Proof using FsmSpin0.
  destruct (started_cases origin reliable) as [[_ ->]|[_ ->]].
  - by apply Spin_tasks_internal; constructor.
  - destruct reliable; by constructor.
Qed.

(** An invariant of initialised transactions. *)
Lemma reached allowed P origin reliable t :
  preserved allowed P -> P (started origin reliable) ->
  creach spin e allowed (started origin reliable) t -> P t.
Proof using FsmSpin0.
  intros HP H0 Hr. eapply (creach_inv allowed P); [done | apply started_tasks | exact H0 | exact Hr].
Qed.

Lemma started_term_done origin reliable : term_done (started origin reliable).
Proof using FsmSpin0.
  destruct (started_cases origin reliable) as [[_ ->]|[_ ->]]; [by apply Spin_term_done |].
  by destruct reliable.
Qed.

Lemma started_one_final origin reliable : one_final (started origin reliable).
Proof using FsmSpin0.
  destruct (started_cases origin reliable) as [[_ ->]|[_ ->]].
  - apply Spin_one_final; [| done]. intros _. cbn. lia.
  - intros _. destruct reliable; cbn; lia.
Qed.

Lemma started_done_term origin reliable : done_term (started origin reliable).
Proof using FsmSpin0.
  destruct (started_cases origin reliable) as [[_ ->]|[_ ->]]; [by apply Spin_done_term |].
  by destruct reliable.
Qed.

Lemma started_no_timer_m origin reliable : no_timer_m (started origin reliable).
Proof using FsmSpin0.
  destruct (started_cases origin reliable) as [[_ ->]|[_ ->]]; [by apply Spin_no_timer_m |].
  by destruct reliable; split.
Qed.

Lemma started_guarded origin reliable : guarded (started origin reliable).
Proof using FsmSpin0.
  destruct (started_cases origin reliable) as [[_ ->]|[_ ->]].
  - intros _ Hd. destruct (unsent_done origin reliable) as [? _]. congruence.
  - intros _ _ k. destruct reliable; cbn; destruct (IsInvite origin); intros [= <-]; by left.
Qed.

Lemma started_timer_a origin reliable : timer_a_bounded (started origin reliable).
Proof using FsmSpin0.
  destruct (started_cases origin reliable) as [[_ ->]|[_ ->]].
  - intros _ _ Hd. destruct (unsent_done origin reliable) as [? _]. congruence.
  - intros _ Hr _. destruct reliable; [done |].
    cbn [set_timer_b set_timer_d_time set_timer_a set_timer_a_time timer_a_time timer_a AfterFunc].
    split; [unfold Timer_A, T1, T2, Second, Millisecond; lia |]. by intros tm [= <-].
Qed.

Lemma started_safe origin reliable :
  cancelable origin -> IsInvite origin = true \/ reliable = true -> safe (started origin reliable).
Proof using FsmSpin0.
  intros Hca Hor. destruct (started_origin origin reliable) as [Ho Hr].
  unfold safe, timer_a_safe. rewrite Ho, Hr.
  destruct (started_cases origin reliable) as [[_ ->]|[_ ->]].
  - destruct (unsent_done origin reliable) as (H1 & H2 & H3 & H4 & H5 & H6).
    rewrite H2, H3, H4, H5, H6. split_and!; try done.
    destruct Hor as [-> | ->]; [by right | by left].
  - destruct reliable; cbn; split_and!; try done.
    + by left.
    + destruct Hor as [-> | ?]; [by right | done].
Qed.

(** ** The final response of an INVITE *)

(** The ACK the transaction builds for a response. *)
Definition ack_for (t : clientTx) (r : response) : res request :=
  NewAckRequest (e_uuid e (length (c_sent t))) [] (e_rnd e (length (c_sent t))) (c_origin t) r [].

Definition rejects (r : response) : bool := (300 <=? status r)%N && negb (response_IsCancel r).

Lemma rejects_input r :
  rejects r = true -> response_IsCancel r = false /\ response_input r = client_input_300_plus.
Proof using.
  unfold rejects, response_input, IsProvisional, IsSuccess. intros H. simp_bool.
  apply N.leb_le in H. split; [done |].
  rewrite (proj2 (N.ltb_ge _ _)) by lia. rewrite (proj2 (N.ltb_ge (status r) 300)) by lia.
  by rewrite andb_false_r.
Qed.

Lemma Receive_rejects r t :
  rejects r = true ->
  Receive spin e (MResponse r) t = Spin spin e client_input_300_plus (set_c_lastResp (Some r) t).
Proof using. intros H%rejects_input. unfold Receive. by destruct H as [-> ->]. Qed.

Lemma ack_facts r a t :
  ack_for t r = Ok a -> let x := ack e (set_c_lastResp (Some r) t) in
  c_sent x = c_sent t ++ [MRequest a] /\ c_responses x = c_responses t /\ c_done x = c_done t /\
  c_crashed x = c_crashed t /\ c_lastResp x = Some r /\ timer_d_time x = timer_d_time t.
Proof using.
  intros Ha x. unfold ack_for in Ha. unfold x, ack. cbn [set_c_lastResp c_lastResp c_sent c_origin].
  rewrite Ha. unfold Send, send_failed. cbn [set_c_lastResp c_sent].
  destruct (e_send e _ _); cbn; by split_and!.
Qed.

Lemma seq_ok f g t : c_crashed (f t) = false -> (f >> g) t = g (f t).
Proof using. unfold seq. by intros ->. Qed.

Lemma first_rejection r a t :
  IsInvite (c_origin t) = true ->
  c_fsm t = client_state_calling \/ c_fsm t = client_state_proceeding ->
  c_done t = false -> c_crashed t = false -> rejects r = true -> ack_for t r = Ok a ->
  let t' := fst (Receive spin e (MResponse r) t) in
  c_fsm t' = client_state_completed /\ c_sent t' = c_sent t ++ [MRequest a] /\
  c_responses t' = c_responses t ++ [r] /\ timer_a t' = None /\ timer_b t' = None /\
  timer_d t' = AfterFunc (timer_d_time t).
Proof using FsmSpin0.
  intros Hi Hf Hd Hc Hr Ha t'. unfold t'. rewrite Receive_rejects by done.
  destruct (ack_facts r a t Ha) as (H1 & H2 & H3 & H4 & H5 & H6).
  set (x := set_c_lastResp (Some r) t) in *. rewrite Hd in H3. rewrite Hc in H4.
  assert ((ack e >> passUp e) x = add_response r (ack e x)) as E1.
  { rewrite seq_ok by done. unfold passUp. by rewrite H5, H3. }
  assert ((ack e >> passUp e >> stop_timer_a >> stop_timer_b >> start_timer_d) x =
          start_timer_d (stop_timer_b (stop_timer_a (add_response r (ack e x))))) as E2.
  { assert ((ack e >> passUp e >> stop_timer_a) x = stop_timer_a (add_response r (ack e x))) as E3
      by (rewrite seq_ok; by rewrite E1).
    assert ((ack e >> passUp e >> stop_timer_a >> stop_timer_b) x =
            stop_timer_b (stop_timer_a (add_response r (ack e x)))) as E4
      by (rewrite seq_ok; by rewrite E3).
    rewrite seq_ok; by rewrite E4. }
  destruct (Spin_run client_input_300_plus x) as (c & t1 & ok & Hrun & ->).
  unfold client_fsm in Hrun. assert (c_origin x = c_origin t) as Eo by done.
  assert (c_fsm x = c_fsm t) as Ef by done. rewrite Eo, Ef, Hi in Hrun.
  destruct Hf as [Hf|Hf]; rewrite Hf in Hrun; cbn in Hrun; injection Hrun as <- <- <-;
    rewrite E2; cbn [fst set_c_fsm c_fsm c_sent c_responses timer_a timer_b timer_d start_timer_d
      stop_timer_b stop_timer_a add_response set_timer_d set_timer_b set_timer_a set_c_responses
      timer_d_time]; rewrite H1, H2, H6; by split_and!.
Qed.

Lemma next_rejection r a t :
  IsInvite (c_origin t) = true -> c_fsm t = client_state_completed ->
  rejects r = true -> ack_for t r = Ok a ->
  let t' := fst (Receive spin e (MResponse r) t) in
  c_fsm t' = client_state_completed /\ c_sent t' = c_sent t ++ [MRequest a] /\
  c_responses t' = c_responses t.
Proof using FsmSpin0.
  intros Hi Hf Hr Ha t'. unfold t'. rewrite Receive_rejects by done.
  destruct (ack_facts r a t Ha) as (H1 & H2 & _). set (x := set_c_lastResp (Some r) t) in *.
  assert (c_origin x = c_origin t) as Eo by done.
  assert (c_fsm x = c_fsm t) as Ef by done. clearbody x.
  destruct (Spin_run client_input_300_plus x) as (c & t1 & ok & Hrun & ->).
  unfold client_fsm in Hrun. rewrite Eo, Ef, Hi, Hf in Hrun.
  cbn in Hrun. injection Hrun as <- <- <-. cbn [fst set_c_fsm c_fsm c_sent c_responses].
  by rewrite H1, H2.
Qed.

End client.

End ClientInv.
