(* ===== verification/ServerInv.v ===== *)
(** * Invariants of server transactions

    What holds in every state a server transaction reaches, whatever the
    transport answers and in whatever order requests, responses of the user,
    timers and goroutines come. *)

From S2P Require Import Prelude GoStrings Escape Params Headers HeaderStore Message ParserCommon Packet TxKeys Fsm ServerTx.
From stdpp Require Import options.
Import Params Headers HeaderStore Message Packet TxKeys Fsm ServerTx.

Module ServerInv.

Section server.

Context (spin : spinner) `{!FsmSpin spin} (e : env).

(** ** Actions *)

(** What sending the last response does: nothing without one, the transport
    error, or what follows the send. *)
Lemma send_last_cases after t :
  (s_lastResp t = None /\ send_last e after t = (t, None)) \/
  exists r, s_lastResp t = Some r /\
    let t1 := set_s_lastErr (e_send e (length (s_sent t)) (MResponse r))
                (set_s_sent (s_sent t ++ [MResponse r]) t) in
    (e_send e (length (s_sent t)) (MResponse r) <> None /\
       send_last e after t = (t1, Some server_input_transport_err)) \/
    (e_send e (length (s_sent t)) (MResponse r) = None /\ send_last e after t = (after t1, None)).
Proof using.
  unfold send_last, Send, no_input. destruct (s_lastResp t) as [r|]; [right | by left].
  exists r. split; [done |]. destruct (e_send e _ _) eqn:E; cbn; rewrite ?E; [left | right]; done.
Qed.

(** The order in which inputs can follow each other in a chain. *)
Definition rank (i : server_input) : nat :=
  match i with
  | server_input_delete => 0
  | server_input_transport_err => 1
  | server_input_request => 2
  | _ => 3
  end.

Lemma send_last_next after t j :
  snd (send_last e after t) = Some j -> j = server_input_transport_err.
Proof using.
  destruct (send_last_cases after t) as [[_ ->]|(r & _ & [[_ ->]|[_ ->]])]; cbn; congruence.
Qed.

Lemma act_confirm_next t j : snd (act_confirm e t) = Some j -> j = server_input_request.
Proof using.
  unfold act_confirm, select_send, recovered, no_input. repeat case_match; cbn; congruence.
Qed.

Lemma act_cancel_next t j : snd (act_cancel e t) = Some j -> j = server_input_request.
Proof using.
  unfold act_cancel, select_send, recovered, no_input. repeat case_match; cbn; congruence.
Qed.

Lemma act_passup_ack_next t : snd (act_passup_ack e t) = None.
Proof using.
  unfold act_passup_ack, select_send, no_input. by repeat case_match.
Qed.

Lemma server_rank o c i c' act t j :
  server_fsm e o c i = Some (c', act) -> snd (act t) = Some j -> rank j < rank i.
Proof using.
  unfold server_fsm. destruct (IsInvite (s_origin o)), c, i; cbn; intros [= <- <-] Hj; cbn in Hj;
    first [ discriminate Hj
          | injection Hj as <-; cbn; lia
          | apply send_last_next in Hj as ->; cbn; lia
          | apply act_confirm_next in Hj as ->; cbn; lia
          | apply act_cancel_next in Hj as ->; cbn; lia
          | by rewrite act_passup_ack_next in Hj ].
Qed.

(** The chains of the server machines end within the bound of the law. *)
Lemma run_server t i c : exists r, run max_chain (server_fsm e t) (Some i) c t = Some r.
Proof using.
  apply (run_total _ rank); [apply server_rank |]. intros j [= <-]. unfold max_chain. destruct i; cbn; lia.
Qed.

Lemma server_Spin_run i t :
  exists c t' ok, run max_chain (server_fsm e t) (Some i) (s_fsm t) t = Some (c, t', ok) /\
                  Spin spin e i t = (set_s_fsm c t', ok).
Proof using FsmSpin0.
  destruct (run_server t i (s_fsm t)) as [[[c t'] ok] Hr]. exists c, t', ok. split; [done |].
  unfold Spin. by rewrite (spin_run _ _ _ _ _ _ _ _ Hr).
Qed.

(** The actions of the tables. *)
Inductive table_action : action server_input serverTx -> Prop :=
| ta_none : table_action NO_ACTION
| ta_respond : table_action (act_respond e)
| ta_complete : table_action (act_respond_complete e)
| ta_accept : table_action (act_respond_accept e)
| ta_final : table_action (act_final e)
| ta_confirm : table_action (act_confirm e)
| ta_cancel : table_action (act_cancel e)
| ta_passup : table_action (act_passup_ack e)
| ta_trans_err : table_action act_trans_err
| ta_delete : table_action act_delete.

Lemma server_table o c i c' act : server_fsm e o c i = Some (c', act) -> table_action act.
Proof using.
  unfold server_fsm. destruct (IsInvite (s_origin o)), c, i; cbn; intros [= <- <-]; constructor.
Qed.

(** An invariant of the coming input, the state and the data that every
    outcome keeps holds of what [Spin] returns. *)
Lemma Spin_inv (P : option server_input -> server_state -> serverTx -> Prop) i t :
  (forall c i c' act s, P (Some i) c s -> server_fsm e t c i = Some (c', act) ->
                        P (snd (act s)) c' (fst (act s))) ->
  P (Some i) (s_fsm t) t ->
  exists i' c t', fst (Spin spin e i t) = set_s_fsm c t' /\ P i' c t' /\
    (i' = None \/ exists j, i' = Some j /\ server_fsm e t c j = None).
Proof using FsmSpin0.
  intros HP H0. destruct (server_Spin_run i t) as (c & t' & ok & Hr & ->).
  destruct (run_inv (server_fsm e t) P HP _ _ _ _ _ _ _ H0 Hr) as (i' & Hp & Hi).
  exists i', c, t'. done.
Qed.

(** ** What no step changes *)

(** The request, the transport, the response to send and the goroutines stay;
    once the transaction is done it stays done and the user gets nothing more. *)
Definition keeps (t t' : serverTx) : Prop :=
  s_origin t' = s_origin t /\ s_reliable t' = s_reliable t /\ s_lastResp t' = s_lastResp t /\
  s_tasks t' = s_tasks t /\
  (s_done t = true -> s_done t' = true /\ s_acks t' = s_acks t /\ s_cancels t' = s_cancels t /\
                      s_errs t' = s_errs t).

Lemma server_keeps_trans t t' t'' : keeps t t' -> keeps t' t'' -> keeps t t''.
Proof using.
  intros (H1 & H2 & H3 & H4 & H5) (H1' & H2' & H3' & H4' & H5'). unfold keeps.
  rewrite H1', H2', H3', H4'. split_and!; try done. intros Hd.
  destruct (H5 Hd) as (Hd' & E1 & E2 & E3). destruct (H5' Hd') as (Hd'' & F1 & F2 & F3).
  repeat split; congruence.
Qed.

Ltac effect :=
  unfold act_confirm, act_cancel, act_passup_ack, act_trans_err, act_delete, select_send, recovered,
    no_input, transportErr, send_err, delete, start_timer_g, start_timer_h, panic;
  repeat case_match; cbn.

Lemma keeps_send_last after t :
  (forall x, keeps x (after x)) -> keeps t (fst (send_last e after t)).
Proof using.
  intros Ha. destruct (send_last_cases after t) as [[_ ->]|(r & _ & [[_ ->]|[_ ->]])]; [done | done |].
  cbn [fst]. eapply server_keeps_trans; [| apply Ha]. done.
Qed.

Lemma keeps_action act t : table_action act -> keeps t (fst (act t)).
Proof using.
  destruct 1; try done; try (by apply keeps_send_last);
    try (apply keeps_send_last; intros x); effect; try done;
    unfold keeps; cbn; repeat split; cbn in *; congruence.
Qed.

Lemma Spin_keeps i t : keeps t (fst (Spin spin e i t)).
Proof using FsmSpin0.
  destruct (Spin_inv (fun _ _ s => keeps t s) i t) as (i' & c & t' & -> & H & _); [| done | done].
  intros c j c' act s Hs Hf. eapply server_keeps_trans; [exact Hs |]. eapply keeps_action, server_table, Hf.
Qed.

(** ** Terminated transactions are done *)

Definition term_done (t : serverTx) : Prop :=
  s_fsm t = server_state_terminated -> s_done t = true.

Lemma server_delete_done t : s_done (delete t) = true.
Proof using. unfold delete. by destruct (s_done t) eqn:?. Qed.

Lemma server_Spin_term_done i t : term_done t -> term_done (fst (Spin spin e i t)).
Proof using FsmSpin0.
  intros Ht.
  destruct (Spin_inv (fun i c s => c = server_state_terminated ->
              s_done s = true \/ i = Some server_input_delete) i t)
    as (i' & c & t' & -> & H & Hi).
  - intros c j c' act s Hs Hf ->. revert Hs Hf. unfold server_fsm.
    destruct (IsInvite (s_origin t)), c, j; cbn; intros Hs [= <-]; cbn;
      try (left; apply server_delete_done); try (by right); destruct Hs; auto; discriminate.
  - intros Hc. left. by apply Ht.
  - intros Hc. cbn in Hc. subst c. destruct (H eq_refl) as [Hd|Hd]; [done |]. subst i'.
    destruct Hi as [?|(j & [= <-] & Hj)]; [done |]. unfold server_fsm in Hj.
    by destruct (IsInvite (s_origin t)).
Qed.

(** ** Induction over the steps *)

Definition timer_input (i : server_input) : bool :=
  match i with
  | server_input_timer_g | server_input_timer_h | server_input_timer_i | server_input_timer_j
  | server_input_timer_l => true
  | _ => false
  end.

Definition task_ok (x : task server_task) : Prop :=
  match x with
  | Fired (SpinInput i) | Spinning (SpinInput i) => timer_input i = true
  | _ => True
  end.

Definition tasks_ok (t : serverTx) : Prop := Forall task_ok (s_tasks t).

(** Fields a message or a call sets before the machine runs. *)
Inductive touched (t : serverTx) : serverTx -> Prop :=
| touched_1xx : touched t (set_timer_1xx None t)
| touched_ack a : touched t (set_lastAck a t)
| touched_cancel c : touched t (set_lastCancel c t)
| touched_sent l : touched t (set_s_sent l t).

(** A property every step preserves, by the kinds of steps. *)
Record preserved (allowed : server_event -> Prop) (P : serverTx -> Prop) : Prop := {
  p_touch : forall t t', touched t t' -> P t -> P t';
  p_message : forall i t, s_crashed t = false ->
    i ∈ [server_input_request; server_input_ack; server_input_cancel] -> P t ->
    P (fst (Spin spin e i t));
  p_respond : forall r t, s_crashed t = false -> response_IsCancel r = false -> P t ->
    P (fst (Spin spin e (response_input r) (set_timer_1xx None (set_s_lastResp (Some r) t))));
  p_panic : forall t,
    (exists r, allowed (SReceive (MResponse r))) \/
    (exists u, is_ok (NewResponseFromRequest u [] (s_origin t) 100 "Trying" []) = false) ->
    P t -> P (panic t);
  p_terminate : forall t, allowed STerminate -> s_done t = false -> P t -> P (delete t);
  p_fire : forall k t, is_armed (timer_of k t) = true -> P t ->
    P (set_s_tasks (s_tasks t ++ [Fired (timer_task k)]) (set_timer k (fired (timer_of k t)) t));
  p_check_done : forall x t l1 l2, s_tasks t = l1 ++ Fired x :: l2 -> s_done t = true -> P t ->
    P (set_s_tasks (l1 ++ l2) t);
  p_check_live : forall x t l1 l2, s_tasks t = l1 ++ Fired x :: l2 -> s_done t = false -> P t ->
    P (set_s_tasks ((l1 ++ l2) ++ [Spinning x]) t);
  p_trying : forall t l1 l2, s_tasks t = l1 ++ Spinning RespondTrying :: l2 -> P t ->
    P (set_s_tasks (l1 ++ l2) t);
  p_spin : forall i t l1 l2, s_crashed t = false -> s_tasks t = l1 ++ Spinning (SpinInput i) :: l2 ->
    timer_input i = true -> P t -> P (fst (Spin spin e i (set_s_tasks (l1 ++ l2) t)))
}.

Lemma Respond_preserved allowed P r t :
  preserved allowed P -> s_crashed t = false -> P t -> P (fst (Respond spin e r t)).
Proof using.
  intros HP Hc Hp. unfold Respond. destruct (response_IsCancel r) eqn:E; [| by apply (p_respond _ _ HP)].
  cbn [fst Send]. eapply (p_touch _ _ HP); [| exact Hp]. constructor.
Qed.

Lemma Receive_preserved allowed P m t :
  preserved allowed P -> allowed (SReceive m) -> s_crashed t = false -> P t ->
  P (fst (Receive spin e m t)).
Proof using FsmSpin0.
  intros HP Ha Hc Hp. unfold Receive. destruct m as [q|r].
  - assert (P (set_timer_1xx None t)) as Hp1 by (eapply (p_touch _ _ HP); [constructor | done]).
    destruct (streq _ _); [apply HP; [done | set_solver | done] |].
    destruct (request_IsAck q).
    { apply HP; [done | set_solver |]. eapply (p_touch _ _ HP); [constructor | exact Hp1]. }
    destruct (request_IsCancel q); [| done].
    apply HP; [done | set_solver |]. eapply (p_touch _ _ HP); [constructor | exact Hp1].
  - apply (p_panic _ _ HP); [| done]. left. by exists r.
Qed.

Lemma server_preserved_step allowed P ev t t' :
  preserved allowed P -> allowed ev -> server_step spin e ev t = Some t' ->
  tasks_ok t -> P t -> P t'.
Proof using FsmSpin0.
  intros HP Ha Hs Ht Hp. unfold server_step in Hs. destruct (s_crashed t) eqn:Ec; [done |].
  destruct ev as [m | r | | k | n].
  - simplify_eq. by eapply Receive_preserved.
  - simplify_eq. by eapply Respond_preserved.
  - simplify_eq. unfold Terminate. destruct (s_done t) eqn:Ed; [done |]. by apply (p_terminate _ _ HP).
  - destruct (is_armed (timer_of k t)) eqn:Ek; simplify_eq. by apply (p_fire _ _ HP).
  - apply bind_Some in Hs as ([x rest] & Hpk & [= <-]).
    apply pick_task_spec in Hpk as (l1 & l2 & E & ->).
    unfold tasks_ok in Ht. rewrite E in Ht. apply Forall_app in Ht as [_ Ht]. inv Ht.
    destruct x as [x|[i|]]; cbn [run_task].
    + cbn [set_s_tasks s_done]. destruct (s_done t) eqn:Ed; [by eapply (p_check_done _ _ HP) |].
      exact (p_check_live _ _ HP x t l1 l2 E Ed Hp).
    + by eapply (p_spin _ _ HP).
    + pose proof (p_trying _ _ HP t l1 l2 E Hp) as Hp'. unfold respond_trying.
      destruct (NewResponseFromRequest _ _ _ _ _ _) as [r| |] eqn:Er.
      * by eapply Respond_preserved.
      * apply (p_panic _ _ HP); [right; eexists; by rewrite Er | done].
      * apply (p_panic _ _ HP); [right; eexists; by rewrite Er | done].
Qed.

(** The task list of a transaction that the machine leaves alone. *)
Lemma Forall_remove {A} (Q : A -> Prop) l l1 x l2 :
  l = l1 ++ x :: l2 -> Forall Q l -> Forall Q (l1 ++ l2) /\ Q x.
Proof using. intros -> [? [? ?]%Forall_cons]%Forall_app. split; [by apply Forall_app | done]. Qed.

Lemma server_preserved_tasks : preserved (fun _ => True) tasks_ok.
Proof using FsmSpin0.
  assert (forall i t, s_tasks (fst (Spin spin e i t)) = s_tasks t) as Hk
    by (intros i t; apply Spin_keeps).
  split; unfold tasks_ok; intros; rewrite ?Hk; try done.
  - by destruct H.
  - unfold delete. by rewrite H0.
  - destruct k; cbn in *; apply Forall_app; by split; [| constructor].
  - by destruct (Forall_remove _ _ _ _ _ H H1).
  - destruct (Forall_remove _ _ _ _ _ H H1). cbn. apply Forall_app. split; [done |]. by constructor.
  - by destruct (Forall_remove _ _ _ _ _ H H0).
  - by destruct (Forall_remove _ _ _ _ _ H0 H2).
Qed.

Lemma sreach_inv allowed P t0 t :
  preserved allowed P -> tasks_ok t0 -> P t0 -> sreach spin e allowed t0 t -> P t /\ tasks_ok t.
Proof using FsmSpin0.
  intros HP Hi0 Hp0. induction 1 as [| t ev t' Hr [IHp IHi] Ha Hs]; [done |]. split.
  - by eapply server_preserved_step.
  - eapply (server_preserved_step (fun _ => True) tasks_ok); [apply server_preserved_tasks | done..].
Qed.

Lemma server_preserved_term_done : preserved (fun _ => True) term_done.
Proof using FsmSpin0.
  split; intros; try (by apply server_Spin_term_done); try (destruct k); try done; try (by destruct H).
  intros _. apply server_delete_done.
Qed.

(** ** The timer that ends a state *)

Definition alive (k : server_timer) (t : serverTx) : Prop :=
  is_armed (timer_of k t) = true \/
  Fired (timer_task k) ∈ s_tasks t \/ Spinning (timer_task k) ∈ s_tasks t.

(** The timer that bounds a state after a final response.  Timer L runs in
    Accepted when the 2xx was sent: [sure] says that every send succeeds. *)
Definition watch (sure invite : bool) (c : server_state) : option server_timer :=
  match invite, c with
  | true, server_state_completed => Some TimerH
  | true, server_state_confirmed => Some TimerI
  | true, server_state_accepted => if sure then Some TimerL else None
  | false, server_state_completed => Some TimerJ
  | _, _ => None
  end.

Definition sends_ok (sure : bool) : Prop :=
  sure = true -> forall n m, e_send e n m = None.

(** States before a final response. *)
Definition early (c : server_state) : bool :=
  match c with server_state_trying | server_state_proceeding => true | _ => false end.

Definition guarded (sure : bool) (t : serverTx) : Prop :=
  (early (s_fsm t) = true -> timer_h t = None) /\
  (s_crashed t = false -> s_done t = false ->
   forall k, watch sure (IsInvite (s_origin t)) (s_fsm t) = Some k -> alive k t).

(** The clause a chain keeps. *)
Definition chain_guarded (sure invite : bool) (i : option server_input) (c : server_state)
    (s : serverTx) : Prop :=
  (early c = true -> timer_h s = None) /\
  (s_done s = false -> forall k, watch sure invite c = Some k ->
     alive k s \/ (c = server_state_completed /\ i = Some server_input_transport_err) \/
     exists j, i = Some j /\ timer_task k = SpinInput j) /\
  (i = Some server_input_user_2xx \/ i = Some server_input_user_300_plus -> s_lastResp s <> None).

(** Effects that leave the watched timer and the tasks alone. *)
Lemma server_alive_frame k t t' :
  timer_of k t' = timer_of k t -> s_tasks t' = s_tasks t -> alive k t -> alive k t'.
Proof using. unfold alive. by intros -> ->. Qed.

Ltac send_cases :=
  match goal with
  | |- context [send_last e ?f ?x] =>
      destruct (send_last_cases f x) as [[? ->]|(? & ? & [[? ->]|[? ->]])]
  end.

(** The watched timer of a state the chain stays in is alive. *)
Ltac is_watched Hw s :=
  match goal with
  | |- alive ?k _ \/ _ =>
      assert (alive k s) as Ha
        by (destruct (Hw k eq_refl) as [Ha|[[? ?]|(? & [= <-] & ?)]]; [exact Ha | discriminate ..])
  end.

Lemma start_timer_g_frame t :
  timer_h (start_timer_g t) = timer_h t /\ s_tasks (start_timer_g t) = s_tasks t.
Proof using. unfold start_timer_g. by repeat case_match. Qed.

Lemma start_timer_h_alive t :
  (timer_h t = None \/ alive TimerH t) -> alive TimerH (start_timer_h (start_timer_g t)).
Proof using.
  destruct (start_timer_g_frame t) as [Eh Et]. unfold start_timer_h. rewrite Eh.
  intros [-> | Ha]; [by left |]. destruct (timer_h t) as [tm|] eqn:E; [| by left].
  apply (server_alive_frame _ t); cbn; congruence || done.
Qed.

Lemma alive_respond k s : alive k s -> alive k (fst (act_respond e s)).
Proof using.
  unfold act_respond. send_cases; [done | |]; apply server_alive_frame; by destruct k.
Qed.

Lemma alive_passup k s : alive k s -> alive k (fst (act_passup_ack e s)).
Proof using. effect; try done; apply server_alive_frame; by destruct k. Qed.

Lemma alive_confirm s : alive TimerI (fst (act_confirm e s)).
Proof using. left. by effect. Qed.

Lemma alive_complete s :
  s_lastResp s <> None /\ timer_h s = None \/ alive TimerH s ->
  alive TimerH (fst (act_respond_complete e s)) \/
  snd (act_respond_complete e s) = Some server_input_transport_err.
Proof using.
  intros H. unfold act_respond_complete. send_cases; cbn [fst snd]; [left | by right | left].
  - by destruct H as [[? _]|?].
  - apply start_timer_h_alive. destruct H as [[_ ?]|H]; [by left | right].
    by apply (server_alive_frame _ s).
Qed.

Lemma alive_final s :
  s_lastResp s <> None ->
  alive TimerJ (fst (act_final e s)) \/ snd (act_final e s) = Some server_input_transport_err.
Proof using.
  intros H. unfold act_final. send_cases; cbn [fst snd]; [done | by right | left]. by left.
Qed.

Lemma alive_accept s :
  s_lastResp s <> None -> (forall n m, e_send e n m = None) ->
  alive TimerL (fst (act_respond_accept e s)).
Proof using.
  intros H Hs. unfold act_respond_accept. send_cases; cbn [fst snd]; [done | by rewrite Hs in * | by left].
Qed.

Lemma next_not_user o c i c' act t :
  server_fsm e o c i = Some (c', act) ->
  snd (act t) = Some server_input_user_2xx \/ snd (act t) = Some server_input_user_300_plus -> False.
Proof using.
  intros Hf [Hj|Hj]; apply (server_rank _ _ _ _ _ _ _ Hf) in Hj; destruct i; cbn in Hj; lia.
Qed.

Lemma early_timer_h o c i c' act s :
  server_fsm e o c i = Some (c', act) -> early c' = true ->
  timer_h (fst (act s)) = timer_h s /\ early c = true.
Proof using.
  unfold server_fsm. destruct (IsInvite (s_origin o)), c, i; cbn; intros [= <- <-] Hc; try discriminate Hc;
    (split; [| done]); try done; try (unfold act_respond; by send_cases); by effect.
Qed.

Lemma chain_guarded_step sure t c i c' act s :
  sends_ok sure -> chain_guarded sure (IsInvite (s_origin t)) (Some i) c s ->
  server_fsm e t c i = Some (c', act) ->
  chain_guarded sure (IsInvite (s_origin t)) (snd (act s)) c' (fst (act s)).
Proof using.
  intros Hsure (Hh & Hw & Hl) Hf. split; [| split].
  - intros Hc'. destruct (early_timer_h _ _ _ _ _ s Hf Hc') as [-> ?]. auto.
  - intros Hd k Hk.
    assert (s_done s = false) as Hd0.
    { destruct (s_done s) eqn:E; [| done].
      destruct (keeps_action act s (server_table _ _ _ _ _ Hf)) as (_ & _ & _ & _ & Hk').
      destruct (Hk' E) as [? _]. congruence. }
    specialize (Hw Hd0). clear Hd Hd0. revert Hf Hk Hh Hw Hl. unfold server_fsm.
    destruct (IsInvite (s_origin t)), c, i; cbn [invite_fsm non_invite_fsm watch];
      intros [= <- <-]; cbn [watch]; try discriminate; intros Hk Hh Hw Hl.
    all: try (destruct sure; [| discriminate]); injection Hk as <-.
    all: try (is_watched Hw s).
    all: try (left; exact Ha).
    all: try (left; apply alive_respond; exact Ha).
    all: try (left; apply alive_passup; exact Ha).
    all: try (left; apply alive_confirm).
    all: try (destruct (alive_final s) as [?|?]; [by auto | by left | by right; left]).
    all: try (left; apply alive_accept; [by auto | by apply Hsure]).
    all: destruct (alive_complete s) as [?|?]; [| by left | by right; left].
    all: first [right; exact Ha | left; split; [apply Hl; auto | by apply Hh]].
  - intros H. by destruct (next_not_user _ _ _ _ _ s Hf).
Qed.

Lemma server_Spin_guarded sure i t :
  sends_ok sure -> s_crashed t = false -> (early (s_fsm t) = true -> timer_h t = None) ->
  (s_done t = false -> forall k, watch sure (IsInvite (s_origin t)) (s_fsm t) = Some k ->
     alive k t \/ timer_task k = SpinInput i) ->
  (i = server_input_user_2xx \/ i = server_input_user_300_plus -> s_lastResp t <> None) ->
  guarded sure (fst (Spin spin e i t)).
Proof using FsmSpin0.
  intros Hs Hc Hh Hw Hl. pose proof (Spin_keeps i t) as (Ho & _).
  destruct (Spin_inv (chain_guarded sure (IsInvite (s_origin t))) i t)
    as (i' & c & t' & E & (H1 & H2 & H3) & Hi).
  - intros. by eapply chain_guarded_step.
  - split_and!; [done | | naive_solver]. intros Hd k Hk. destruct (Hw Hd k Hk) as [?|?]; [by left |].
    right. right. by exists i.
  - rewrite E in Ho |- *. split; [done |]. intros _ Hd k Hk. cbn [set_s_fsm s_origin s_fsm] in *.
    rewrite Ho in Hk. destruct (H2 Hd k Hk) as [Ha|[[-> ->]|(j & -> & Hj)]].
    + apply (server_alive_frame _ t'); [by destruct k | done | done].
    + exfalso. destruct Hi as [?|(j & [= <-] & Hj)]; [done |]. unfold server_fsm in Hj.
      by destruct (IsInvite (s_origin t)).
    + exfalso. destruct Hi as [?|(j' & [= <-] & Hj')]; [done |]. revert Hk Hj Hj'. unfold server_fsm.
      destruct (IsInvite (s_origin t)), c; cbn; try discriminate; try (destruct sure);
        intros [= <-] [= <-]; by cbn.
Qed.

Lemma watch_not_1xx sure inv c : watch sure inv c <> Some Timer1xx.
Proof using. unfold watch. by repeat case_match. Qed.

Lemma guarded_touched sure t t' : touched t t' -> guarded sure t -> guarded sure t'.
Proof using.
  intros Ht [Hh Hg]. split; [by destruct Ht |]. intros Hc Hd k Hk.
  assert (k <> Timer1xx) as Hn by (intros ->; by apply watch_not_1xx in Hk).
  assert (alive k t) as Ha by (by destruct Ht; apply Hg).
  revert Ha. apply server_alive_frame; destruct Ht; by destruct k.
Qed.

Lemma server_preserved_guarded sure : sends_ok sure -> preserved (fun _ => True) (guarded sure).
Proof using FsmSpin0.
  intros Hs. split.
  - apply guarded_touched.
  - intros i t Hc Hi [Hh Hg]. apply server_Spin_guarded; try done; [by auto |].
    intros [-> | ->]; set_solver.
  - intros r t Hc _ Hg. destruct (guarded_touched sure (set_s_lastResp (Some r) t) _
      (touched_1xx _) Hg) as [Hh' Hg'].
    apply server_Spin_guarded; try done. intros Hd k Hk. left. by apply Hg'.
  - intros t _ [Hh Hg]. by split.
  - intros t _ Hd [Hh Hg]. split; [| intros _ Hd'; by rewrite server_delete_done in Hd'].
    unfold delete. rewrite Hd. done.
  - intros k t Hk [Hh Hg]. split.
    + intros He. destruct k; try (by apply Hh). cbn in *. rewrite Hh in Hk by done. done.
    + intros Hc Hd k' Hk'. unfold alive. cbn [set_s_tasks s_tasks].
      assert (alive k' t) as [Ha|Ha] by (apply Hg; by destruct k).
      2: { rewrite !elem_of_app. naive_solver. }
      assert (k = k' \/ timer_of k' (set_timer k (fired (timer_of k t)) t) = timer_of k' t) as [->|E]
        by (destruct k, k'; auto).
      * right. left. apply elem_of_app. right. by constructor.
      * left. etransitivity; [| exact Ha]. by rewrite <- E; destruct k'.
  - intros x t l1 l2 _ Hd [Hh Hg]. split; [done |]. intros _ Hd'. cbn in Hd'. congruence.
  - intros x t l1 l2 Hl _ [Hh Hg]. split; [done |]. intros Hc Hd k Hk.
    destruct (Hg Hc Hd k Hk) as [Ha|Ha]; [by left; destruct k |]. right. cbn [set_s_tasks s_tasks].
    rewrite Hl in Ha. set_solver.
  - intros t l1 l2 Hl [Hh Hg]. split; [done |]. intros Hc Hd k Hk.
    destruct (Hg Hc Hd k Hk) as [Ha|Ha]; [by left; destruct k |]. right. cbn [set_s_tasks s_tasks].
    assert (k <> Timer1xx) as Hn1 by (intros ->; by apply watch_not_1xx in Hk).
    rewrite Hl, !elem_of_app, !elem_of_cons in Ha. rewrite !elem_of_app.
    destruct k; naive_solver.
  - intros i t l1 l2 Hc Hl Hi [Hh Hg]. apply server_Spin_guarded; try done.
    + intros Hd k Hk. destruct (Hg Hc Hd k Hk) as [Ha|Ha]; [by left; left; destruct k |].
      rewrite Hl, !elem_of_app, !elem_of_cons in Ha. unfold alive. cbn [set_s_tasks s_tasks].
      rewrite !elem_of_app. naive_solver.
    + intros [-> | ->]; done.
Qed.

(** The watched timer ends the transaction. *)
Lemma server_Spin_watch_done sure k i t :
  watch sure (IsInvite (s_origin t)) (s_fsm t) = Some k -> timer_task k = SpinInput i ->
  s_done (fst (Spin spin e i t)) = true.
Proof using FsmSpin0.
  intros Hk Hi. destruct (server_Spin_run i t) as (c & t' & ok & Hr & ->). cbn [fst set_s_fsm s_done].
  revert Hr Hk Hi. unfold server_fsm.
  destruct (IsInvite (s_origin t)), (s_fsm t); cbn [watch]; try discriminate; try (destruct sure);
    intros Hr [= <-] [= <-]; cbn in Hr; injection Hr as <- <- <-; apply server_delete_done.
Qed.

Definition timer_event (ev : server_event) : bool :=
  match ev with SFire _ | SRun _ => true | _ => false end.

Section progress.

Context (sure : bool) (k : server_timer) (i : server_input) (Hki : timer_task k = SpinInput i).

Lemma server_spinning_to_done t :
  s_crashed t = false -> watch sure (IsInvite (s_origin t)) (s_fsm t) = Some k ->
  Spinning (timer_task k) ∈ s_tasks t ->
  exists n t', server_step spin e (SRun n) t = Some t' /\ s_done t' = true.
Proof using FsmSpin0 Hki.
  intros Hc Hk Hin. destruct (pick_task_elem _ _ Hin) as (n & l' & Hp).
  exists n. eexists. unfold server_step. rewrite Hc, Hp. split; [done |].
  rewrite Hki. cbn [run_task]. by eapply server_Spin_watch_done.
Qed.

Lemma server_fired_to_done t :
  s_crashed t = false -> s_done t = false ->
  watch sure (IsInvite (s_origin t)) (s_fsm t) = Some k -> Fired (timer_task k) ∈ s_tasks t ->
  exists n m t', server_run spin e [SRun n; SRun m] t = Some t' /\ s_done t' = true.
Proof using FsmSpin0 Hki.
  intros Hc Hd Hk Hin. destruct (pick_task_elem _ _ Hin) as (n & l' & Hp).
  set (t1 := set_s_tasks (l' ++ [Spinning (timer_task k)]) t).
  assert (server_step spin e (SRun n) t = Some t1) as E1.
  { unfold server_step. rewrite Hc, Hp. cbn [mbind option_bind run_task set_s_tasks s_done].
    by rewrite Hd. }
  destruct (server_spinning_to_done t1) as (m & t2 & E2 & Hd2); [done | done | |].
  { apply elem_of_app. right. by constructor. }
  exists n, m, t2. cbn [server_run]. rewrite E1. cbn [mbind option_bind]. by rewrite E2.
Qed.

Lemma server_guarded_to_done t :
  guarded sure t -> s_crashed t = false -> s_done t = false ->
  watch sure (IsInvite (s_origin t)) (s_fsm t) = Some k ->
  exists evs t', forallb timer_event evs = true /\ length evs <= 3 /\
    server_run spin e evs t = Some t' /\ s_done t' = true.
Proof using FsmSpin0 Hki.
  intros [_ Hg] Hc Hd Hk. destruct (Hg Hc Hd k Hk) as [Ha|[Ha|Ha]].
  - set (t1 := set_s_tasks (s_tasks t ++ [Fired (timer_task k)]) (set_timer k (fired (timer_of k t)) t)).
    assert (server_step spin e (SFire k) t = Some t1) as E1.
    { unfold server_step. by rewrite Hc, Ha. }
    destruct (server_fired_to_done t1) as (n & m & t' & Hr & Hd').
    + clear Hki. by destruct k.
    + clear Hki. by destruct k.
    + clear Hki. by destruct k.
    + apply elem_of_app. right. by constructor.
    + exists [SFire k; SRun n; SRun m], t'. split_and!; [done | simpl; lia | | done].
      cbn [server_run] in *. rewrite E1. exact Hr.
  - destruct (server_fired_to_done t Hc Hd Hk Ha) as (n & m & t' & Hr & Hd').
    exists [SRun n; SRun m], t'. split_and!; [done | simpl; lia | done | done].
  - destruct (server_spinning_to_done t Hc Hk Ha) as (n & t' & Hr & Hd').
    exists [SRun n], t'. split_and!; [done | simpl; lia | | done]. cbn [server_run]. by rewrite Hr.
Qed.

End progress.

(** ** Retransmission intervals *)

(** Timer G of an INVITE transaction over an unreliable transport. *)
Definition timer_g_bounded (t : serverTx) : Prop :=
  s_reliable t = false ->
  (T1 <= timer_g_time t <= T2)%Z /\ forall tm, timer_g t = Some tm -> dur tm = timer_g_time t.

Lemma start_timer_g_bounded t : timer_g_bounded t -> timer_g_bounded (start_timer_h (start_timer_g t)).
Proof using.
  intros Ht. assert (timer_g_bounded (start_timer_g t)) as H.
  { unfold start_timer_g. destruct (s_reliable t) eqn:Er; [done |].
    intros _. destruct (Ht Er) as [Hb Hd]. destruct (timer_g t) eqn:E; cbn.
    - split; [by apply double_bounded |]. by intros tm [= <-].
    - split; [done |]. by intros tm [= <-]. }
  unfold start_timer_h. by destruct (timer_h _).
Qed.

Lemma action_timer_g act t :
  table_action act -> timer_g_bounded t -> timer_g_bounded (fst (act t)).
Proof using.
  intros Ha Ht. destruct Ha; try done;
    try (unfold act_respond, act_respond_complete, act_respond_accept, act_final; send_cases;
         cbn [fst]; try done; by apply start_timer_g_bounded).
  - effect; try done; intros Hr; destruct (Ht Hr); done.
  - by effect.
  - by effect.
  - by effect.
  - effect; try done; intros Hr; destruct (Ht Hr); done.
Qed.

Lemma Spin_timer_g i t : timer_g_bounded t -> timer_g_bounded (fst (Spin spin e i t)).
Proof using FsmSpin0.
  intros Ht. destruct (Spin_inv (fun _ _ s => timer_g_bounded s) i t) as (i' & c & t' & -> & H & _);
    [| done | done].
  intros c j c' act s Hs Hf. eapply action_timer_g, Hs. eapply server_table, Hf.
Qed.

Lemma preserved_timer_g : preserved (fun _ => True) timer_g_bounded.
Proof using FsmSpin0.
  split; intros; try (by apply Spin_timer_g); try done; try (by destruct H).
  - unfold delete. rewrite H0. intros Hr. destruct (H1 Hr). by split.
  - destruct k; try done. intros Hr. destruct (H0 Hr) as [Hb Ha]. split; [done |].
    cbn in *. intros tm Htm. destruct (timer_g t) as [tm'|] eqn:E; [| done]. injection Htm as <-.
    cbn. by apply (Ha tm').
Qed.

(** ** Transactions that never panic *)

(** The 100 response of timer_1xx can be built. *)
Definition trying_ok (origin : request) : Prop :=
  forall u, is_ok (NewResponseFromRequest u [] origin 100 "Trying" []) = true.

Definition safe (t : serverTx) : Prop :=
  s_crashed t = false /\ (s_done t = true -> s_fsm t = server_state_terminated) /\
  trying_ok (s_origin t).

Lemma send_last_crashed after t :
  (forall x, s_crashed (after x) = s_crashed x /\ s_done (after x) = s_done x) ->
  s_crashed (fst (send_last e after t)) = s_crashed t /\ s_done (fst (send_last e after t)) = s_done t.
Proof using.
  intros Ha. destruct (send_last_cases after t) as [[_ ->]|(r & _ & [[_ ->]|[_ ->]])]; [done | done |].
  cbn [fst]. by destruct (Ha (set_s_lastErr (e_send e (length (s_sent t)) (MResponse r))
    (set_s_sent (s_sent t ++ [MResponse r]) t))) as [-> ->].
Qed.

Lemma act_delete_crashed t : s_crashed (delete t) = s_crashed t.
Proof using. unfold delete. by destruct (s_done t). Qed.

(** Without [Terminate] no action panics: the channels are closed in the
    terminated state only, where nothing is sent. *)
Lemma action_safe o c i c' act s :
  server_fsm e o c i = Some (c', act) ->
  s_crashed s = false -> (s_done s = true -> c = server_state_terminated) ->
  s_crashed (fst (act s)) = false /\ (s_done (fst (act s)) = true -> c' = server_state_terminated).
Proof using.
  intros Hf Hc Hd.
  assert (c <> server_state_terminated -> s_done s = false) as Hd'
    by (intros Hn; destruct (s_done s); [by destruct Hn; apply Hd | done]).
  assert (forall x, s_crashed (start_timer_h (start_timer_g x)) = s_crashed x /\
                    s_done (start_timer_h (start_timer_g x)) = s_done x) as Hg
    by (intros x; unfold start_timer_h, start_timer_g; by repeat case_match).
  revert Hf. unfold server_fsm.
  destruct (IsInvite (s_origin o)), c, i; cbn [invite_fsm non_invite_fsm]; intros [= <- <-];
    first
      [ by split
      | split; [| done]; cbn [fst act_delete act_trans_err no_input]; rewrite ?act_delete_crashed;
        try done; unfold transportErr, send_err; by destruct (s_done s)
      | specialize (Hd' ltac:(discriminate)); unfold act_respond, act_respond_complete,
          act_respond_accept, act_final;
        match goal with
        | |- context [send_last e ?f s] => destruct (send_last_crashed f s) as [-> ->]; [done || exact Hg |]
        end; split; [done | congruence]
      | specialize (Hd' ltac:(discriminate)); unfold act_confirm, act_cancel, act_passup_ack, select_send,
          no_input; cbn; rewrite Hd'; repeat case_match; cbn; split; congruence ].
Qed.

Lemma server_Spin_safe i t : safe t -> safe (fst (Spin spin e i t)).
Proof using FsmSpin0.
  intros (Hc & Hd & Ht). pose proof (Spin_keeps i t) as (Ho & _).
  destruct (Spin_inv (fun _ c s => s_crashed s = false /\
              (s_done s = true -> c = server_state_terminated)) i t)
    as (i' & c & t' & E & [H1 H2] & _).
  - intros c j c' act s [Hs1 Hs2] Hf. by eapply action_safe.
  - done.
  - unfold safe. rewrite Ho, E. by split_and!.
Qed.

(** The layer delivers requests only, and nobody terminates the transaction
    from outside. *)
Definition orderly (ev : server_event) : Prop :=
  match ev with STerminate | SReceive (MResponse _) => False | _ => True end.

Lemma server_preserved_safe : preserved orderly safe.
Proof using FsmSpin0.
  split; intros; try (by apply server_Spin_safe); try done.
  - by destruct H.
  - destruct H as [[r []]|[u Hu]]. destruct H0 as (_ & _ & Ht). by rewrite Ht in Hu.
  - unfold safe in *. by destruct k.
Qed.

(** ** A transaction that no timer ends *)

(** An INVITE transaction in Accepted without timer L. *)
Definition not_timer_l (x : task server_task) : Prop :=
  match x with
  | Fired (SpinInput server_input_timer_l) | Spinning (SpinInput server_input_timer_l) => False
  | _ => True
  end.

Definition orphan (t : serverTx) : Prop :=
  IsInvite (s_origin t) = true /\ s_fsm t = server_state_accepted /\ s_done t = false /\
  timer_l t = None /\ Forall not_timer_l (s_tasks t).

Lemma server_Spin_orphan i t : i <> server_input_timer_l -> orphan t -> orphan (fst (Spin spin e i t)).
Proof using FsmSpin0.
  intros Hi (Ho & Hf & Hd & Hl & Ht). pose proof (Spin_keeps i t) as (Ho' & _ & _ & Ht' & _).
  destruct (Spin_inv (fun i c s => i <> Some server_input_timer_l /\ c = server_state_accepted /\
              s_done s = false /\ timer_l s = None) i t) as (i' & c & t' & E & (_ & H1 & H2 & H3) & _).
  - intros c j c' act s (Hj & -> & Hs1 & Hs2). unfold server_fsm. rewrite Ho.
    destruct j; cbn; intros [= <- <-]; try done.
    + unfold act_passup_ack, select_send, no_input. destruct (lastAck s); [rewrite Hs1 |]; done.
    + unfold act_respond. by send_cases.
  - split_and!; try done. congruence.
  - unfold orphan. rewrite Ho', Ht', E. by split_and!.
Qed.

Lemma server_preserved_orphan : preserved (fun ev => ev <> STerminate) orphan.
Proof using FsmSpin0.
  split; unfold orphan; intros.
  - by destruct H.
  - apply server_Spin_orphan; [| done]. intros ->. set_solver.
  - apply server_Spin_orphan; [| done]. unfold response_input. by repeat case_match.
  - done.
  - done.
  - destruct H0 as (Ho & Hf & Hd & Hl & Ht). destruct k; cbn in *; try (by rewrite Hl in H);
      (split_and!; try done; apply Forall_app; split; [done | by constructor]).
  - naive_solver congruence.
  - destruct H1 as (Ho & Hf & Hd & Hl & Ht). split_and!; try done. cbn.
    destruct (Forall_remove _ _ _ _ _ H Ht) as [? Hx]. apply Forall_app. split; [done |].
    constructor; [| done]. by destruct x as [[]|].
  - destruct H0 as (Ho & Hf & Hd & Hl & Ht). split_and!; try done. cbn.
    by destruct (Forall_remove _ _ _ _ _ H Ht).
  - destruct H2 as (Ho & Hf & Hd & Hl & Ht). destruct (Forall_remove _ _ _ _ _ H0 Ht) as [? Hx].
    apply server_Spin_orphan; [by intros -> |]. by split_and!.
Qed.

(** ** More invariants *)

(** Without [Terminate] a transaction is done in the terminated state only. *)
Definition done_term (t : serverTx) : Prop :=
  s_done t = true -> s_fsm t = server_state_terminated.

Definition undone (act : action server_input serverTx) : Prop :=
  forall s, s_done (fst (act s)) = s_done s.

Lemma undone_actions :
  undone NO_ACTION /\ undone (act_respond e) /\ undone (act_respond_complete e) /\
  undone (act_respond_accept e) /\ undone (act_final e) /\ undone (act_confirm e) /\
  undone (act_cancel e) /\ undone (act_passup_ack e).
Proof using.
  split_and!; intros s; try done; try (apply send_last_crashed; intros x; by effect);
    effect; cbn in *; congruence.
Qed.

Lemma action_done o c i c' act s :
  server_fsm e o c i = Some (c', act) -> (s_done s = true -> c = server_state_terminated) ->
  s_done (fst (act s)) = true -> c' = server_state_terminated.
Proof using.
  intros Hf Hd. destruct undone_actions as (U1 & U2 & U3 & U4 & U5 & U6 & U7 & U8).
  revert Hf. unfold server_fsm.
  destruct (IsInvite (s_origin o)), c, i; cbn; intros [= <- <-]; try done; intros H;
    rewrite ?U1, ?U2, ?U3, ?U4, ?U5, ?U6, ?U7, ?U8 in H; by apply Hd in H.
Qed.

Lemma server_Spin_done_term i t : done_term t -> done_term (fst (Spin spin e i t)).
Proof using FsmSpin0.
  intros Ht. destruct (Spin_inv (fun _ c s => s_done s = true -> c = server_state_terminated) i t)
    as (i' & c & t' & -> & H & _); [| done | done].
  intros c j c' act s Hs Hf. by eapply action_done.
Qed.

Lemma server_preserved_done_term : preserved (fun ev => ev <> STerminate) done_term.
Proof using FsmSpin0.
  split; intros; try (by apply server_Spin_done_term); try (destruct k); try done. by destruct H.
Qed.

(** Timer L starts with the 2xx. *)
Definition no_timer_l (t : serverTx) : Prop :=
  early (s_fsm t) = true -> timer_l t = None /\ Forall not_timer_l (s_tasks t).

Lemma early_timer_l o c i c' act s :
  server_fsm e o c i = Some (c', act) -> early c' = true ->
  timer_l (fst (act s)) = timer_l s /\ early c = true.
Proof using.
  unfold server_fsm. destruct (IsInvite (s_origin o)), c, i; cbn; intros [= <- <-] Hc; try discriminate Hc;
    split; try done; try (unfold act_respond; by send_cases); effect; done.
Qed.

Lemma Spin_no_timer_l i t : no_timer_l t -> no_timer_l (fst (Spin spin e i t)).
Proof using FsmSpin0.
  intros Ht. pose proof (Spin_keeps i t) as (_ & _ & _ & Htk & _).
  destruct (Spin_inv (fun _ c s => early c = true -> timer_l s = None /\ Forall not_timer_l (s_tasks t)) i t)
    as (i' & c & t' & E & H & _); [| done |].
  - intros c j c' act s Hs Hf Hc. destruct (early_timer_l _ _ _ _ _ s Hf Hc) as [-> Hc']. by apply Hs.
  - unfold no_timer_l. rewrite Htk, E. exact H.
Qed.

Lemma preserved_no_timer_l : preserved (fun _ => True) no_timer_l.
Proof using FsmSpin0.
  split; unfold no_timer_l; intros; try (by apply Spin_no_timer_l).
  - destruct H; by apply H0.
  - by apply H0.
  - unfold delete in *. rewrite H0 in *. by apply H1.
  - assert (early (s_fsm t) = true) as Hc by (by destruct k). destruct (H0 Hc) as [Hl Ht].
    destruct k; cbn in *; try (by rewrite Hl in H); (split; [done |]; apply Forall_app; split; [done |];
      by constructor).
  - destruct (H1 H2) as [Hl Ht]. split; [done |]. by destruct (Forall_remove _ _ _ _ _ H Ht).
  - destruct (H1 H2) as [Hl Ht]. split; [done |]. destruct (Forall_remove _ _ _ _ _ H Ht) as [? Hx].
    cbn. apply Forall_app. split; [done |]. constructor; [| done]. by destruct x as [[]|].
  - destruct (H0 H1) as [Hl Ht]. split; [done |]. by destruct (Forall_remove _ _ _ _ _ H Ht).
  - apply (Spin_no_timer_l i (set_s_tasks (l1 ++ l2) t)); [| done]. intros Hc.
    destruct (H2 Hc) as [Hl Ht]. split; [done |]. by destruct (Forall_remove _ _ _ _ _ H0 Ht).
Qed.

(** A 2xx that the transport refuses leaves the transaction in Accepted
    without timer L. *)
Lemma refused_accept r t err :
  IsInvite (s_origin t) = true -> s_fsm t = server_state_proceeding -> no_timer_l t ->
  s_done t = false -> response_IsCancel r = false -> IsSuccess r = true ->
  e_send e (length (s_sent t)) (MResponse r) = Some err ->
  orphan (fst (Respond spin e r t)).
Proof using FsmSpin0.
  intros Hi Hf Hl Hd Hr Hs Hsend. unfold Respond. rewrite Hr.
  assert (response_input r = server_input_user_2xx) as ->.
  { unfold response_input, IsProvisional. rewrite Hs. unfold IsSuccess in Hs. simp_bool.
    apply N.leb_le in H. by rewrite (proj2 (N.ltb_ge _ _)). }
  set (x := set_timer_1xx _ _).
  assert (s_origin x = s_origin t /\ s_fsm x = s_fsm t /\ s_done x = s_done t /\ timer_l x = timer_l t /\
          s_tasks x = s_tasks t /\ s_sent x = s_sent t /\ s_lastResp x = Some r)
    as (E1 & E2 & E3 & E4 & E5 & E6 & E7) by done. clearbody x.
  pose proof (Spin_keeps server_input_user_2xx x) as (Ho & _ & _ & Htk & _).
  unfold no_timer_l in Hl. rewrite Hf in Hl. destruct (Hl eq_refl) as [Hl' Ht].
  unfold orphan. rewrite Ho, Htk, E1, E5.
  destruct (server_Spin_run server_input_user_2xx x) as (c & t1 & ok & Hrun & ->).
  unfold server_fsm in Hrun. rewrite E1, E2, Hi, Hf in Hrun.
  unfold max_chain in Hrun. cbn [run invite_fsm] in Hrun.
  unfold act_respond_accept, send_last, Send in Hrun. rewrite E7, E6, Hsend in Hrun.
  cbn in Hrun. injection Hrun as <- <- <-. cbn. split_and!; congruence.
Qed.

(** ** Runs *)

Lemma sreach_weaken (P Q : server_event -> Prop) t0 t :
  (forall ev, P ev -> Q ev) -> sreach spin e P t0 t -> sreach spin e Q t0 t.
Proof using. intros H. induction 1; econstructor; eauto. Qed.

(** The state after a run of events. *)
Definition after (evs : list server_event) (t : serverTx) : serverTx :=
  default t (server_run spin e evs t).

Lemma server_run_reach allowed t0 t evs t' :
  sreach spin e allowed t0 t -> Forall allowed evs -> server_run spin e evs t = Some t' ->
  sreach spin e allowed t0 t'.
Proof using.
  revert t. induction evs as [|ev evs IH]; intros t Hr Ha H; [by injection H as <- |].
  apply Forall_cons in Ha as [Ha1 Ha2]. apply bind_Some in H as (t1 & H1 & H2).
  apply (IH t1); [by eapply sreach_step | done | done].
Qed.

Lemma server_after_reach allowed evs t : Forall allowed evs -> sreach spin e allowed t (after evs t).
Proof using.
  intros Ha. unfold after. destruct (server_run spin e evs t) as [t'|] eqn:E; [| constructor].
  eapply server_run_reach; [constructor | exact Ha | exact E].
Qed.

(** A finished transaction hands nothing more to the user. *)
Definition silent (t t' : serverTx) : Prop :=
  s_done t' = true /\ s_acks t' = s_acks t /\ s_cancels t' = s_cancels t /\ s_errs t' = s_errs t.

Lemma Spin_silent i t : s_done t = true -> silent t (fst (Spin spin e i t)).
Proof using FsmSpin0. intros Hd. by apply (Spin_keeps i t). Qed.

Lemma Respond_silent r t : s_done t = true -> silent t (fst (Respond spin e r t)).
Proof using FsmSpin0.
  intros Hd. unfold Respond. destruct (response_IsCancel r); [done |].
  apply (Spin_silent _ (set_timer_1xx None (set_s_lastResp (Some r) t))). done.
Qed.

Lemma Receive_silent m t : s_done t = true -> silent t (fst (Receive spin e m t)).
Proof using FsmSpin0.
  intros Hd. unfold Receive. destruct m as [q|r]; [| done].
  set (x := set_timer_1xx None t).
  assert (forall y, s_done y = true -> silent t y -> forall i, silent t (fst (Spin spin e i y))) as H.
  { intros y Hy (S1 & S2 & S3 & S4) i. destruct (Spin_silent i y Hy) as (D1 & D2 & D3 & D4).
    split_and!; congruence. }
  repeat case_match; try (by apply H). done.
Qed.

Lemma server_step_silent ev t t' : s_done t = true -> server_step spin e ev t = Some t' -> silent t t'.
Proof using FsmSpin0.
  intros Hd Hs. unfold server_step in Hs. destruct (s_crashed t); [done |].
  destruct ev as [m | r | | k | n].
  - simplify_eq. by apply Receive_silent.
  - simplify_eq. by apply Respond_silent.
  - simplify_eq. unfold Terminate. by rewrite Hd.
  - destruct (is_armed _); simplify_eq. by destruct k.
  - apply bind_Some in Hs as ([x rest] & _ & [= <-]). destruct x as [i|[i|]]; cbn [run_task].
    + cbn [set_s_tasks s_done]. by rewrite Hd.
    + by apply (Spin_silent i (set_s_tasks rest t)).
    + unfold respond_trying. destruct (NewResponseFromRequest _ _ _ _ _ _); try done.
      by apply (Respond_silent _ (set_s_tasks rest t)).
Qed.

Lemma server_run_silent evs t t' : s_done t = true -> server_run spin e evs t = Some t' -> silent t t'.
Proof using FsmSpin0.
  revert t. induction evs as [|ev evs IH]; intros t Hd H; [by injection H as <- |].
  apply bind_Some in H as (t1 & H1 & H2). destruct (server_step_silent _ _ _ Hd H1) as (D1 & R1 & C1 & E1).
  destruct (IH _ D1 H2) as (D2 & R2 & C2 & E2). split_and!; congruence.
Qed.

(** ** Initialised transactions *)

Definition started (origin : request) (reliable : bool) : serverTx :=
  Init (new_serverTx origin reliable).

Lemma started_facts origin reliable :
  let t := started origin reliable in
  s_origin t = origin /\ s_reliable t = reliable /\ s_tasks t = [] /\ s_done t = false /\
  s_crashed t = false /\ s_fsm t = initial_state origin /\ timer_h t = None /\ timer_g t = None /\
  timer_l t = None /\ s_lastResp t = None /\
  (reliable = false -> timer_g_time t = Timer_G).
Proof using.
  intros t. unfold t, started, Init. cbn. destruct reliable; cbn; destruct (IsInvite origin); by cbn.
Qed.

Lemma server_reach_origin allowed origin reliable t :
  sreach spin e allowed (started origin reliable) t -> s_origin t = origin /\ s_reliable t = reliable.
Proof using FsmSpin0.
  induction 1 as [| t ev t' Hr [IH1 IH2] Ha Hs].
  { by destruct (started_facts origin reliable) as (-> & -> & _). }
  assert (forall i x, s_origin (fst (Spin spin e i x)) = s_origin x /\
                      s_reliable (fst (Spin spin e i x)) = s_reliable x) as H
    by (intros i x; by destruct (Spin_keeps i x) as (-> & -> & _)).
  assert (forall r x, s_origin (fst (Respond spin e r x)) = s_origin x /\
                      s_reliable (fst (Respond spin e r x)) = s_reliable x) as Hresp.
  { intros r x. unfold Respond. destruct (response_IsCancel r); [done |].
    by destruct (H (response_input r) (set_timer_1xx None (set_s_lastResp (Some r) x))) as [-> ->]. }
  unfold server_step in Hs. destruct (s_crashed t); [done |]. destruct ev as [m | r | | k | n].
  - simplify_eq. unfold Receive. destruct m as [q|r]; [| done].
    repeat case_match; try done; cbn [fst]; by match goal with
    | |- context [Spin spin e ?i ?x] => destruct (H i x) as [-> ->] end.
  - simplify_eq. by destruct (Hresp r t) as [-> ->].
  - simplify_eq. unfold Terminate, delete. by destruct (s_done t).
  - destruct (is_armed _); simplify_eq. by destruct k.
  - apply bind_Some in Hs as ([x rest] & _ & [= <-]). destruct x as [i|[i|]]; cbn [run_task].
    + cbn [set_s_tasks s_done]. by destruct (s_done t).
    + by destruct (H i (set_s_tasks rest t)) as [-> ->].
    + unfold respond_trying. destruct (NewResponseFromRequest _ _ _ _ _ _) as [r| |]; try done.
      by destruct (Hresp r (set_s_tasks rest t)) as [-> ->].
Qed.

Lemma server_started_tasks origin reliable : tasks_ok (started origin reliable).
Proof using.
  unfold tasks_ok. destruct (started_facts origin reliable) as (_ & _ & -> & _). constructor.
Qed.

(** An invariant of initialised transactions. *)
Lemma server_reached allowed P origin reliable t :
  preserved allowed P -> P (started origin reliable) ->
  sreach spin e allowed (started origin reliable) t -> P t.
Proof using FsmSpin0.
  intros HP H0 Hr. eapply (sreach_inv allowed P); [done | apply server_started_tasks | exact H0 | exact Hr].
Qed.

Lemma server_started_term_done origin reliable : term_done (started origin reliable).
Proof using.
  unfold term_done. destruct (started_facts origin reliable) as (_ & _ & _ & _ & _ & -> & _).
  unfold initial_state. by destruct (IsInvite origin).
Qed.

Lemma server_started_done_term origin reliable : done_term (started origin reliable).
Proof using.
  intros Hd. destruct (started_facts origin reliable) as (_ & _ & _ & Hd' & _). congruence.
Qed.

Lemma started_no_timer_l origin reliable : no_timer_l (started origin reliable).
Proof using.
  destruct (started_facts origin reliable) as (_ & _ & Ht & _ & _ & _ & _ & _ & Hl & _).
  intros _. rewrite Ht, Hl. by split.
Qed.

Lemma server_started_guarded sure origin reliable : guarded sure (started origin reliable).
Proof using.
  destruct (started_facts origin reliable) as (Ho & _ & _ & _ & _ & Hf & Hh & _).
  split; [by rewrite Hh |]. intros _ _ k. rewrite Hf, Ho. unfold initial_state.
  by destruct (IsInvite origin).
Qed.

Lemma started_timer_g origin reliable : timer_g_bounded (started origin reliable).
Proof using.
  destruct (started_facts origin reliable) as (_ & Hr & _ & _ & _ & _ & _ & Hg & _ & _ & Ht).
  intros Hrel. rewrite Hr in Hrel. rewrite Hg, Ht by done.
  split; [unfold Timer_G, T1, T2, Second, Millisecond; lia | done].
Qed.

Lemma server_started_safe origin reliable : trying_ok origin -> safe (started origin reliable).
Proof using.
  intros Ht. destruct (started_facts origin reliable) as (Ho & _ & _ & Hd & Hc & _).
  unfold safe. by rewrite Ho, Hd, Hc.
Qed.

(** ** Retransmissions and ACKs *)

(** One outcome whose action returns NO_INPUT. *)
Lemma Spin_one i t c' act t' :
  server_fsm e t (s_fsm t) i = Some (c', act) -> act t = (t', None) ->
  Spin spin e i t = (set_s_fsm c' t', true).
Proof using FsmSpin0.
  intros Hf Ha. unfold Spin. rewrite (spin_run _ _ _ (server_fsm e t) (Some i) (s_fsm t) t (c', t', true)).
  - done.
  - unfold max_chain. cbn [run]. rewrite Hf, Ha. done.
Qed.

(** The response that a request gets again. *)
Definition answered (t : serverTx) (r : response) : Prop :=
  (s_fsm t = server_state_proceeding \/ s_fsm t = server_state_completed) /\ s_lastResp t = Some r.

Lemma answered_outcome t r :
  answered t r -> server_fsm e t (s_fsm t) server_input_request = Some (s_fsm t, act_respond e).
Proof using.
  intros [[-> | ->] _]; unfold server_fsm; by destruct (IsInvite (s_origin t)).
Qed.

Lemma retransmission req r t :
  answered t r -> method req = method (s_origin t) ->
  e_send e (length (s_sent t)) (MResponse r) = None ->
  let t' := fst (Receive spin e (MRequest req) t) in
  s_sent t' = s_sent t ++ [MResponse r] /\ s_fsm t' = s_fsm t /\ s_lastResp t' = Some r /\
  s_acks t' = s_acks t /\ s_cancels t' = s_cancels t /\ s_errs t' = s_errs t.
Proof using FsmSpin0.
  intros Ha Hm Hs t'. unfold t', Receive. cbn [set_timer_1xx s_origin]. rewrite Hm, streq_refl.
  set (x := set_timer_1xx None t). assert (answered x r) as Hx by done.
  assert (s_sent x = s_sent t /\ s_fsm x = s_fsm t /\ s_acks x = s_acks t /\ s_cancels x = s_cancels t /\
          s_errs x = s_errs t) as (E1 & E2 & E3 & E4 & E5) by done. clearbody x.
  pose proof (answered_outcome x r Hx) as Ho. destruct Hx as [_ Hl].
  assert (act_respond e x = (set_s_lastErr None (set_s_sent (s_sent x ++ [MResponse r]) x), None)) as Hact.
  { unfold act_respond, send_last, Send. rewrite Hl, E1, Hs. done. }
  rewrite (Spin_one _ _ _ _ _ Ho Hact). cbn. rewrite E1, E2, E3, E4, E5. by split_and!.
Qed.

Lemma ack_confirms req t :
  IsInvite (s_origin t) = true -> s_fsm t = server_state_completed -> s_done t = false ->
  request_IsAck req = true ->
  let t' := fst (Receive spin e (MRequest req) t) in
  s_fsm t' = server_state_confirmed /\ s_acks t' = s_acks t ++ [req] /\ s_sent t' = s_sent t /\
  timer_g t' = None /\ timer_h t' = None /\ timer_i t' = AfterFunc Timer_I.
Proof using FsmSpin0.
  intros Hi Hf Hd Ha t'. unfold t', Receive. cbn [set_timer_1xx s_origin].
  assert (streq (method req) (method (s_origin t)) = false) as ->.
  { apply streq_neq. unfold IsInvite, request_IsAck in *. simp_bool.
    assert (ACK <> INVITE) by done. congruence. }
  rewrite Ha. set (x := set_lastAck _ _).
  assert (s_origin x = s_origin t /\ s_sent x = s_sent t /\ s_fsm x = s_fsm t /\ s_acks x = s_acks t /\
          s_done x = s_done t /\ lastAck x = Some req) as (E0 & E1 & E2 & E3 & E4 & E5) by done.
  clearbody x.
  assert (server_fsm e x (s_fsm x) server_input_ack = Some (server_state_confirmed, act_confirm e)) as Ho.
  { unfold server_fsm. by rewrite E0, Hi, E2, Hf. }
  set (y := set_timer_i (AfterFunc Timer_I) (set_timer_h None (set_timer_g None x))).
  assert (act_confirm e x = (set_s_acks (s_acks y ++ [req]) y, None)) as Hact.
  { unfold act_confirm, select_send. fold y.
    assert (lastAck y = Some req) as -> by done. assert (s_done y = false) as -> by (cbn; congruence). done. }
  rewrite (Spin_one _ _ _ _ _ Ho Hact). unfold y. cbn. rewrite E1, E3. by split_and!.
Qed.

(** In Completed a further response is not sent, but it replaces the one that
    retransmissions are answered with. *)
Lemma completed_respond r t :
  s_fsm t = server_state_completed -> response_IsCancel r = false ->
  let t' := fst (ServerTx.Respond spin e r t) in
  s_sent t' = s_sent t /\ answered t' r /\ s_origin t' = s_origin t.
Proof using FsmSpin0.
  intros Hf Hr t'. unfold t', Respond. rewrite Hr. set (x := set_timer_1xx _ _).
  assert (s_sent x = s_sent t /\ s_fsm x = s_fsm t /\ s_lastResp x = Some r /\ s_origin x = s_origin t)
    as (E1 & E2 & E3 & E4) by done. clearbody x.
  assert (server_fsm e x (s_fsm x) (response_input r) = Some (server_state_completed, NO_ACTION)) as Ho.
  { rewrite E2, Hf. unfold server_fsm, response_input.
    destruct (IsInvite _), (IsProvisional r), (IsSuccess r); done. }
  rewrite (Spin_one _ _ _ _ _ Ho eq_refl). cbn. rewrite E1. split_and!; try done. split; [by right | done].
Qed.

End server.

End ServerInv.
