(* ===== verification/ClientTheorems.v ===== *)
(** * What client transactions guarantee

    The properties of the client transactions of src/transaction/client_tx.go,
    for every implementation of the state machine library that keeps its law,
    every behaviour of the transport and every interleaving of responses,
    timers, goroutines and the user's calls. *)

From S2P Require Import Prelude GoStrings Escape Params Headers HeaderStore Message ParserCommon Packet TxKeys Fsm Samples ClientTx ClientInv.
From stdpp Require Import options.
Import Params Headers HeaderStore Message Packet TxKeys Fsm Samples ClientTx ClientInv.

Module ClientTheorems.

(** Any event may happen; any but the user's [Terminate]. *)
Definition anything (_ : client_event) : Prop := True.
Definition unterminated (ev : client_event) : Prop := ev <> CTerminate.

(** Executions of the samples: one that ends by timeout, one that is answered. *)
Definition register_timeout : clientTx :=
  after run_spin good_env [CFire TimerB; CRun 0; CRun 0] (started run_spin good_env sample_register false).

Definition invite_ringing : clientTx :=
  after run_spin good_env [CReceive (MResponse ringing)]
    (started run_spin good_env sample_invite false).

Lemma anything_all evs : Forall anything evs.
Proof. by apply Forall_true. Qed.

(** C6: In every state a client transaction reaches, unless the user terminates
    it from outside, it is in the terminated state exactly when it is done: when
    its [done] channel is closed and the layer forgets it. *)
Theorem client_terminated_iff_done spin `{!FsmSpin spin} e origin reliable t :
  creach spin e unterminated (started spin e origin reliable) t ->
  c_fsm t = client_state_terminated <-> c_done t = true.
Proof.
  intros Hr. split.
  - by eapply (reached spin e anything term_done), creach_weaken, Hr; auto using started_term_done, preserved_term_done.
  - eapply (reached spin e unterminated done_term), Hr; auto using started_done_term, preserved_done_term.
Qed.

Lemma client_terminated_iff_done_witness :
  c_fsm register_timeout = client_state_terminated /\ c_done register_timeout = true.
Proof.
  assert (c_fsm register_timeout = client_state_terminated) as H by (vm_compute; reflexivity).
  split; [exact H |].
  apply (client_terminated_iff_done run_spin good_env sample_register false register_timeout); [| exact H].
  apply after_reach. by repeat constructor.
Defined.

(** C7: Once a client transaction is done it stays done, and whatever happens
    after that (late responses, timers, goroutines, the user's calls) the user
    gets no response and no error from it any more. *)
Theorem client_silent_after_done spin `{!FsmSpin spin} e evs t t' :
  c_done t = true -> client_run spin e evs t = Some t' ->
  c_done t' = true /\ c_responses t' = c_responses t /\ c_errs t' = c_errs t.
Proof. apply run_silent; exact _. Qed.

Lemma client_silent_after_done_witness :
  exists t', client_run run_spin good_env [CReceive (MResponse registered); CCancel] register_timeout = Some t' /\
    c_errs t' = [TxTimeoutError].
Proof.
  destruct (client_run run_spin good_env [CReceive (MResponse registered); CCancel] register_timeout)
    as [t'|] eqn:E; [| vm_compute in E; discriminate E].
  exists t'. split; [reflexivity |].
  destruct (client_silent_after_done run_spin good_env _ register_timeout t'
              ltac:(vm_compute; reflexivity) E) as (_ & _ & ->).
  vm_compute. reflexivity.
Defined.

(** C19: A non-INVITE client transaction passes at most one final response to
    the user, and none before it is completed. *)
Theorem client_non_invite_one_final spin `{!FsmSpin spin} e origin reliable t :
  IsInvite origin = false ->
  creach spin e anything (started spin e origin reliable) t ->
  finals (c_responses t) <= 1 /\
  (c_fsm t = client_state_calling \/ c_fsm t = client_state_proceeding -> finals (c_responses t) = 0).
Proof.
  intros Hi Hr.
  assert (one_final t) as H
    by (eapply (reached spin e anything one_final), Hr; auto using started_one_final, preserved_one_final).
  destruct (reach_origin spin e _ _ _ _ Hr) as [Ho _].
  rewrite <- Ho in Hi. specialize (H Hi).
  destruct (c_fsm t); cbn in H; split; try lia; intros [?|?]; done.
Qed.

(** A REGISTER that is answered twice. *)
Definition register_answered : clientTx :=
  after run_spin good_env [CReceive (MResponse reg_trying); CReceive (MResponse registered);
      CReceive (MResponse forbidden)] (started run_spin good_env sample_register false).

Lemma client_non_invite_one_final_witness :
  length (c_responses register_answered) = 2 /\ finals (c_responses register_answered) <= 1.
Proof.
  split; [vm_compute; reflexivity |].
  apply (client_non_invite_one_final run_spin good_env sample_register false register_answered).
  - vm_compute. reflexivity.
  - apply after_reach, anything_all.
Defined.

(** C20: The timers alone can end a transaction that is not stuck: from every
    reachable state of a non-INVITE transaction, and from Calling and
    Completed of an INVITE transaction, at most three steps of its timer and
    the timer's goroutine, with no help from the peer or the user, close it. *)
Theorem client_timers_end spin `{!FsmSpin spin} e origin reliable t :
  creach spin e anything (started spin e origin reliable) t ->
  c_crashed t = false -> c_done t = false ->
  IsInvite origin = false \/ c_fsm t = client_state_calling \/ c_fsm t = client_state_completed ->
  exists evs t', forallb timer_event evs = true /\ length evs <= 3 /\
    client_run spin e evs t = Some t' /\ c_done t' = true.
Proof.
  intros Hr Hc Hd Hs.
  assert (guarded t) as Hg
    by (eapply (reached spin e anything), Hr; auto using started_guarded, preserved_guarded).
  assert (no_timer_m t) as [_ Hm]
    by (eapply (reached spin e anything), Hr; auto using started_no_timer_m, preserved_no_timer_m).
  assert (term_done t) as Ht
    by (eapply (reached spin e anything), Hr; auto using started_term_done, preserved_term_done).
  destruct (reach_origin spin e _ _ _ _ Hr) as [Ho _].
  destruct (watch (IsInvite (c_origin t)) (c_fsm t)) as [k|] eqn:Ek; [by apply (guarded_to_done spin e k) |].
  unfold term_done in Ht. rewrite Ho in *. destruct (c_fsm t), (IsInvite origin); try discriminate Ek;
    try (by destruct Hm); try (by specialize (Ht eq_refl); congruence); naive_solver.
Qed.

Lemma client_timers_end_witness :
  exists evs t', length evs <= 3 /\ client_run run_spin good_env evs register_answered = Some t' /\
    c_done t' = true.
Proof.
  destruct (client_timers_end run_spin good_env sample_register false register_answered)
    as (evs & t' & _ & Hl & Hr & Hd).
  - apply after_reach, anything_all.
  - vm_compute. reflexivity.
  - vm_compute. reflexivity.
  - left. vm_compute. reflexivity.
  - exists evs, t'. split; [exact Hl |]. split; [exact Hr | exact Hd].
Defined.

(** C39: The retransmission interval of a non-INVITE request over an unreliable
    transport stays between T1 and T2 however often it doubles (no overflow of
    the 64-bit duration), and the running timer A has that interval. *)
Theorem client_timer_a_bounds spin `{!FsmSpin spin} e origin t :
  IsInvite origin = false ->
  creach spin e anything (started spin e origin false) t -> c_done t = false ->
  (T1 <= timer_a_time t <= T2)%Z /\ forall tm, timer_a t = Some tm -> dur tm = timer_a_time t.
Proof.
  intros Hi Hr Hd. destruct (reach_origin spin e _ _ _ _ Hr) as [Ho Hre].
  assert (timer_a_bounded t) as H
    by (eapply (reached spin e anything), Hr; auto using started_timer_a, preserved_timer_a).
  apply H; [by rewrite Ho | done | done].
Qed.

(** Five retransmissions: 0.5 s, 1 s, 2 s, 4 s, 4 s. *)
Definition register_retried : clientTx :=
  after run_spin good_env (concat (repeat [CFire TimerA; CRun 0; CRun 0] 5))
    (started run_spin good_env sample_register false).

Lemma client_timer_a_bounds_witness :
  length (c_sent register_retried) = 6 /\ timer_a_time register_retried = T2 /\
  (T1 <= timer_a_time register_retried <= T2)%Z.
Proof.
  split; [vm_compute; reflexivity |]. split; [vm_compute; reflexivity |].
  apply (client_timer_a_bounds run_spin good_env sample_register register_retried).
  - vm_compute. reflexivity.
  - apply after_reach, anything_all.
  - vm_compute. reflexivity.
Defined.


Definition busy_events : list client_event :=
  [CFire TimerA; CReceive (MResponse ringing); CRun 0; CCancel; CReceive (MResponse busy);
   CRun 0; CReceive (MResponse busy); CFire TimerD; CRun 0; CRun 0].


(** C33: A non-2xx final response to an INVITE is acknowledged: the ACK for it
    is sent, the response is passed up and timer D replaces timers A and B; a
    retransmission of the response is acknowledged again but not passed up. *)
Theorem client_invite_rejection_acked spin `{!FsmSpin spin} e t r a :
  IsInvite (c_origin t) = true -> rejects r = true -> ack_for e t r = Ok a ->
  let t' := fst (Receive spin e (MResponse r) t) in
  ((c_fsm t = client_state_calling \/ c_fsm t = client_state_proceeding) ->
   c_done t = false -> c_crashed t = false ->
   c_fsm t' = client_state_completed /\ c_sent t' = c_sent t ++ [MRequest a] /\
   c_responses t' = c_responses t ++ [r] /\ timer_a t' = None /\ timer_b t' = None /\
   timer_d t' = AfterFunc (timer_d_time t)) /\
  (c_fsm t = client_state_completed ->
   c_fsm t' = client_state_completed /\ c_sent t' = c_sent t ++ [MRequest a] /\
   c_responses t' = c_responses t).
Proof.
  intros Hi Hr Ha t'. split; [intros Hf Hd Hc; by apply first_rejection | intros Hf; by apply next_rejection].
Qed.

Lemma client_invite_rejection_acked_witness :
  exists a, ack_for good_env invite_ringing busy = Ok a /\
    c_sent (fst (Receive run_spin good_env (MResponse busy) invite_ringing)) =
    c_sent invite_ringing ++ [MRequest a].
Proof.
  destruct (ack_for good_env invite_ringing busy) as [a| |] eqn:E; try (vm_compute in E; discriminate E).
  exists a. split; [reflexivity |].
  destruct (client_invite_rejection_acked run_spin good_env invite_ringing busy a
              ltac:(vm_compute; reflexivity) ltac:(vm_compute; reflexivity) E) as [H _].
  destruct H as (_ & H & _); [right | | | exact H]; vm_compute; reflexivity.
Defined.

(** An INVITE transaction that gets a provisional response and then a 2xx
    is never done, whatever happens, unless the user terminates it: Accepted
    is entered with timer D instead of timer M, and timer D has no outcome
    there, so the layer keeps the transaction for ever. *)
Theorem client_accepted_never_ends spin `{!FsmSpin spin} e origin reliable t r t' :
  IsInvite origin = true ->
  creach spin e anything (started spin e origin reliable) t ->
  c_fsm t = client_state_proceeding -> c_done t = false ->
  IsSuccess r = true -> response_IsCancel r = false ->
  creach spin e unterminated (fst (Receive spin e (MResponse r) t)) t' ->
  c_done t' = false /\ c_fsm t' = client_state_accepted.
Proof.
  intros Hi Hr Hf Hd Hs Hc Hr'. destruct (reach_origin spin e _ _ _ _ Hr) as [Ho _].
  assert (no_timer_m t) as Hm
    by (eapply (reached spin e anything), Hr; auto using started_no_timer_m, preserved_no_timer_m).
  assert (tasks_internal t) as Hti
    by (eapply (reached spin e anything), Hr; auto using started_tasks, preserved_tasks).
  assert (orphan t') as (_ & H1 & H2 & _); [| done].
  eapply (creach_inv spin e unterminated), Hr'; [apply preserved_orphan; exact _ | |].
  - unfold Receive. rewrite Hc. by apply Spin_tasks_internal.
  - apply proceeding_accept; [exact _ | by rewrite Ho | done..].
Qed.

Lemma client_accepted_never_ends_witness :
  c_done (after run_spin good_env [CFire TimerD; CRun 0; CRun 0]
            (fst (Receive run_spin good_env (MResponse accepted) invite_ringing))) = false.
Proof.
  apply (client_accepted_never_ends run_spin good_env sample_invite false invite_ringing accepted).
  - vm_compute. reflexivity.
  - apply after_reach, anything_all.
  - vm_compute. reflexivity.
  - vm_compute. reflexivity.
  - vm_compute. reflexivity.
  - vm_compute. reflexivity.
  - apply after_reach. by repeat constructor.
Defined.

(** A non-INVITE transaction over an unreliable transport panics when a
    provisional response arrives while the callback of timer A is on its way:
    the response stops timer A and forgets it, and the callback resets it. *)
Theorem client_timer_a_race_panics spin `{!FsmSpin spin} e t n l :
  IsInvite (c_origin t) = false -> c_fsm t = client_state_proceeding -> timer_a t = None ->
  c_crashed t = false -> pick_task n (c_tasks t) = Some (Spinning client_input_timer_a, l) ->
  exists t', client_step spin e (CRun n) t = Some t' /\ c_crashed t' = true.
Proof. apply timer_a_race; exact _. Qed.

Definition register_race : clientTx :=
  after run_spin good_env [CFire TimerA; CRun 0; CReceive (MResponse reg_trying)]
    (started run_spin good_env sample_register false).

Lemma client_timer_a_race_panics_witness :
  exists t', client_step run_spin good_env (CRun 0) register_race = Some t' /\ c_crashed t' = true.
Proof.
  apply (client_timer_a_race_panics run_spin good_env register_race 0 []);
    vm_compute; reflexivity.
Defined.

End ClientTheorems.
