(* ===== verification/ServerTheorems.v ===== *)
(** * What server transactions guarantee

    The properties of the server transactions of src/transaction/server_tx.go,
    under the same generality as those of the client transactions. *)

From S2P Require Import Prelude GoStrings Escape Params Headers HeaderStore Message ParserCommon Packet TxKeys Fsm Samples ServerTx ServerInv.
From stdpp Require Import options.
Import Params Headers HeaderStore Message Packet TxKeys Fsm Samples ServerTx ServerInv.

Module ServerTheorems.

Definition anything (_ : server_event) : Prop := True.
Definition unterminated (ev : server_event) : Prop := ev <> STerminate.

Lemma server_anything_all evs : Forall anything evs.
Proof. by apply Forall_true. Qed.

Definition invited : serverTx := started sample_invite false.

(** The user rejected the call; the client acknowledged it; the end. *)
Definition rejected : serverTx := after run_spin good_env [SRespond busy] invited.

Definition confirmed_end : serverTx :=
  after run_spin good_env [SReceive (MRequest sample_ack); SFire TimerI; SRun 0; SRun 0] rejected.

Lemma rejected_reach : sreach run_spin good_env anything invited rejected.
Proof. apply server_after_reach, server_anything_all. Qed.

Lemma confirmed_end_eq :
  confirmed_end = after run_spin good_env
    [SRespond busy; SReceive (MRequest sample_ack); SFire TimerI; SRun 0; SRun 0] invited.
Proof. vm_compute. reflexivity. Qed.

(** C21: In every state a server transaction reaches, unless the user terminates
    it from outside, it is in the terminated state exactly when it is done. *)
Theorem server_terminated_iff_done spin `{!FsmSpin spin} e origin reliable t :
  sreach spin e unterminated (started origin reliable) t ->
  s_fsm t = server_state_terminated <-> s_done t = true.
Proof.
  intros Hr. split.
  - by eapply (server_reached spin e anything term_done), sreach_weaken, Hr; auto using server_started_term_done, server_preserved_term_done.
  - eapply (server_reached spin e unterminated done_term), Hr; auto using server_started_done_term, server_preserved_done_term.
Qed.

Lemma server_terminated_iff_done_witness :
  s_fsm confirmed_end = server_state_terminated /\ s_done confirmed_end = true.
Proof.
  assert (s_fsm confirmed_end = server_state_terminated) as H by (vm_compute; reflexivity).
  split; [exact H |].
  apply (server_terminated_iff_done run_spin good_env sample_invite false confirmed_end); [| exact H].
  rewrite confirmed_end_eq. apply server_after_reach. by repeat constructor.
Defined.

(** Once a server transaction is done it stays done, and the user gets no
    ACK, no CANCEL and no error from it any more, whatever happens. *)
Theorem server_silent_after_done spin `{!FsmSpin spin} e evs t t' :
  s_done t = true -> server_run spin e evs t = Some t' ->
  s_done t' = true /\ s_acks t' = s_acks t /\ s_cancels t' = s_cancels t /\ s_errs t' = s_errs t.
Proof. apply server_run_silent; exact _. Qed.

Lemma server_silent_after_done_witness :
  exists t', server_run run_spin good_env
      [SReceive (MRequest sample_ack); SReceive (MRequest sample_cancel)] confirmed_end = Some t' /\
    s_acks t' = [sample_ack] /\ s_cancels t' = [].
Proof.
  destruct (server_run run_spin good_env [SReceive (MRequest sample_ack); SReceive (MRequest sample_cancel)]
              confirmed_end) as [t'|] eqn:E; [| vm_compute in E; discriminate E].
  exists t'. split; [reflexivity |].
  destruct (server_silent_after_done run_spin good_env _ confirmed_end t'
              ltac:(vm_compute; reflexivity) E) as (_ & -> & -> & _).
  split; vm_compute; reflexivity.
Defined.

(** C22: After a final response the timers alone can end a server transaction:
    from Completed, from Confirmed, and, when the transport accepts every
    send, from Accepted, at most three steps of the state's timer close it. *)
Theorem server_timers_end spin `{!FsmSpin spin} e origin reliable t :
  sreach spin e anything (started origin reliable) t ->
  s_crashed t = false -> s_done t = false ->
  s_fsm t = server_state_completed \/
  (IsInvite origin = true /\ s_fsm t = server_state_confirmed) \/
  (IsInvite origin = true /\ s_fsm t = server_state_accepted /\ forall n m, e_send e n m = None) ->
  exists evs t', forallb timer_event evs = true /\ length evs <= 3 /\
    server_run spin e evs t = Some t' /\ s_done t' = true.
Proof.
  intros Hr Hc Hd Hs. destruct (server_reach_origin spin e _ _ _ _ Hr) as [Ho _].
  assert (forall sure, sends_ok e sure -> guarded sure t) as Hg
    by (intros sure Hsure; eapply (server_reached spin e anything), Hr; auto using server_started_guarded, server_preserved_guarded).
  assert (forall sure k i, sends_ok e sure -> watch sure (IsInvite (s_origin t)) (s_fsm t) = Some k ->
            timer_task k = SpinInput i ->
            exists evs t', forallb timer_event evs = true /\ length evs <= 3 /\
              server_run spin e evs t = Some t' /\ s_done t' = true) as Hend
    by (intros sure k i Hsure Hw Hk; by eapply (server_guarded_to_done spin e sure k i); auto).
  rewrite Ho in Hend. destruct Hs as [Hs|[[Hi Hs]|(Hi & Hs & Hok)]]; rewrite Hs in Hend.
  - destruct (IsInvite origin); by eapply (Hend false); [intros [=] | |].
  - rewrite Hi in Hend. by eapply (Hend false); [intros [=] | |].
  - rewrite Hi in Hend. by eapply (Hend true); [intros _ | |].
Qed.

Lemma server_timers_end_witness :
  exists evs t', length evs <= 3 /\ server_run run_spin good_env evs rejected = Some t' /\ s_done t' = true.
Proof.
  destruct (server_timers_end run_spin good_env sample_invite false rejected)
    as (evs & t' & _ & Hl & Hr & Hd).
  - exact rejected_reach.
  - vm_compute. reflexivity.
  - vm_compute. reflexivity.
  - left. vm_compute. reflexivity.
  - exists evs, t'. split; [exact Hl |]. split; [exact Hr | exact Hd].
Defined.

(** The retransmission interval of a final response over an unreliable
    transport stays between T1 and T2, and timer G runs with that interval. *)
Theorem server_timer_g_bounds spin `{!FsmSpin spin} e origin t :
  sreach spin e anything (started origin false) t ->
  (T1 <= timer_g_time t <= T2)%Z /\ forall tm, timer_g t = Some tm -> dur tm = timer_g_time t.
Proof.
  intros Hr. destruct (server_reach_origin spin e _ _ _ _ Hr) as [_ Hre].
  assert (timer_g_bounded t) as H
    by (eapply (server_reached spin e anything), Hr; auto using started_timer_g, preserved_timer_g).
  by apply H.
Qed.

Definition rejected_retried : serverTx :=
  after run_spin good_env (SRespond busy :: concat (repeat [SFire TimerG; SRun 0; SRun 0] 5)) invited.

Lemma server_timer_g_bounds_witness :
  length (s_sent rejected_retried) = 6 /\ timer_g_time rejected_retried = T2 /\
  (T1 <= timer_g_time rejected_retried <= T2)%Z.
Proof.
  split; [vm_compute; reflexivity |]. split; [vm_compute; reflexivity |].
  apply (server_timer_g_bounds run_spin good_env sample_invite rejected_retried).
  apply server_after_reach, server_anything_all.
Defined.

Lemma shown_trying_ok rq : request_shown rq = Ok tt -> trying_ok rq.
Proof.
  unfold request_shown. intros (t & Ht & (s & Hs & (d & Hd & _)%bind_Ok)%bind_Ok)%bind_Ok u.
  unfold NewResponseFromRequest. by rewrite Ht, Hd, Hs.
Qed.

(** C35: A server transaction that [NewServerTx] made for a request, that gets
    requests only and that nobody terminates from outside, never panics. *)
Theorem server_orderly_never_panics spin `{!FsmSpin spin} e is_reliable rq key t0 t :
  NewServerTx is_reliable rq = Ok (key, t0) -> sreach spin e orderly (Init t0) t -> s_crashed t = false.
Proof.
  intros (_ & Hs & tr & _ & ->)%NewServerTx_Ok Hr. assert (safe t) as [H _]; [| exact H].
  eapply (server_reached spin e orderly), Hr; [by apply server_preserved_safe |].
  by apply server_started_safe, shown_trying_ok.
Qed.

Lemma server_orderly_never_panics_witness :
  let t := after run_spin good_env
             [SFire Timer1xx; SRun 0; SRun 0; SReceive (MRequest sample_invite);
              SReceive (MRequest sample_cancel); SRespond busy; SReceive (MRequest sample_ack);
              SFire TimerI; SRun 0; SRun 0; SReceive (MRequest sample_ack)] invited in
  length (s_sent t) = 3 /\ s_cancels t = [sample_cancel] /\ s_acks t = [sample_ack] /\
  s_crashed t = false.
Proof.
  intros t. split; [vm_compute; reflexivity |]. split; [vm_compute; reflexivity |].
  split; [vm_compute; reflexivity |].
  apply (server_orderly_never_panics run_spin good_env (fun _ => false) sample_invite
           "z9hG4bK776asdhds__pc33.atlanta.com__5066__INVITE" (new_serverTx sample_invite false) t).
  - vm_compute. reflexivity.
  - apply server_after_reach. by repeat constructor.
Defined.

(** A retransmitted request is answered with the last response, and it is
    not passed to the user again: nothing but the send changes. *)
Theorem server_absorbs_retransmission spin `{!FsmSpin spin} e t req r :
  answered t r -> method req = method (s_origin t) ->
  e_send e (length (s_sent t)) (MResponse r) = None ->
  let t' := fst (Receive spin e (MRequest req) t) in
  s_sent t' = s_sent t ++ [MResponse r] /\ s_fsm t' = s_fsm t /\ s_lastResp t' = Some r /\
  s_acks t' = s_acks t /\ s_cancels t' = s_cancels t /\ s_errs t' = s_errs t.
Proof. apply retransmission; exact _. Qed.

Lemma server_absorbs_retransmission_witness :
  s_sent (fst (Receive run_spin good_env (MRequest sample_invite) rejected)) =
  s_sent rejected ++ [MResponse busy].
Proof.
  apply (server_absorbs_retransmission run_spin good_env rejected sample_invite busy).
  - split; [right |]; vm_compute; reflexivity.
  - vm_compute. reflexivity.
  - vm_compute. reflexivity.
Defined.

(** The ACK of a rejected INVITE confirms the transaction: it is passed
    up, the retransmissions and the timeout stop, timer I starts, and nothing
    is sent. *)
Theorem server_ack_confirms spin `{!FsmSpin spin} e t req :
  IsInvite (s_origin t) = true -> s_fsm t = server_state_completed -> s_done t = false ->
  request_IsAck req = true ->
  let t' := fst (Receive spin e (MRequest req) t) in
  s_fsm t' = server_state_confirmed /\ s_acks t' = s_acks t ++ [req] /\ s_sent t' = s_sent t /\
  timer_g t' = None /\ timer_h t' = None /\ timer_i t' = AfterFunc Timer_I.
Proof. apply ack_confirms; exact _. Qed.

Lemma server_ack_confirms_witness :
  s_fsm (fst (Receive run_spin good_env (MRequest sample_ack) rejected)) = server_state_confirmed.
Proof.
  apply (server_ack_confirms run_spin good_env rejected sample_ack); vm_compute; reflexivity.
Defined.

(** A response the user sends after the final one is not sent then, but it
    takes the place of the final response: the next retransmission of the
    request is answered with it. *)
Theorem server_later_response_replaces_final spin `{!FsmSpin spin} e t r req :
  s_fsm t = server_state_completed -> response_IsCancel r = false ->
  method req = method (s_origin t) -> e_send e (length (s_sent t)) (MResponse r) = None ->
  let t1 := fst (Respond spin e r t) in
  s_sent t1 = s_sent t /\
  s_sent (fst (Receive spin e (MRequest req) t1)) = s_sent t ++ [MResponse r].
Proof.
  intros Hf Hr Hm Hs t1. destruct (completed_respond spin e r t Hf Hr) as (H1 & H2 & H3).
  split; [exact H1 |]. fold t1 in H1, H2, H3. rewrite <- H1.
  apply (retransmission spin e); [done | by rewrite H3 | by rewrite H1].
Qed.

(** The busy call is answered again: with 200. *)
Lemma server_later_response_replaces_final_witness :
  s_sent (fst (Receive run_spin good_env (MRequest sample_invite)
            (fst (Respond run_spin good_env accepted rejected)))) =
  [MResponse busy; MResponse accepted].
Proof.
  destruct (server_later_response_replaces_final run_spin good_env rejected accepted sample_invite) as [_ H];
    [vm_compute; reflexivity.. |]. exact H.
Defined.

(** A 2xx to an INVITE that the transport refuses leaves the transaction in
    Accepted without timer L: it is never done, whatever happens, unless the
    user terminates it. *)
Theorem server_refused_accept_never_ends spin `{!FsmSpin spin} e origin reliable t r err t' :
  IsInvite origin = true ->
  sreach spin e anything (started origin reliable) t ->
  s_fsm t = server_state_proceeding -> s_done t = false ->
  IsSuccess r = true -> response_IsCancel r = false ->
  e_send e (length (s_sent t)) (MResponse r) = Some err ->
  sreach spin e unterminated (fst (Respond spin e r t)) t' ->
  s_done t' = false /\ s_fsm t' = server_state_accepted.
Proof.
  intros Hi Hr Hf Hd Hs Hc Hse Hr'. destruct (server_reach_origin spin e _ _ _ _ Hr) as [Ho _].
  assert (no_timer_l t) as Hl
    by (eapply (server_reached spin e anything), Hr; auto using started_no_timer_l, preserved_no_timer_l).
  assert (tasks_ok t) as Ht by (eapply (server_reached spin e anything), Hr; auto using server_started_tasks, server_preserved_tasks).
  assert (orphan t') as (_ & H1 & H2 & _); [| done].
  eapply (sreach_inv spin e unterminated), Hr'; [apply server_preserved_orphan; exact _ | |].
  - unfold Respond. rewrite Hc. unfold tasks_ok.
    by destruct (Spin_keeps spin e (response_input r) (set_timer_1xx None (set_s_lastResp (Some r) t)))
      as (_ & _ & _ & -> & _).
  - eapply refused_accept; [exact _ | by rewrite Ho | done..].
Qed.

Lemma server_refused_accept_never_ends_witness :
  let e := env_failing_from 0 in
  s_done (after run_spin e [SReceive (MRequest sample_invite); SReceive (MRequest sample_ack)]
            (fst (Respond run_spin e accepted invited))) = false.
Proof.
  intros e.
  apply (server_refused_accept_never_ends run_spin e sample_invite false invited accepted
           (Errorf "write failed")); try (vm_compute; reflexivity).
  - constructor.
  - apply server_after_reach. by repeat constructor.
Defined.

End ServerTheorems.
