(* ===== verification/TxLayer.v ===== *)
(** * The transaction layer: src/transaction/layer.go

    The layer finds the transaction a message belongs to by its key and makes
    new ones.  Transactions are shared objects (the store, their timers and
    the user hold them), so they live in a heap [txs] under the number of
    their creation, and the store maps a key to a number.  [serving] are the
    running goroutines [serveTransaction].  The channels of the layer are the
    lists of what was sent on them; the user reads them.

    The goroutine [listenMessages] handles one message at a time.  A call of
    [Request] is taken apart where another goroutine can come in between: it makes
    the transaction and sends the request ([Request_init]), stores the transaction,
    and then waits for [listenMessages] to take it, or for the cancel signal
    ([request_step]).  [calls] are the calls under way. *)

From S2P Require Import Prelude GoStrings Escape Params Headers HeaderStore Message ParserCommon Packet TxKeys Fsm ClientTx ServerTx.
From stdpp Require Import options.
Import Params Headers HeaderStore Message Packet TxKeys Fsm.

Module TxLayer.

Inductive tx : Type :=
| TxClient (t : ClientTx.clientTx)
| TxServer (t : ServerTx.serverTx).

Definition tx_done (x : tx) : bool :=
  match x with TxClient t => ClientTx.c_done t | TxServer t => ServerTx.s_done t end.

Definition tx_crashed (x : tx) : bool :=
  match x with TxClient t => ClientTx.c_crashed t | TxServer t => ServerTx.s_crashed t end.

(** How far a call of [Request] has come. *)
Inductive stage : Type := Initialised | Stored.

Record layer : Type := mkLayer {
  txs : gmap nat (list ascii * tx);
  next : nat;
  transactions : gmap (list ascii) nat;
  serving : list nat;
  requests : list nat;
  acks : list request;
  responses : list response;
  tpl_sent : list msg;
  canceled : bool;
  listening : bool;
  calls : gmap nat stage
}.

Definition NewLayer : layer := mkLayer ∅ 0 ∅ [] [] [] [] [] false true ∅.

(** ** transactionStore *)

Definition put (key : TxKey) (n : nat) (l : layer) : layer :=
  mkLayer (txs l) (next l) (<[key := n]> (transactions l)) (serving l) (requests l) (acks l)
    (responses l) (tpl_sent l) (canceled l) (listening l) (calls l).

Definition get (key : TxKey) (l : layer) : option nat := transactions l !! key.

Definition drop (key : TxKey) (l : layer) : layer :=
  mkLayer (txs l) (next l) (base.delete key (transactions l)) (serving l) (requests l) (acks l)
    (responses l) (tpl_sent l) (canceled l) (listening l) (calls l).

Definition all (l : layer) : list nat := snd <$> map_to_list (transactions l).

(** ** The heap *)

Definition set_tx (n : nat) (key : TxKey) (x : tx) (l : layer) : layer :=
  mkLayer (<[n := (key, x)]> (txs l)) (next l) (transactions l) (serving l) (requests l) (acks l)
    (responses l) (tpl_sent l) (canceled l) (listening l) (calls l).

(** A new object. *)
Definition alloc (key : TxKey) (x : tx) (l : layer) : nat * layer :=
  (next l,
   mkLayer (<[next l := (key, x)]> (txs l)) (S (next l)) (transactions l) (serving l) (requests l)
     (acks l) (responses l) (tpl_sent l) (canceled l) (listening l) (calls l)).

(** [go txl.serveTransaction(tx)] *)
Definition serve (n : nat) (l : layer) : layer :=
  mkLayer (txs l) (next l) (transactions l) (serving l ++ [n]) (requests l) (acks l)
    (responses l) (tpl_sent l) (canceled l) (listening l) (calls l).

Definition pass_request (n : nat) (l : layer) : layer :=
  mkLayer (txs l) (next l) (transactions l) (serving l) (requests l ++ [n]) (acks l)
    (responses l) (tpl_sent l) (canceled l) (listening l) (calls l).

Definition pass_ack (r : request) (l : layer) : layer :=
  mkLayer (txs l) (next l) (transactions l) (serving l) (requests l) (acks l ++ [r])
    (responses l) (tpl_sent l) (canceled l) (listening l) (calls l).

Definition pass_response (r : response) (l : layer) : layer :=
  mkLayer (txs l) (next l) (transactions l) (serving l) (requests l) (acks l)
    (responses l ++ [r]) (tpl_sent l) (canceled l) (listening l) (calls l).

Definition tpl_Send (m : msg) (l : layer) : layer :=
  mkLayer (txs l) (next l) (transactions l) (serving l) (requests l) (acks l)
    (responses l) (tpl_sent l ++ [m]) (canceled l) (listening l) (calls l).

Definition set_call (n : nat) (c : option stage) (l : layer) : layer :=
  mkLayer (txs l) (next l) (transactions l) (serving l) (requests l) (acks l) (responses l) (tpl_sent l)
    (canceled l) (listening l) (partial_alter (fun _ => c) n (calls l)).

(** [Cancel] *)
Definition Cancel (l : layer) : layer :=
  mkLayer (txs l) (next l) (transactions l) (serving l) (requests l) (acks l)
    (responses l) (tpl_sent l) true (listening l) (calls l).

Section operations.

(** The state machine library, the environment of each transaction, and what
    the transport says about reliability. *)
Context (spin : spinner) (envs : nat -> env) (is_reliable : bytes -> bool) (uuid : nat -> bytes).

(** [getServerTx] and [getClientTx]: the number of the transaction, if the
    key can be made, is stored, and is a transaction of that kind. *)
Definition getServerTx (hs : headers) (l : layer) : res (option (nat * TxKey * ServerTx.serverTx)) :=
  match MakeServerTxKey hs with
  | Panic => Panic
  | Err _ => Ok None
  | Ok key =>
      match get key l with
      | None => Ok None
      | Some n =>
          match txs l !! n with
          | Some (k, TxServer t) => Ok (Some (n, k, t))
          | _ => Ok None
          end
      end
  end.

Definition getClientTx (hs : headers) (l : layer) : res (option (nat * TxKey * ClientTx.clientTx)) :=
  match MakeClientTxKey hs with
  | Panic => Panic
  | Err _ => Ok None
  | Ok key =>
      match get key l with
      | None => Ok None
      | Some n =>
          match txs l !! n with
          | Some (k, TxClient t) => Ok (Some (n, k, t))
          | _ => Ok None
          end
      end
  end.

(** A method of a transaction: a panic in it is a panic of the program. *)
Definition store_tx (n : nat) (k : TxKey) (x : tx) (l : layer) : res layer :=
  if tx_crashed x then Panic else Ok (set_tx n k x l).

(** The selects that pass something up: the user takes it ([taken]), or the layer
    is canceled while it waits. *)
Definition offer (taken : bool) (pass : layer -> layer) (l : layer) : layer := if taken then pass l else Cancel l.

Definition new_server (taken : bool) (req : request) (l : layer) : res layer :=
  match ServerTx.NewServerTx is_reliable req with
  | Panic => Panic
  | Err _ => Ok l
  | Ok (key, t) =>
      let '(n, l) := alloc key (TxServer (ServerTx.Init t)) l in
      Ok (offer taken (pass_request n) (serve n (put key n l)))
  end.

Definition reject_cancel (req : request) (l : layer) : res layer :=
  match NewResponseFromRequest (uuid (length (tpl_sent l))) [] req 481 "Transaction Does Not Exist" [] with
  | Ok r => Ok (tpl_Send (MResponse r) l)
  | _ => Panic
  end.

Definition handle_request (taken : bool) (req : request) (l : layer) : res layer :=
  if canceled l then Ok l
  else
    match getServerTx (hdrs (rq_msg req)) l with
    | Panic => Panic
    | Err _ => Ok l
    | Ok (Some (n, k, t)) =>
        store_tx n k (TxServer (fst (ServerTx.Receive spin (envs n) (MRequest req) t))) l
    | Ok None =>
        if request_IsAck req then Ok (offer taken (pass_ack req) l)
        else if request_IsCancel req then reject_cancel req l
        else new_server taken req l
    end.

(** ... with a user who takes what is passed up. *)
Definition handleRequest : request -> layer -> res layer := handle_request true.

Definition handle_response (taken : bool) (rs : response) (l : layer) : res layer :=
  if canceled l then Ok l
  else
    match getClientTx (hdrs (rs_msg rs)) l with
    | Panic => Panic
    | Err _ => Ok l
    | Ok (Some (n, k, t)) =>
        store_tx n k (TxClient (fst (ClientTx.Receive spin (envs n) (MResponse rs) t))) l
    | Ok None => Ok (offer taken (pass_response rs) l)
    end.

Definition handleResponse : response -> layer -> res layer := handle_response true.

(** The fields of a message that the transport passed up can be logged: its
    connection has set its transport, its source and its destination. *)
Definition handle_message (taken : bool) (m : msg) (l : layer) : res layer :=
  if canceled l then Ok l
  else match m with MRequest r => handle_request taken r l | MResponse r => handle_response taken r l end.

Definition handleMessage : msg -> layer -> res layer := handle_message true.

(** [Request] up to the return of [tx.Init]: the number of the transaction, which
    has sent its request and is not stored yet, or an error. *)
Definition Request_init (req : request) (l : layer) : res (nat * layer) :=
  if canceled l then Err (Errorf "transaction layer is canceled")
  else if request_IsAck req then Err (Errorf "ACK request must be sent directly through transport")
  else
    '(key, t) ← ClientTx.NewClientTx is_reliable (e_rnd (envs (next l)) 0) req;
    let '(t, err) := ClientTx.Init spin (envs (next l)) t in
    match err with
    | Some e => Err e
    | None => let '(n, l) := alloc key (TxClient t) l in Ok (n, set_call n (Some Initialised) l)
    end.

(** The rest of the call: it stores the transaction, and then [listenMessages]
    takes it and serves it, or the call gives up on the cancel signal and returns
    the transaction with an error. *)
Inductive request_event : Type := RStore | RTaken | RCanceled.

Definition request_step (ev : request_event) (n : nat) (l : layer) : option layer :=
  match ev, calls l !! n, txs l !! n with
  | RStore, Some Initialised, Some (key, _) => Some (set_call n (Some Stored) (put key n l))
  | RTaken, Some Stored, _ => if listening l then Some (set_call n None (serve n l)) else None
  | RCanceled, Some Stored, _ => if canceled l then Some (set_call n None l) else None
  | _, _, _ => None
  end.

(** A whole call of [Request] that nothing comes in between. *)
Definition Request (req : request) (l : layer) : res (nat * layer) :=
  '(n, l) ← Request_init req l;
  match request_step RStore n l ≫= request_step RTaken n with
  | Some l => Ok (n, l)
  | None => Err (Errorf "transaction layer is canceled")
  end.

(** [Respond]: the number of the transaction, the layer, and [err == nil].
    [getServerTx] logs the fields of the response. *)
Definition Respond (rs : response) (l : layer) : res (nat * layer * bool) :=
  if canceled l then Err (Errorf "transaction layer is canceled")
  else
    _ ← response_shown rs;
    found ← getServerTx (hdrs (rs_msg rs)) l;
    match found with
    | None => Err (Errorf "failed to match message to server transaction")
    | Some (n, k, t) =>
        let '(t, ok) := ServerTx.Respond spin (envs n) rs t in
        l ← store_tx n k (TxServer t) l;
        Ok (n, l, ok)
    end.

(** *** Steps of the goroutines *)

(** [serveTransaction] of transaction [n] returns: the transaction is done, or
    the layer is canceled and terminates it; its key is dropped. *)
Definition terminate (x : tx) : tx :=
  match x with
  | TxClient t => TxClient (ClientTx.Terminate t)
  | TxServer t => TxServer (ServerTx.Terminate t)
  end.

Definition stop_serving (n : nat) (l : layer) : layer :=
  mkLayer (txs l) (next l) (transactions l) (base.filter (fun k => k <> n) (serving l)) (requests l)
    (acks l) (responses l) (tpl_sent l) (canceled l) (listening l) (calls l).

(** [listenMessages] returns. *)
Definition listen_end (l : layer) : option layer :=
  if canceled l then
    Some (mkLayer (txs l) (next l) (transactions l) (serving l) (requests l) (acks l) (responses l) (tpl_sent l)
            (canceled l) false (calls l))
  else None.

Definition serve_step (n : nat) (l : layer) : option layer :=
  if bool_decide (n ∈ serving l) then
    match txs l !! n with
    | Some (k, x) =>
        if tx_done x then Some (stop_serving n (drop k l))
        else if canceled l then Some (stop_serving n (drop k (set_tx n k (terminate x) l)))
        else None
    | None => None
    end
  else None.

(** A step of transaction [n] on its own: a timer, a goroutine, the user. *)
Inductive tx_event : Type :=
| EClient (ev : ClientTx.client_event)
| EServer (ev : ServerTx.server_event).

Definition tx_step (n : nat) (ev : tx_event) (l : layer) : option (res layer) :=
  match txs l !! n, ev with
  | Some (k, TxClient t), EClient ev =>
      t' ← ClientTx.client_step spin (envs n) ev t; Some (store_tx n k (TxClient t') l)
  | Some (k, TxServer t), EServer ev =>
      t' ← ServerTx.server_step spin (envs n) ev t; Some (store_tx n k (TxServer t') l)
  | _, _ => None
  end.

(** ** Reachable states *)

Inductive layer_step : layer -> layer -> Prop :=
| ls_message taken m l l' : handle_message taken m l = Ok l' -> layer_step l l'
| ls_listen_end l l' : listen_end l = Some l' -> layer_step l l'
| ls_request r n l l' : Request_init r l = Ok (n, l') -> layer_step l l'
| ls_call ev n l l' : request_step ev n l = Some l' -> layer_step l l'
| ls_respond r n ok l l' : Respond r l = Ok (n, l', ok) -> layer_step l l'
| ls_cancel l : layer_step l (Cancel l)
| ls_serve n l l' : serve_step n l = Some l' -> layer_step l l'
| ls_tx n ev l l' : tx_step n ev l = Some (Ok l') -> layer_step l l'.

Definition reachable : layer -> Prop := rtc layer_step NewLayer.

End operations.

(** ** The invariant *)

(** The store maps a key to a transaction of that key.  It is being served, so that
    its end removes it; or its call of [Request] waits to hand it over; or the layer
    is canceled.  Objects, goroutines and calls are those created, and
    [listenMessages] runs until the layer is canceled. *)
Definition kept (n : nat) (l : layer) : Prop :=
  n ∈ serving l \/ calls l !! n = Some Stored \/ canceled l = true.

Record wf_layer (l : layer) : Prop := {
  lw_store key n : transactions l !! key = Some n -> kept n l /\ exists x, txs l !! n = Some (key, x);
  lw_txs n k x : txs l !! n = Some (k, x) -> n < next l;
  lw_serving n : n ∈ serving l -> n < next l;
  lw_calls n c : calls l !! n = Some c -> is_Some (txs l !! n);
  lw_listening : listening l = false -> canceled l = true
}.

Section invariant.

Context (spin : spinner) (envs : nat -> env) (is_reliable : bytes -> bool) (uuid : nat -> bytes).

Lemma wf_set_tx n k x y l :
  wf_layer l -> txs l !! n = Some (k, y) -> wf_layer (set_tx n k x l).
Proof using.
  intros [H1 H2 H3 H4 H5] Hn. split; cbn; try done.
  - intros key m Hm. destruct (H1 key m Hm) as (Hs & z & Hz). split; [done |].
    rewrite lookup_insert. case_decide; [| by eauto]. subst. rewrite Hn in Hz. simplify_eq. eauto.
  - intros m k' z. rewrite lookup_insert. case_decide; [subst; intros _; eauto | apply H2].
  - intros m c Hc. rewrite lookup_insert. case_decide; [done | by eapply H4].
Qed.

Lemma wf_alloc key x l l' n :
  wf_layer l -> alloc key x l = (n, l') ->
  wf_layer l' /\ txs l' !! n = Some (key, x) /\ n < next l' /\ (forall k, transactions l' !! k <> Some n).
Proof using.
  intros [H1 H2 H3 H4 H5] [= <- <-].
  assert (txs l !! next l = None) as Hf.
  { destruct (txs l !! next l) as [[k z]|] eqn:E; [| done]. apply H2 in E. lia. }
  split_and!; cbn; [| by rewrite lookup_insert_eq | lia |].
  - split; cbn; try done.
    + intros k m Hm. destruct (H1 _ _ Hm) as (Hk & z & Hz). split; [done |]. exists z.
      rewrite lookup_insert_ne; congruence.
    + intros m k z. rewrite lookup_insert. case_decide; [subst; lia |]. intros Hz. apply H2 in Hz. lia.
    + intros m Hm. apply H3 in Hm. lia.
    + intros m c Hm. rewrite lookup_insert. case_decide; [done | by eapply H4].
  - intros k Hk. destruct (H1 _ _ Hk) as (_ & z & Hz). congruence.
Qed.

Lemma wf_serve n l : wf_layer l -> n < next l -> wf_layer (serve n l).
Proof using.
  intros [H1 H2 H3 H4 H5] Hn. split; cbn; try done.
  - intros k m Hm. destruct (H1 _ _ Hm) as ([?|?] & Hz); (split; [| done]); [left; apply elem_of_app; by left | by right].
  - intros m [Hm|Hm%list_elem_of_singleton]%elem_of_app; [by apply H3 | by subst].
Qed.

Lemma wf_put key n x l : wf_layer l -> txs l !! n = Some (key, x) -> kept n l -> wf_layer (put key n l).
Proof using.
  intros [H1 H2 H3 H4 H5] Hn Hk. split; cbn; try done. intros k m. rewrite lookup_insert.
  case_decide; [intros [= <-]; subst; by eauto | apply H1].
Qed.

Lemma wf_set_call n c l :
  wf_layer l -> is_Some (txs l !! n) ->
  (n ∈ serving l \/ canceled l = true \/ c = Some Stored \/ forall k, transactions l !! k <> Some n) ->
  wf_layer (set_call n c l).
Proof using.
  intros [H1 H2 H3 H4 H5] Hn Hc. split; cbn; try done.
  - intros k m Hm. destruct (H1 _ _ Hm) as (Hk & Hz). split; [| done]. unfold kept in *. cbn.
    rewrite lookup_partial_alter. case_decide; [subst | done].
    destruct Hc as [?|[?|[->|Hf]]]; [by left | by right; right | by right; left | by destruct (Hf k)].
  - intros m c'. rewrite lookup_partial_alter. case_decide; [by subst | by apply H4].
Qed.

Lemma wf_new key x l l' n :
  wf_layer l -> alloc key x l = (n, l') -> wf_layer (serve n (put key n l')).
Proof using.
  intros Hw Ha. destruct (wf_alloc _ _ _ _ _ Hw Ha) as (H1 & H2 & H3 & _).
  change (wf_layer (put key n (serve n l'))). eapply wf_put; [by apply wf_serve | exact H2 |].
  left. cbn. apply elem_of_app. right. by apply list_elem_of_singleton.
Qed.

Lemma wf_Cancel l : wf_layer l -> wf_layer (Cancel l).
Proof using.
  intros [H1 H2 H3 H4 H5]. split; cbn; try done. intros k m Hm. destruct (H1 _ _ Hm) as (_ & Hz).
  split; [right; by right | done].
Qed.

Lemma wf_store_tx n k x y l l' :
  wf_layer l -> txs l !! n = Some (k, y) -> store_tx n k x l = Ok l' -> wf_layer l'.
Proof using.
  intros Hw Hn. unfold store_tx. destruct (tx_crashed x); [done |]. intros [= <-].
  by eapply wf_set_tx.
Qed.

Lemma getServerTx_Some hs l n k t :
  getServerTx hs l = Ok (Some (n, k, t)) -> txs l !! n = Some (k, TxServer t).
Proof using.
  unfold getServerTx. destruct (MakeServerTxKey hs) as [key| |]; try done.
  destruct (get key l) as [m|]; [| done]. destruct (txs l !! m) as [[k' [t'|t']]|] eqn:E; try done.
  by intros [= -> -> ->].
Qed.

Lemma getClientTx_Some hs l n k t :
  getClientTx hs l = Ok (Some (n, k, t)) -> txs l !! n = Some (k, TxClient t).
Proof using.
  unfold getClientTx. destruct (MakeClientTxKey hs) as [key| |]; try done.
  destruct (get key l) as [m|]; [| done]. destruct (txs l !! m) as [[k' [t'|t']]|] eqn:E; try done.
  by intros [= -> -> ->].
Qed.

Lemma wf_offer taken pass l : wf_layer l -> (wf_layer l -> wf_layer (pass l)) -> wf_layer (offer taken pass l).
Proof using. destruct taken; [auto | intros ? _; by apply wf_Cancel]. Qed.

Lemma wf_handle_request taken req l l' :
  wf_layer l -> handle_request spin envs is_reliable uuid taken req l = Ok l' -> wf_layer l'.
Proof using.
  intros Hw. unfold handle_request. destruct (canceled l); [by intros [= <-] |].
  destruct (getServerTx _ l) as [[[[n k] t]|]| |] eqn:E; try done.
  - apply getServerTx_Some in E. by apply wf_store_tx with (TxServer t).
  - destruct (request_IsAck req); [intros [= <-]; apply wf_offer; [done | by intros []] |].
    destruct (request_IsCancel req).
    + unfold reject_cancel. destruct (NewResponseFromRequest _ _ _ _ _ _); try done. by intros [= <-]; destruct Hw.
    + unfold new_server. destruct (ServerTx.NewServerTx is_reliable req) as [[key t]| |]; try done.
      * destruct (alloc _ _ _) as [n l1] eqn:Ea. intros [= <-].
        apply wf_offer; [by apply (wf_new _ _ _ _ _ Hw Ea) | by intros []].
      * by intros [= <-].
  - by intros [= <-].
Qed.

Lemma wf_handle_response taken rs l l' :
  wf_layer l -> handle_response spin envs taken rs l = Ok l' -> wf_layer l'.
Proof using.
  intros Hw. unfold handle_response. destruct (canceled l); [by intros [= <-] |].
  destruct (getClientTx _ l) as [[[[n k] t]|]| |] eqn:E; try done.
  - apply getClientTx_Some in E. by apply wf_store_tx with (TxClient t).
  - intros [= <-]. apply wf_offer; [done | by intros []].
  - by intros [= <-].
Qed.

Lemma wf_Request_init req l n l' :
  wf_layer l -> Request_init spin envs is_reliable req l = Ok (n, l') -> wf_layer l'.
Proof using.
  intros Hw. unfold Request_init. destruct (canceled l); [done |]. destruct (request_IsAck req); [done |].
  intros ([key t] & _ & H)%bind_Ok. destruct (ClientTx.Init _ _ _) as [t' [err|]]; [done |].
  destruct (alloc _ _ _) as [m l1] eqn:Ea. injection H as <- <-.
  destruct (wf_alloc _ _ _ _ _ Hw Ea) as (H1 & H2 & _ & H4). apply wf_set_call; [done | by eauto | by auto].
Qed.

Lemma wf_request_step ev n l l' : wf_layer l -> request_step ev n l = Some l' -> wf_layer l'.
Proof using.
  intros Hw. unfold request_step. destruct ev; destruct (calls l !! n) as [[|]|] eqn:Ec; try done.
  - destruct (txs l !! n) as [[key x]|] eqn:E; [| done]. intros [= <-].
    change (wf_layer (put key n (set_call n (Some Stored) l))).
    eapply wf_put; [apply wf_set_call; [done | by eauto | by auto] | exact E |].
    right. left. cbn. by rewrite lookup_partial_alter_eq.
  - destruct (lw_calls _ Hw _ _ Ec) as [[k x] Hx]. pose proof (lw_txs _ Hw _ _ _ Hx) as Hn.
    assert (wf_layer (set_call n None (serve n l))) as H; [| destruct (txs l !! n), (listening l); try done; by intros [= <-]].
    apply wf_set_call; [by apply wf_serve | by eauto |]. left. cbn. apply elem_of_app. right. by apply list_elem_of_singleton.
  - destruct (canceled l) eqn:Ecc; [| by destruct (txs l !! n)].
    assert (wf_layer (set_call n None l)) as H; [| by destruct (txs l !! n); intros [= <-]].
    apply wf_set_call; [done | by eapply lw_calls | by auto].
Qed.

Lemma wf_listen_end l l' : wf_layer l -> listen_end l = Some l' -> wf_layer l'.
Proof using.
  intros [H1 H2 H3 H4 H5]. unfold listen_end. destruct (canceled l) eqn:E; [| done]. intros [= <-].
  split; cbn; try done. intros key n Hn. destruct (H1 _ _ Hn) as [_ Hz]. split; [by right; right | done].
Qed.

(** A whole call is its steps one after the other. *)
Lemma Request_steps req l n l' :
  Request spin envs is_reliable req l = Ok (n, l') ->
  exists l1 l2, Request_init spin envs is_reliable req l = Ok (n, l1) /\ request_step RStore n l1 = Some l2 /\
    request_step RTaken n l2 = Some l'.
Proof using.
  unfold Request. intros ([m l1] & H1 & H)%bind_Ok.
  destruct (request_step RStore m l1 ≫= request_step RTaken m) as [l3|] eqn:E; [| done].
  injection H as -> ->. apply bind_Some in E as (l2 & H2 & H3). eauto.
Qed.

Lemma Request_requests req l n l' :
  Request spin envs is_reliable req l = Ok (n, l') -> requests l' = requests l.
Proof using.
  intros (l1 & l2 & H1 & H2 & H3)%Request_steps.
  assert (requests l1 = requests l) as <-.
  { unfold Request_init in H1. destruct (canceled l); [done |]. destruct (request_IsAck req); [done |].
    apply bind_Ok in H1 as ([key t] & _ & H1). destruct (ClientTx.Init _ _ _) as [t' [err|]]; [done |].
    cbn in H1. by injection H1 as _ <-. }
  unfold request_step in *. repeat case_match; simplify_eq; done.
Qed.

Lemma wf_Request req l n l' :
  wf_layer l -> Request spin envs is_reliable req l = Ok (n, l') -> wf_layer l'.
Proof using.
  intros Hw (l1 & l2 & H1 & H2 & H3)%Request_steps.
  eapply wf_request_step, H3. eapply wf_request_step, H2. by eapply wf_Request_init.
Qed.

Lemma wf_Respond rs l n l' ok :
  wf_layer l -> Respond spin envs rs l = Ok (n, l', ok) -> wf_layer l'.
Proof using.
  intros Hw. unfold Respond. destruct (canceled l); [done |].
  intros ([] & _ & ([[[m k] t]|] & E & H)%bind_Ok)%bind_Ok; [| done]. apply getServerTx_Some in E.
  destruct (ServerTx.Respond _ _ _ _) as [t' ok']. apply bind_Ok in H as (l1 & Hs & [= <- <- <-]).
  eapply wf_store_tx; [exact Hw | exact E | exact Hs].
Qed.

Lemma wf_serve_step n l l' : wf_layer l -> serve_step n l = Some l' -> wf_layer l'.
Proof using.
  intros Hw. unfold serve_step. case_bool_decide as Hs; [| done].
  destruct (txs l !! n) as [[k x]|] eqn:E; [| done].
  assert (forall l0, wf_layer l0 -> (exists y, txs l0 !! n = Some (k, y)) ->
            wf_layer (stop_serving n (drop k l0))) as Hstop.
  { intros l0 [H1 H2 H3 H4 H5] [y Hy]. split; cbn; try done.
    - intros key m. rewrite lookup_delete. case_decide; [done |]. intros Hm.
      destruct (H1 _ _ Hm) as ([Hin|Hk] & z & Hz); (split; [| by eauto]); [left | by right].
      apply list_elem_of_filter. split; [| done]. intros ->. simplify_eq.
    - intros m [_ Hm]%list_elem_of_filter. by apply H3. }
  destruct (tx_done x); [intros [= <-]; apply Hstop; eauto |].
  destruct (canceled l); [| done]. intros [= <-]. apply Hstop; [by eapply wf_set_tx |].
  eexists. cbn. by rewrite lookup_insert_eq.
Qed.

Lemma wf_tx_step n ev l l' : wf_layer l -> tx_step spin envs n ev l = Some (Ok l') -> wf_layer l'.
Proof using.
  intros Hw. unfold tx_step. destruct (txs l !! n) as [[k [t|t]]|] eqn:E; [| | done];
    destruct ev as [ev|ev]; try done.
  - intros (t' & _ & [= Hs])%bind_Some. by eapply wf_store_tx.
  - intros (t' & _ & [= Hs])%bind_Some. by eapply wf_store_tx.
Qed.

Lemma wf_NewLayer : wf_layer NewLayer.
Proof using. split; cbn; intros *; rewrite ?lookup_empty; try done. by intros ?%elem_of_nil. Qed.

Lemma wf_layer_step l l' :
  layer_step spin envs is_reliable uuid l l' -> wf_layer l -> wf_layer l'.
Proof using.
  intros [taken m l1 l2 H | l1 l2 H | r n l1 l2 H | ev n l1 l2 H | r n ok l1 l2 H | l1 | n l1 l2 H | n ev l1 l2 H] Hw.
  - unfold handle_message in H. destruct (canceled l1); [by injection H as <- |].
    destruct m; [by eapply wf_handle_request | by eapply wf_handle_response].
  - by eapply wf_listen_end.
  - by eapply wf_Request_init.
  - by eapply wf_request_step.
  - by eapply wf_Respond.
  - by apply wf_Cancel.
  - by eapply wf_serve_step.
  - by eapply wf_tx_step.
Qed.

Lemma wf_reachable l : reachable spin envs is_reliable uuid l -> wf_layer l.
Proof using.
  unfold reachable. remember NewLayer as l0 eqn:E. assert (wf_layer l0) as H by (subst; apply wf_NewLayer).
  clear E. induction 1 as [|l1 l2 l3 Hs Hr IH]; [done |]. apply IH. by eapply wf_layer_step.
Qed.

End invariant.

(** ** Matching *)

Section matching.

Context (spin : spinner) (envs : nat -> env) (is_reliable : bytes -> bool) (uuid : nat -> bytes).

(** The layer holds server transaction [t] number [n] under [key]. *)
Definition holds_server (l : layer) (key : TxKey) (n : nat) (t : ServerTx.serverTx) : Prop :=
  transactions l !! key = Some n /\ txs l !! n = Some (key, TxServer t).

Definition holds_client (l : layer) (key : TxKey) (n : nat) (t : ClientTx.clientTx) : Prop :=
  transactions l !! key = Some n /\ txs l !! n = Some (key, TxClient t).

Lemma getServerTx_holds hs l key n t :
  MakeServerTxKey hs = Ok key -> holds_server l key n t -> getServerTx hs l = Ok (Some (n, key, t)).
Proof using. intros Hk [H1 H2]. unfold getServerTx, get. by rewrite Hk, H1, H2. Qed.

Lemma getClientTx_holds hs l key n t :
  MakeClientTxKey hs = Ok key -> holds_client l key n t -> getClientTx hs l = Ok (Some (n, key, t)).
Proof using. intros Hk [H1 H2]. unfold getClientTx, get. by rewrite Hk, H1, H2. Qed.

(** What the layer sends on its channels and to the transport, and the
    transactions it knows. *)
Definition same_outputs (l l' : layer) : Prop :=
  requests l' = requests l /\ acks l' = acks l /\ responses l' = responses l /\
  tpl_sent l' = tpl_sent l /\ next l' = next l /\ transactions l' = transactions l /\
  canceled l' = canceled l.

Lemma store_tx_outputs n k x l l' :
  store_tx n k x l = Ok l' -> same_outputs l l' /\ txs l' !! n = Some (k, x).
Proof using.
  unfold store_tx. destruct (tx_crashed x); [done |]. intros [= <-]. split; [done |].
  cbn. by rewrite lookup_insert_eq.
Qed.

(** A request whose key is held goes to its transaction and nowhere else. *)
Lemma handleRequest_held req l key n t l' :
  canceled l = false -> MakeServerTxKey (hdrs (rq_msg req)) = Ok key -> holds_server l key n t ->
  handleRequest spin envs is_reliable uuid req l = Ok l' ->
  same_outputs l l' /\
  txs l' !! n = Some (key, TxServer (fst (ServerTx.Receive spin (envs n) (MRequest req) t))).
Proof using.
  intros Hc Hk Hh. unfold handleRequest, handle_request. rewrite Hc, (getServerTx_holds _ _ _ _ _ Hk Hh).
  apply store_tx_outputs.
Qed.

(** A request that starts a transaction. *)
Lemma handleRequest_new req l key t :
  canceled l = false -> getServerTx (hdrs (rq_msg req)) l = Ok None ->
  request_IsAck req = false -> request_IsCancel req = false ->
  ServerTx.NewServerTx is_reliable req = Ok (key, t) ->
  exists l', handleRequest spin envs is_reliable uuid req l = Ok l' /\
    holds_server l' key (next l) (ServerTx.Init t) /\ requests l' = requests l ++ [next l] /\
    canceled l' = false /\ MakeServerTxKey (hdrs (rq_msg req)) = Ok key.
Proof using.
  intros Hc Hg Ha Hca Hn. unfold handleRequest, handle_request. rewrite Hc, Hg, Ha, Hca. unfold new_server.
  rewrite Hn. cbn [alloc offer]. eexists. split; [done |].
  split_and!; [| done | done |].
  - split; cbn; by rewrite lookup_insert_eq.
  - by apply ServerTx.NewServerTx_Ok in Hn as [? _].
Qed.

(** A client transaction the layer made. *)
Lemma Request_init_new req l n l' :
  Request_init spin envs is_reliable req l = Ok (n, l') ->
  exists key t,
    let origin := ClientTx.prepareClientRequest (GenerateBranch (e_rnd (envs (next l)) 0)) req in
    MakeClientTxKey (hdrs (rq_msg origin)) = Ok key /\ n = next l /\ txs l' !! n = Some (key, TxClient t) /\
    canceled l' = false /\ transactions l' = transactions l /\ calls l' !! n = Some Initialised /\
    responses l' = responses l /\ listening l' = listening l /\
    exists tr, request_Transport origin = Ok tr /\
      ClientTx.Init spin (envs n) (ClientTx.new_clientTx origin (is_reliable tr)) = (t, None).
Proof using.
  unfold Request_init. destruct (canceled l) eqn:Hc; [done |]. destruct (request_IsAck req); [done |].
  intros ([key t0] & Hn & H)%bind_Ok. apply ClientTx.NewClientTx_Ok in Hn as (Hk & _ & tr & Ht & ->).
  destruct (ClientTx.Init _ _ _) as [t [err|]] eqn:Ei; [done |]. cbn in H. injection H as <- <-.
  exists key, t. split_and!; try done; cbn; rewrite ?lookup_insert_eq, ?lookup_partial_alter_eq; eauto.
Qed.

(** The rest of an undisturbed call. *)
Lemma Request_rest n key x l :
  calls l !! n = Some Initialised -> txs l !! n = Some (key, x) -> listening l = true ->
  request_step RStore n l ≫= request_step RTaken n = Some (set_call n None (serve n (put key n l))).
Proof using.
  intros Hc Hx Hl.
  assert (request_step RStore n l = Some (set_call n (Some Stored) (put key n l))) as ->
    by (unfold request_step; by rewrite Hc, Hx).
  cbn [mbind option_bind]. unfold request_step. cbn.
  rewrite lookup_partial_alter_eq, Hl. f_equal. unfold set_call, serve, put. cbn. f_equal.
  apply map_eq. intros i. rewrite !lookup_partial_alter. by case_decide.
Qed.

Lemma Request_new req l n l' :
  Request spin envs is_reliable req l = Ok (n, l') ->
  exists key t,
    let origin := ClientTx.prepareClientRequest (GenerateBranch (e_rnd (envs (next l)) 0)) req in
    MakeClientTxKey (hdrs (rq_msg origin)) = Ok key /\ n = next l /\
    holds_client l' key n t /\ canceled l' = false /\
    exists tr, ClientTx.Init spin (envs n) (ClientTx.new_clientTx origin (is_reliable tr)) = (t, None).
Proof using.
  unfold Request. intros ([m l1] & H1 & H)%bind_Ok.
  destruct (Request_init_new _ _ _ _ H1) as (key & t & Hk & -> & Hx & Hc & _ & Hca & _ & Hl & tr & _ & Hi).
  destruct (listening l1) eqn:El.
  - rewrite (Request_rest _ _ _ _ Hca Hx El) in H. injection H as <- <-. exists key, t. split_and!; try done; [| by eauto].
    split; cbn; [by rewrite lookup_insert_eq | done].
  - unfold request_step in H. rewrite Hca, Hx in H. cbn in H. rewrite El in H.
    by destruct (partial_alter _ _ _ !! _) as [[]|].
Qed.

End matching.

(** ** What later states keep

    A transaction stays under its number, with its key and its kind; what was passed
    up stays, and what follows are transactions made later; a transaction that is
    neither served nor on its way to be is never served. *)

Definition same_kind (x y : tx) : Prop :=
  match x, y with TxClient _, TxClient _ | TxServer _, TxServer _ => True | _, _ => False end.

Record since (l l' : layer) : Prop := {
  since_next : next l <= next l';
  since_txs n k x : txs l !! n = Some (k, x) -> exists y, txs l' !! n = Some (k, y) /\ same_kind x y;
  since_requests : exists rest, requests l' = requests l ++ rest /\ forall n, n ∈ rest -> next l <= n;
  since_serving n : n < next l -> calls l !! n = None -> calls l' !! n = None /\ (n ∉ serving l -> n ∉ serving l')
}.

Section history.

Context (spin : spinner) (envs : nat -> env) (is_reliable : bytes -> bool) (uuid : nat -> bytes).

Lemma same_kind_refl x : same_kind x x.
Proof using. by destruct x. Qed.

Lemma since_refl l : since l l.
Proof using.
  split; [done | by eauto using same_kind_refl | | done]. exists []. rewrite app_nil_r. split; [done |].
  by intros n ?%elem_of_nil.
Qed.

Lemma since_trans l1 l2 l3 : since l1 l2 -> since l2 l3 -> since l1 l3.
Proof using.
  intros [H1 H2 (r1 & H3 & H4) H5] [K1 K2 (r2 & K3 & K4) K5]. split; [lia | | |].
  - intros n k x Hx. destruct (H2 _ _ _ Hx) as (y & Hy & Hxy). destruct (K2 _ _ _ Hy) as (z & Hz & Hyz).
    exists z. split; [done |]. by destruct x, y, z.
  - exists (r1 ++ r2). rewrite K3, H3, <- app_assoc. split; [done |].
    intros n [Hn|Hn]%elem_of_app; [by apply H4 | apply K4 in Hn; lia].
  - intros n Hn Hc. destruct (H5 n Hn Hc) as [Hc2 Hs]. destruct (K5 n ltac:(lia) Hc2) as [Hc3 Hs3]. auto.
Qed.

(** A step that makes no transaction, passes nothing up and serves nothing new. *)
Lemma since_plain l l' :
  next l' = next l -> requests l' = requests l -> calls l' = calls l ->
  (forall n, n ∈ serving l' -> n ∈ serving l) ->
  (forall n k x, txs l !! n = Some (k, x) -> exists y, txs l' !! n = Some (k, y) /\ same_kind x y) -> since l l'.
Proof using.
  intros Hn Hr Hc Hs Ht. split; [lia | done | |].
  - exists []. rewrite app_nil_r. split; [done |]. by intros n ?%elem_of_nil.
  - intros n _ Hn'. rewrite Hc. split; [done |]. auto.
Qed.

Lemma since_same l l' :
  next l' = next l -> requests l' = requests l -> calls l' = calls l -> serving l' = serving l -> txs l' = txs l -> since l l'.
Proof using.
  intros Hn Hr Hc Hs Ht. apply since_plain; try done; [by rewrite Hs |]. rewrite Ht. by eauto using same_kind_refl.
Qed.

Lemma since_set_tx n k x y l : txs l !! n = Some (k, y) -> same_kind y x -> since l (set_tx n k x l).
Proof using.
  intros Hn Hk. apply since_plain; try done. intros m k' z Hz. cbn. rewrite lookup_insert.
  case_decide; [| by eauto using same_kind_refl]. subst. rewrite Hn in Hz. simplify_eq. by exists x.
Qed.

Lemma since_store_tx n k x y l l' :
  txs l !! n = Some (k, y) -> same_kind y x -> store_tx n k x l = Ok l' -> since l l'.
Proof using. unfold store_tx. destruct (tx_crashed x); [done |]. intros ? ? [= <-]. by eapply since_set_tx. Qed.

(** A new transaction, with what is done with it at once. *)
Lemma since_new key x l l' :
  wf_layer l -> txs l' = txs (alloc key x l).2 -> next l' = S (next l) ->
  (requests l' = requests l \/ requests l' = requests l ++ [next l]) ->
  (forall n, n ∈ serving l' -> n ∈ serving l \/ n = next l) -> (forall n, n <> next l -> calls l' !! n = calls l !! n) ->
  since l l'.
Proof using.
  intros Hw Ht Hn Hr Hs Hc. split; [lia | | |].
  - intros n k y Hy. exists y. split; [| apply same_kind_refl]. rewrite Ht. cbn.
    rewrite lookup_insert_ne; [done |]. apply (lw_txs _ Hw) in Hy. lia.
  - destruct Hr as [->| ->]; [exists []; rewrite app_nil_r | exists [next l]]; (split; [done |]).
    + by intros n ?%elem_of_nil.
    + intros n ->%list_elem_of_singleton. done.
  - intros n Hl Hcn. rewrite Hc by lia. split; [done |]. intros Hns Hin. destruct (Hs n Hin); [done | lia].
Qed.

Lemma since_handle_request taken req l l' :
  wf_layer l -> handle_request spin envs is_reliable uuid taken req l = Ok l' -> since l l'.
Proof using.
  intros Hw. unfold handle_request. destruct (canceled l); [intros [= <-]; apply since_refl |].
  destruct (getServerTx _ l) as [[[[n k] t]|]| |] eqn:E; try done; [| | intros [= <-]; apply since_refl].
  - apply getServerTx_Some in E. by eapply since_store_tx.
  - destruct (request_IsAck req); [intros [= <-]; by destruct taken; apply since_same |].
    destruct (request_IsCancel req).
    { unfold reject_cancel. destruct (NewResponseFromRequest _ _ _ _ _ _); try done. intros [= <-]. by apply since_same. }
    unfold new_server. destruct (ServerTx.NewServerTx is_reliable req) as [[key t]| |]; try done; [| intros [= <-]; apply since_refl].
    cbn [alloc]. intros [= <-]. apply (since_new key (TxServer (ServerTx.Init t))); try done; try (by destruct taken).
    + destruct taken; cbn; auto.
    + intros n. destruct taken; cbn; (intros [?|?%list_elem_of_singleton]%elem_of_app; [by left | by right]).
Qed.

Lemma since_Request_init req l n l' :
  wf_layer l -> Request_init spin envs is_reliable req l = Ok (n, l') -> since l l'.
Proof using.
  intros Hw. unfold Request_init. destruct (canceled l); [done |]. destruct (request_IsAck req); [done |].
  intros ([key t] & _ & H)%bind_Ok. destruct (ClientTx.Init _ _ _) as [t' [err|]]; [done |]. cbn in H.
  injection H as <- <-. apply (since_new key (TxClient t')); try done; cbn; auto.
  intros n Hn. by rewrite lookup_partial_alter_ne.
Qed.

Lemma since_request_step ev n l l' : request_step ev n l = Some l' -> since l l'.
Proof using.
  assert (forall c l0, calls l !! n <> None -> next l0 = next l -> requests l0 = requests l -> calls l0 = calls l ->
            txs l0 = txs l -> (forall m, m ∈ serving l0 -> m ∈ serving l \/ m = n) -> since l (set_call n c l0)) as H.
  { intros c l0 Hc Hn Hr Hcs Ht Hs. split; cbn; [lia | | |].
    - rewrite Ht. by eauto using same_kind_refl.
    - exists []. rewrite app_nil_r. split; [done |]. by intros m ?%elem_of_nil.
    - intros m _ Hm. assert (m <> n) by congruence. rewrite lookup_partial_alter_ne, Hcs by done. split; [done |].
      intros Hns Hin. destruct (Hs m Hin); [done | congruence]. }
  unfold request_step. destruct ev; destruct (calls l !! n) as [[|]|] eqn:Ec; try done.
  - destruct (txs l !! n) as [[key x]|]; [| done]. intros [= <-]. apply H; try done. auto.
  - assert (since l (set_call n None (serve n l))) as Hs; [| destruct (txs l !! n), (listening l); try done; by intros [= <-]].
    apply H; try done. cbn. intros m [?|?%list_elem_of_singleton]%elem_of_app; [by left | by right].
  - assert (since l (set_call n None l)) as Hs; [| destruct (txs l !! n), (canceled l); try done; by intros [= <-]].
    apply H; try done. auto.
Qed.

Lemma since_step l l' : wf_layer l -> layer_step spin envs is_reliable uuid l l' -> since l l'.
Proof using.
  intros Hw Hstep. revert Hw.
  destruct Hstep as [taken m l1 l2 H | l1 l2 H | r n l1 l2 H | ev n l1 l2 H | r n ok l1 l2 H | l1 | n l1 l2 H | n ev l1 l2 H];
    intros Hw.
  - unfold handle_message in H. destruct (canceled l1) eqn:Ec; [injection H as <-; apply since_refl |].
    destruct m as [rq|rs]; [by eapply since_handle_request |]. unfold handle_response in H. rewrite Ec in H.
    destruct (getClientTx _ l1) as [[[[n k] t]|]| |] eqn:E; try done.
    + apply getClientTx_Some in E. eapply since_store_tx; [exact E | | exact H]. done.
    + injection H as <-. by destruct taken; apply since_same.
    + injection H as <-. apply since_refl.
  - unfold listen_end in H. destruct (canceled l1); [| done]. injection H as <-. by apply since_same.
  - by eapply since_Request_init.
  - by eapply since_request_step.
  - unfold Respond in H. destruct (canceled l1); [done |].
    apply bind_Ok in H as ([] & _ & ([[[m k] t]|] & E & H)%bind_Ok); [| done]. apply getServerTx_Some in E.
    destruct (ServerTx.Respond _ _ _ _) as [t' ok']. apply bind_Ok in H as (l0 & Hs & [= <- <- <-]).
    eapply since_store_tx; [exact E | | exact Hs]. done.
  - by apply since_same.
  - unfold serve_step in H. case_bool_decide; [| done]. destruct (txs l1 !! n) as [[k x]|] eqn:E; [| done].
    assert (forall l0, serving l0 = serving l1 -> since l1 l0 -> since l1 (stop_serving n (drop k l0))) as Hstop.
    { intros l0 Hs0 [K1 K2 K3 K4]. split; cbn; try done. intros m Hm Hc. destruct (K4 m Hm Hc) as [? Hk]. split; [done |].
      intros Hns [_ Hin]%list_elem_of_filter. by apply (Hk Hns). }
    destruct (tx_done x); [injection H as <-; apply Hstop; [done | apply since_refl] |].
    destruct (canceled l1); [| done]. injection H as <-. apply Hstop; [done |]. eapply since_set_tx; [exact E |].
    by destruct x.
  - unfold tx_step in H. destruct (txs l1 !! n) as [[k [t|t]]|] eqn:E; [| | done]; destruct ev as [ev|ev]; try done;
      apply bind_Some in H as (t' & _ & [= Hs]); (eapply since_store_tx; [exact E | | exact Hs]); done.
Qed.

Lemma since_run l l' : wf_layer l -> rtc (layer_step spin envs is_reliable uuid) l l' -> since l l' /\ wf_layer l'.
Proof using.
  intros Hw Hr. induction Hr as [l|l1 l2 l3 Hs Hr IH]; [split; [apply since_refl | done] |].
  assert (wf_layer l2) as Hw2 by (by eapply wf_layer_step). destruct (IH Hw2) as [H1 H2]. split; [| done].
  eapply since_trans; [by apply since_step | done].
Qed.

End history.

End TxLayer.
