(* ===== verification/LayerTheorems.v ===== *)
(** * What the transaction layer guarantees

    The store of the layer, and the matching of messages to transactions
    (src/transaction/layer.go and transaction.go): responses, ACKs, CANCELs and
    retransmissions reach the transaction of their request. *)

From S2P Require Import Prelude GoStrings Escape Params Headers HeaderStore Message ParserCommon Packet TxKeys Fsm Samples ClientTx ServerTx TxLayer.
From stdpp Require Import options.
Import Params Headers HeaderStore Message Packet TxKeys Fsm Samples TxLayer.

Module LayerTheorems.

(** ** Helpers *)

(** The request as a client transaction sends it has a well-formed header
    section. *)
Lemma wf_prepared branch r :
  wf_section (hdrs (rq_msg r)) -> wf_section (hdrs (rq_msg (ClientTx.prepareClientRequest branch r))).
Proof.
  intros Hw. unfold ClientTx.prepareClientRequest, rq_map. cbn [rq_msg].
  destruct (ViaHop_ (hdrs (rq_msg r))); cbn [with_hdrs hdrs].
  - apply wf_section_update; [done | |].
    + intros h. by destruct h as [| | | | | | | | |[]| | | | | | | | | | | | |].
    + intros h. destruct h as [| | | | | | | | |[|hop hops]| | | | | | | | | | | | |]; try done.
      cbn. intros [Hh Hr]%Forall_cons. constructor; [| done]. unfold ClientTx.add_branch. cbn.
      destruct (vh_params hop) as [ps|]; destruct (Has _ _); auto using wf_Add, wf_NewParams.
  - apply wf_section_Prepend; [done |]. constructor; [| done]. apply wf_Add, wf_NewParams.
Qed.

Lemma sample_wf_section transport meth : wf_section (hdrs (rq_msg (sample_request transport meth))).
Proof. apply wf_section_new, sample_wf_headers. Qed.

Section theorems.

Context (spin : spinner) (envs : nat -> env) (is_reliable : bytes -> bool) (uuid : nat -> bytes).

(** C5: In every reachable state of the layer, whatever the interleaving of messages,
    calls and goroutines, a stored key leads to a transaction made with that key.
    In a layer that was not canceled this transaction has a goroutine that waits to
    remove the key when it is done, or the call of [Request] that stored it waits
    for [listenMessages] to start that goroutine. *)
Theorem layer_store_invariant l key n :
  reachable spin envs is_reliable uuid l -> get key l = Some n ->
  (exists x, txs l !! n = Some (key, x)) /\
  (canceled l = false -> n ∈ serving l \/ calls l !! n = Some Stored).
Proof using.
  intros Hr%wf_reachable Hg. destruct (lw_store _ Hr _ _ Hg) as [Hk Hx]. split; [done |].
  intros Hc. destruct Hk as [?|[?|Hk]]; [by left | by right | congruence].
Qed.

(** A call of [Request] that gives up on the cancel signal leaves its transaction in
    the store, and no goroutine ever serves it: it is neither terminated nor
    removed by the layer. *)
Theorem canceled_request_left_behind l n key l1 :
  reachable spin envs is_reliable uuid l -> get key l = Some n -> n ∉ serving l ->
  request_step RCanceled n l = Some l1 ->
  get key l1 = Some n /\ forall l2, rtc (layer_step spin envs is_reliable uuid) l1 l2 -> n ∉ serving l2.
Proof using.
  intros Hr%wf_reachable Hg Hs H. pose proof (wf_request_step _ _ _ _ Hr H) as Hw1.
  assert (l1 = set_call n None l) as E.
  { unfold request_step in H. destruct (calls l !! n) as [[|]|]; try done; by destruct (txs l !! n), (canceled l); simplify_eq. }
  subst l1. split; [done |]. intros l2 Hr2. destruct (since_run _ _ _ _ _ _ Hw1 Hr2) as [Hsince _].
  destruct (lw_store _ Hr _ _ Hg) as [_ [x Hx]].
  eapply (since_serving _ _ Hsince); [by eapply (lw_txs _ Hr) | cbn; by rewrite lookup_partial_alter_eq | done].
Qed.

(** When a transaction is done its goroutine can return, and then the
    store holds it under no key. *)
Theorem layer_forgets_done l n key x :
  reachable spin envs is_reliable uuid l -> n ∈ serving l -> txs l !! n = Some (key, x) ->
  tx_done x = true ->
  exists l', serve_step n l = Some l' /\ n ∉ serving l' /\ forall key', get key' l' <> Some n.
Proof using.
  intros Hr%wf_reachable Hs Hx Hd. unfold serve_step.
  rewrite bool_decide_eq_true_2, Hx, Hd by done. eexists. split; [done |].
  assert (n ∉ serving (stop_serving n (drop key l))) as Hn
    by (cbn; rewrite list_elem_of_filter; naive_solver).
  split; [exact Hn |]. intros key' Hg. unfold get in Hg. cbn in Hg. rewrite lookup_delete in Hg. case_decide; [done |].
  destruct (lw_store _ Hr _ _ Hg) as (_ & y & Hy). congruence.
Qed.

(** C8: A request that starts a transaction is passed up once: its transaction is
    added to the requests for the user, and to no later list of them again.  In
    every later state of a layer that is not canceled in which the key still leads to
    it, every request with that key (a retransmission, its ACK, its CANCEL) goes to the transaction and to no
    channel of the layer.  (After its end the same key can start a new one.) *)
Theorem layer_request_passed_up_once req l key t :
  reachable spin envs is_reliable uuid l -> canceled l = false -> getServerTx (hdrs (rq_msg req)) l = Ok None ->
  request_IsAck req = false -> request_IsCancel req = false ->
  ServerTx.NewServerTx is_reliable req = Ok (key, t) ->
  exists l1, handleRequest spin envs is_reliable uuid req l = Ok l1 /\
    requests l1 = requests l ++ [next l] /\ get key l1 = Some (next l) /\
    forall l2, rtc (layer_step spin envs is_reliable uuid) l1 l2 ->
      (exists rest, requests l2 = requests l1 ++ rest /\ next l ∉ rest) /\
      forall req' l3, get key l2 = Some (next l) -> canceled l2 = false ->
        MakeServerTxKey (hdrs (rq_msg req')) = Ok key -> handleRequest spin envs is_reliable uuid req' l2 = Ok l3 ->
        same_outputs l2 l3 /\
        exists t2, txs l2 !! next l = Some (key, TxServer t2) /\
          txs l3 !! next l =
          Some (key, TxServer (fst (ServerTx.Receive spin (envs (next l)) (MRequest req') t2))).
Proof using.
  intros Hr%wf_reachable Hc Hg Ha Hca Hn.
  destruct (handleRequest_new spin envs is_reliable uuid _ _ _ _ Hc Hg Ha Hca Hn)
    as (l1 & H1 & [Hh1 Hh2] & Hreq & Hc1 & Hk).
  exists l1. do 3 (split; [done |]). intros l2 Hl2.
  pose proof (wf_handle_request spin envs is_reliable uuid true _ _ _ Hr H1) as Hw1.
  pose proof (since_handle_request spin envs is_reliable uuid true _ _ _ Hr H1) as Hs1.
  destruct (since_run _ _ _ _ _ _ Hw1 Hl2) as [Hsince _]. split.
  - destruct (since_requests _ _ Hsince) as (rest & E & Hrest). exists rest. split; [done |].
    intros Hin%Hrest. apply (lw_txs _ Hw1) in Hh2. lia.
  - intros req' l3 Hg2 Hc2 Hk' H3. destruct (since_txs _ _ Hsince _ _ _ Hh2) as ([?|t2] & Ht2 & Hkind); [done |].
    destruct (handleRequest_held spin envs is_reliable uuid req' l2 key (next l) t2 l3 Hc2 Hk') as [? ?];
      [by split | done |]. eauto.
Qed.

(** A response built from a request answers it: [Respond] finds the server
    transaction that holds the key of the request and hands the response to
    it. *)
Theorem layer_response_reaches_server_tx l key n t u id req code rsn b rs :
  canceled l = false -> wf_section (hdrs (rq_msg req)) ->
  MakeServerTxKey (hdrs (rq_msg req)) = Ok key -> holds_server l key n t ->
  NewResponseFromRequest u id req code rsn b = Ok rs ->
  Respond spin envs rs l =
  (l' ← store_tx n key (TxServer (fst (ServerTx.Respond spin (envs n) rs t))) l;
   Ok (n, l', snd (ServerTx.Respond spin (envs n) rs t))).
Proof using.
  intros Hc Hw Hk Hh Hrs. unfold Respond. rewrite Hc, destined_shown by (by eapply response_destined). cbn [mbind res_bind].
  rewrite (getServerTx_holds _ _ key n t); [| | done].
  - cbn [mbind res_bind]. by destruct (ServerTx.Respond spin (envs n) rs t).
  - rewrite <- Hk. by eapply MakeServerTxKey_view, response_view.
Qed.

(** C9: The response a peer builds to a request (with a well-formed header section) that
    the layer sent, handled in any state after the send of a layer that is not
    canceled: while the store leads from the key of the request to its client
    transaction, the response is received by that transaction; while the store has
    nothing under that key (the call of [Request] has sent the request and not
    stored the transaction yet, or the transaction has ended), it is passed up to
    the user as a response without a transaction. *)
Theorem layer_response_reaches_client_tx req l n l1 l2 u id code rsn b rs :
  reachable spin envs is_reliable uuid l -> wf_section (hdrs (rq_msg req)) ->
  Request_init spin envs is_reliable req l = Ok (n, l1) ->
  rtc (layer_step spin envs is_reliable uuid) l1 l2 -> canceled l2 = false ->
  NewResponseFromRequest u id
    (ClientTx.prepareClientRequest (GenerateBranch (e_rnd (envs (next l)) 0)) req) code rsn b = Ok rs ->
  exists key t, txs l2 !! n = Some (key, TxClient t) /\ MakeClientTxKey (hdrs (rs_msg rs)) = Ok key /\
    (get key l2 = Some n ->
     handleResponse spin envs rs l2 =
     store_tx n key (TxClient (fst (ClientTx.Receive spin (envs n) (MResponse rs) t))) l2) /\
    (get key l2 = None -> handleResponse spin envs rs l2 = Ok (pass_response rs l2)).
Proof using.
  intros Hr%wf_reachable Hw Hi Hrun Hc Hrs. pose proof (wf_Request_init _ _ _ _ _ _ _ Hr Hi) as Hw1.
  destruct (Request_init_new spin envs is_reliable _ _ _ _ Hi) as (key & t & Hk & -> & Hx & _).
  destruct (since_run _ _ _ _ _ _ Hw1 Hrun) as [Hsince _].
  destruct (since_txs _ _ Hsince _ _ _ Hx) as ([t2|?] & Ht2 & Hkind); [| done].
  assert (MakeClientTxKey (hdrs (rs_msg rs)) = Ok key) as Hkr.
  { rewrite <- Hk. apply MakeClientTxKey_view. eapply response_view; [by apply wf_prepared | done]. }
  exists key, t2. do 2 (split; [done |]). unfold handleResponse, handle_response. rewrite Hc. split; intros Hg.
  - by rewrite (getClientTx_holds _ _ key (next l) t2) by done.
  - unfold getClientTx. by rewrite Hkr, Hg.
Qed.

(** C23: The CANCEL of an INVITE and the ACK of its rejection reach the server
    transaction of the INVITE: they have its key. *)
Theorem layer_cancel_and_ack_reach_invite_tx l key n t inv seqNo u id c rnd rs b a :
  canceled l = false -> wf_section (hdrs (rq_msg inv)) -> CSeq (hdrs (rq_msg inv)) = Some (seqNo, INVITE) ->
  MakeServerTxKey (hdrs (rq_msg inv)) = Ok key -> holds_server l key n t ->
  NewCancelRequest u id inv = Ok c ->
  wf_store (hdrs (rs_msg rs)) -> IsSuccess rs = false -> NewAckRequest u id rnd inv rs b = Ok a ->
  handleRequest spin envs is_reliable uuid c l =
    store_tx n key (TxServer (fst (ServerTx.Receive spin (envs n) (MRequest c) t))) l /\
  handleRequest spin envs is_reliable uuid a l =
    store_tx n key (TxServer (fst (ServerTx.Receive spin (envs n) (MRequest a) t))) l.
Proof using.
  intros Hc Hw Hcs Hk Hh Hcan Hwr Hs Hack. unfold handleRequest, handle_request. rewrite Hc.
  split; (rewrite (getServerTx_holds _ _ key n t); [done | rewrite <- Hk | done]);
    apply MakeServerTxKey_view.
  - by eapply cancel_view.
  - by eapply ack_view.
Qed.

(** An ACK or a CANCEL never starts a transaction and is never passed up
    as a request; a CANCEL that matches no transaction is answered with 481
    under its own keys. *)
Theorem layer_ack_cancel_start_nothing req l l' :
  request_IsAck req = true \/ request_IsCancel req = true ->
  handleRequest spin envs is_reliable uuid req l = Ok l' ->
  next l' = next l /\ transactions l' = transactions l /\ requests l' = requests l /\
  (canceled l = false -> getServerTx (hdrs (rq_msg req)) l = Ok None -> request_IsAck req = false ->
   wf_section (hdrs (rq_msg req)) ->
   exists rs, tpl_sent l' = tpl_sent l ++ [MResponse rs] /\ status rs = 481%N /\
     view (hdrs (rs_msg rs)) = view (hdrs (rq_msg req))).
Proof using.
  intros Hm. unfold handleRequest, handle_request. destruct (canceled l) eqn:Hc; [by intros [= <-] |].
  destruct (getServerTx _ l) as [[[[n k] t]|]| |] eqn:E; try done.
  - intros H%store_tx_outputs. destruct H as [(? & _ & _ & _ & ? & ? & _) _]. split_and!; try done.
  - destruct (request_IsAck req) eqn:Ea; [by intros [= <-] |].
    destruct Hm as [?|Hm]; [done |]. rewrite Hm. unfold reject_cancel.
    destruct (NewResponseFromRequest _ _ _ _ _ _) as [rs| |] eqn:Er; try done. intros [= <-].
    split_and!; try done. intros _ _ _ Hw. exists rs. split; [done |].
    split; [| by eapply response_view].
    unfold NewResponseFromRequest in Er.
    by apply bind_Ok in Er as (? & _ & (? & _ & (? & _ & [= <-])%bind_Ok)%bind_Ok).
  - by intros [= <-].
Qed.

End theorems.

(** A response has the keys of the request it was built from, so both ends
    match it to the request's transaction; the CANCEL of an INVITE and the ACK
    of its rejection have the keys of the INVITE. *)
Theorem keys_follow_request u id rnd r code rsn b rs :
  wf_section (hdrs (rq_msg r)) -> NewResponseFromRequest u id r code rsn b = Ok rs ->
  (MakeServerTxKey (hdrs (rs_msg rs)) = MakeServerTxKey (hdrs (rq_msg r)) /\
   MakeClientTxKey (hdrs (rs_msg rs)) = MakeClientTxKey (hdrs (rq_msg r))) /\
  forall seqNo, CSeq (hdrs (rq_msg r)) = Some (seqNo, INVITE) ->
    (forall c, NewCancelRequest u id r = Ok c ->
       MakeServerTxKey (hdrs (rq_msg c)) = MakeServerTxKey (hdrs (rq_msg r)) /\
       MakeClientTxKey (hdrs (rq_msg c)) = MakeClientTxKey (hdrs (rq_msg r))) /\
    (forall rj a, wf_store (hdrs (rs_msg rj)) -> IsSuccess rj = false ->
       NewAckRequest u id rnd r rj [] = Ok a ->
       MakeServerTxKey (hdrs (rq_msg a)) = MakeServerTxKey (hdrs (rq_msg r))).
Proof.
  intros Hw Hr. assert (view (hdrs (rs_msg rs)) = view (hdrs (rq_msg r))) as Hv by (by eapply response_view).
  split; [by split; [apply MakeServerTxKey_view | apply MakeClientTxKey_view] |].
  intros seqNo Hc. split.
  - intros c Hcan. assert (view (hdrs (rq_msg c)) = view (hdrs (rq_msg r))) as Hv' by (by eapply cancel_view).
    by split; [apply MakeServerTxKey_view | apply MakeClientTxKey_view].
  - intros rj a Hwr Hs Ha. by eapply MakeServerTxKey_view, ack_view.
Qed.

(** ** The theorems on concrete layers *)

Definition envs0 : nat -> env := fun _ => good_env.
Definition reliable0 (transport : bytes) : bool := streq transport "TCP".
Definition uuid0 : nat -> bytes := fun _ => "uuid".

Definition ok_layer (m : res layer) : layer := match m with Ok l => l | _ => NewLayer end.

(** A layer that got the INVITE; it rejected the call and the ACK came; the
    transaction ended. *)
Definition with_invite : layer :=
  ok_layer (handleMessage run_spin envs0 reliable0 uuid0 (MRequest sample_invite) NewLayer).

Definition invite_tx : ServerTx.serverTx :=
  ServerTx.Init (ServerTx.new_serverTx sample_invite false).

Definition invite_txkey : TxKey := "z9hG4bK776asdhds__pc33.atlanta.com__5066__INVITE".

Lemma with_invite_reachable : reachable run_spin envs0 reliable0 uuid0 with_invite.
Proof.
  apply rtc_once, ls_message with true (MRequest sample_invite). unfold with_invite.
  change (handle_message run_spin envs0 reliable0 uuid0 true) with (handleMessage run_spin envs0 reliable0 uuid0).
  destruct (handleMessage _ _ _ _ _ _) eqn:E; [done | |]; vm_compute in E; discriminate E.
Qed.

Lemma with_invite_holds : holds_server with_invite invite_txkey 0 invite_tx.
Proof. split; vm_compute; reflexivity. Qed.

Lemma layer_store_invariant_witness :
  (exists x, txs with_invite !! 0 = Some (invite_txkey, x)) /\ (0 ∈ serving with_invite \/ calls with_invite !! 0 = Some Stored).
Proof.
  destruct (layer_store_invariant run_spin envs0 reliable0 uuid0 with_invite invite_txkey 0) as [H1 H2].
  - exact with_invite_reachable.
  - vm_compute. reflexivity.
  - split; [exact H1 | apply H2; vm_compute; reflexivity].
Defined.

(** A layer whose only transaction the user terminated. *)
Definition with_done : layer :=
  match tx_step run_spin envs0 0 (EServer ServerTx.STerminate) with_invite with
  | Some m => ok_layer m
  | None => NewLayer
  end.

Lemma with_done_reachable : reachable run_spin envs0 reliable0 uuid0 with_done.
Proof.
  eapply rtc_r; [exact with_invite_reachable |].
  apply (ls_tx _ _ _ _ 0 (EServer ServerTx.STerminate)). unfold with_done.
  destruct (tx_step _ _ _ _ _) as [[l| |]|] eqn:E; [done | ..]; vm_compute in E; discriminate E.
Qed.

Lemma layer_forgets_done_witness :
  exists l', serve_step 0 with_done = Some l' /\ 0 ∉ serving l' /\ forall key', get key' l' <> Some 0.
Proof.
  apply (layer_forgets_done run_spin envs0 reliable0 uuid0 with_done 0 invite_txkey
           (TxServer (ServerTx.delete invite_tx))).
  - exact with_done_reachable.
  - vm_compute. left.
  - vm_compute. reflexivity.
  - vm_compute. reflexivity.
Defined.

Lemma layer_request_passed_up_once_witness :
  requests with_invite = [0] /\
  requests (ok_layer (handleRequest run_spin envs0 reliable0 uuid0 sample_invite with_invite)) = [0].
Proof.
  split; [vm_compute; reflexivity |].
  destruct (layer_request_passed_up_once run_spin envs0 reliable0 uuid0 sample_invite NewLayer
              invite_txkey (ServerTx.new_serverTx sample_invite false)) as (l1 & H1 & Hq & Hg & H2);
    [apply rtc_refl | vm_compute; reflexivity.. |].
  assert (with_invite = l1) as E.
  { unfold with_invite, handleMessage, handle_message. change (canceled NewLayer) with false. cbv iota.
    unfold handleRequest in H1. by rewrite H1. }
  rewrite E. destruct (handleRequest run_spin envs0 reliable0 uuid0 sample_invite l1) as [l2| |] eqn:E2;
    try (rewrite <- E in E2; vm_compute in E2; discriminate E2).
  assert (canceled l1 = false) as Hc by (rewrite <- E; vm_compute; reflexivity).
  assert (MakeServerTxKey (hdrs (rq_msg sample_invite)) = Ok invite_txkey) as Hk by (vm_compute; reflexivity).
  destruct (proj2 (H2 l1 ltac:(apply rtc_refl)) sample_invite l2 Hg Hc Hk E2) as [(H3 & _) _]. cbn. rewrite H3. exact Hq.
Defined.

Lemma layer_response_reaches_server_tx_witness :
  exists l', Respond run_spin envs0 busy with_invite = Ok (0, l', true).
Proof.
  pose proof (layer_response_reaches_server_tx run_spin envs0 with_invite invite_txkey 0 invite_tx
    "u1" "m1" sample_invite 486 "Busy Here" [] busy eq_refl (sample_wf_section _ _)
    ltac:(vm_compute; reflexivity) with_invite_holds ltac:(vm_compute; reflexivity)) as H.
  rewrite H. eexists. vm_compute. reflexivity.
Defined.

(** A layer that sent the REGISTER, before and after it stored the transaction. *)
Definition sent_register : layer :=
  match Request_init run_spin envs0 reliable0 sample_register NewLayer with Ok (_, l) => l | _ => NewLayer end.
Definition stored_register : layer := default NewLayer (request_step RStore 0 sent_register).

Lemma layer_response_reaches_client_tx_witness :
  (exists key t, txs stored_register !! 0 = Some (key, TxClient t) /\
     handleResponse run_spin envs0 registered stored_register =
     store_tx 0 key (TxClient (fst (ClientTx.Receive run_spin good_env (MResponse registered) t))) stored_register) /\
  handleResponse run_spin envs0 registered sent_register = Ok (pass_response registered sent_register).
Proof.
  assert (Request_init run_spin envs0 reliable0 sample_register NewLayer = Ok (0, sent_register)) as E
    by (vm_compute; reflexivity).
  split.
  - destruct (layer_response_reaches_client_tx run_spin envs0 reliable0 uuid0 sample_register NewLayer 0 sent_register
                stored_register "u1" "m1" 200 "OK" [] registered) as (key & t & H1 & H2 & H3 & _).
    + apply rtc_refl.
    + apply sample_wf_section.
    + exact E.
    + apply rtc_once, (ls_call _ _ _ _ RStore 0). vm_compute. reflexivity.
    + vm_compute. reflexivity.
    + vm_compute. reflexivity.
    + exists key, t. split; [exact H1 |]. apply H3. vm_compute in H2. injection H2 as <-. vm_compute. reflexivity.
  - destruct (layer_response_reaches_client_tx run_spin envs0 reliable0 uuid0 sample_register NewLayer 0 sent_register
                sent_register "u1" "m1" 200 "OK" [] registered) as (key & t & H1 & H2 & _ & H4).
    + apply rtc_refl.
    + apply sample_wf_section.
    + exact E.
    + apply rtc_refl.
    + vm_compute. reflexivity.
    + vm_compute. reflexivity.
    + apply H4. vm_compute. reflexivity.
Defined.

Lemma busy_wf : wf_store (hdrs (rs_msg busy)).
Proof.
  assert (hdrs (rs_msg busy) = AppendHeader (copied_headers 486 (hdrs (rq_msg sample_invite))) (HContentLength 0))
    as -> by (vm_compute; reflexivity).
  apply wf_AppendHeader, wf_copied.
Qed.

Lemma layer_cancel_and_ack_reach_invite_tx_witness :
  handleRequest run_spin envs0 reliable0 uuid0 sample_cancel with_invite =
  store_tx 0 invite_txkey
    (TxServer (fst (ServerTx.Receive run_spin good_env (MRequest sample_cancel) invite_tx))) with_invite.
Proof.
  destruct (NewAckRequest "u3" "m3" "rnd" sample_invite busy []) as [a| |] eqn:Ea;
    try (vm_compute in Ea; discriminate Ea).
  apply (layer_cancel_and_ack_reach_invite_tx run_spin envs0 reliable0 uuid0 with_invite invite_txkey 0
           invite_tx sample_invite 314159 "u3" "m3" sample_cancel "rnd" busy [] a).
  - vm_compute. reflexivity.
  - apply sample_wf_section.
  - vm_compute. reflexivity.
  - vm_compute. reflexivity.
  - exact with_invite_holds.
  - vm_compute. reflexivity.
  - exact busy_wf.
  - vm_compute. reflexivity.
  - exact Ea.
Defined.

Lemma layer_ack_cancel_start_nothing_witness :
  exists l', handleRequest run_spin envs0 reliable0 uuid0 sample_cancel NewLayer = Ok l' /\ next l' = 0.
Proof.
  destruct (handleRequest run_spin envs0 reliable0 uuid0 sample_cancel NewLayer) as [l'| |] eqn:E;
    try (vm_compute in E; discriminate E).
  exists l'. split; [reflexivity |].
  destruct (layer_ack_cancel_start_nothing run_spin envs0 reliable0 uuid0 sample_cancel NewLayer l') as [H _].
  - right. vm_compute. reflexivity.
  - exact E.
  - exact H.
Defined.

Lemma keys_follow_request_witness :
  MakeServerTxKey (hdrs (rs_msg busy)) = Ok invite_txkey.
Proof.
  destruct (keys_follow_request "u1" "m1" "rnd" sample_invite 486 "Busy Here" [] busy) as [[H _] _].
  - apply sample_wf_section.
  - vm_compute. reflexivity.
  - rewrite H. vm_compute. reflexivity.
Defined.

End LayerTheorems.
