(* ===== verification/ParserTheorems.v ===== *)
(** * What the parsers guarantee

    The stream and packet parsers of src/sip/parser: independence of how the
    bytes arrive, agreement of the two parsers, round trips of URIs and
    parameters, ranges of the parsed numbers, and panics. *)

From S2P Require Import Prelude GoStrings Escape Params Headers HeaderStore Message ParserCommon ParamsRoundTrip UriRoundTrip NoPanic Packet Stream StreamProofs ParserBuffer Samples.
From stdpp Require Import options.
Import Escape Params Headers HeaderStore Message ParserCommon ParamsRoundTrip UriRoundTrip NoPanic
  Packet Stream StreamProofs Samples.

Module ParserTheorems.

(** ** Helpers *)

(** A registry none of whose parsers panics. *)
Definition robust (pp : PacketParser) : Prop :=
  forall name p, headerParsers pp !! name = Some p -> forall n text, p n text <> Panic.

(** The start line and the header lines of a datagram. *)
Definition header_block (data : bytes) : option (bytes * list bytes) :=
  n ← getBodyLength data;
  match nonempty_lines (Split (take (length data - n) data) CRLF) with
  | [] => None
  | l :: ls => Some (l, ls)
  end.

(** The first header line is a continuation line. *)
Definition starts_folded (lines : list bytes) : Prop :=
  exists c l rest, lines = (c :: l) :: rest /\ Contains abnfWs (string_of_byte c) = true.

(** A request whose URI has a transport parameter without a value. *)
Definition bare_transport (m : msg) : Prop :=
  exists r u ps, m = MRequest r /\ recipient r = Some u /\ Uri_UriParams u = Some ps /\ Get ps "transport" = Some None.

Section robust_registry.

Context (pp : PacketParser) (Hpp : robust pp).

Lemma ParseHeader_np text : ParseHeader pp text <> Panic.
Proof using Hpp.
  unfold ParseHeader. destruct (IndexByte text ":"); [| done].
  destruct (headerParsers pp !! _) eqn:E; [by eapply Hpp | done].
Qed.

Lemma flushBuffer_np b hs : flushBuffer pp b hs <> Panic.
Proof using Hpp.
  unfold flushBuffer. destruct b; [done |].
  pose proof (ParseHeader_np (a :: b)). by destruct (ParseHeader _ _).
Qed.

Lemma fill_loop_buffered_np m lines b hs :
  Forall (fun l => l <> []) lines -> b <> [] -> fill_loop pp m lines b hs <> Panic.
Proof using Hpp.
  intros H. revert b hs. induction H as [|l ls Hl Hls IH]; intros b hs Hb; cbn [fill_loop]; [apply flushBuffer_np |].
  destruct l as [|c l]; [done |]. cbn [at_ lookup list_lookup mbind res_bind].
  destruct b as [|d b]; [done |]. destruct (Contains abnfWs (string_of_byte c)); [by apply IH |].
  apply bind_np; [apply flushBuffer_np | intros; by apply IH].
Qed.

(** Only a continuation line at the start can panic, by the text for the log. *)
Lemma fill_loop_panics m lines hs :
  Forall (fun l => l <> []) lines ->
  (fill_loop pp m lines [] hs = Panic <-> starts_folded lines /\ msg_shown m = Panic).
Proof using Hpp.
  intros H. revert hs. induction H as [|l ls Hl Hls IH]; intros hs; cbn [fill_loop].
  { split; [done | by intros [(? & ? & ? & ? & _) _]]. }
  destruct l as [|c l]; [done |]. cbn [at_ lookup list_lookup mbind res_bind].
  destruct (Contains abnfWs (string_of_byte c)) eqn:E.
  - destruct (msg_shown_cases m) as [Em | Em]; rewrite Em; cbn [mbind res_bind].
    + rewrite IH, Em. by split; intros [_ ?].
    + split; [intros _; split; [by exists c, l, ls | done] | done].
  - split; [| by intros [(c' & l' & r & [= -> -> ->] & ?) _]; congruence].
    cbn [flushBuffer mbind res_bind]. intros Hf. by apply fill_loop_buffered_np in Hf.
Qed.

Lemma parseStartLine_np uuid l : parseStartLine uuid l <> Panic.
Proof using.
  unfold parseStartLine. destruct (isRequest l).
  - apply bind_np; [apply ParseRequestLine_np |]. by intros [[? ?] ?].
  - destruct (isResponse l); [| done]. apply bind_np; [apply ParseStatusLine_np |]. by intros [[? ?] ?].
Qed.

(** The message of a start line has no headers and no addresses yet. *)
Lemma fresh_transport r u :
  tp (rq_msg r) = [] -> hdrs (rq_msg r) = empty_headers -> recipient r = Some u ->
  (request_Transport r = Panic /\ exists ps, Uri_UriParams u = Some ps /\ Get ps "transport" = Some None) \/
  ((exists t, request_Transport r = Ok t) /\ forall ps, Uri_UriParams u = Some ps -> Get ps "transport" <> Some None).
Proof using.
  intros Ht Hh Hr. unfold request_Transport. rewrite Ht, Hh, Hr.
  assert (route_uri empty_headers = None) as -> by reflexivity. unfold uri_transport.
  destruct (Uri_UriParams u) as [ps|]; [| right; split; [cbn; eauto | done]].
  destruct (Get ps "transport") as [[v|]|] eqn:E; [| left; split; [done | by exists ps] |];
    right; (split; [cbn; eauto | intros ? [= <-]; congruence]).
Qed.

Lemma start_line_shown uuid l m :
  parseStartLine uuid l = Ok m -> (msg_shown m = Panic <-> bare_transport m).
Proof using.
  unfold parseStartLine. destruct (isRequest l).
  - intros ([[meth u] v] & _ & [= <-])%bind_Ok. cbn [msg_shown]. set (r := NewRequest _ _ _ _ _ _ _).
    assert (bare_transport (MRequest r) <-> exists ps, Uri_UriParams u = Some ps /\ Get ps "transport" = Some None) as ->.
    { unfold bare_transport. split; [| by intros (ps & ? & ?); exists r, u, ps].
      intros (r' & u' & ps & [= <-] & [= <-] & ? & ?). by exists ps. }
    unfold request_shown.
    destruct (fresh_transport r u eq_refl eq_refl eq_refl) as [[-> Hps]|[[t Et] Hps]]; [done |].
    rewrite Et. split; [| by intros (ps & Hp & Hg); destruct (Hps ps Hp)].
    assert (request_Source r = Ok []) as -> by reflexivity. cbn [mbind res_bind].
    unfold request_Destination. assert (dest (rq_msg r) = []) as -> by done.
    assert (route_uri (hdrs (rq_msg r)) = None) as -> by reflexivity. rewrite Et.
    change (recipient r) with (Some u). destruct u as [u| |]; try done. cbn. by destruct (FPort u).
  - destruct (isResponse l); [| done]. intros ([[v n] r] & _ & [= <-])%bind_Ok.
    split; [by intros H; vm_compute in H | by intros (? & ? & ? & ? & _)].
Qed.

Lemma ParseMessage_panics uuid data :
  ParseMessage pp uuid data = Panic <->
  exists l ls m, header_block data = Some (l, ls) /\ parseStartLine uuid l = Ok m /\ bare_transport m /\ starts_folded ls.
Proof using Hpp.
  unfold ParseMessage, header_block. destruct (getBodyLength data) as [n|]; cbn [mbind option_bind]; [| split; [done | by intros (? & ? & ? & ? & _)]].
  destruct (nonempty_lines _) as [|l ls] eqn:E; [split; [done | by intros (? & ? & ? & ? & _)] |].
  assert (Forall (fun l => l <> []) ls) as Hls.
  { assert (Forall (fun l => l <> []) (l :: ls)) as H; [| by apply Forall_cons in H as [_ ?]].
    rewrite <- E. apply Forall_forall. by intros x [Hx _]%list_elem_of_filter. }
  pose proof (parseStartLine_np uuid l) as Hnp.
  destruct (parseStartLine uuid l) as [m| |] eqn:Es; [| split; [done | by intros (? & ? & ? & [= <- <-] & ? & _); congruence] | done].
  cbn [start_line_error mbind res_bind]. unfold fillHeaders. pose proof (fill_loop_panics m ls [] Hls) as Hf.
  rewrite (start_line_shown _ _ _ Es) in Hf. destruct (fill_loop pp m ls [] []) as [hs| |] eqn:El; cbn [mbind res_bind].
  - split; [unfold fillBody; by repeat case_match |]. intros (? & ? & ? & [= <- <-] & Hm & ? & ?).
    rewrite Es in Hm. injection Hm as <-. by assert (Ok hs = Panic) by (by apply Hf).
  - split; [done |]. intros (? & ? & ? & [= <- <-] & Hm & ? & ?).
    rewrite Es in Hm. injection Hm as <-. by assert (Err e = Panic) by (by apply Hf).
  - split; [intros _ | done]. destruct Hf as [Hf _]. destruct Hf as [? ?]; [done |]. by exists l, ls, m.
Qed.

End robust_registry.

(** The names under which the default registry has the address parsers. *)
Definition address_names : list bytes :=
  ["to"; "t"; "from"; "f"; "contact"; "m"; "route"; "record-route"].

(** The default registry with the address headers left to the generic parser. *)
Definition without_addresses (pp : PacketParser) : PacketParser :=
  mkPacketParser (foldr delete (headerParsers pp) address_names).

Lemma default_parsers_np name p :
  (name, p) ∈ defaultHeaderParsers -> name ∉ address_names -> forall n text, p n text <> Panic.
Proof.
  intros H Hn. unfold defaultHeaderParsers in H.
  repeat (apply elem_of_cons in H as [[= -> ->]|H]; [
    first [ destruct Hn; vm_compute; by repeat constructor
          | intros n text; first [ apply parseCallId_np | apply parseCSeq_np | apply parseViaHeader_np
              | by apply bind_np; [apply ParseUint_no_panic |] | done ] ] |]).
  by apply elem_of_nil in H.
Qed.

Lemma registry_lookup pp l name p :
  headerParsers (foldl (fun pp np => SetHeaderParser pp np.1 np.2) pp l) !! name = Some p ->
  headerParsers pp !! name = Some p \/ exists n, (n, p) ∈ l /\ name = ToLower n.
Proof.
  revert pp. induction l as [|[n q] l IH]; intros pp H; cbn [foldl] in H; [by left |].
  apply IH in H as [H|(n' & Hn & ->)]; [| right; exists n'; split; [by constructor | done]].
  cbn in H. rewrite lookup_insert in H. case_decide; [| by left].
  simplify_eq. right. exists n. by split; [constructor |].
Qed.

Lemma default_names_lower : forallb (fun np => streq (ToLower np.1) np.1) defaultHeaderParsers = true.
Proof. vm_compute. reflexivity. Qed.

Lemma foldr_delete_lookup {V} (m : gmap (list ascii) V) (ks : list bytes) k v :
  foldr delete m ks !! k = Some v -> m !! k = Some v /\ k ∉ ks.
Proof.
  induction ks as [|k' ks IH]; cbn; intros H; [split; [done | by apply not_elem_of_nil] |].
  rewrite lookup_delete in H. case_decide; [done |]. apply IH in H as [? ?]. split; [done |].
  apply not_elem_of_cons. split; congruence.
Qed.

Lemma without_addresses_robust : robust (without_addresses NewPacketParser).
Proof.
  intros name p H n text. unfold without_addresses in H. cbn [headerParsers] in H. apply (foldr_delete_lookup _ address_names) in H as [H Hn].
  unfold NewPacketParser in H.
  apply registry_lookup in H as [H|(n' & Hin & ->)]; [cbn [headerParsers] in H; by rewrite lookup_empty in H |].
  apply (default_parsers_np n' p); [done |].
  pose proof default_names_lower as Hl. rewrite forallb_forall in Hl.
  assert (ToLower n' = n') as E by (apply streq_eq, (Hl (n', p)), list_elem_of_In, Hin). by rewrite <- E.
Qed.

(** ** Theorems *)

(** The writes of a list of chunks one after the other. *)
Definition write_all (uuid : nat -> bytes) (p : parser) (chunks : list bytes) : parser :=
  foldl (fun p c => fst (Write uuid p c)) p chunks.

(** The writes and the parsing commute. *)
Lemma write_all_concat uuid p c chunks :
  p_streamed p = true -> p_closed p = false ->
  write_all uuid p (c :: chunks) = fst (Write uuid p (c ++ concat chunks)).
Proof.
  revert c. induction chunks as [|d chunks IH] using rev_ind; intros c Hs Hc.
  - cbn. by rewrite app_nil_r.
  - unfold write_all in *. rewrite app_comm_cons, foldl_app, IH by done. cbn [foldl].
    unfold Write. rewrite Hc, Hs. cbn [fst].
    rewrite parse_closed, parse_streamed. cbn [append_input p_closed p_streamed]. rewrite Hc, Hs. cbn [fst].
    rewrite (parse_append uuid (append_input p _)) by done. rewrite append_input_app, concat_app.
    cbn [concat]. by rewrite app_nil_r, <- app_assoc.
Qed.

(** What a stream parser outputs does not depend on how the transport cuts
    the stream: writing the chunks one by one and writing them at once leave the
    parser in the same state, with the same messages and errors. *)
Theorem stream_segmentation uuid p c chunks :
  p_streamed p = true -> p_closed p = false ->
  write_all uuid p (c :: chunks) = fst (Write uuid p (c ++ concat chunks)).
Proof. apply write_all_concat. Qed.

(** An OPTIONS request as bytes on the wire. *)
Definition options_line : bytes := "OPTIONS sip:bob@biloxi.com SIP/2.0".
Definition options_headers : list bytes :=
  [ "Via: SIP/2.0/TCP pc33.atlanta.com;branch=z9hG4bK776";
    "From: Alice <sip:alice@atlanta.com>;tag=88";
    "To: <sip:bob@biloxi.com>";
    "Call-ID: a84b4c76e66710";
    "CSeq: 63104 OPTIONS";
    "Content-Length: 4" ].

Definition options_text : bytes := unlines (options_line :: options_headers) ++ CRLF ++ "ping".

Definition drawn (n : nat) : bytes := "uuid".

Definition outputs (p : parser) : nat :=
  length (List.filter (fun e => match e with Output _ => true | Errs _ => false end) (p_events p)).

Lemma stream_segmentation_witness :
  outputs (write_all drawn (NewParser NewPacketParser true)
             [take 100 options_text; drop 100 options_text; options_text]) = 2.
Proof.
  rewrite (stream_segmentation drawn (NewParser NewPacketParser true)) by reflexivity.
  vm_compute. reflexivity.
Defined.

(** An OPTIONS request offered on the pipe of a new parser. *)
Definition options_offered : ParserBuffer.state :=
  default (ParserBuffer.start NewPacketParser true 0 [])
    (ParserBuffer.write_step options_text (ParserBuffer.start NewPacketParser true 0 [])).

Lemma pipe_delivers_witness :
  length (ParserBuffer.st_sent (ParserBuffer.run drawn (ParserBuffer.work options_offered) options_offered)) = 1.
Proof.
  assert (ParserBuffer.reaches drawn NewPacketParser true 0 [] options_offered) as Hr.
  { apply (ParserBuffer.reaches_step _ _ _ _ _ _ (ParserBuffer.WriteCall options_text) _ (ParserBuffer.reaches_start _ _ _ _ _));
      [exact I | reflexivity]. }
  rewrite (proj1 (proj2 (ParserBuffer.pipe_delivers drawn NewPacketParser true 0 [] options_offered Hr))).
  vm_compute. reflexivity.
Defined.

(** C25: The parser of datagrams over its pipe agrees with the packet parser, for a
    datagram of header lines that are not empty and hold no carriage return, a blank
    line and any body, of less than 2^63 bytes: written to an idle parser it gives
    exactly the message or the error that [ParseMessage] returns for it and leaves
    the parser idle; where [ParseMessage] panics, the goroutine of the parser does. *)
Theorem datagram_parse_equiv uuid p l ls body :
  let data := unlines (l :: ls) ++ CRLF ++ body in
  let r := ParseMessage (p_pp p) (uuid (p_drawn p)) data in
  idle p -> forallb plain_line (l :: ls) = true -> (N.of_nat (length data) < 2 ^ 63)%N ->
  exists p', Write uuid p data = (p', None) /\ p_pp p' = p_pp p /\ p_events p' = p_events p ++ event_of r /\
    match r with Panic => p_goroutine p' = Crashed | _ => idle p' end.
Proof. apply Write_datagram. Qed.

Definition datagram_parser : parser := NewParser NewPacketParser false.

Lemma datagram_parse_equiv_witness :
  exists p',
    Write drawn datagram_parser (unlines (options_line :: options_headers) ++ CRLF ++ "ping") = (p', None) /\
    outputs p' = 1.
Proof.
  destruct (datagram_parse_equiv drawn datagram_parser options_line options_headers "ping")
    as (p' & H1 & _ & H2 & _).
  - by split_and!.
  - vm_compute. reflexivity.
  - vm_compute. reflexivity.
  - exists p'. split; [exact H1 |]. unfold outputs. rewrite H2. vm_compute. reflexivity.
Defined.

(** Printing a URI and parsing it gives it back: scheme, user, password,
    host, port, parameters and headers. *)
Theorem uri_round_trip u p q :
  clean_uri u p q -> ParseUri (Uri_String (SipUriPtr u)) = Ok (SipUriPtr u).
Proof. apply ParseUri_String. Qed.

Definition sample_uri_params : headerParams := Add (Add NewParams "transport" (Some "tcp")) "lr" None.
Definition sample_uri_headers : headerParams := Add NewParams "subject" (Some "a b").

Definition sample_sip_uri : SipUri :=
  mkSipUri true (Some "al ice") (Some "p@ss") "atlanta.com" (Some 5061%N)
    (Some sample_uri_params) (Some sample_uri_headers).

Lemma uri_round_trip_witness :
  ParseUri (Uri_String (SipUriPtr sample_sip_uri)) = Ok (SipUriPtr sample_sip_uri).
Proof.
  apply (uri_round_trip sample_sip_uri sample_uri_params sample_uri_headers). split.
  - discriminate.
  - split; discriminate.
  - vm_compute. reflexivity.
  - intros n [= <-]. vm_compute. reflexivity.
  - split; [reflexivity |]. apply wf_Add, wf_Add, wf_NewParams.
  - vm_compute. reflexivity.
  - split; [reflexivity |]. apply wf_Add, wf_NewParams.
  - vm_compute. reflexivity.
  - discriminate.
Defined.

(** Printing a parameter set and parsing it gives the set back, keys,
    values and order, and tells exactly how many bytes it took, whatever may
    follow the end delimiter. *)
Theorem params_round_trip p start sep end_ permit rest :
  wf p -> entries p <> [] -> delims_ok sep end_ = true -> start <> NUL ->
  forallb (clean_param end_) (entries p) = true ->
  Forall (fun kv => kv.2 = None -> permit = true) (entries p) ->
  rest_ok end_ (entries p) rest ->
  ParseParams (start :: ToString p sep ++ rest) start sep end_ true permit
  = (p, S (length (ToString p sep)), None).
Proof. apply ParseParams_ToString. Qed.

Definition sample_params : headerParams :=
  Add (Add (Add NewParams "tag" (Some "1;2")) "lr" None) "q" (Some "0.7").

Lemma params_round_trip_witness :
  ParseParams (";tag=1%3B2;lr;q=0.7,next") ";" ";" "," true true = (sample_params, 19, None).
Proof.
  apply (params_round_trip sample_params ";" ";" "," true ",next").
  - apply wf_Add, wf_Add, wf_Add, wf_NewParams.
  - vm_compute. discriminate.
  - vm_compute. reflexivity.
  - discriminate.
  - vm_compute. reflexivity.
  - by repeat constructor.
  - right. split; [by eexists | vm_compute; reflexivity].
Defined.

(** A datagram with an empty element in its Contact list. *)
Definition blank_contact : bytes := unlines [options_line; "Contact: <sip:a@b>, ,<sip:c@d>"] ++ CRLF.

(** A datagram whose first header line is a continuation line. *)
Definition folded_first : bytes := unlines ["INVITE sip:a@b;transport SIP/2.0"; " x"] ++ CRLF.

(** C36: When the registered header parsers return for every text, the packet parser
    returns a message or an error for every datagram, whatever its bytes, with one
    exception: it panics exactly when the start line is a request line whose URI has
    a transport parameter without a value and the first header line is a
    continuation line, by the text it makes for the log.  The default parsers of all
    headers but the address headers do return for every text. *)
Theorem packet_parser_panic_cases pp uuid data :
  (forall name p, headerParsers pp !! name = Some p -> forall n text, p n text <> Panic) ->
  (ParseMessage pp uuid data = Panic <->
   exists l ls m, header_block data = Some (l, ls) /\ parseStartLine uuid l = Ok m /\ bare_transport m /\ starts_folded ls) /\
  forall name p n text, (name, p) ∈ defaultHeaderParsers -> name ∉ address_names -> p n text <> Panic.
Proof.
  intros H. split; [by apply ParseMessage_panics |].
  intros name p n text Hin Hn. by apply (default_parsers_np name p).
Qed.

Lemma packet_parser_panic_cases_witness :
  ParseMessage (without_addresses NewPacketParser) "uuid" blank_contact <> Panic /\
  ParseMessage (without_addresses NewPacketParser) "uuid" folded_first = Panic.
Proof.
  split.
  - intros H. apply (packet_parser_panic_cases (without_addresses NewPacketParser) "uuid" blank_contact) in H;
      [| exact without_addresses_robust]. destruct H as (l & ls & m & Hb & Hl & (r & u & ps & -> & Hr & Hu & Hg) & c & t & rest & -> & Hc).
    vm_compute in Hb. injection Hb as <- <- <- <-. vm_compute in Hc. discriminate Hc.
  - apply (packet_parser_panic_cases (without_addresses NewPacketParser) "uuid" folded_first); [exact without_addresses_robust |].
    eexists _, _, _. split; [vm_compute; reflexivity |]. split; [vm_compute; reflexivity |]. split.
    + eexists _, _, _. split; [reflexivity |]. split; [reflexivity |]. split; [reflexivity |]. vm_compute. reflexivity.
    + eexists _, _, _. split; [reflexivity |]. vm_compute. reflexivity.
Defined.

(** The address parser indexes the first character of an address without
    looking whether there is one: every blank address panics, so a datagram
    with an empty element in its Contact list crashes the packet parser. *)
Theorem blank_address_panics :
  (forall s, s <> [] -> TrimSpace s = [] -> ParseAddressValue s = Panic) /\
  ParseMessage NewPacketParser "uuid" blank_contact = Panic.
Proof.
  split; [| vm_compute; reflexivity].
  intros s Hs Ht. unfold ParseAddressValue. destruct s; [done |]. by rewrite Ht.
Qed.

(** The request line parser lets the wildcard address through, which it
    means to refuse: it looks for a pointer, and the URI parser returns a
    value. *)
Theorem wildcard_request_line_accepted :
  ParseRequestLine "REGISTER * SIP/2.0" = Ok ("REGISTER", WildcardUri, "SIP/2.0").
Proof. vm_compute. reflexivity. Qed.

(** The numbers the parsers return fit the types the code keeps them in:
    a CSeq number at most 2^31 - 1, a port and a status code in 16 bits, a
    Content-Length in 32 bits. *)
Theorem parsed_numbers_fit :
  (forall n s l k m, parseCSeq n s = Ok l -> HCSeq k m ∈ l -> (k <= 2 ^ 31 - 1)%N) /\
  (forall s h port, ParseHostPort s = Ok (h, Some port) -> (port < 2 ^ 16)%N) /\
  (forall s v code r, ParseStatusLine s = Ok (v, code, r) -> (code < 2 ^ 16)%N) /\
  (forall n s l k, parseContentLength n s = Ok l -> HContentLength k ∈ l -> (k < 2 ^ 32)%N).
Proof.
  split_and!.
  - intros n s l k m. unfold parseCSeq. destruct (SplitByWhitespace s) as [|a [|b [|c ls]]]; try done.
    intros (v & Hv & H)%bind_Ok Hin. destruct (maxCseq <? v)%N eqn:E; [done |].
    destruct (ContainsByte _ _); [done |]. injection H as <-.
    apply list_elem_of_singleton in Hin as [= -> ->]. apply N.ltb_ge in E. exact E.
  - intros s h port. unfold ParseHostPort. destruct (LastIndexByte s ":") as [i|].
    + intros (x & _ & H)%bind_Ok. destruct (drop (i + 1) s) as [|c t]; [done |].
      apply bind_Ok in H as (v & Hv & [= _ <-]). unfold wrap_err in Hv.
      destruct (ParseUint (c :: t) 16) eqn:E; try done. injection Hv as <-. by apply ParseUint_bound in E.
    + by intros (x & _ & H)%bind_Ok.
  - intros s v code r. unfold ParseStatusLine. destruct (Split s " ") as [|a [|b [|c ls]]]; try done.
    intros (x & Hx & [= <- <- <-])%bind_Ok. by apply ParseUint_bound in Hx.
  - intros n s l k. unfold parseContentLength. intros (x & Hx & [= <-])%bind_Ok Hin.
    apply list_elem_of_singleton in Hin as [= ->]. by apply ParseUint_bound in Hx.
Qed.

End ParserTheorems.
