(* ===== verification/SipTheorems.v ===== *)
(** * What the data structures of the sip package guarantee

    Escaping (src/sip/escape.go), parameter sets and headers
    (src/sip/headers.go), the header section of a message
    (src/sip/message.go). *)

From S2P Require Import Prelude GoStrings Escape Params Headers HeaderStore Message Samples.
From stdpp Require Import options.
Import Escape Params Headers HeaderStore Message Samples.

Module SipTheorems.

(** Unescaping what [Escape] wrote gives the bytes back, in every mode, for
    the bytes the mode lets through; in the user and query modes these are all
    bytes. *)
Theorem escape_round_trip s mode :
  escapable mode s = true -> Unescape (Escape s mode) mode = Ok s.
Proof. apply Unescape_Escape. Qed.

Lemma escape_round_trip_witness :
  Unescape "al%20ice%40%25" EncodeUserPassword = Ok "al ice@%".
Proof. apply (escape_round_trip "al ice@%" EncodeUserPassword). vm_compute. reflexivity. Defined.

(** The buffer code of [Escape] (one pass that counts, an allocation, a
    pass that writes by index) computes the byte-by-byte escape, and every
    index it writes is inside the buffer it allocated. *)
Theorem escape_buffer_equiv s mode : Escape_buf s mode = Ok (Escape s mode).
Proof. apply Escape_buf_spec. Qed.

(** ** Parameter sets refine association lists *)

Inductive param_op : Type :=
| OpAdd (key : bytes) (val : MaybeString)
| OpRemove (key : bytes).

Definition apply_param (p : headerParams) (op : param_op) : headerParams :=
  match op with OpAdd k v => Add p k v | OpRemove k => Remove p k end.

(** The specification: a list of pairs; setting a key changes its pair in place
    or adds one at the end. *)
Definition spec_param (l : list (bytes * MaybeString)) (op : param_op) : list (bytes * MaybeString) :=
  match op with OpAdd k v => assoc_set k v l | OpRemove k => assoc_del k l end.

Definition spec_get (l : list (bytes * MaybeString)) (k : bytes) : option MaybeString :=
  snd <$> List.find (fun kv => streq kv.1 k) l.

Lemma params_simulation ops p :
  wf p -> wf (foldl apply_param p ops) /\
  entries (foldl apply_param p ops) = foldl spec_param (entries p) ops.
Proof.
  revert p. induction ops as [|op ops IH]; intros p Hw; [done |]. cbn [foldl].
  assert (wf (apply_param p op) /\ entries (apply_param p op) = spec_param (entries p) op) as [Hw' <-].
  { destruct op; cbn [apply_param spec_param];
      [by split; [apply wf_Add | apply entries_Add] | by split; [apply wf_Remove | apply entries_Remove]]. }
  by apply IH.
Qed.

Lemma entries_length p : wf p -> Length p = length (entries p).
Proof.
  intros Hw. unfold Length. rewrite <- size_dom, <- (length_fmap fst), entries_keys by done.
  destruct Hw as [Hnd Hd]. rewrite <- (size_list_to_set (C := gset _)) by exact Hnd. f_equal.
  apply set_eq. intros k. rewrite elem_of_dom, elem_of_list_to_set. symmetry. apply Hd.
Qed.

(** C37: The parameter set, a map and a slice of keys kept in step, implements
    an ordered association list: after any sequence of [Add] and [Remove] its
    keys, lookups, length, printed form and clone are those of the list. *)
Theorem params_refine_assoc_list ops :
  let p := foldl apply_param NewParams ops in
  let l := foldl spec_param [] ops in
  Keys p = l.*1 /\ (forall k, Get p k = spec_get l k) /\ Length p = length l /\
  (forall q, wf q -> entries q = l -> q = p) /\ Clone p = p.
Proof.
  intros p l. destruct (params_simulation ops NewParams wf_NewParams) as [Hw He].
  change (entries NewParams) with (@nil (bytes * MaybeString)) in He. fold p in Hw, He. fold l in He.
  rewrite <- He. split_and!.
  - symmetry. by apply entries_keys.
  - intros k. by apply entries_lookup.
  - by apply entries_length.
  - intros q Hq Hl. by apply entries_inj.
  - by apply Clone_id.
Qed.

(** Two parameter sets are equal for [Equals] exactly when they have the
    same keys with the same values; the order does not count, and the relation
    is an equivalence. *)
Theorem params_equals_iff p q :
  (Params_Equals p q = true <-> forall k, Get p k = Get q k) /\
  Params_Equals p q = Params_Equals q p.
Proof.
  assert (forall a b, Params_Equals a b = true <-> forall k, Get a k = Get b k) as H.
  { intros a b. rewrite Params_Equals_spec. unfold Get. split; [by intros -> |].
    intros Hk. by apply map_eq. }
  split; [apply H |]. apply eq_true_iff_eq. rewrite !H. split; intros Hk k; by rewrite Hk.
Qed.

(** ** The header section *)

Inductive header_op : Type :=
| OpAppend (h : Header)
| OpPrepend (h : Header)
| OpPrependAfter (h : Header) (after : bytes)
| OpReplace (name : bytes) (l : list Header)
| OpRemoveHeader (name : bytes).

Definition apply_header (hs : headers) (op : header_op) : headers :=
  match op with
  | OpAppend h => AppendHeader hs h
  | OpPrepend h => PrependHeader hs h
  | OpPrependAfter h a => PrependHeaderAfter hs h a
  | OpReplace n l => ReplaceHeaders hs n l
  | OpRemoveHeader n => RemoveHeader hs n
  end.

(** Headers are replaced by headers of the same name. *)
Definition op_ok (op : header_op) : Prop :=
  match op with OpReplace n l => Forall (fun h => key_of h = ToLower n) l | _ => True end.

(** What the operation does to the headers of a name. *)
Definition spec_header (n : bytes) (l : list Header) (present : bool) (op : header_op) : list Header :=
  match op with
  | OpAppend h => if decide (key_of h = n) then l ++ [h] else l
  | OpPrepend h | OpPrependAfter h _ => if decide (key_of h = n) then h :: l else l
  | OpReplace m l' => if decide (ToLower m = n) then if present then l' else l else l
  | OpRemoveHeader m => if decide (ToLower m = n) then [] else l
  end.

Lemma wf_apply_header hs op : op_ok op -> wf_store hs -> wf_store (apply_header hs op).
Proof.
  destruct op; cbn; intros Hok Hw; auto using wf_AppendHeader, wf_PrependHeader, wf_PrependHeaderAfter,
    wf_ReplaceHeaders, wf_RemoveHeader.
Qed.

Lemma wf_apply_headers ops hs : Forall op_ok ops -> wf_store hs -> wf_store (foldl apply_header hs ops).
Proof.
  intros H. revert hs. induction H as [|op ops Hok Hops IH]; intros hs Hw; [done |].
  cbn [foldl]. by apply IH, wf_apply_header.
Qed.

Lemma lookup_apply_header hs op n :
  wf_store hs ->
  lookup_list (apply_header hs op) n =
  spec_header n (lookup_list hs n) (bool_decide (is_Some (hmap hs !! n))) op.
Proof.
  intros Hw. destruct op as [h|h|h a|m l|m]; cbn [apply_header spec_header].
  - apply lookup_list_Append.
  - apply lookup_list_Prepend.
  - by apply lookup_list_PrependAfter.
  - unfold ReplaceHeaders. destruct (hmap hs !! ToLower m) as [l'|] eqn:E.
    + rewrite lookup_list_insert. case_decide; [| done]. subst.
      rewrite bool_decide_eq_true_2 by (rewrite E; eauto). done.
    + case_decide; [| done]. subst. rewrite bool_decide_eq_false_2; [done |].
      rewrite E. by intros [? [=]].
  - unfold RemoveHeader, lookup_list. cbn. rewrite lookup_delete. by case_decide.
Qed.

(** C38: After any sequence of header operations the order of the section lists
    every stored name once and every header is stored under its own name; each
    operation changes the headers of its own name only, as it says. *)
Theorem header_store_invariant ops op :
  Forall op_ok ops ->
  let hs := foldl apply_header empty_headers ops in
  NoDup (headerOrder hs) /\ (forall n, n ∈ headerOrder hs <-> is_Some (hmap hs !! n)) /\
  (forall n h, h ∈ lookup_list hs n -> key_of h = n) /\
  forall n, lookup_list (apply_header hs op) n =
    spec_header n (lookup_list hs n) (bool_decide (is_Some (hmap hs !! n))) op.
Proof.
  intros Hok hs. assert (wf_store hs) as Hw by (apply wf_apply_headers; [done | apply wf_empty]).
  pose proof Hw as (Hnd & Hd & Hk). split_and!; try done.
  - intros n h. unfold lookup_list. destruct (hmap hs !! n) as [l|] eqn:E; [| by intros ?%elem_of_nil].
    apply Hk in E. rewrite Forall_forall in E. apply E.
  - intros n. by apply lookup_apply_header.
Qed.

Lemma header_store_invariant_witness :
  NoDup (headerOrder (foldl apply_header empty_headers
    [OpAppend (HCallID "1"); OpPrepend (HMaxForwards 70); OpPrependAfter (HCSeq 1 ACK) "call-id";
     OpReplace "CALL-ID" [HCallID "2"]; OpRemoveHeader "max-forwards"])).
Proof.
  apply (header_store_invariant _ (OpRemoveHeader [])). by repeat constructor.
Defined.

(** [PrependHeaderAfter] puts the header's name right behind the given one
    and moves nothing else, and rebuilding a section from its header list, as
    cloning does, gives the same section. *)
Theorem header_order_kept hs h after :
  wf_store hs -> is_Some (hmap hs !! ToLower after) -> key_of h <> ToLower after ->
  moved_after (ToLower after) (key_of h) (headerOrder hs) (headerOrder (PrependHeaderAfter hs h after)) /\
  (no_empty hs -> newHeaders (Headers_ hs) = hs).
Proof.
  intros Hw Ha Hn. split; [| by apply newHeaders_Headers].
  destruct (hmap hs !! key_of h) as [l|] eqn:E.
  - by eapply after_old_order.
  - by apply after_new_order.
Qed.

Lemma header_order_kept_witness :
  newHeaders (Headers_ (newHeaders (sample_headers "UDP" INVITE))) = newHeaders (sample_headers "UDP" INVITE).
Proof.
  apply (header_order_kept (newHeaders (sample_headers "UDP" INVITE)) (HExpires 60) "Via").
  - apply wf_newHeaders.
  - vm_compute. eexists. reflexivity.
  - vm_compute. discriminate.
  - intros n l Hl. intros ->.
    assert (forallb (fun kv => negb (length kv.2 =? 0))
              (map_to_list (hmap (newHeaders (sample_headers "UDP" INVITE)))) = true) as H
      by (vm_compute; reflexivity).
    rewrite forallb_forall in H. specialize (H (n, [])).
    apply elem_of_map_to_list in Hl. apply list_elem_of_In in Hl. by specialize (H Hl).
Defined.

End SipTheorems.
