(* ===== verification/MessageRoundTrip.v ===== *)
(** * Messages: parsing what was printed

    A printed request or response, given to the packet parser or written to the
    stream parser in any pieces, comes back: start line, headers in order, body.
    [clean_msg] says which messages survive; [received] is the message the
    parser makes, which has an identifier of its own and no addresses yet. *)

From S2P Require Import Prelude GoStrings Escape Params Headers HeaderStore Message ParserCommon ParamsRoundTrip UriRoundTrip NoPanic Packet Stream StreamProofs HeaderRoundTrip.
From S2P Require Import TxKeys Fsm Samples ParserTheorems.
From stdpp Require Import options.
Import Params Headers HeaderStore Message ParserCommon ParamsRoundTrip UriRoundTrip Packet Stream StreamProofs HeaderRoundTrip.
Import Samples ParserTheorems.

Module MessageRoundTrip.

(** ** Messages that survive *)

(** A word of a start line. *)
Definition word_ok (s : bytes) : bool := negb (mem SP s) && negb (mem CR s).

Definition clean_version (s : bytes) : bool := word_ok s && is_sip_version s.

Definition clean_start (m : msg) : Prop :=
  match m with
  | MRequest r =>
      word_ok (method r) = true /\ ToUpper (method r) = method r /\
      clean_version (sipVersion (rq_msg r)) = true /\
      exists u p q, recipient r = Some (SipUriPtr u) /\ clean_uri u p q /\ word_ok (SipUri_String u) = true
  | MResponse r =>
      clean_version (sipVersion (rs_msg r)) = true /\ (status r < 2 ^ 16)%N /\
      mem CR (reason r) = false /\ isRequest (response_StartLine r) = false
  end.

Record clean_msg (m : msg) : Prop := mkCleanMsg {
  cm_start : clean_start m;
  cm_headers : Forall clean_header (Headers_ (hdrs (msg_of m)));
  cm_body : body (msg_of m) = [] \/ TrimSpace (body (msg_of m)) <> []
}.

(** The message a parser makes of the printed one. *)
Definition received_message (uuid : bytes) (x : message) : message :=
  mkMessage (newHeaders (reparsed <$> Headers_ (hdrs x))) uuid (sipVersion x) (body x) [] [] [].

Definition received (uuid : bytes) (m : msg) : msg :=
  match m with
  | MRequest r => MRequest (mkRequest (received_message uuid (rq_msg r)) (method r) (recipient r))
  | MResponse r => MResponse (mkResponse (received_message uuid (rs_msg r)) (status r) (reason r) [])
  end.

Definition start_line (m : msg) : bytes :=
  match m with MRequest r => request_StartLine r | MResponse r => response_StartLine r end.

Definition header_texts (m : msg) : list bytes := Header_String <$> Headers_ (hdrs (msg_of m)).

(** ** The text of a message *)

Lemma msg_String_lines m :
  msg_String m = unlines (start_line m :: header_texts m) ++ CRLF ++ body (msg_of m).
Proof.
  assert (forall hs, Headers_String hs = unlines (Header_String <$> Headers_ hs)) as H.
  { intros hs. unfold Headers_String, unlines. induction (Headers_ hs); [done |]. cbn. by f_equal. }
  rewrite unlines_cons. unfold header_texts. rewrite <- H. by destruct m.
Qed.

(** ** Start lines *)

Lemma word_split s t : word_ok s = true -> Split (s ++ " " ++ t) " " = s :: Split t " ".
Proof. intros [Hs _]%andb_true_iff. apply negb_true_iff in Hs. by apply (Split_byte s t SP). Qed.

Lemma CountByte_cons c d s : CountByte (d :: s) c = (if beq c d then 1 else 0) + CountByte s c.
Proof.
  unfold CountByte. rewrite filter_cons. unfold beq. destruct (Ascii.eqb_spec c d); case_decide; try done; congruence.
Qed.

Lemma CountByte_app s t c : CountByte (s ++ t) c = CountByte s c + CountByte t c.
Proof. unfold CountByte. by rewrite filter_app, length_app. Qed.

Lemma CountByte_absent s c : mem c s = false -> CountByte s c = 0.
Proof.
  induction s as [|d s IH]; intros H; [done |]. unfold mem in H. cbn [existsb] in H.
  apply orb_false_iff in H as [Hc Hs]. by rewrite CountByte_cons, Hc, IH.
Qed.

(** Three words with spaces between them. *)
Lemma three_words a b c :
  word_ok a = true -> word_ok b = true -> word_ok c = true ->
  Split (a ++ " " ++ b ++ " " ++ c) " " = [a; b; c] /\ CountByte (a ++ " " ++ b ++ " " ++ c) SP = 2.
Proof.
  intros Ha Hb Hc. pose proof Ha as [Ha' _]%andb_true_iff. pose proof Hb as [Hb' _]%andb_true_iff.
  pose proof Hc as [Hc' _]%andb_true_iff. apply negb_true_iff in Ha', Hb', Hc'. split.
  - rewrite !word_split by done. do 2 f_equal. by apply (Split_byte_end _ SP).
  - rewrite !CountByte_app. by rewrite (CountByte_absent a), (CountByte_absent b), (CountByte_absent c).
Qed.

Lemma digits_word s : forallb is_digit s = true -> word_ok s = true.
Proof.
  intros H. unfold word_ok. by rewrite !(mem_digits _ s) by done.
Qed.

Lemma parse_request_line uuid r :
  clean_start (MRequest r) ->
  parseStartLine uuid (request_StartLine r)
  = Ok (MRequest (NewRequest uuid [] (method r) (recipient r) (sipVersion (rq_msg r)) [] [])).
Proof.
  intros (Hm & Hup & [Hv Hsip]%andb_true_iff & u & p & q & Hr & Hu & Hw). unfold request_StartLine. rewrite Hr. cbn [fmt_uri Uri_String].
  set (line := method r ++ " " ++ SipUri_String u ++ " " ++ sipVersion (rq_msg r)).
  destruct (three_words (method r) (SipUri_String u) (sipVersion (rq_msg r))) as [Hs Hc]; [done.. |].
  fold line in Hs, Hc.
  unfold parseStartLine, isRequest. rewrite Hc, Hs. cbn [Nat.eqb negb]. rewrite Hsip.
  unfold ParseRequestLine. rewrite Hs.
  pose proof (ParseUri_String u p q Hu) as Hpu. cbn [Uri_String] in Hpu. rewrite Hpu. cbn [mbind res_bind]. by rewrite Hup.
Qed.

Lemma parse_status_line uuid r :
  clean_start (MResponse r) ->
  parseStartLine uuid (response_StartLine r)
  = Ok (MResponse (NewResponse uuid [] (sipVersion (rs_msg r)) (status r) (reason r) [] [])).
Proof.
  intros ([Hv Hsip]%andb_true_iff & Hst & Hrs & Hnr). unfold parseStartLine. rewrite Hnr. unfold response_StartLine in *.
  pose proof (digits_word _ (show_N_all_digits (status r))) as Hd.
  set (line := sipVersion (rs_msg r) ++ " " ++ show_N (status r) ++ " " ++ reason r).
  assert (Split line " " = sipVersion (rs_msg r) :: show_N (status r) :: Split (reason r) " ") as Hs
    by (unfold line; by rewrite !word_split).
  assert (2 <= CountByte line SP) as Hc.
  { unfold line. rewrite !CountByte_app. change (CountByte " " SP) with 1. lia. }
  unfold isResponse. rewrite (proj2 (Nat.ltb_ge _ _)) by done. rewrite Hs.
  pose proof (Split_nonempty (reason r) " ") as Hne. pose proof (Join_Split (reason r) SP) as HJ.
  change [SP] with (" " : bytes) in HJ. destruct (Split (reason r) " ") as [|part parts] eqn:Es; [done |].
  rewrite Hsip. unfold ParseStatusLine. rewrite Hs, ParseUint_show by done. cbn [mbind res_bind]. by rewrite HJ.
Qed.

(** What [parseStartLine] builds, before headers and body. *)
Definition bare (uuid : bytes) (m : msg) : msg :=
  match m with
  | MRequest r => MRequest (NewRequest uuid [] (method r) (recipient r) (sipVersion (rq_msg r)) [] [])
  | MResponse r => MResponse (NewResponse uuid [] (sipVersion (rs_msg r)) (status r) (reason r) [] [])
  end.

Lemma parse_start uuid m : clean_start m -> parseStartLine uuid (start_line m) = Ok (bare uuid m).
Proof. destruct m; [apply parse_request_line | apply parse_status_line]. Qed.

Lemma word_plain s : word_ok s = true -> mem CR s = false.
Proof. intros [_ H]%andb_true_iff. by apply negb_true_iff in H. Qed.

Lemma start_line_plain m : clean_start m -> plain_line (start_line m) = true.
Proof.
  intros H. unfold plain_line. apply andb_true_iff. split.
  - apply negb_true_iff, streq_neq. destruct m as [r|r]; cbn [start_line]; unfold request_StartLine, response_StartLine.
    + by destruct (method r).
    + by destruct (sipVersion (rs_msg r)).
  - apply negb_true_iff. destruct m as [r|r]; cbn [start_line clean_start] in *; unfold request_StartLine, response_StartLine.
    + destruct H as (Hm & _ & [Hv _]%andb_true_iff & u & p & q & -> & _ & Hw). cbn [fmt_uri Uri_String].
      rewrite !mem_app. by rewrite (word_plain (method r)), (word_plain (SipUri_String u)), (word_plain (sipVersion _)).
    + destruct H as ([Hv _]%andb_true_iff & _ & Hr & _).
      rewrite !mem_app, Hr. pose proof (digits_word _ (show_N_all_digits (status r))) as Hd.
      by rewrite (word_plain (sipVersion _)), (word_plain (show_N _)).
Qed.

(** ** Header lines *)

Lemma header_plain h : clean_header h -> plain_line (Header_String h) = true.
Proof.
  intros [[[_ Hn]%andb_true_iff _] [_ Hv]%andb_true_iff _]. apply negb_true_iff in Hn, Hv.
  unfold plain_line, Header_String. rewrite !mem_app, Hn, Hv. by destruct (Header_Name h).
Qed.

(** A header line is no continuation of the line before. *)
Lemma header_starts_line h :
  clean_header h -> exists c t, Header_String h = c :: t /\ Contains abnfWs (string_of_byte c) = false.
Proof.
  intros [[[Hn _]%andb_true_iff _] _ _]. unfold Header_String. destruct (Header_Name h) as [|c t]; [by eexists _, _ |].
  exists c, (t ++ ": " ++ Header_Value h). split; [done |]. apply trimmed_edges in Hn as [Hn _].
  cbn [space_len] in Hn. destruct (ascii_space c) eqn:Hc; [done |].
  apply negb_true_iff in Hc. apply (byte_implies (fun c => negb (ascii_space c)) (fun c => negb (Contains abnfWs (string_of_byte c)))) in Hc;
    [by apply negb_true_iff in Hc | vm_compute; reflexivity].
Qed.

Lemma flush_header h hs :
  clean_header h -> flushBuffer NewPacketParser (Header_String h) hs = Ok (hs ++ [reparsed h]).
Proof.
  intros Hh. unfold flushBuffer. destruct (header_starts_line h Hh) as (c & t & E & _). rewrite E, <- E.
  by rewrite ParseHeader_printed.
Qed.

Lemma fill_loop_buffered m h hs acc :
  clean_header h -> Forall clean_header hs ->
  fill_loop NewPacketParser m (Header_String <$> hs) (Header_String h) acc = Ok (acc ++ reparsed h :: (reparsed <$> hs)).
Proof.
  intros Hh H. revert h acc Hh. induction H as [|h' hs Hh' Hs IH]; intros h acc Hh; [by apply flush_header |].
  rewrite !fmap_cons. cbn [fill_loop]. destruct (header_starts_line h' Hh') as (c & t & E & Hc).
  assert (at_ (Header_String h') 0 = Ok c) as -> by (by rewrite E). cbn [mbind res_bind]. rewrite Hc.
  rewrite flush_header by done. cbn [mbind res_bind]. rewrite IH by done. by rewrite <- app_assoc.
Qed.

Lemma fill_loop_printed m hs :
  Forall clean_header hs -> fill_loop NewPacketParser m (Header_String <$> hs) [] [] = Ok (reparsed <$> hs).
Proof.
  intros [|h hs' Hh Hs]; [done |]. rewrite fmap_cons. cbn [fill_loop].
  destruct (header_starts_line h Hh) as (c & t & E & Hc).
  assert (at_ (Header_String h) 0 = Ok c) as -> by (by rewrite E). cbn [mbind res_bind flushBuffer]. rewrite Hc.
  cbn [mbind res_bind flushBuffer]. by rewrite fill_loop_buffered.
Qed.

(** Appending the parsed headers one by one. *)
Definition with_headers (uuid : bytes) (m : msg) : msg :=
  msg_map (fun x => with_hdrs x (newHeaders (reparsed <$> Headers_ (hdrs (msg_of m))))) (bare uuid m).

Lemma append_all m hs :
  foldl msg_AppendHeader m hs = msg_map (fun x => with_hdrs x (foldl AppendHeader (hdrs x) hs)) m.
Proof.
  revert m. induction hs as [|h hs IH]; intros m; cbn [foldl]; [by destruct m as [[[]]|[[]]] |].
  rewrite IH. by destruct m.
Qed.

Lemma fillHeaders_printed uuid m :
  Forall clean_header (Headers_ (hdrs (msg_of m))) ->
  fillHeaders NewPacketParser (bare uuid m) (header_texts m) = Ok (with_headers uuid m).
Proof.
  intros H. unfold fillHeaders, header_texts. rewrite fill_loop_printed by done. cbn [mbind res_bind].
  rewrite append_all. unfold with_headers, newHeaders. by destruct m.
Qed.

Lemma fillBody_printed uuid m :
  body (msg_of m) = [] \/ TrimSpace (body (msg_of m)) <> [] ->
  fillBody (with_headers uuid m) (body (msg_of m)) (length (body (msg_of m))) = Ok (received uuid m).
Proof.
  intros Hb. unfold fillBody. rewrite Nat.eqb_refl. cbn [negb].
  destruct (streq (TrimSpace (body (msg_of m))) "") eqn:E; [| by destruct m].
  apply streq_eq in E. destruct Hb as [Hb|Hb]; [| done].
  destruct m as [r|r]; cbn in Hb |- *; unfold received_message, with_hdrs; cbn; by rewrite Hb.
Qed.

Lemma headers_plain m :
  Forall clean_header (Headers_ (hdrs (msg_of m))) -> forallb plain_line (header_texts m) = true.
Proof.
  intros Hh. apply forallb_forall. intros l Hl. apply list_elem_of_In, list_elem_of_fmap in Hl as (h & -> & Hin).
  rewrite Forall_forall in Hh. by apply header_plain, Hh.
Qed.

Lemma lines_plain m : clean_msg m -> forallb plain_line (start_line m :: header_texts m) = true.
Proof.
  intros [Hs Hh _]. cbn [forallb]. rewrite start_line_plain by done. by apply headers_plain.
Qed.

(** ** Datagrams *)

Lemma ParseMessage_printed uuid m :
  clean_msg m -> ParseMessage NewPacketParser uuid (msg_String m) = Ok (received uuid m).
Proof.
  intros Hm. rewrite msg_String_lines, ParseMessage_lines by (by apply lines_plain). destruct Hm as [Hs Hh Hb].
  rewrite parse_start by done. cbn [start_line_error mbind res_bind].
  rewrite fillHeaders_printed by done. cbn [mbind res_bind]. by apply fillBody_printed.
Qed.

(** Headers that come back as they are. *)
Definition stable (h : Header) : Prop := reparsed h = h.

Lemma received_headers uuid m :
  wf_store (hdrs (msg_of m)) -> no_empty (hdrs (msg_of m)) -> Forall stable (Headers_ (hdrs (msg_of m))) ->
  hdrs (msg_of (received uuid m)) = hdrs (msg_of m).
Proof.
  intros Hw Hn Hs. assert (reparsed <$> Headers_ (hdrs (msg_of m)) = Headers_ (hdrs (msg_of m))) as E.
  { induction Hs as [|h l Hh Hl IH]; [done |]. rewrite fmap_cons, Hh. by f_equal. }
  destruct m as [r|r]; cbn [msg_of received received_message rq_msg rs_msg hdrs] in *; rewrite E; by apply newHeaders_Headers.
Qed.

(** ** Streams *)

(** A message that says how long its body is, as a stream needs it. *)
Record sized_msg (m : msg) : Prop := mkSizedMsg {
  sm_clean : clean_msg m;
  sm_length : filter (fun h => key_of h = "content-length") (Headers_ (hdrs (msg_of m)))
              = [HContentLength (N.of_nat (length (body (msg_of m))))]
}.

Lemma filter_reparsed n (hs : list Header) :
  filter (fun h => key_of h = n) (reparsed <$> hs) = reparsed <$> filter (fun h => key_of h = n) hs.
Proof.
  induction hs as [|h hs IH]; [done |]. rewrite fmap_cons, !filter_cons, reparsed_key, IH. by case_decide.
Qed.

Lemma received_length uuid m :
  sized_msg m ->
  GetHeaders (hdrs (msg_of (with_headers uuid m))) "Content-Length" = [HContentLength (N.of_nat (length (body (msg_of m))))].
Proof.
  intros [_ Hl]. assert (hdrs (msg_of (with_headers uuid m)) = newHeaders (reparsed <$> Headers_ (hdrs (msg_of m)))) as ->
    by (by destruct m).
  unfold GetHeaders. change (ToLower "Content-Length") with ("content-length" : bytes).
  rewrite lookup_list_new, filter_reparsed. by rewrite Hl.
Qed.

Lemma read_message_printed uuid skip m rest :
  sized_msg m ->
  read_message NewPacketParser uuid false skip None (msg_String m ++ rest)
  = Ok (Next false rest [Output (received uuid m)]).
Proof.
  intros Hm. pose proof (received_length uuid m Hm) as Hl. destruct Hm as [Hm _].
  pose proof (lines_plain m Hm) as Hp. cbn [forallb] in Hp. apply andb_true_iff in Hp as [Hp Hps].
  destruct Hm as [Hs Hh Hb]. apply andb_true_iff in Hp as [_ Hp]. apply negb_true_iff in Hp.
  rewrite msg_String_lines, unlines_cons, <- !app_assoc. unfold read_message, NextLine.
  rewrite scan_line_plain, parse_start, header_lines_unlines, fillHeaders_printed by done.
  cbn [mbind res_bind read_rest fmap option_fmap option_map]. rewrite Hl. unfold read_body, NextChunk.
  rewrite (proj2 (Z.ltb_ge _ _)) by lia. rewrite nat_N_Z, Nat2Z.id, length_app, (proj2 (Nat.leb_le _ _)) by lia.
  rewrite take_app_length, drop_app_length. cbn [mbind res_bind]. by rewrite fillBody_printed.
Qed.

(** The messages with the identifiers they draw one after the other. *)
Definition outputs_from (uuid : nat -> bytes) (n : nat) (ms : list msg) : list event :=
  imap (fun i m => Output (received (uuid (n + i)) m)) ms.

Lemma parse_printed_stream uuid ms p :
  Forall sized_msg ms -> p_pp p = NewPacketParser -> p_streamed p = true -> p_closed p = false ->
  p_goroutine p = Reading -> p_input p = concat (msg_String <$> ms) ->
  let q := parse uuid p in
  p_events q = p_events p ++ outputs_from uuid (p_drawn p) ms /\ p_input q = [] /\ p_goroutine q = Reading.
Proof.
  intros H. revert p. induction H as [|m ms Hm Hms IH]; intros p Hpp Hs Hc Hg Hi q; unfold q;
    rewrite parse_eq, Hg; unfold step_iteration, parse_iteration; rewrite Hs, Hc, Hpp, Hi.
  - cbn. by rewrite app_nil_r, Hi.
  - rewrite fmap_cons. cbn [concat]. rewrite read_message_printed by done.
    destruct (IH (advance p false (concat (msg_String <$> ms)) [Output (received (uuid (p_drawn p)) m)])) as (H1 & H2 & H3);
      try done.
    split_and!; [| done..]. rewrite H1. cbn [advance p_events p_drawn]. unfold outputs_from. rewrite imap_cons.
    rewrite Nat.add_0_r, <- app_assoc. cbn [app]. do 2 f_equal. apply imap_ext. intros i x _. cbn. do 3 f_equal. lia.
Qed.

(** ** Theorems *)



(** *** Concrete messages *)

Definition sample_over (transport : bytes) : request :=
  NewRequest "u0" "m0" "MESSAGE" (Some (sip_uri "bob" "biloxi.com")) "SIP/2.0"
    (sample_headers transport "MESSAGE" ++ [HGeneric "Subject" "hi"; HContentLength 4]) "ping".

Definition sample_message : msg := MRequest (sample_over "TCP").

Lemma sample_clean_uri user host :
  user <> [] -> clean_host None host = true ->
  clean_uri (mkSipUri false (Some user) None host None (Some NewParams) (Some NewParams)) NewParams NewParams.
Proof.
  intros Hu Hh. split; try done; [by intros [= ->] | split; [done | apply wf_NewParams]..].
Qed.

Lemma sample_element name user host tags :
  user <> [] -> clean_host None host = true -> clean_display name -> wf tags ->
  forallb (clean_param ",") (entries tags) = true ->
  mem ">" (Uri_String (sip_uri user host)) = false -> mem DQUOTE (Uri_String (sip_uri user host)) = false ->
  trimmed (address_text name (sip_uri user host) tags) = true ->
  clean_element (name, sip_uri user host, tags).
Proof.
  intros Hu Hh Hn Hw Hc H1 H2 Ht. split; try done. cbn. by eapply clean_sip; [apply sample_clean_uri | ..].
Qed.

Local Ltac computed :=
  repeat match goal with H : _ \/ _ |- _ => destruct H as [-> | ->] end; vm_compute; (reflexivity || discriminate).
Local Ltac simple_header := split; [split; computed | computed | ].

Lemma sample_over_headers transport :
  Headers_ (hdrs (rq_msg (sample_over transport)))
  = sample_headers transport "MESSAGE" ++ [HGeneric "Subject" "hi"; HContentLength 4].
Proof. vm_compute. reflexivity. Qed.

Lemma sample_over_clean transport :
  transport = "TCP" \/ transport = "UDP" -> sized_msg (MRequest (sample_over transport)).
Proof.
  intros Ht.
  assert (forall k v, wf (Add NewParams k v)) as Hwf by (intros; apply wf_Add, wf_NewParams).
  pose proof (sample_over_headers transport) as E. split; [split |].
  - split_and!; [computed.. |]. eexists _, NewParams, NewParams. split; [reflexivity |].
    split; [by apply sample_clean_uri | computed].
  - cbn [msg_of]. rewrite E. cbn [sample_headers app]. repeat apply Forall_cons_2; try apply Forall_nil_2.
    + simple_header. split; [done |]. apply Forall_singleton.
      exists (Add NewParams "branch" (Some "z9hG4bK776asdhds")). split; try (split; computed); try computed.
      * by intros n [= <-].
      * by split.
    + simple_header. eexists _, _. split_and!; [done.. |]. apply sample_element; [computed | computed | split; computed | apply Hwf | computed..].
    + simple_header. eexists _, _. split_and!; [done.. |]. apply sample_element; [computed | computed | exact I | apply wf_NewParams | computed..].
    + simple_header. split; computed.
    + simple_header. split_and!; computed.
    + simple_header. computed.
    + simple_header. computed.
    + simple_header. computed.
  - right. computed.
  - cbn [msg_of]. rewrite E. vm_compute. reflexivity.
Qed.

Lemma sample_message_clean : sized_msg sample_message.
Proof. apply sample_over_clean. by left. Qed.



(** ** What does not survive *)

(** A response whose reason is one word that begins with sip, in either case, is
    taken for a request and refused. *)
Theorem sip_reason_refused uuid r :
  clean_version (sipVersion (rs_msg r)) = true -> word_ok (reason r) = true -> is_sip_version (reason r) = true ->
  Forall clean_header (Headers_ (hdrs (rs_msg r))) ->
  exists e, ParseMessage NewPacketParser uuid (msg_String (MResponse r)) = Err (InvalidStartLineError e).
Proof.
  intros [Hv Hsip]%andb_true_iff Hw Hr Hh. pose proof (digits_word _ (show_N_all_digits (status r))) as Hd.
  assert (forallb plain_line (start_line (MResponse r) :: header_texts (MResponse r)) = true) as Hp.
  { cbn [forallb]. apply andb_true_iff. split.
    - unfold plain_line. cbn [start_line]. unfold response_StartLine. rewrite !mem_app.
      rewrite (word_plain (sipVersion _)), (word_plain (show_N _)), (word_plain (reason r)) by done.
      by destruct (sipVersion (rs_msg r)).
    - by apply headers_plain. }
  rewrite msg_String_lines, ParseMessage_lines by done. cbn [start_line]. unfold response_StartLine.
  set (line := sipVersion (rs_msg r) ++ " " ++ show_N (status r) ++ " " ++ reason r).
  destruct (three_words (sipVersion (rs_msg r)) (show_N (status r)) (reason r)) as [Hs Hc]; [done.. |].
  fold line in Hs, Hc.
  unfold parseStartLine, isRequest. rewrite Hc, Hs. cbn [Nat.eqb negb]. rewrite Hr.
  unfold ParseRequestLine. rewrite Hs. unfold ParseUri.
  assert (trimmed (show_N (status r)) = true) as Ht by (apply token_trimmed, digits_tokens, show_N_all_digits).
  rewrite (TrimSpace_trimmed _ Ht).
  assert (streq (show_N (status r)) "*" = false) as ->.
  { apply streq_neq. intros E. pose proof (show_N_all_digits (status r)) as Ha. by rewrite E in Ha. }
  rewrite (proj2 (IndexByte_None _ _)) by (apply mem_digits; [done | apply show_N_all_digits]).
  eexists. reflexivity.
Qed.

End MessageRoundTrip.
