(* ===== verification/Md5.v ===== *)
(** * The MD5 digest and hexadecimal text: Go's crypto/md5 and encoding/hex

    What src/sip/auth.go uses of the two packages: a fresh digest, writes of
    strings (which concatenate), [Sum(nil)] and [hex.EncodeToString].  A 32-bit
    word is an [N] below 2^32 with its wrap-around written out. *)

From S2P Require Import Prelude GoStrings.
From stdpp Require Import options.

Module Md5.

Open Scope N_scope.

Definition w32 (n : N) : N := n mod 2 ^ 32.
Definition add32 (x y : N) : N := w32 (x + y).
Definition not32 (x : N) : N := N.lxor x (2 ^ 32 - 1).
Definition rotl (x n : N) : N := N.lor (w32 (N.shiftl x n)) (N.shiftr x (32 - n)).

(** The integer parts of 2^32 |sin i|, i from 1. *)
Definition sines : list N :=
  [0xd76aa478; 0xe8c7b756; 0x242070db; 0xc1bdceee; 0xf57c0faf; 0x4787c62a;
   0xa8304613; 0xfd469501; 0x698098d8; 0x8b44f7af; 0xffff5bb1; 0x895cd7be;
   0x6b901122; 0xfd987193; 0xa679438e; 0x49b40821; 0xf61e2562; 0xc040b340;
   0x265e5a51; 0xe9b6c7aa; 0xd62f105d; 0x2441453; 0xd8a1e681; 0xe7d3fbc8;
   0x21e1cde6; 0xc33707d6; 0xf4d50d87; 0x455a14ed; 0xa9e3e905; 0xfcefa3f8;
   0x676f02d9; 0x8d2a4c8a; 0xfffa3942; 0x8771f681; 0x6d9d6122; 0xfde5380c;
   0xa4beea44; 0x4bdecfa9; 0xf6bb4b60; 0xbebfbc70; 0x289b7ec6; 0xeaa127fa;
   0xd4ef3085; 0x4881d05; 0xd9d4d039; 0xe6db99e5; 0x1fa27cf8; 0xc4ac5665;
   0xf4292244; 0x432aff97; 0xab9423a7; 0xfc93a039; 0x655b59c3; 0x8f0ccc92;
   0xffeff47d; 0x85845dd1; 0x6fa87e4f; 0xfe2ce6e0; 0xa3014314; 0x4e0811a1;
   0xf7537e82; 0xbd3af235; 0x2ad7d2bb; 0xeb86d391].

Definition shifts : list N :=
  [7; 12; 17; 22; 5; 9; 14; 20; 4; 11; 16; 23; 6; 10; 15; 21].

Definition shift_of (i : nat) : N := nth (4 * (i / 16) + i mod 4)%nat shifts 0.

(** The word of the block that step [i] takes. *)
Definition word_index (i : nat) : nat :=
  match (i / 16)%nat with
  | O => i
  | 1%nat => (5 * i + 1) mod 16
  | 2%nat => (3 * i + 5) mod 16
  | _ => (7 * i) mod 16
  end%nat.

Definition mix (i : nat) (b c d : N) : N :=
  match (i / 16)%nat with
  | O => N.lor (N.land b c) (N.land (not32 b) d)
  | 1%nat => N.lor (N.land d b) (N.land (not32 d) c)
  | 2%nat => N.lxor (N.lxor b c) d
  | _ => N.lxor c (N.lor b (not32 d))
  end.

Record digest : Type := mkDigest { wa : N; wb : N; wc : N; wd : N }.

Definition init : digest := mkDigest 0x67452301 0xefcdab89 0x98badcfe 0x10325476.

Definition step (block : list N) (s : digest) (i : nat) : digest :=
  let f := add32 (add32 (add32 (wa s) (mix i (wb s) (wc s) (wd s))) (nth i sines 0))
             (nth (word_index i) block 0) in
  mkDigest (wd s) (add32 (wb s) (rotl f (shift_of i))) (wb s) (wc s).

Definition block_step (s : digest) (block : list N) : digest :=
  let t := foldl (step block) s (seq 0 64) in
  mkDigest (add32 (wa s) (wa t)) (add32 (wb s) (wb t)) (add32 (wc s) (wc t)) (add32 (wd s) (wd t)).

(** [n] bytes of a number, the lowest first. *)
Fixpoint le_bytes (n : nat) (x : N) : bytes :=
  match n with O => [] | S n => chr (x mod 256) :: le_bytes n (x / 256) end.

Fixpoint words (l : bytes) : list N :=
  match l with
  | a :: b :: c :: d :: l =>
      code a + 256 * (code b + 256 * (code c + 256 * code d)) :: words l
  | _ => []
  end.

Definition padded (msg : bytes) : bytes :=
  let n := length msg in
  msg ++ chr 128 :: repeat NUL ((119 - n mod 64) mod 64)%nat ++ le_bytes 8 (8 * N.of_nat n).

(** The list cut into [n] pieces of 16 words. *)
Fixpoint blocks (n : nat) (l : list N) : list (list N) :=
  match n with O => [] | S n => take 16 l :: blocks n (drop 16 l) end.

Definition digest_of (msg : bytes) : digest :=
  let ws := words (padded msg) in foldl block_step init (blocks (length ws / 16) ws).

Definition Sum (msg : bytes) : bytes :=
  let s := digest_of msg in
  le_bytes 4 (wa s) ++ le_bytes 4 (wb s) ++ le_bytes 4 (wc s) ++ le_bytes 4 (wd s).

Close Scope N_scope.

(** ** encoding/hex *)

Definition hextable : bytes := "0123456789abcdef".

Definition hex_byte (c : byte) : bytes :=
  [nth (N.to_nat (code c / 16)) hextable NUL; nth (N.to_nat (code c mod 16)) hextable NUL].

Definition EncodeToString (s : bytes) : bytes := s ≫= hex_byte.

(** [hex.EncodeToString(encoder.Sum(nil))] of a digest that [msg] was written to. *)
Definition md5_hex (msg : bytes) : bytes := EncodeToString (Sum msg).

(** Test vectors of RFC 1321. *)
Example md5_empty : md5_hex "" = "d41d8cd98f00b204e9800998ecf8427e".
Proof. vm_compute. reflexivity. Qed.

Example md5_alphabet :
  md5_hex "ABCDEFGHIJKLMNOPQRSTUVWXYZabcdefghijklmnopqrstuvwxyz0123456789"
  = "d174ab98d277d9f5a5611c2c9f419d9f".
Proof. vm_compute. reflexivity. Qed.

(** ** Shape of a digest *)

Lemma le_bytes_length n x : length (le_bytes n x) = n.
Proof. revert x. induction n; intros x; simpl; auto. Qed.

Lemma Sum_length msg : length (Sum msg) = 16.
Proof. unfold Sum. by rewrite !length_app, !le_bytes_length. Qed.

Lemma EncodeToString_length s : length (EncodeToString s) = 2 * length s.
Proof. induction s as [| c s IH]; [done |]. simpl. fold (EncodeToString s). rewrite IH. lia. Qed.

Lemma md5_hex_length msg : length (md5_hex msg) = 32.
Proof. unfold md5_hex. by rewrite EncodeToString_length, Sum_length. Qed.

Definition is_hex (c : byte) : bool := mem c hextable.

Lemma hex_byte_is_hex c : Forall (fun d => is_hex d = true) (hex_byte c).
Proof.
  assert (forallb is_hex (hex_byte c) = true) as H
    by (revert c; apply byte_forall; vm_compute; reflexivity).
  by apply Forall_forall; intros d Hd; rewrite forallb_forall in H; apply H, list_elem_of_In.
Qed.

Lemma md5_hex_is_hex msg : Forall (fun d => is_hex d = true) (md5_hex msg).
Proof.
  unfold md5_hex. induction (Sum msg) as [| c s IH]; [constructor |].
  apply Forall_app. split; [apply hex_byte_is_hex | apply IH].
Qed.

End Md5.
