(* ===== verification/Auth.v ===== *)
(** * Digest authentication: src/sip/auth.go

    [AuthFromValue] collects the matches of a regular expression: a word, an
    equals sign and a non-empty quoted value; [find_all] is that search,
    leftmost and without overlaps.
    [AuthorizeRequest] changes the request it is given: it returns the changed
    request.  The check of an answer is the one of [OnRegister] in
    src/gb28181/gb28181.go. *)

From S2P Require Import Prelude GoStrings Escape Params Headers HeaderStore Message Md5.
From stdpp Require Import options.
Import Params Headers HeaderStore Message Md5.

Module Auth.

Record Authorization : Type := mkAuth {
  realm : bytes;
  nonce : bytes;
  algorithm : bytes;
  username : bytes;
  password : bytes;
  auth_uri : bytes;
  auth_response : bytes;
  auth_method : bytes;
  qop : bytes;
  nc : bytes;
  cnonce : bytes;
  other : gmap bytes bytes
}.

(** ** The regular expression *)

(** [\w] *)
Definition is_word (c : byte) : bool :=
  is_digit c || (bleq "a" c && bleq c "z") || (bleq "A" c && bleq c "Z") || beq c "_".

Definition not_quote (c : byte) : bool := negb (beq c DQUOTE).

(** The longest prefix whose bytes satisfy [p], and the rest. *)
Fixpoint span (p : byte -> bool) (s : bytes) : bytes * bytes :=
  match s with
  | [] => ([], [])
  | c :: s' => if p c then let (a, b) := span p s' in (c :: a, b) else ([], s)
  end.

(** A match at the start of [s]: its two groups and its length.  A word ends
    before the [=] and a value before the quote, so the greedy prefixes are the
    only candidates. *)
Definition match_at (s : bytes) : option (bytes * bytes * nat) :=
  let (key, s1) := span is_word s in
  match key, s1 with
  | _ :: _, e :: q :: s2 =>
      if beq e "=" && beq q DQUOTE then
        let (value, s3) := span not_quote s2 in
        match value, s3 with
        | _ :: _, _ :: _ => Some (key, value, length key + length value + 3)
        | _, _ => None
        end
      else None
  | _, _ => None
  end.

(** [re.FindAllStringSubmatch(value, -1)]; [skip] bytes of a match are still
    to be dropped. *)
Fixpoint find_all (skip : nat) (s : bytes) : list (bytes * bytes) :=
  match s with
  | [] => []
  | _ :: s' =>
      match skip with
      | S k => find_all k s'
      | O =>
          match match_at s with
          | Some (key, value, n) => (key, value) :: find_all (n - 1) s'
          | None => find_all 0 s'
          end
      end
  end.

(** ** Parsing *)

(** [strings.Trim] with a space as the cut set. *)
Definition trim_spaces (v : bytes) : bytes := rev (TrimLeft (rev (TrimLeft v [SP])) [SP]).

(** The loop over the parts of a qop value. *)
Definition qop_value (old value : bytes) : bytes :=
  if existsb (fun v => streq (trim_spaces v) "auth" || streq (trim_spaces v) "auth-int")
       (Split value ",")
  then "auth" else old.

Definition new_auth : Authorization := mkAuth [] [] "MD5" [] [] [] [] [] [] [] [] ∅.

Definition set_field (a : Authorization) (m : bytes * bytes) : Authorization :=
  let '(mkAuth r n al us pw ur re me qo nc0 cn ot) := a in
  let '(k, v) := m in
  if streq k "realm" then mkAuth v n al us pw ur re me qo nc0 cn ot
  else if streq k "algorithm" then mkAuth r n v us pw ur re me qo nc0 cn ot
  else if streq k "nonce" then mkAuth r v al us pw ur re me qo nc0 cn ot
  else if streq k "username" then mkAuth r n al v pw ur re me qo nc0 cn ot
  else if streq k "uri" then mkAuth r n al us pw v re me qo nc0 cn ot
  else if streq k "response" then mkAuth r n al us pw ur v me qo nc0 cn ot
  else if streq k "qop" then mkAuth r n al us pw ur re me (qop_value qo v) nc0 cn ot
  else if streq k "nc" then mkAuth r n al us pw ur re me qo v cn ot
  else if streq k "cnonce" then mkAuth r n al us pw ur re me qo nc0 v ot
  else mkAuth r n al us pw ur re me qo nc0 cn (<[k := v]> ot).

Definition AuthFromValue (value : bytes) : Authorization :=
  foldl set_field new_auth (find_all 0 value).

(** ** Setters *)

Definition SetUsername (s : bytes) (a : Authorization) : Authorization :=
  let '(mkAuth r n al _ pw ur re me qo nc0 cn ot) := a in mkAuth r n al s pw ur re me qo nc0 cn ot.
Definition SetPassword (s : bytes) (a : Authorization) : Authorization :=
  let '(mkAuth r n al us _ ur re me qo nc0 cn ot) := a in mkAuth r n al us s ur re me qo nc0 cn ot.
Definition SetUri (s : bytes) (a : Authorization) : Authorization :=
  let '(mkAuth r n al us pw _ re me qo nc0 cn ot) := a in mkAuth r n al us pw s re me qo nc0 cn ot.
Definition SetMethod (s : bytes) (a : Authorization) : Authorization :=
  let '(mkAuth r n al us pw ur re _ qo nc0 cn ot) := a in mkAuth r n al us pw ur re s qo nc0 cn ot.
Definition SetResponse (s : bytes) (a : Authorization) : Authorization :=
  let '(mkAuth r n al us pw ur _ me qo nc0 cn ot) := a in mkAuth r n al us pw ur s me qo nc0 cn ot.
Definition SetQop (s : bytes) (a : Authorization) : Authorization :=
  let '(mkAuth r n al us pw ur re me _ nc0 cn ot) := a in mkAuth r n al us pw ur re me s nc0 cn ot.
Definition SetNc (s : bytes) (a : Authorization) : Authorization :=
  let '(mkAuth r n al us pw ur re me qo _ cn ot) := a in mkAuth r n al us pw ur re me qo s cn ot.
Definition SetCNonce (s : bytes) (a : Authorization) : Authorization :=
  let '(mkAuth r n al us pw ur re me qo nc0 _ ot) := a in mkAuth r n al us pw ur re me qo nc0 s ot.

(** ** Printing and the response *)

Definition quoted (s : bytes) : bytes := [DQUOTE] ++ s ++ [DQUOTE].

Definition Auth_String (a : Authorization) : bytes :=
  "Digest realm=" ++ quoted (realm a) ++ ",algorithm=" ++ algorithm a ++
  ",nonce=" ++ quoted (nonce a) ++ ",username=" ++ quoted (username a) ++
  ",uri=" ++ quoted (auth_uri a) ++ ",response=" ++ quoted (auth_response a) ++
  (if streq (qop a) "auth" then
     ",qop=" ++ qop a ++ ",nc=" ++ nc a ++ ",cnonce=" ++ quoted (cnonce a)
   else []).

Definition calcResponse
    (username realm password method uri nonce qop cnonce nc : bytes) : bytes :=
  let a1 := md5_hex (username ++ ":" ++ realm ++ ":" ++ password) in
  let a2 := md5_hex (method ++ ":" ++ uri) in
  md5_hex (a1 ++ ":" ++ nonce ++ ":" ++
           (if streq qop "" then [] else nc ++ ":" ++ cnonce ++ ":" ++ qop ++ ":") ++ a2).

Definition CalcResponse (a : Authorization) : bytes :=
  calcResponse (username a) (realm a) (password a) (auth_method a) (auth_uri a) (nonce a)
    (qop a) (cnonce a) (nc a).

(** ** Answering a challenge *)

(** The header names for a 401, and for the 407 that any other status stands for. *)
Definition authenticate_name (code : N) : bytes :=
  if (code =? 401)%N then "WWW-Authenticate" else "Proxy-Authenticate".
Definition authorize_name (code : N) : bytes :=
  if (code =? 401)%N then "Authorization" else "Proxy-Authorization".

(** The credentials for the challenge [contents]. *)
Definition answer (contents method uri user : bytes) (pass : MaybeString) : Authorization :=
  let a := SetUsername user (SetUri uri (SetMethod method (AuthFromValue contents))) in
  let a := match pass with Some p => SetPassword p a | None => a end in
  let a := if streq (qop a) "auth" then
             SetCNonce (md5_hex (user ++ uri ++ match pass with Some p => p | None => [] end))
               (SetNc "00000001" a)
           else a in
  SetResponse (CalcResponse a) a.

(** The credentials go into the first header of the name, or a new one. *)
Definition put_credentials (hs : headers) (name value : bytes) : res headers :=
  match GetHeaders hs name with
  | [] => Ok (AppendHeader hs (HGeneric name value))
  | HGeneric n _ :: _ => Ok (ReplaceHeaders hs n [HGeneric n value])
  | _ => Panic
  end.

(** A new branch, when there is a Via. *)
Definition renew_branch (hs : headers) (rnd : bytes) : res headers :=
  match ViaHop_ hs with
  | Some _ => set_branch hs (GenerateBranch rnd)
  | None => Ok hs
  end.

(** [cseq.SeqNo++] on a clone that replaces the header; a uint32 wraps. *)
Definition next_cseq (hs : headers) : headers :=
  match CSeq hs with
  | Some (n, m) => ReplaceHeaders hs "CSeq" [HCSeq ((n + 1) mod 2 ^ 32) m]
  | None => hs
  end.

Definition AuthorizeRequest (rnd : bytes) (rq : request) (rs : response)
    (user pass : MaybeString) : res request :=
  match user with
  | None => Err (Errorf "authorize request: user is nil")
  | Some u =>
      match GetHeaders (hdrs (rs_msg rs)) (authenticate_name (status rs)) with
      | [] => Err (Errorf "authorize request: header '%s' not found in response")
      | HGeneric _ contents :: _ =>
          match recipient rq with
          | None => Panic
          | Some r =>
              let a := answer contents (method rq) (Uri_String r) u pass in
              hs ← put_credentials (hdrs (rq_msg rq)) (authorize_name (status rs)) (Auth_String a);
              hs ← renew_branch hs rnd;
              Ok (rq_map (fun m => with_hdrs m (next_cseq hs)) rq)
          end
      | _ => Panic
      end
  end.

(** ** The check of the registrar: OnRegister of src/gb28181/gb28181.go *)

Definition accepts (authHeader method token : bytes) : bool :=
  let a := SetPassword token (SetMethod method (AuthFromValue authHeader)) in
  streq (CalcResponse a) (auth_response a).

End Auth.
