(* ===== verification/AuthTheorems.v ===== *)
(** * What digest authentication guarantees: src/sip/auth.go

    The search of the regular expression in printed credentials, the round trip
    of an [Authorization], the check of the registrar against the answer of the
    client, and the effects of [AuthorizeRequest] on the request. *)

From S2P Require Import Prelude GoStrings Escape Params Headers HeaderStore Message Samples Md5 Auth.
From stdpp Require Import options.
Import Params Headers HeaderStore Message Samples Md5 Auth.

Module AuthTheorems.

Definition no_quote (s : bytes) : Prop := Forall (fun c => not_quote c = true) s.

#[global] Instance no_quote_dec s : Decision (no_quote s).
Proof. apply _. Defined.

(** ** The search *)

Lemma span_app p a b :
  Forall (fun c => p c = true) a -> (forall c, head b = Some c -> p c = false) ->
  span p (a ++ b) = (a, b).
Proof.
  intros Ha Hb. induction Ha as [| c a Hc Ha IH]; simpl.
  - destruct b as [| c b]; [done |]. simpl. by rewrite Hb.
  - by rewrite Hc, IH.
Qed.

Lemma span_all p s : Forall (fun c => p c = true) (span p s).1.
Proof.
  induction s as [| c s IH]; simpl; [constructor |].
  destruct (p c) eqn:E; [| constructor]. destruct (span p s). by constructor.
Qed.

Lemma find_all_skip n s : find_all n s = find_all 0 (drop n s).
Proof.
  revert s. induction n as [| n IH]; intros s; [done |].
  destruct s as [| c s]; [done |]. simpl. apply IH.
Qed.

(** A text without quotes that ends in a byte outside words holds no match. *)
Lemma span_blocked q c rest :
  no_quote (q ++ [c]) -> is_word c = false -> head rest <> Some DQUOTE ->
  exists k d t, span is_word (q ++ c :: rest) = (k, d :: t) /\ head t <> Some DQUOTE.
Proof.
  intros Hq Hc Hr. induction q as [| x q IH].
  - exists [], c, rest. simpl. by rewrite Hc.
  - apply Forall_cons in Hq as [Hx Hq]. simpl. destruct (is_word x) eqn:E.
    + destruct (IH Hq) as (k & d & t & -> & Ht). by exists (x :: k), d, t.
    + exists [], x, (q ++ c :: rest). split; [done |].
      destruct q as [| y q]; simpl; apply Forall_cons in Hq as [Hy _];
        intros [= ->]; by vm_compute in Hy.
Qed.

Lemma match_at_blocked q c rest :
  no_quote (q ++ [c]) -> is_word c = false -> head rest <> Some DQUOTE ->
  match_at (q ++ c :: rest) = None.
Proof.
  intros H1 H2 H3. destruct (span_blocked q c rest) as (k & d & t & E & Ht); try done.
  unfold match_at. rewrite E. destruct k as [| x k], t as [| y t]; try done.
  destruct (beq d "=") eqn:?; [| done]. destruct (beq y DQUOTE) eqn:Hy; [| done].
  apply beq_eq in Hy. by subst.
Qed.

Lemma find_all_prefix q c rest :
  no_quote (q ++ [c]) -> is_word c = false -> head rest <> Some DQUOTE ->
  find_all 0 (q ++ c :: rest) = find_all 0 rest.
Proof.
  intros Hq Hc Hr. induction q as [| x q IH].
  - pose proof (match_at_blocked [] c rest Hq Hc Hr) as E. cbn in E |- *. by rewrite E.
  - pose proof (match_at_blocked (x :: q) c rest Hq Hc Hr) as E.
    apply Forall_cons in Hq as [_ Hq]. cbn [app find_all] in E |- *. rewrite E. by apply IH.
Qed.

Lemma match_at_field key v rest :
  Forall (fun c => is_word c = true) key -> key <> [] -> no_quote v ->
  match_at (key ++ "=" ++ quoted v ++ rest) =
  match v with [] => None | _ => Some (key, v, length key + length v + 3) end.
Proof.
  intros Hk Hn Hv. unfold match_at, quoted.
  rewrite (span_app is_word key) by (try done; intros c [= <-]; reflexivity).
  destruct key as [| k key]; [done |]. cbn [app].
  change (beq "=" "=" && beq DQUOTE DQUOTE) with true. cbn iota.
  rewrite <- app_assoc.
  rewrite (span_app not_quote v) by (try done; intros c [= <-]; reflexivity).
  by destruct v.
Qed.

(** What a field contributes: nothing when its value is empty. *)
Definition entry (k v : bytes) : list (bytes * bytes) :=
  match v with [] => [] | _ => [(k, v)] end.

Lemma find_all_empty key rest :
  Forall (fun c => is_word c = true) key ->
  find_all 0 (key ++ "=" ++ quoted [] ++ rest) = find_all 0 rest.
Proof.
  intros Hk. induction Hk as [| k key Hk Hks IH]; [by simpl |].
  pose proof (match_at_field (k :: key) [] rest) as E. cbn [app find_all] in E |- *.
  rewrite E; [exact IH | by constructor | done | constructor].
Qed.

Lemma find_all_field key v rest :
  Forall (fun c => is_word c = true) key -> key <> [] -> no_quote v ->
  find_all 0 (key ++ "=" ++ quoted v ++ rest) = entry key v ++ find_all 0 rest.
Proof.
  intros Hk Hn Hv. destruct v as [| c v]; [by apply find_all_empty |].
  pose proof (match_at_field key (c :: v) rest Hk Hn Hv) as E.
  destruct key as [| k key]; [done |]. cbn [app find_all] in E |- *. rewrite E.
  cbn [entry app]. f_equal. rewrite find_all_skip. f_equal.
  etransitivity; [| apply (drop_app_length (key ++ "=" ++ quoted (c :: v)) rest)]. f_equal.
  - unfold quoted. rewrite !length_app. cbn [length]. lia.
  - by rewrite <- !app_assoc.
Qed.

(** A field after a text without quotes and a separator. *)
Lemma find_all_next q c key v rest :
  no_quote (q ++ [c]) -> is_word c = false ->
  Forall (fun c => is_word c = true) key -> key <> [] -> no_quote v ->
  find_all 0 (q ++ c :: key ++ "=" ++ quoted v ++ rest) = entry key v ++ find_all 0 rest.
Proof.
  intros Hq Hc Hk Hn Hv. rewrite find_all_prefix, find_all_field; try done.
  destruct Hk as [| k key Hw _]; [done |]. intros [= ->]. by vm_compute in Hw.
Qed.

(** ** Values hold no quotes *)

Lemma match_at_no_quote s k v n : match_at s = Some (k, v, n) -> no_quote v.
Proof.
  unfold match_at. destruct (span is_word s) as [[| x key] [| e [| q s2]]]; try done.
  destruct (beq e "=" && beq q DQUOTE); [| done].
  pose proof (span_all not_quote s2) as H. destruct (span not_quote s2) as [[| y val] [| z s3]]; try done.
  by intros [= <- <- <-].
Qed.

Lemma find_all_no_quote n s : Forall (fun kv => no_quote kv.2) (find_all n s).
Proof.
  revert n. induction s as [| c s IH]; intros n; [constructor |]. cbn [find_all].
  destruct n; [| apply IH]. destruct (match_at (c :: s)) as [[[k v] m]|] eqn:E; [| apply IH].
  constructor; [by eapply match_at_no_quote | apply IH].
Qed.

(** The parsed values that are printed again. *)
Definition clean (a : Authorization) : Prop :=
  no_quote (realm a) /\ no_quote (algorithm a) /\ no_quote (nonce a) /\
  no_quote (nc a) /\ no_quote (cnonce a).

Lemma clean_set_field a kv : clean a -> no_quote kv.2 -> clean (set_field a kv).
Proof.
  destruct a, kv as [k v]. unfold clean. cbn. intros (? & ? & ? & ? & ?) ?.
  repeat (destruct (streq k _); [by cbn |]). by cbn.
Qed.

Lemma clean_AuthFromValue s : clean (AuthFromValue s).
Proof.
  unfold AuthFromValue. assert (clean new_auth) as H by (repeat split; by vm_compute; repeat constructor).
  pose proof (find_all_no_quote 0 s) as Hs. revert H. generalize new_auth.
  induction Hs as [| kv l Hv Hl IH]; intros a Ha; [done |]. by apply IH, clean_set_field.
Qed.

(** ** The round trip *)

Definition printable (a : Authorization) : Prop :=
  clean a /\ no_quote (username a) /\ no_quote (auth_uri a) /\ no_quote (auth_response a).

#[global] Instance printable_decision a : Decision (printable a).
Proof. unfold printable, clean. apply _. Defined.

Lemma printable_set_field a kv : printable a -> no_quote kv.2 -> printable (set_field a kv).
Proof.
  intros [Hc Hr] Hv. split; [by apply clean_set_field |]. destruct a, kv as [k v]. cbn in *.
  repeat (destruct (streq k _); [by cbn; intuition |]). by cbn.
Qed.

Lemma printable_AuthFromValue s : printable (AuthFromValue s).
Proof.
  unfold AuthFromValue. assert (printable new_auth) as H by (repeat split; by vm_compute; repeat constructor).
  pose proof (find_all_no_quote 0 s) as Hs. revert H. generalize new_auth.
  induction Hs as [| kv l Hv Hl IH]; intros a Ha; [done |]. by apply IH, printable_set_field.
Qed.

Local Ltac texts := unfold no_quote; rewrite ?Forall_app; repeat split; try done; repeat constructor.
Local Ltac field q c k v :=
  etransitivity; [refine (find_all_next q c k v _ _ _ _ _ _); try done; texts | f_equal].

Lemma find_all_printed a :
  printable a ->
  find_all 0 (Auth_String a) =
  entry "realm" (realm a) ++ entry "nonce" (nonce a) ++ entry "username" (username a) ++
  entry "uri" (auth_uri a) ++ entry "response" (auth_response a) ++
  (if streq (qop a) "auth" then entry "cnonce" (cnonce a) else []).
Proof.
  intros ((Hr & Hal & Hn & Hnc & Hcn) & Hu & Hur & Hre). unfold Auth_String.
  field "Digest" " "%char "realm" (realm a).
  rewrite (app_assoc (",algorithm=")).
  field (",algorithm=" ++ algorithm a) ","%char "nonce" (nonce a).
  field (@nil byte) ","%char "username" (username a).
  field (@nil byte) ","%char "uri" (auth_uri a).
  field (@nil byte) ","%char "response" (auth_response a).
  destruct (streq (qop a) "auth") eqn:E; [| done]. apply streq_eq in E. rewrite E.
  pose proof (find_all_next (",qop=auth,nc=" ++ nc a) "," "cnonce" (cnonce a) []) as H.
  rewrite <- !app_assoc, !app_nil_r in H. apply H; try done; texts.
Qed.

Lemma parse_printed a :
  printable a ->
  AuthFromValue (Auth_String a) =
  mkAuth (realm a) (nonce a) "MD5" (username a) [] (auth_uri a) (auth_response a) [] [] []
    (if streq (qop a) "auth" then cnonce a else []) ∅.
Proof.
  intros H. unfold AuthFromValue. rewrite find_all_printed by done.
  destruct (realm a), (nonce a), (username a), (auth_uri a), (auth_response a), (streq (qop a) "auth");
    try reflexivity; destruct (cnonce a); reflexivity.
Qed.


Definition quoted_challenge (qop : bytes) : bytes :=
  "Digest realm=" ++ quoted "3402000000" ++ ", nonce=" ++ quoted "84f1c1ae" ++ qop.


(** ** The registrar accepts the answer *)

Lemma md5_hex_no_quote s : no_quote (md5_hex s).
Proof.
  eapply Forall_impl; [apply md5_hex_is_hex |]. intros c.
  assert (forallb (fun c => negb (is_hex c) || not_quote c) all_bytes = true) as H by (vm_compute; reflexivity).
  rewrite forallb_forall in H. specialize (H c (all_bytes_complete c)). intros Hc. by rewrite Hc in H.
Qed.

Lemma accepts_answer contents meth uri user pass :
  no_quote user -> no_quote uri -> qop (AuthFromValue contents) = [] ->
  accepts (Auth_String (answer contents meth uri user (Some pass))) meth pass = true.
Proof.
  intros Hu Hur Hq. set (a := answer contents meth uri user (Some pass)).
  pose proof (clean_AuthFromValue contents) as Hc.
  assert (exists r n al re nc0 cn ot, Forall no_quote [r; n; al; nc0; cn] /\
    a = SetResponse (calcResponse user r pass meth uri n [] cn nc0)
          (mkAuth r n al user pass uri re meth [] nc0 cn ot)) as (r & n & al & re & nc0 & cn & ot & Hcl & ->).
  { subst a. unfold answer. destruct (AuthFromValue contents) as [r n al us pw ur re me qo nc0 cn ot].
    cbn in Hq, Hc. subst qo. exists r, n, al, re, nc0, cn, ot. split; [| reflexivity].
    destruct Hc as (? & ? & ? & ? & ?). by repeat constructor. }
  rewrite !Forall_cons in Hcl. destruct Hcl as (? & ? & ? & ? & ? & _). unfold accepts.
  rewrite parse_printed; [apply streq_refl |].
  repeat split; try done. apply md5_hex_no_quote.
Qed.

(** ** The effects of AuthorizeRequest *)

Lemma lookup_list_Replace hs name l n :
  lookup_list hs (ToLower name) <> [] ->
  lookup_list (ReplaceHeaders hs name l) n = if decide (ToLower name = n) then l else lookup_list hs n.
Proof.
  unfold ReplaceHeaders, lookup_list. intros H. destruct (hmap hs !! ToLower name) eqn:E; [| done].
  cbn [hmap]. rewrite lookup_insert. by case_decide.
Qed.

Definition generic_first (l : list Header) : Prop :=
  match l with [] | HGeneric _ _ :: _ => True | _ => False end.

(** The credentials become the only header of their name. *)
Lemma lookup_put_credentials hs name value :
  wf_store hs -> generic_first (GetHeaders hs name) ->
  exists hs', put_credentials hs name value = Ok hs' /\
    (exists n, GetHeaders hs' name = [HGeneric n value]) /\
    forall n, n <> ToLower name -> lookup_list hs' n = lookup_list hs n.
Proof.
  intros Hw Hg. unfold put_credentials. destruct (GetHeaders hs name) as [| h l] eqn:E.
  - eexists. split; [done |]. split.
    + exists name. unfold GetHeaders in *. rewrite lookup_list_Append, decide_True, E by done. done.
    + intros n Hn. rewrite lookup_list_Append, decide_False; [done | by intros <-].
  - destruct h; try done. eexists. split; [done |].
    assert (ToLower name0 = ToLower name) as Hk.
    { unfold GetHeaders, lookup_list in E. destruct (hmap hs !! _) as [l'|] eqn:E'; [| done]. subst l'.
      apply wf_keys in E'; [| done]. by apply Forall_cons in E' as [? _]. }
    assert (lookup_list hs (ToLower name0) <> []) as Hne by (rewrite Hk; unfold GetHeaders in E; by rewrite E).
    split; [exists name0; unfold GetHeaders | intros n Hn]; rewrite lookup_list_Replace, Hk by done;
      [by rewrite decide_True | by rewrite decide_False].
Qed.

(** The top Via gets a new branch and keeps everything else. *)
Definition rebranched (branch : bytes) (hop hop' : ViaHop) : Prop :=
  exists ps, vh_params hop = Some ps /\
    hop' = mkViaHop (ProtocolName hop) (ProtocolVersion hop) (Transport hop) (Host hop) (Port hop)
             (Some (Add ps "branch" (Some branch))).

Lemma lookup_renew_branch hs rnd :
  (forall hop, ViaHop_ hs = Some hop -> vh_params hop <> None) ->
  exists hs', renew_branch hs rnd = Ok hs' /\
    (forall n, n <> "via" -> lookup_list hs' n = lookup_list hs n) /\
    forall hop, ViaHop_ hs = Some hop ->
    exists hop', ViaHop_ hs' = Some hop' /\ rebranched (GenerateBranch rnd) hop hop'.
Proof.
  intros Hp. unfold renew_branch, set_branch. destruct (ViaHop_ hs) as [hop|] eqn:E; [| by exists hs].
  destruct (vh_params hop) as [ps|] eqn:Ep; [| by destruct (Hp hop)].
  eexists. split; [done |]. split.
  - intros n Hn. rewrite lookup_update_first, decide_False; [done |]. by intros <-.
  - intros ? [= <-]. unfold ViaHop_, Via, GetHeaders in *.
    rewrite lookup_update_first, decide_True by done.
    destruct (lookup_list hs _) as [| [] ?]; try done. destruct hops; try done.
    injection E as <-. eexists. split; [done |]. by exists ps.
Qed.

Lemma lookup_next_cseq hs :
  CSeq (next_cseq hs) = (fun '(n, m) => ((n + 1) mod 2 ^ 32, m)%N) <$> CSeq hs /\
  forall n, n <> "cseq" -> lookup_list (next_cseq hs) n = lookup_list hs n.
Proof.
  unfold next_cseq. destruct (CSeq hs) as [[k m]|] eqn:E; [| by rewrite E].
  assert (lookup_list hs (ToLower "CSeq") <> []) as Hne
    by (intros H; unfold CSeq, GetHeaders in E; by rewrite H in E).
  split; [unfold CSeq, GetHeaders | intros n Hn]; rewrite lookup_list_Replace by done;
    [by rewrite decide_True | rewrite decide_False; [done | by intros <-]].
Qed.

(** The request can be authorized: the challenge is there, the request has a
    recipient, a generic header in the place of old credentials and a parameter
    set in its Via. *)
Definition answerable (rq : request) (rs : response) (contents : bytes) (r : Uri) : Prop :=
  wf_store (hdrs (rq_msg rq)) /\
  (exists n l, GetHeaders (hdrs (rs_msg rs)) (authenticate_name (status rs)) = HGeneric n contents :: l) /\
  recipient rq = Some r /\
  generic_first (GetHeaders (hdrs (rq_msg rq)) (authorize_name (status rs))) /\
  (forall hop, ViaHop_ (hdrs (rq_msg rq)) = Some hop -> vh_params hop <> None).

Definition authorized (rnd value : bytes) (code : N) (rq rq' : request) : Prop :=
  method rq' = method rq /\ recipient rq' = recipient rq /\ body (rq_msg rq') = body (rq_msg rq) /\
  (exists n, GetHeaders (hdrs (rq_msg rq')) (authorize_name code) = [HGeneric n value]) /\
  CSeq (hdrs (rq_msg rq')) = (fun '(n, m) => ((n + 1) mod 2 ^ 32, m)%N) <$> CSeq (hdrs (rq_msg rq)) /\
  (forall hop, ViaHop_ (hdrs (rq_msg rq)) = Some hop ->
   exists hop', ViaHop_ (hdrs (rq_msg rq')) = Some hop' /\ rebranched (GenerateBranch rnd) hop hop') /\
  forall n, n ∉ ["via"; "cseq"; ToLower (authorize_name code)] ->
    lookup_list (hdrs (rq_msg rq')) n = lookup_list (hdrs (rq_msg rq)) n.

Lemma authorize_name_lower code :
  ToLower (authorize_name code) <> "via" /\ ToLower (authorize_name code) <> "cseq".
Proof. unfold authorize_name. by destruct (code =? 401)%N. Qed.

Lemma authorize_effects rnd rq rs user pass contents r :
  answerable rq rs contents r ->
  exists rq', AuthorizeRequest rnd rq rs (Some user) pass = Ok rq' /\
    authorized rnd (Auth_String (answer contents (method rq) (Uri_String r) user pass)) (status rs) rq rq'.
Proof.
  intros (Hw & (m & l & Hc) & Hr & Hg & Hp). unfold AuthorizeRequest. rewrite Hc, Hr.
  destruct (authorize_name_lower (status rs)) as [Hv Hs].
  destruct (lookup_put_credentials (hdrs (rq_msg rq)) (authorize_name (status rs))
    (Auth_String (answer contents (method rq) (Uri_String r) user pass)) Hw Hg) as (h1 & -> & (k & H1) & F1).
  assert (ViaHop_ h1 = ViaHop_ (hdrs (rq_msg rq))) as Ev
    by (unfold ViaHop_, Via, GetHeaders; by rewrite (F1 (ToLower "Via") (not_eq_sym Hv))).
  rewrite <- Ev in Hp. destruct (lookup_renew_branch h1 rnd Hp) as (h2 & E2 & F2 & V2).
  cbn [mbind res_bind]. rewrite E2. cbn [mbind res_bind].
  destruct (lookup_next_cseq h2) as [C3 F3]. eexists. split; [done |].
  unfold authorized. cbn [rq_map method recipient rq_msg body with_hdrs hdrs].
  do 3 (split; [done |]). repeat split.
  - exists k. unfold GetHeaders in *. by rewrite F3, F2.
  - rewrite C3. unfold CSeq, GetHeaders. by rewrite F2, (F1 (ToLower "CSeq") (not_eq_sym Hs)).
  - intros hop Hh. rewrite <- Ev in Hh. destruct (V2 hop Hh) as (hop' & Hh' & Hb). exists hop'.
    split; [| done]. rewrite <- Hh'. unfold ViaHop_, Via, GetHeaders. by rewrite F3.
  - intros n Hn. rewrite !not_elem_of_cons in Hn. destruct Hn as (? & ? & ? & _).
    by rewrite F3, F2, F1.
Qed.

(** [AuthorizeRequest] answers the challenge of the response: the
    credentials become the only header of their name, the sequence number goes up
    by one (modulo 2^32), the top Via gets a new branch, and nothing else
    changes.  Without a user or without a challenge it returns an error. *)
Theorem authorize_request_effects rnd rq rs user pass :
  (forall contents r u, user = Some u -> answerable rq rs contents r ->
   exists rq', AuthorizeRequest rnd rq rs user pass = Ok rq' /\
     authorized rnd (Auth_String (answer contents (method rq) (Uri_String r) u pass)) (status rs) rq rq') /\
  (user = None \/ GetHeaders (hdrs (rs_msg rs)) (authenticate_name (status rs)) = [] ->
   exists e, AuthorizeRequest rnd rq rs user pass = Err e).
Proof.
  split.
  - intros contents r u -> H. by apply authorize_effects.
  - unfold AuthorizeRequest. destruct user as [u|]; [| by eauto].
    intros [? | ->]; [done | by eauto].
Qed.

Definition challenge (qop : bytes) : response :=
  rs_map (fun m => with_hdrs m (AppendHeader (hdrs m)
            (HGeneric "WWW-Authenticate" (quoted_challenge qop))))
    (sample_response sample_register 401 "Unauthorized").

Definition sample_recipient : Uri :=
  match recipient sample_register with Some r => r | None => WildcardUri end.

Lemma sample_answerable q :
  answerable sample_register (challenge q) (quoted_challenge q) sample_recipient.
Proof.
  split; [apply wf_newHeaders |]. split; [by eexists _, _ |]. repeat split.
  - intros hop. vm_compute. by intros [= <-].
Defined.

Lemma authorize_request_effects_witness :
  exists rq', AuthorizeRequest "rnd" sample_register (challenge "") (Some "alice") (Some "secret") = Ok rq' /\
    authorized "rnd" (Auth_String (answer (quoted_challenge "") "REGISTER" (Uri_String sample_recipient)
                        "alice" (Some "secret"))) 401 sample_register rq'.
Proof.
  apply (proj1 (authorize_request_effects "rnd" sample_register (challenge "") (Some "alice") (Some "secret"))
           (quoted_challenge "") sample_recipient "alice"); [reflexivity | apply sample_answerable].
Defined.

(** C27: The registrar accepts the request that [AuthorizeRequest] makes of a challenge
    without qop, for every challenge text and password, and every user name and
    request URI without a double quote: its own digest over the parsed header equals
    the response in it.  The challenge is the first header of its name, parsed as a
    generic one; the request has a well-formed header section, a recipient, no or
    generic old credentials, and a set of parameters in its top Via if there is one. *)
Theorem authorized_request_accepted rnd rq rs contents r user pass :
  answerable rq rs contents r -> no_quote user -> no_quote (Uri_String r) ->
  qop (AuthFromValue contents) = [] ->
  exists rq' n v, AuthorizeRequest rnd rq rs (Some user) (Some pass) = Ok rq' /\
    GetHeaders (hdrs (rq_msg rq')) (authorize_name (status rs)) = [HGeneric n v] /\
    accepts v (method rq') pass = true.
Proof.
  intros Ha Hu Hr Hq. destruct (authorize_effects rnd rq rs user (Some pass) contents r Ha)
    as (rq' & E & Hm & _ & _ & (n & Hn) & _).
  exists rq', n, (Auth_String (answer contents (method rq) (Uri_String r) user (Some pass))).
  rewrite Hm. auto using accepts_answer.
Qed.

Lemma authorized_request_accepted_witness :
  exists rq' n v, AuthorizeRequest "rnd" sample_register (challenge "") (Some "alice") (Some "secret") = Ok rq' /\
    GetHeaders (hdrs (rq_msg rq')) "Authorization" = [HGeneric n v] /\
    accepts v (method rq') "secret" = true.
Proof.
  apply (authorized_request_accepted "rnd" sample_register (challenge "") (quoted_challenge "")
           sample_recipient "alice" "secret").
  - apply sample_answerable.
  - refine (bool_decide_eq_true_1 _ _). vm_compute. reflexivity.
  - refine (bool_decide_eq_true_1 _ _). vm_compute. reflexivity.
  - vm_compute. reflexivity.
Defined.

(** The same answer to a challenge with qop is refused: the registrar does not
    read the qop and nc it needs for the digest. *)
Example qop_answer_refused :
  accepts (Auth_String (answer (quoted_challenge (",qop=" ++ quoted "auth"))
             "REGISTER" "sip:registrar.example" "alice" (Some "secret"))) "REGISTER" "secret" = false.
Proof. vm_compute. reflexivity. Qed.

End AuthTheorems.
