(* ===== verification/Transport.v ===== *)
(** * Targets, transport errors and received messages: src/transport

    [Target] and the error types of transport.go, what connection_pool.go does
    to a message it received ([handleMessage]), and the classification of
    errors.  [SplitHostPort] is that of Go's net package. *)

From S2P Require Import Prelude GoStrings Escape Params Headers HeaderStore Message ParserCommon Packet.
From stdpp Require Import options.
Import Params Headers HeaderStore Message Packet.

Module Transport.

(** ** net.SplitHostPort *)

Definition missingPort : error := Errorf "missing port in address".
Definition tooManyColons : error := Errorf "too many colons in address".

(** The last checks: no bracket is left where none belongs. *)
Definition split_result (opened closed host port : bytes) : res (bytes * bytes) :=
  if ContainsByte opened "[" then Err (Errorf "unexpected '[' in address")
  else if ContainsByte closed "]" then Err (Errorf "unexpected ']' in address")
  else Ok (host, port).

Definition SplitHostPort (hostport : bytes) : res (bytes * bytes) :=
  match LastIndexByte hostport ":" with
  | None => Err missingPort
  | Some i =>
      let port := drop (i + 1) hostport in
      match hostport with
      | c :: rest =>
          if beq c "[" then
            match IndexByte hostport "]" with
            | None => Err (Errorf "missing ']' in address")
            | Some end_ =>
                if end_ + 1 =? length hostport then Err missingPort
                else if end_ + 1 =? i then
                  split_result rest (drop (end_ + 1) hostport) (take (end_ - 1) rest) port
                else match hostport !! (end_ + 1) with
                     | Some d => if beq d ":" then Err tooManyColons else Err missingPort
                     | None => Panic
                     end
            end
          else
            let host := take i hostport in
            if ContainsByte host ":" then Err tooManyColons
            else split_result hostport hostport host port
      | [] => Panic
      end
  end.

(** ** Targets *)

Definition DefaultHost : bytes := "127.0.0.1".

Record Target : Type := mkTarget { t_Host : bytes; t_Port : option N }.

Definition Addr (t : Target) : bytes :=
  let host := match TrimSpace (t_Host t) with [] => DefaultHost | _ => t_Host t end in
  let port := match t_Port t with Some p => p | None => 0%N end in
  host ++ ":" ++ show_N port.

(** [sip.Port(port)] keeps the low 16 bits of the int. *)
Definition NewTarget (host : bytes) (port : Z) : Target := mkTarget host (Some (to_uint16 port)).

Definition NewTargetFromAddr (addr : bytes) : res Target :=
  '(host, port) ← SplitHostPort addr;
  iport ← Atoi port;
  Ok (NewTarget host iport).

Definition FillTargetHostAndPort (network : bytes) (t : Target) : Target :=
  mkTarget
    (match TrimSpace (t_Host t) with [] => DefaultHost | _ => t_Host t end)
    (match t_Port t with Some p => Some p | None => Some (DefaultPort network) end).

(** ** Errors

    The error values that go through the pools.  [NetError] is an error of the
    net package; [SipError] one of the parsers; [Wrap] is [fmt.Errorf] with
    [%w]. *)

Inductive gerror : Type :=
| EOF
| ClosedPipe
| Plain (text : bytes)
| NetError (timeout temporary : bool) (text : bytes)
| Wrap (text : bytes) (inner : gerror)
| SipError (e : error)
| ExpireError (text : bytes)
| UnsupportedProtocolError (text : bytes)
| ConnectionError (inner : gerror) (op net source dest ptr : bytes)
| ProtocolError (inner : gerror) (op ptr : bytes)
| ConnectionHandlerError (inner : gerror) (key ptr net laddr raddr : bytes)
| ListenerHandlerError (inner : gerror) (key ptr net addr : bytes)
| PoolError (inner : gerror) (op pool : bytes).

#[export] Instance gerror_eq_dec : EqDecision gerror.
Proof. solve_decision. Defined.

Definition Unwrap (e : gerror) : option gerror :=
  match e with
  | Wrap _ e | ConnectionError e _ _ _ _ _ | ProtocolError e _ _
  | ConnectionHandlerError e _ _ _ _ _ | ListenerHandlerError e _ _ _ _ | PoolError e _ _ => Some e
  | _ => None
  end.

(** [errors.As]: the first error of the chain that [f] accepts. *)
Fixpoint As {A} (f : gerror -> option A) (e : gerror) : option A :=
  match f e with
  | Some a => Some a
  | None =>
      match e with
      | Wrap _ e | ConnectionError e _ _ _ _ _ | ProtocolError e _ _
      | ConnectionHandlerError e _ _ _ _ _ | ListenerHandlerError e _ _ _ _ | PoolError e _ _ => As f e
      | _ => None
      end
  end.

Definition Is (target : gerror) (e : gerror) : bool :=
  isSome (As (fun x => if bool_decide (x = target) then Some tt else None) e).

(** The types with the methods [Timeout] and [Temporary] of [net.Error]: the
    errors of net and all error types of this package. *)
Definition as_net_error (e : gerror) : option unit :=
  match e with
  | NetError _ _ _ | ExpireError _ | UnsupportedProtocolError _ | ConnectionError _ _ _ _ _ _
  | ProtocolError _ _ _ | ConnectionHandlerError _ _ _ _ _ _ | ListenerHandlerError _ _ _ _ _
  | PoolError _ _ _ => Some tt
  | _ => None
  end.

Definition isNetwork (e : gerror) : bool :=
  isSome (As as_net_error e) || Is EOF e || Is ClosedPipe e.

(** The types with a method [Expired]; that of a handler error asks its inner
    error. *)
Fixpoint isExpired (e : gerror) : bool :=
  match e with
  | ExpireError _ => true
  | Wrap _ e | ConnectionError e _ _ _ _ _ | ProtocolError e _ _ | PoolError e _ _
  | ConnectionHandlerError e _ _ _ _ _ | ListenerHandlerError e _ _ _ _ => isExpired e
  | _ => false
  end.

(** The types with a method [Canceled]: none of them says yes by itself. *)
Fixpoint isCanceled (e : gerror) : bool :=
  match e with
  | ExpireError _ => false
  | Wrap _ e | ConnectionError e _ _ _ _ _ | ProtocolError e _ _ | PoolError e _ _
  | ConnectionHandlerError e _ _ _ _ _ | ListenerHandlerError e _ _ _ _ => isCanceled e
  | _ => false
  end.

(** [netErr.Timeout()] of the first [net.Error] of the chain. *)
Fixpoint isTimeout (e : gerror) : bool :=
  match e with
  | NetError t _ _ => t
  | ExpireError _ => true
  | Wrap _ e | ConnectionError e _ _ _ _ _ | ProtocolError e _ _ | PoolError e _ _
  | ConnectionHandlerError e _ _ _ _ _ | ListenerHandlerError e _ _ _ _ => isTimeout e
  | _ => false
  end.

Fixpoint isTemporary (e : gerror) : bool :=
  match e with
  | NetError _ t _ => t
  | Wrap _ e | ConnectionError e _ _ _ _ _ | ProtocolError e _ _ | PoolError e _ _
  | ConnectionHandlerError e _ _ _ _ _ | ListenerHandlerError e _ _ _ _ => isTemporary e
  | _ => false
  end.

(** The methods [Syntax] of src/sip/parser/error.go and [Broken] of the
    message errors in src/sip/core.go. *)
Definition is_syntax (e : error) : bool :=
  match e with InvalidStartLineError _ | InvalidMessageFormat => true | _ => false end.
Definition is_broken (e : error) : bool :=
  match e with
  | InvalidStartLineError _ | InvalidMessageFormat | BrokenMessageError _ _ => true
  | _ => false
  end.

Fixpoint sip_cause (e : error) : error :=
  match e with Wrapf _ e => sip_cause e | e => e end.

Definition as_sip_error (e : gerror) : option error :=
  match e with SipError e => Some (sip_cause e) | _ => None end.

Definition isSyntaxError (e : gerror) : bool :=
  match As as_sip_error e with
  | Some e => is_syntax e || is_broken e
  | None => false
  end.

(** *** Texts of errors *)

Section texts.

(** The text of a parser's error below the message errors. *)
Variable err_text : error -> bytes.

Definition dump (name : bytes) (inner : error) (m : bytes) : bytes :=
  name ++ ": " ++ err_text inner ++
  match m with [] => [] | _ => LF :: "Message dump:" ++ LF :: m end.

Definition sip_text (e : error) : bytes :=
  match e with
  | MalformedMessageError i m => dump "MalformedMessageError" i m
  | BrokenMessageError i m => dump "BrokenMessageError" i m
  | e => err_text e
  end.

(** A field of an error text: three question marks stand for an empty value.
    Go prints the fields in the order of a map; the order is not looked at. *)
Definition field (name value : bytes) : bytes :=
  name ++ "=" ++ match value with [] => "???" | _ => value end.

Definition ConnectionError_Error (op net source dest ptr inner : bytes) : bytes :=
  "transport.ConnectionError<" ++
  Join [field "network" net; field "connection_ptr" ptr; field "source" source;
        field "destination" dest] " " ++ "> " ++ op ++ " failed: " ++ inner.

Definition ProtocolError_Error (op ptr inner : bytes) : bytes :=
  "transport.ProtocolError<" ++ field "protocol_ptr" ptr ++ "> " ++ op ++ " failed: " ++ inner.

Definition ConnectionHandlerError_Error (ptr net laddr raddr inner : bytes) : bytes :=
  "transport.ConnectionHandlerError<" ++
  Join [field "handler_ptr" ptr; field "network" net; field "local_addr" laddr;
        field "remote_addr" raddr] " " ++ ">: " ++ inner.

Definition ListenerHandlerError_Error (ptr net addr inner : bytes) : bytes :=
  "transport.ListenerHandlerError<" ++
  Join [field "handler_ptr" ptr; field "network" net; field "local_addr" addr;
        field "remote_addr" []] " " ++ ">: " ++ inner.

Definition PoolError_Error (op pool inner : bytes) : bytes :=
  "transport.PoolError<" ++ field "pool" pool ++ "> " ++ op ++ " failed: " ++ inner.

Fixpoint Error (e : gerror) : bytes :=
  match e with
  | EOF => "EOF"
  | ClosedPipe => "io: read/write on closed pipe"
  | Plain t => t
  | NetError _ _ t => t
  | Wrap t e => t ++ ": " ++ Error e
  | SipError e => sip_text e
  | ExpireError t => "transport.ExpireError: " ++ t
  | UnsupportedProtocolError t => "transport.UnsupportedProtocolError: " ++ t
  | ConnectionError e op net source dest ptr => ConnectionError_Error op net source dest ptr (Error e)
  | ProtocolError e op ptr => ProtocolError_Error op ptr (Error e)
  | ConnectionHandlerError e _ ptr net laddr raddr => ConnectionHandlerError_Error ptr net laddr raddr (Error e)
  | ListenerHandlerError e _ ptr net addr => ListenerHandlerError_Error ptr net addr (Error e)
  | PoolError e op pool => PoolError_Error op pool (Error e)
  end.

(** [ConnectionHandlerError.EOF] on its inner error: the io.EOF value, or a
    text that matches eof in any case. *)
Definition is_EOF (inner : gerror) : bool :=
  bool_decide (inner = EOF) || Contains (ToLower (Error inner)) "eof".

End texts.

(** ** Received messages: handleMessage of connection_pool.go

    The part before the message is passed up.  [network], [streamed] and [laddr]
    are those of the connection.  A request without a Via is dropped ([None]);
    the methods of a nil parameter set panic. *)

Definition with_hop_params (ps : headerParams) (hop : ViaHop) : ViaHop :=
  mkViaHop (ProtocolName hop) (ProtocolVersion hop) (Transport hop) (Host hop) (Port hop) (Some ps).

(** RFC 3261 18.2.1 and RFC 3581: the parameters of the top Via. *)
Definition received_params (rhost rport : bytes) (hop : ViaHop) (ps : headerParams) : headerParams :=
  let ps := if negb (streq rhost "") && negb (streq rhost (Host hop))
            then Add ps "received" (Some rhost) else ps in
  if Has ps "rport" then Add ps "rport" (Some rport) else ps.

Definition received_source (network : bytes) (streamed : bool) (rhost raddr : bytes) (hop : ViaHop)
    (ps : headerParams) : bytes :=
  if streamed || Has ps "rport" then raddr
  else rhost ++ ":" ++ show_N (match Port hop with Some p => p | None => DefaultPort network end).

Definition handleMessage (network : bytes) (streamed : bool) (laddr raddr : bytes) (m : msg)
    : res (option msg) :=
  let m := msg_map (fun x => SetDestination x laddr) m in
  let '(rhost, rport) := match SplitHostPort raddr with Ok hp => hp | _ => ([], []) end in
  match m with
  | MRequest rq =>
      match ViaHop_ (hdrs (rq_msg rq)) with
      | None => Ok None
      | Some hop =>
          match vh_params hop with
          | None => Panic
          | Some ps =>
              let ps := received_params rhost rport hop ps in
              let source := received_source network streamed rhost raddr hop ps in
              Ok (Some (msg_map (fun x =>
                    SetSource (SetTransport
                      (with_hdrs x (update_first (hdrs x) "Via" (update_hop (with_hop_params ps))))
                      network) source) m))
          end
      end
  | MResponse rs => Ok (Some (msg_map (fun x => SetSource (SetTransport x network) raddr) m))
  end.

End Transport.
