(* ===== verification/ConnPool.v ===== *)
(** * The connection pool: src/transport/connection_pool.go, connection.go

    A pool keeps the handlers of its connections; each handler reads its
    connection, parses what it reads and sends messages and errors to the pool,
    whose goroutine [serveHandlers] passes them up.  Handlers are shared by the
    store and their goroutines, so they live in a heap under the number of their
    creation.  The channels [hmess] and [herrs] have no buffer: a goroutine that
    wants to send is a pending [send] of its handler until [serveHandlers] takes
    it.  [Put] tests the cancel signal before it takes the lock, so it is two
    steps.  The goroutine that waits for a handler's [done] to count it down in
    [hwg] runs with the close of [done]: [hwg.Wait] waits for the handlers that
    are not done.  A write into the parser does not wait for the outputs of
    earlier ones.  Sockets are the events [ERead] and [EReadErr]; the texts of
    the parser's errors, the mapper of the messages and their identifiers are
    arguments. *)

From S2P Require Import Prelude GoStrings Escape Params Headers HeaderStore Message ParserCommon Packet Stream Transport.
From stdpp Require Import options.
Import Message Packet Transport.

Module ConnPool.

(** ** Connections: connection.go *)

Record connection : Type := mkConn {
  cn_key : bytes;
  cn_network : bytes;
  cn_streamed : bool;
  cn_laddr : bytes;
  cn_raddr : bytes
}.

Definition Network (c : connection) : bytes := ToUpper (cn_network c).

(** [NewConnection]: a base connection that is a [net.PacketConn] is not streamed. *)
Definition NewConnection (packet : bool) (key network laddr raddr : bytes) : connection :=
  mkConn key network (negb packet) laddr raddr.

(** The error of a failed read. *)
Definition read_error (c : connection) (e : gerror) (raddr : bytes) : gerror :=
  ConnectionError e "read" (Network c) raddr (cn_laddr c) "%p".

(** ** Handlers *)

Inductive send : Type :=
| SendMsg (m : msg)
| SendErr (e : gerror).

(** The goroutine that reads a stream: reading; reporting an error and then
    going on or ending; stopping the parser; gone. *)
Inductive reader : Type :=
| RReading
| RReport (e : gerror) (fatal : bool)
| RStopping
| RGone.

Record handler : Type := mkHandler {
  h_conn : connection;
  h_ttl : Z;
  h_expiry : option Z;
  h_armed : bool;
  h_canceled : bool;
  h_closed : bool;
  h_reader : reader;
  h_parser : Stream.parser;
  h_taken : nat;
  h_pipe : option send;
  h_tasks : list send;
  h_done : bool
}.

Definition Key (h : handler) : bytes := cn_key (h_conn h).

(** [NewConnectionHandler]: without a TTL the timer is stopped and drained. *)
Definition NewConnectionHandler (c : connection) (ttl now : Z) : handler :=
  let limited := (0 <? ttl)%Z in
  mkHandler c ttl (if limited then Some (now + ttl)%Z else None) limited false false RReading
    (Stream.NewParser NewPacketParser true) 0 None [] false.

Definition Expired (now : Z) (h : handler) : bool :=
  match h_expiry h with Some t => (t <? now)%Z | None => false end.

Definition set_reader (r : reader) (h : handler) : handler :=
  mkHandler (h_conn h) (h_ttl h) (h_expiry h) (h_armed h) (h_canceled h) (h_closed h) r
    (h_parser h) (h_taken h) (h_pipe h) (h_tasks h) (h_done h).
Definition set_parser (p : Stream.parser) (h : handler) : handler :=
  mkHandler (h_conn h) (h_ttl h) (h_expiry h) (h_armed h) (h_canceled h) (h_closed h) (h_reader h)
    p (h_taken h) (h_pipe h) (h_tasks h) (h_done h).
Definition set_pipe (s : option send) (h : handler) : handler :=
  mkHandler (h_conn h) (h_ttl h) (h_expiry h) (h_armed h) (h_canceled h) (h_closed h) (h_reader h)
    (h_parser h) (h_taken h) s (h_tasks h) (h_done h).
Definition set_taken (n : nat) (h : handler) : handler :=
  mkHandler (h_conn h) (h_ttl h) (h_expiry h) (h_armed h) (h_canceled h) (h_closed h) (h_reader h)
    (h_parser h) n (h_pipe h) (h_tasks h) (h_done h).
Definition set_tasks (l : list send) (h : handler) : handler :=
  mkHandler (h_conn h) (h_ttl h) (h_expiry h) (h_armed h) (h_canceled h) (h_closed h) (h_reader h)
    (h_parser h) (h_taken h) (h_pipe h) l (h_done h).
Definition set_timer (expiry : option Z) (armed : bool) (h : handler) : handler :=
  mkHandler (h_conn h) (h_ttl h) expiry armed (h_canceled h) (h_closed h) (h_reader h)
    (h_parser h) (h_taken h) (h_pipe h) (h_tasks h) (h_done h).
Definition set_closed (h : handler) : handler :=
  mkHandler (h_conn h) (h_ttl h) (h_expiry h) (h_armed h) (h_canceled h) true (h_reader h)
    (h_parser h) (h_taken h) (h_pipe h) (h_tasks h) (h_done h).
Definition set_done (h : handler) : handler :=
  mkHandler (h_conn h) (h_ttl h) (h_expiry h) (h_armed h) (h_canceled h) (h_closed h) (h_reader h)
    (h_parser h) (h_taken h) (h_pipe h) (h_tasks h) true.

(** [Cancel]: once, with the connection closed. *)
Definition Cancel (h : handler) : handler :=
  mkHandler (h_conn h) (h_ttl h) (h_expiry h) (h_armed h) true true (h_reader h)
    (h_parser h) (h_taken h) (h_pipe h) (h_tasks h) (h_done h).

(** [handleError]: syntax errors are dropped, the others wrapped and sent. *)
Definition handleError (h : handler) (e : gerror) (raddr : bytes) : option send :=
  if isSyntaxError e then None
  else Some (SendErr (ConnectionHandlerError e (Key h) "%p" (Network (h_conn h))
                        (cn_laddr (h_conn h)) raddr)).

(** After a message was passed up, a limited connection lives on. *)
Definition renew (now : Z) (h : handler) : handler :=
  match h_expiry h with
  | Some _ => set_timer (Some (now + h_ttl h)%Z) true h
  | None => h
  end.

(** ** The pool *)

(** [serveHandlers]: in its outer select; in an inner select with a message or
    an error, or sending the error of an EOF without one; returned. *)
Inductive serving : Type :=
| SWait
| SOut (m : msg)
| SErrOut (e : gerror)
| SEofOut (e : gerror)
| SStopped.

(** [dispose]: waiting for the signal, in [hwg.Wait], finished. *)
Inductive disposing : Type := DIdle | DWait | DEnd.

Record pool : Type := mkPool {
  store : gmap (list ascii) nat;
  handlers : gmap nat handler;
  p_next : nat;
  p_puts : list (connection * Z);
  p_cancel : bool;
  p_serving : serving;
  p_disposing : disposing;
  p_output : list msg;
  p_errs : list gerror;
  p_crashed : bool
}.

Definition NewConnectionPool : pool := mkPool ∅ ∅ 0 [] false SWait DIdle [] [] false.

(** The channels [hmess] and [herrs] are closed, then [done]. *)
Definition p_done (p : pool) : bool := match p_disposing p with DEnd => true | _ => false end.

Definition with_store (s : gmap (list ascii) nat) (hs : gmap nat handler) (p : pool) : pool :=
  mkPool s hs (p_next p) (p_puts p) (p_cancel p) (p_serving p) (p_disposing p) (p_output p)
    (p_errs p) (p_crashed p).
Definition with_puts (l : list (connection * Z)) (p : pool) : pool :=
  mkPool (store p) (handlers p) (p_next p) l (p_cancel p) (p_serving p) (p_disposing p)
    (p_output p) (p_errs p) (p_crashed p).
Definition with_serving (s : serving) (p : pool) : pool :=
  mkPool (store p) (handlers p) (p_next p) (p_puts p) (p_cancel p) s (p_disposing p) (p_output p)
    (p_errs p) (p_crashed p).
Definition with_disposing (d : disposing) (p : pool) : pool :=
  mkPool (store p) (handlers p) (p_next p) (p_puts p) (p_cancel p) (p_serving p) d (p_output p)
    (p_errs p) (p_crashed p).
Definition with_output (m : msg) (p : pool) : pool :=
  mkPool (store p) (handlers p) (p_next p) (p_puts p) (p_cancel p) (p_serving p) (p_disposing p)
    (p_output p ++ [m]) (p_errs p) (p_crashed p).
Definition with_err (e : gerror) (p : pool) : pool :=
  mkPool (store p) (handlers p) (p_next p) (p_puts p) (p_cancel p) (p_serving p) (p_disposing p)
    (p_output p) (p_errs p ++ [e]) (p_crashed p).
Definition signal_cancel (p : pool) : pool :=
  mkPool (store p) (handlers p) (p_next p) (p_puts p) true (p_serving p) (p_disposing p)
    (p_output p) (p_errs p) (p_crashed p).
Definition crash (p : pool) : pool :=
  mkPool (store p) (handlers p) (p_next p) (p_puts p) (p_cancel p) (p_serving p) (p_disposing p)
    (p_output p) (p_errs p) true.

Definition set_handler (n : nat) (h : handler) (p : pool) : pool :=
  with_store (store p) (<[n := h]> (handlers p)) p.

Definition pool_error (text op : bytes) : gerror := PoolError (Plain text) op "transport.ConnectionPool".

(** *** The store *)

Definition get (key : bytes) (p : pool) : gerror + nat * handler :=
  match store p !! key with
  | Some n => match handlers p !! n with
              | Some h => inr (n, h)
              | None => inl (pool_error "connection %s not found in the pool" "get connection")
              end
  | None => inl (pool_error "connection %s not found in the pool" "get connection")
  end.

Definition Get (key : bytes) (p : pool) : gerror + connection :=
  match get key p with inr (_, h) => inr (h_conn h) | inl e => inl e end.

Definition put (key : bytes) (c : connection) (ttl now : Z) (p : pool) : gerror + pool :=
  match get key p with
  | inr _ => inl (pool_error "key %s already exists in the pool" "put connection")
  | inl _ =>
      let h := NewConnectionHandler c ttl now in
      inr (mkPool (<[Key h := p_next p]> (store p)) (<[p_next p := h]> (handlers p)) (S (p_next p))
             (p_puts p) (p_cancel p) (p_serving p) (p_disposing p) (p_output p) (p_errs p)
             (p_crashed p))
  end.

(** The tests of [Put] before the lock. *)
Definition put_check (c : connection) (p : pool) : option gerror :=
  if p_cancel p then Some (pool_error "connection pool closed" "get connection")
  else if streq (cn_key c) "" then Some (pool_error "empty connection key" "put connection")
  else None.

(** [Put] without anything in between. *)
Definition Put (c : connection) (ttl now : Z) (p : pool) : gerror + pool :=
  match put_check c p with
  | Some e => inl e
  | None => put (cn_key c) c ttl now p
  end.

Definition drop (key : bytes) (p : pool) : gerror + pool :=
  match get key p with
  | inl e => inl e
  | inr (n, h) => inr (with_store (delete key (store p)) (<[n := Cancel h]> (handlers p)) p)
  end.

Definition Drop (key : bytes) (p : pool) : pool :=
  match drop key p with inr p => p | inl _ => p end.

(** The loop of [DropAll] over the keys in the order of the map. *)
Definition DropAll (p : pool) : pool := foldl (fun p key => Drop key p) p (map_to_list (store p)).*1.

Definition All (p : pool) : list connection :=
  omap (fun kn => h_conn <$> handlers p !! kn.2) (map_to_list (store p)).

Definition Length (p : pool) : nat := size (store p).

(** *** serveHandlers *)

Section serving.

Context (err_text : error -> bytes).

Definition as_handler_error (e : gerror) : option (gerror * bytes) :=
  match e with ConnectionHandlerError i k _ _ _ _ => Some (i, k) | _ => None end.

Definition as_connection_error (e : gerror) : option unit :=
  match e with ConnectionError _ _ _ _ _ _ => Some tt | _ => None end.

(** What an error does: it is ignored when it is not a handler's or when no
    handler is stored under its key; it may drop the connection; it may be
    passed up. *)
Definition serve_error (e : gerror) (now : Z) (p : pool) : pool :=
  match As as_handler_error e with
  | None => p
  | Some (inner, key) =>
      match get key p with
      | inl _ => p
      | inr (_, h) =>
          if isExpired inner then if Expired now h then Drop (Key h) p else p
          else if is_EOF err_text inner then
            if p_cancel p then with_serving SStopped p
            else
              let p := Drop (Key h) p in
              if isSome (As as_connection_error inner) then with_serving (SEofOut inner) p else p
          else if isNetwork inner then with_serving (SErrOut inner) (Drop (Key h) p)
          else with_serving (SErrOut inner) p
      end
  end.

(** *** Steps *)

Context (mapper : msg -> msg) (uuid : nat -> bytes).

(** Which goroutine of a handler sends: the loop of [pipeOutputs], the reader, or
    the goroutine of a datagram. *)
Inductive sender : Type := FromPipe | FromReader | FromTask (i : nat).

Definition pending (h : handler) (s : sender) : option send :=
  match s with
  | FromPipe => h_pipe h
  | FromReader => match h_reader h with RReport e _ => Some (SendErr e) | _ => None end
  | FromTask i => h_tasks h !! i
  end.

(** The sender goes on. *)
Definition sent (h : handler) (s : sender) : handler :=
  match s with
  | FromPipe => set_pipe None h
  | FromReader =>
      match h_reader h with
      | RReport _ true => set_closed (set_reader RStopping h)
      | RReport _ false => set_reader RReading h
      | _ => h
      end
  | FromTask i => set_tasks (take i (h_tasks h) ++ list.drop (S i) (h_tasks h)) h
  end.

(** An error of the reader: [handleError], then the next read or the end. *)
Definition report (e : gerror) (raddr : bytes) (fatal : bool) (h : handler) : handler :=
  match handleError h e raddr with
  | Some (SendErr e) => set_reader (RReport e fatal) h
  | _ => if fatal then set_closed (set_reader RStopping h) else h
  end.

(** A message that was parsed: [handleMessage] up to the send. *)
Definition handle_message (h : handler) (m : msg) (raddr : bytes) : res (option send) :=
  m' ← handleMessage (Network (h_conn h)) (cn_streamed (h_conn h)) (cn_laddr (h_conn h)) raddr m;
  Ok (match m' with Some m => Some (SendMsg (mapper m)) | None => None end).

(** The loop of [pipeOutputs] takes the next output of the parser. *)
Definition pipe_next (h : handler) : res handler :=
  match h_pipe h, Stream.p_events (h_parser h) !! h_taken h with
  | None, Some ev =>
      let h' := set_taken (S (h_taken h)) h in
      match ev with
      | Stream.Output m => s ← handle_message h m (cn_raddr (h_conn h)); Ok (set_pipe s h')
      | Stream.Errs e => Ok (set_pipe (handleError h (SipError e) (cn_raddr (h_conn h))) h')
      end
  | _, _ => Ok h
  end.

(** [readStream] writes the bytes into the parser; a panic there ends the program. *)
Definition read_stream (data : bytes) (h : handler) : res handler :=
  let (p, err) := Stream.Write uuid (h_parser h) data in
  match Stream.p_goroutine p with
  | Stream.Crashed => Panic
  | _ =>
      let h := set_parser p h in
      Ok (match err with
          | Some e => report (SipError e) (cn_raddr (h_conn h)) false h
          | None => h
          end)
  end.

(** [bytes.Trim(buf, NUL)] is empty *)
Definition blank (data : bytes) : bool := forallb (fun c => beq c NUL) data.

(** [readPacket]: a goroutine per datagram parses it and handles the result. *)
Definition read_packet (data raddr id : bytes) (h : handler) : res handler :=
  if blank data then Ok h
  else match ParseMessage NewPacketParser id data with
       | Panic => Panic
       | Err e =>
           Ok (match handleError h (SipError e) raddr with
               | Some s => set_tasks (h_tasks h ++ [s]) h
               | None => h
               end)
       | Ok m =>
           s ← handle_message h m raddr;
           Ok (match s with Some s => set_tasks (h_tasks h ++ [s]) h | None => h end)
       end.

Inductive event : Type :=
| EPutStart (c : connection) (ttl : Z)
| EPutGo (i : nat) (now : Z)
| EDrop (key : bytes)
| ECancel
| EDispose
| EDisposeEnd
| ERead (n : nat) (data raddr id : bytes)
| EReadErr (n : nat) (e : gerror) (raddr : bytes)
| EPipe (n : nat)
| ETimer (n : nat)
| EReaderStop (n : nat)
| EPipeEnd (n : nat)
| EGiveUp (n : nat) (s : sender)
| EHand (n : nat) (s : sender) (now : Z)
| ELate (n : nat) (s : sender)
| EServeOut
| EServeCancel
| EServeEnd.

(** A change of one handler; a panic ends the program. *)
Definition on_handler (n : nat) (f : handler -> res handler) (p : pool) : pool :=
  match handlers p !! n with
  | None => p
  | Some h => match f h with Ok h => set_handler n h p | _ => crash p end
  end.

(** A send on a closed channel panics. *)
Definition sends_message (h : handler) : bool :=
  existsb (fun s => match s with SendMsg _ => true | SendErr _ => false end) (h_tasks h).

Definition step (ev : event) (p : pool) : pool :=
  match ev with
  | EPutStart c ttl =>
      match put_check c p with None => with_puts (p_puts p ++ [(c, ttl)]) p | Some _ => p end
  | EPutGo i now =>
      match p_puts p !! i with
      | Some (c, ttl) =>
          let p := with_puts (take i (p_puts p) ++ list.drop (S i) (p_puts p)) p in
          match put (cn_key c) c ttl now p with inr p => p | inl _ => p end
      | None => p
      end
  | EDrop key => Drop key p
  | ECancel => signal_cancel p
  | EDispose =>
      match p_disposing p with
      | DIdle => if p_cancel p then with_disposing DWait (DropAll p) else p
      | _ => p
      end
  | EDisposeEnd =>
      match p_disposing p with
      | DWait =>
          if forallb (fun nh => h_done nh.2) (map_to_list (handlers p)) then
            let p := with_disposing DEnd p in
            if existsb (fun nh => sends_message nh.2) (map_to_list (handlers p)) then crash p else p
          else p
      | _ => p
      end
  | ERead n data raddr id =>
      on_handler n (fun h =>
        match h_reader h with
        | RReading =>
            if h_closed h || h_done h then Ok h
            else if cn_streamed (h_conn h) then read_stream data h else read_packet data raddr id h
        | _ => Ok h
        end) p
  | EReadErr n e raddr =>
      on_handler n (fun h =>
        match h_reader h with
        | RReading =>
            if h_done h then Ok h
            else if cn_streamed (h_conn h)
                 then Ok (report (read_error (h_conn h) e (cn_raddr (h_conn h)))
                            (cn_raddr (h_conn h)) true h)
                 else Ok (set_done (set_reader RGone h))
        | _ => Ok h
        end) p
  | EPipe n => on_handler n (fun h => if h_done h then Ok h else pipe_next h) p
  | ETimer n =>
      on_handler n (fun h =>
        match h_pipe h with
        | None =>
            if h_armed h && cn_streamed (h_conn h) && negb (h_done h) then
              match h_expiry h with
              | None => Panic
              | Some _ =>
                  Ok (set_pipe (handleError h (ExpireError "connection expired") (cn_raddr (h_conn h)))
                        (set_timer (h_expiry h) false h))
              end
            else Ok h
        | Some _ => Ok h
        end) p
  | EReaderStop n =>
      on_handler n (fun h =>
        match h_reader h with
        | RStopping =>
            let q := Stream.Stop uuid (length (Stream.p_input (h_parser h))) (h_parser h) in
            let h := set_parser q h in
            match Stream.p_goroutine q with
            | Stream.Crashed => Panic
            | _ => if h_taken h =? length (Stream.p_events q) then Ok (set_reader RGone h) else Ok h
            end
        | _ => Ok h
        end) p
  | EPipeEnd n =>
      on_handler n (fun h =>
        match h_reader h, h_pipe h with
        | RGone, None => Ok (set_done h)
        | _, _ => Ok h
        end) p
  | EGiveUp n s =>
      on_handler n (fun h =>
        match pending h s with
        | Some (SendErr _) => if h_canceled h then Ok (sent h s) else Ok h
        | _ => Ok h
        end) p
  | EHand n s now =>
      match p_serving p, p_disposing p, handlers p !! n with
      | SWait, (DIdle | DWait), Some h =>
          match pending h s with
          | Some (SendMsg m) => with_serving (SOut m) (set_handler n (renew now (sent h s)) p)
          | Some (SendErr e) => serve_error e now (set_handler n (sent h s) p)
          | None => p
          end
      | _, _, _ => p
      end
  | ELate n s =>
      match p_disposing p, handlers p !! n with
      | DEnd, Some h => match pending h s with Some _ => crash p | None => p end
      | _, _ => p
      end
  | EServeOut =>
      match p_serving p with
      | SOut m => with_serving SWait (with_output m p)
      | SErrOut e | SEofOut e => with_serving SWait (with_err e p)
      | _ => p
      end
  | EServeCancel =>
      if p_cancel p then
        match p_serving p with SOut _ | SErrOut _ => with_serving SStopped p | _ => p end
      else p
  | EServeEnd =>
      match p_serving p, p_disposing p with SWait, DEnd => with_serving SStopped p | _, _ => p end
  end.

(** After a panic nothing happens. *)
Definition run_step (p : pool) (ev : event) : pool := if p_crashed p then p else step ev p.

Definition run (evs : list event) (p : pool) : pool := foldl run_step p evs.

End serving.

End ConnPool.
