(* ===== verification/ConnPoolTheorems.v ===== *)
(** * What the connection pool guarantees

    The invariant of the store and the handlers, the fate of every error, the
    map laws of the store, and how a shutdown ends: src/transport/connection_pool.go. *)

From S2P Require Import Prelude GoStrings Escape Params Headers HeaderStore Message ParserCommon Packet Stream Samples Transport ConnPool.
From stdpp Require Import options.
Import Message Packet Samples Transport ConnPool.

Module ConnPoolTheorems.

(** ** The invariant *)

(** The timer of a handler runs only for a limited connection. *)
Definition timer_ok (h : handler) : Prop :=
  (h_armed h = true -> is_Some (h_expiry h)) /\
  (is_Some (h_expiry h) <-> (0 < h_ttl h)%Z).

Record pool_ok (p : pool) : Prop := {
  (** a stored key leads to a handler of that key that was not canceled *)
  ok_store key n : store p !! key = Some n ->
    exists h, handlers p !! n = Some h /\ Key h = key /\ key <> [] /\ h_canceled h = false;
  (** a handler that is not stored was canceled *)
  ok_heap n h : handlers p !! n = Some h -> h_canceled h = false -> store p !! Key h = Some n;
  (** a canceled handler has a closed connection *)
  ok_closed n h : handlers p !! n = Some h -> h_canceled h = true -> h_closed h = true;
  ok_timer n h : handlers p !! n = Some h -> timer_ok h;
  ok_next n : p_next p <= n -> handlers p !! n = None;
  ok_puts : Forall (fun ct => cn_key ct.1 <> []) (p_puts p)
}.

(** What the steps of a handler keep. *)
Record keeps (h h' : handler) : Prop := {
  k_conn : h_conn h' = h_conn h;
  k_canceled : h_canceled h' = h_canceled h;
  k_closed : h_closed h = true -> h_closed h' = true;
  k_timer : timer_ok h -> timer_ok h'
}.

Lemma keeps_refl h : keeps h h.
Proof. by split. Qed.

Lemma keeps_via (g h k : handler) : keeps g h -> keeps h k -> keeps g k.
Proof. intros [] []. split; try congruence; auto. Qed.

Lemma keeps_reader r h : keeps h (set_reader r h).
Proof. by split. Qed.
Lemma keeps_parser q h : keeps h (set_parser q h).
Proof. by split. Qed.
Lemma keeps_pipe s h : keeps h (set_pipe s h).
Proof. by split. Qed.
Lemma keeps_taken n h : keeps h (set_taken n h).
Proof. by split. Qed.
Lemma keeps_tasks l h : keeps h (set_tasks l h).
Proof. by split. Qed.
Lemma keeps_closed h : keeps h (set_closed h).
Proof. by split. Qed.
Lemma keeps_done h : keeps h (set_done h).
Proof. by split. Qed.
Lemma keeps_fired h : keeps h (set_timer (h_expiry h) false h).
Proof. split; try done. intros [_ H]. by split. Qed.

Lemma keeps_renew now h : keeps h (renew now h).
Proof.
  unfold renew. destruct (h_expiry h) eqn:E; [| apply keeps_refl]. split; try done.
  intros [_ H]. rewrite E in H. split; cbn; [by eauto |]. rewrite <- H. split; by eauto.
Qed.

#[local] Hint Resolve keeps_refl keeps_reader keeps_parser keeps_pipe keeps_taken keeps_tasks
  keeps_closed keeps_done keeps_fired keeps_renew : keeps.
#[local] Hint Extern 3 (keeps _ (set_closed _)) => eapply keeps_via; [| apply keeps_closed] : keeps.
#[local] Hint Extern 3 (keeps _ (set_done _)) => eapply keeps_via; [| apply keeps_done] : keeps.
#[local] Hint Extern 3 (keeps _ (set_pipe _ _)) => eapply keeps_via; [| apply keeps_pipe] : keeps.
#[local] Hint Extern 3 (keeps _ (set_reader _ _)) => eapply keeps_via; [| apply keeps_reader] : keeps.

Lemma keeps_report e raddr fatal h : keeps h (report e raddr fatal h).
Proof. unfold report. destruct (handleError h e raddr) as [[]|], fatal; auto with keeps. Qed.

Lemma keeps_sent h s : keeps h (sent h s).
Proof. destruct s; cbn; auto with keeps. destruct (h_reader h) as [| ? [] | |]; auto with keeps. Qed.

#[local] Hint Resolve keeps_report keeps_sent : keeps.

(** A step of one handler keeps the invariant. *)
Lemma ok_set_handler n h h' p :
  pool_ok p -> handlers p !! n = Some h -> keeps h h' -> pool_ok (set_handler n h' p).
Proof.
  intros [H1 H2 H3 H4 H5 H6] Hn [Kc Kn Kl Kt].
  assert (Key h' = Key h) as Hk by (unfold Key; by rewrite Kc).
  split; cbn; try done.
  - intros key m Hm. destruct (H1 _ _ Hm) as (g & Hg & ? & ? & ?). destruct (decide (n = m)) as [<-|].
    + exists h'. rewrite lookup_insert_eq. simplify_eq. rewrite Hk, Kn. done.
    + exists g. by rewrite lookup_insert_ne.
  - intros m g. destruct (decide (n = m)) as [<-|]; [rewrite lookup_insert_eq; intros [= <-] |
      rewrite lookup_insert_ne by done; apply H2]. rewrite Hk, Kn. by apply H2.
  - intros m g. destruct (decide (n = m)) as [<-|]; [rewrite lookup_insert_eq; intros [= <-] |
      rewrite lookup_insert_ne by done; apply H3]. rewrite Kn. intros Hc. by eapply Kl, H3.
  - intros m g. destruct (decide (n = m)) as [<-|]; [rewrite lookup_insert_eq; intros [= <-] |
      rewrite lookup_insert_ne by done; apply H4]. by eapply Kt, H4.
  - intros m Hm. destruct (decide (n = m)) as [<-|]; [by rewrite (H5 n) in Hn |].
    rewrite lookup_insert_ne; auto.
Qed.

Lemma get_inr key p n h :
  get key p = inr (n, h) <-> store p !! key = Some n /\ handlers p !! n = Some h.
Proof.
  unfold get. destruct (store p !! key) as [m|]; [| naive_solver].
  destruct (handlers p !! m) eqn:E; naive_solver.
Qed.

Lemma get_inl key p e : pool_ok p -> get key p = inl e -> store p !! key = None.
Proof.
  intros Hp. unfold get. destruct (store p !! key) as [m|] eqn:E; [| done].
  destruct (ok_store p Hp _ _ E) as (h & -> & _). done.
Qed.

Lemma ok_Drop key p : pool_ok p -> pool_ok (Drop key p).
Proof.
  intros Hp. unfold Drop, drop. destruct (get key p) as [e|[n h]] eqn:E; [done |].
  apply get_inr in E as [Es Eh]. destruct Hp as [H1 H2 H3 H4 H5 H6].
  destruct (H1 _ _ Es) as (? & ? & Hk & Hne & Hc). simplify_eq.
  split; cbn; try done.
  - intros k m. rewrite lookup_delete_Some. intros [Hkk Hm]. destruct (H1 _ _ Hm) as (g & Hg & ? & ? & ?).
    assert (n <> m) by (intros <-; naive_solver). exists g. by rewrite lookup_insert_ne.
  - intros m g. destruct (decide (n = m)) as [<-|]; [rewrite lookup_insert_eq; by intros [= <-] |].
    rewrite lookup_insert_ne by done. intros Hg Hgc. rewrite lookup_delete_ne; [by apply H2 |].
    intros Hkk. apply H2 in Hg; [| done]. congruence.
  - intros m g. destruct (decide (n = m)) as [<-|]; [rewrite lookup_insert_eq; by intros [= <-] |].
    rewrite lookup_insert_ne by done. apply H3.
  - intros m g. destruct (decide (n = m)) as [<-|]; [rewrite lookup_insert_eq; intros [= <-] |].
    + by apply (H4 n h).
    + rewrite lookup_insert_ne by done. apply H4.
  - intros m Hm. rewrite lookup_insert_ne; [by apply H5 |]. intros <-. by rewrite H5 in Eh.
Qed.

Lemma timer_ok_new c ttl now : timer_ok (NewConnectionHandler c ttl now).
Proof.
  unfold timer_ok. cbn. destruct (0 <? ttl)%Z eqn:E; [apply Z.ltb_lt in E | apply Z.ltb_ge in E].
  - split; [by eauto |]. split; by eauto.
  - split; [done |]. split; [by intros [? ?] | lia].
Qed.

Lemma ok_put c ttl now p q :
  pool_ok p -> cn_key c <> [] -> put (cn_key c) c ttl now p = inr q -> pool_ok q.
Proof.
  intros Hp Hc. unfold put. destruct (get (cn_key c) p) as [e|] eqn:E; [| done]. intros [= <-].
  apply get_inl in E; [| done]. destruct Hp as [H1 H2 H3 H4 H5 H6].
  assert (handlers p !! p_next p = None) as Hf by (apply H5; lia).
  split; cbn; try done.
  - intros key n. rewrite lookup_insert_Some. intros [[<- <-]|[Hk Hn]].
    + eexists. by rewrite lookup_insert_eq.
    + destruct (H1 _ _ Hn) as (h & Hh & ?). exists h. rewrite lookup_insert_ne; [done |]. congruence.
  - intros n h. rewrite lookup_insert_Some. intros [[<- <-]|[Hn Hh]] Hc'; [by rewrite lookup_insert_eq |].
    rewrite lookup_insert_ne; [by apply H2 |]. intros Hk.
    change (cn_key c = Key h) in Hk. apply H2 in Hh; [| done]. congruence.
  - intros n h. rewrite lookup_insert_Some. intros [[<- <-]|[Hn Hh]]; [done | by apply (H3 n)].
  - intros n h. rewrite lookup_insert_Some. intros [[<- <-]|[Hn Hh]]; [apply timer_ok_new | by apply (H4 n)].
  - intros n Hn. rewrite lookup_insert_ne by lia. apply H5. lia.
Qed.

Lemma ok_Put c ttl now p q : pool_ok p -> Put c ttl now p = inr q -> pool_ok q.
Proof.
  intros Hp. unfold Put, put_check. destruct (p_cancel p); [done |].
  destruct (streq (cn_key c) "") eqn:Es; [done |]. apply streq_neq in Es. by apply ok_put.
Qed.

Lemma Get_after_Put c ttl now p q : Put c ttl now p = inr q -> Get (cn_key c) q = inr c.
Proof.
  unfold Put, put. destruct (put_check c p); [done |]. destruct (get (cn_key c) p); [| done].
  intros [= <-]. unfold Get, get. cbn. by rewrite !lookup_insert_eq.
Qed.

Section steps.

Context (err_text : error -> bytes) (mapper : msg -> msg) (uuid : nat -> bytes).

Lemma keeps_pipe_next h h' : pipe_next mapper h = Ok h' -> keeps h h'.
Proof.
  unfold pipe_next. destruct (h_pipe h); [intros [= <-]; auto with keeps |].
  destruct (Stream.p_events _ !! _) as [[m|e]|]; [| intros [= <-] | intros [= <-]]; try by auto with keeps.
  destruct (handle_message mapper h m _) as [s| |]; [| done | done]. intros [= <-]; auto with keeps.
Qed.

Lemma keeps_read_stream data h h' : read_stream uuid data h = Ok h' -> keeps h h'.
Proof.
  unfold read_stream. destruct (Stream.Write _ _ _) as [q err].
  destruct (Stream.p_goroutine q); [| | done]; destruct err; intros [= <-];
    try apply keeps_parser; (eapply keeps_via; [apply keeps_parser | apply keeps_report]).
Qed.

Lemma keeps_read_packet data raddr id h h' : read_packet mapper data raddr id h = Ok h' -> keeps h h'.
Proof.
  unfold read_packet. destruct (blank data); [intros [= <-]; auto with keeps |].
  destruct (ParseMessage _ _ _) as [m|e|]; [| | done].
  - destruct (handle_message mapper h m raddr) as [[s|]| |]; [| | done | done]; intros [= <-]; auto with keeps.
  - destruct (handleError h _ _); intros [= <-]; auto with keeps.
Qed.

(** *** Predicates that the steps of a pool keep *)

(** Puts apart, a pool only changes its handlers, drops them, or changes fields
    beside the store. *)
Definition is_put (ev : event) : bool :=
  match ev with EPutStart _ _ | EPutGo _ _ => true | _ => false end.

Record closed (R : pool -> Prop) : Prop := {
  cl_handler n h h' p : R p -> handlers p !! n = Some h -> keeps h h' -> R (set_handler n h' p);
  cl_drop key p : R p -> R (Drop key p);
  cl_frame p q : R p -> store q = store p -> handlers q = handlers p -> p_next q = p_next p ->
    p_puts q = p_puts p -> R q
}.

Section closed.

Context (R : pool -> Prop) (HR : closed R).

Lemma closed_DropAll p : R p -> R (DropAll p).
Proof using HR.
  unfold DropAll. generalize (map_to_list (store p)).*1 as l. intros l. revert p.
  induction l as [| k l IH]; intros p Hp; [done |]. by apply IH, HR.
Qed.

Lemma closed_on_handler n f p :
  R p -> (forall h h', handlers p !! n = Some h -> f h = Ok h' -> keeps h h') -> R (on_handler n f p).
Proof using HR.
  intros Hp Hf. unfold on_handler. destruct (handlers p !! n) as [h|] eqn:E; [| done].
  destruct (f h) as [h'| |] eqn:Ef; [by eapply cl_handler; eauto | |]; by eapply cl_frame.
Qed.

Lemma closed_with_serving s p : R p -> R (with_serving s p).
Proof using HR. intros Hp. by eapply cl_frame. Qed.
Lemma closed_with_disposing d p : R p -> R (with_disposing d p).
Proof using HR. intros Hp. by eapply cl_frame. Qed.
Lemma closed_crash p : R p -> R (crash p).
Proof using HR. intros Hp. by eapply cl_frame. Qed.

#[local] Hint Resolve closed_DropAll closed_with_serving closed_with_disposing closed_crash : closed.
#[local] Hint Extern 2 (R (Drop _ _)) => apply HR : closed.

Lemma closed_serve_error e now p : R p -> R (serve_error err_text e now p).
Proof using HR.
  intros Hp. unfold serve_error. destruct (As _ e) as [[inner key]|]; [| done].
  destruct (get key p) as [|[n h]]; [done |].
  destruct (isExpired inner); [destruct (Expired now h); auto with closed |].
  destruct (is_EOF err_text inner).
  { destruct (p_cancel p); [auto with closed |]. destruct (isSome _); auto with closed. }
  destruct (isNetwork inner); auto with closed.
Qed.

Lemma closed_step ev p : is_put ev = false -> R p -> R (step err_text mapper uuid ev p).
Proof using HR.
  intros Hev Hp. destruct ev; cbn [step]; try done.
  - auto with closed.
  - by eapply cl_frame.
  - destruct (p_disposing p); try done. destruct (p_cancel p); auto with closed.
  - destruct (p_disposing p); try done. destruct (forallb _ _); [| done].
    destruct (existsb _ _); auto with closed.
  - apply closed_on_handler; [done |]. intros h h' _. destruct (h_reader h); try by intros [= <-]; auto with keeps.
    destruct (h_closed h || h_done h); [by intros [= <-]; auto with keeps |].
    destruct (cn_streamed _); [apply keeps_read_stream | apply keeps_read_packet].
  - apply closed_on_handler; [done |]. intros h h' _. destruct (h_reader h); try by intros [= <-]; auto with keeps.
    destruct (h_done h); [by intros [= <-]; auto with keeps |].
    destruct (cn_streamed _); intros [= <-]; auto with keeps.
  - apply closed_on_handler; [done |]. intros h h' _. destruct (h_done h); [by intros [= <-]; auto with keeps |].
    apply keeps_pipe_next.
  - apply closed_on_handler; [done |]. intros h h' _. destruct (h_pipe h); [by intros [= <-]; auto with keeps |].
    destruct (_ && _ && _); [| by intros [= <-]; auto with keeps]. destruct (h_expiry h) eqn:E; [| done].
    rewrite <- E. intros [= <-]. auto with keeps.
  - apply closed_on_handler; [done |]. intros h h' _. destruct (h_reader h); try by intros [= <-]; auto with keeps.
    destruct (Stream.p_goroutine _); try done; destruct (_ =? _); intros [= <-]; auto with keeps.
  - apply closed_on_handler; [done |]. intros h h' _. destruct (h_reader h), (h_pipe h); intros [= <-]; auto with keeps.
  - apply closed_on_handler; [done |]. intros h h' _. destruct (pending h s) as [[]|]; [| destruct (h_canceled h) |];
      intros [= <-]; auto with keeps.
  - destruct (p_serving p), (p_disposing p); try done; (destruct (handlers p !! n) as [h|] eqn:E; [| done]);
      (destruct (pending h s) as [[m|e]|]; [| | done]);
      try apply closed_with_serving; try apply closed_serve_error; eapply cl_handler; eauto with keeps;
      eapply keeps_via; auto with keeps.
  - destruct (p_disposing p); try done. destruct (handlers p !! n) as [h|]; [| done].
    destruct (pending h s); auto with closed.
  - destruct (p_serving p); try done; by eapply cl_frame.
  - destruct (p_cancel p); [| done]. destruct (p_serving p); auto with closed.
  - destruct (p_serving p), (p_disposing p); auto with closed.
Qed.

End closed.

Lemma ok_closed_steps : closed pool_ok.
Proof.
  split; [apply ok_set_handler | apply ok_Drop |]. intros p q [] Es Eh En Ep. split; rewrite ?Es, ?Eh, ?En, ?Ep; done.
Qed.

Lemma ok_DropAll p : pool_ok p -> pool_ok (DropAll p).
Proof. apply closed_DropAll, ok_closed_steps. Qed.

Lemma ok_step ev p : pool_ok p -> pool_ok (step err_text mapper uuid ev p).
Proof.
  intros Hp. destruct (is_put ev) eqn:Ev; [| by apply closed_step; [apply ok_closed_steps | ..]].
  destruct ev; try done; cbn [step].
  - destruct (put_check c p) eqn:E; [done |]. destruct Hp. split; try done. cbn. apply Forall_app. split; [done |].
    repeat constructor. unfold put_check in E. destruct (p_cancel p); [done |].
    destruct (streq (cn_key c) "") eqn:Es; [done |]. by apply streq_neq in Es.
  - destruct (p_puts p !! i) as [[c ttl]|] eqn:E; [| done].
    assert (pool_ok (with_puts (take i (p_puts p) ++ list.drop (S i) (p_puts p)) p)) as Hq.
    { destruct Hp as [? ? ? ? ? H6]. split; try done. cbn. apply Forall_app.
      split; [by apply Forall_take | by apply Forall_drop]. }
    destruct (put _ _ _ _ _) as [|q] eqn:Eq; [done |].
    eapply ok_put, Eq; [done |]. by eapply Forall_lookup_1 in E; [| apply Hp].
Qed.

Lemma ok_run evs p : pool_ok p -> pool_ok (run err_text mapper uuid evs p).
Proof.
  revert p. induction evs as [| ev evs IH]; intros p Hp; [done |]. apply IH.
  unfold run_step. destruct (p_crashed p); auto using ok_step.
Qed.

Lemma ok_new : pool_ok NewConnectionPool.
Proof. split; cbn; try by intros; simplify_map_eq. Qed.

End steps.

(** C12: In every state a pool can reach, whatever its goroutines, its users and
    the network do, a stored key leads to a handler of that key that was not
    canceled; every other handler was canceled and its connection closed; the
    expiry timer runs for connections with a TTL only. *)
Theorem connection_pool_invariant err_text mapper uuid evs :
  pool_ok (run err_text mapper uuid evs NewConnectionPool).
Proof. apply ok_run, ok_new. Qed.

(** ** The store is a finite map *)

(** The connections by key. *)
Definition view (p : pool) : gmap (list ascii) connection :=
  omap (fun n => h_conn <$> handlers p !! n) (store p).

Lemma lookup_view p key : view p !! key = n ← store p !! key; h_conn <$> handlers p !! n.
Proof. apply lookup_omap. Qed.

Lemma lookup_view_inr p key n h : get key p = inr (n, h) -> view p !! key = Some (h_conn h).
Proof. intros [Hs Hh]%get_inr. rewrite lookup_view, Hs. cbn. by rewrite Hh. Qed.

Lemma lookup_view_inl p key e : get key p = inl e -> view p !! key = None.
Proof.
  rewrite lookup_view. unfold get. destruct (store p !! key) as [n|]; [| done]. cbn.
  by destruct (handlers p !! n).
Qed.

Lemma view_put p key c ttl now q :
  pool_ok p -> key = cn_key c -> put key c ttl now p = inr q -> view q = <[key := c]> (view p).
Proof.
  intros Hp ->. unfold put. destruct (get _ p) eqn:E; [| done]. intros [= <-].
  apply map_eq. intros k. rewrite lookup_view. cbn [store handlers]. change (Key _) with (cn_key c).
  destruct (decide (cn_key c = k)) as [<-|Hk].
  - rewrite !lookup_insert_eq. cbn. by rewrite lookup_insert_eq.
  - rewrite !lookup_insert_ne by done. rewrite lookup_view. destruct (store p !! k) as [n|] eqn:En; [| done].
    cbn. rewrite lookup_insert_ne; [done |]. intros <-.
    destruct (ok_store p Hp _ _ En) as (h & Hh & _). by rewrite (ok_next p Hp) in Hh.
Qed.

Lemma view_Drop p key : pool_ok p -> view (Drop key p) = delete key (view p).
Proof.
  intros Hp. unfold Drop, drop. destruct (get key p) as [e|[n h]] eqn:E.
  { by rewrite delete_id by (by eapply lookup_view_inl). }
  apply get_inr in E as [Es Eh]. apply map_eq. intros k. rewrite lookup_view. cbn [store handlers with_store].
  destruct (decide (key = k)) as [<-|Hk]; [by rewrite !lookup_delete_eq |].
  rewrite !lookup_delete_ne by done. rewrite lookup_view. destruct (store p !! k) as [m|] eqn:Em; [| done].
  cbn. rewrite lookup_insert_ne; [done |]. intros <-.
  destruct (ok_store p Hp _ _ Es) as (? & ? & ? & _), (ok_store p Hp _ _ Em) as (? & ? & ? & _). congruence.
Qed.

Lemma view_DropAll_keys (l : list (list ascii)) p :
  pool_ok p -> view (foldl (fun p key => Drop key p) p l) = filter (fun kc => kc.1 ∉ l) (view p).
Proof.
  revert p. induction l as [| k l IH]; intros p Hp; cbn [foldl].
  - symmetry. apply map_filter_id. intros. apply not_elem_of_nil.
  - rewrite IH, view_Drop by auto using ok_Drop. apply map_eq. intros j. apply option_eq. intros c.
    rewrite !map_lookup_filter_Some, lookup_delete_Some, not_elem_of_cons. cbn. naive_solver.
Qed.

Lemma view_dom p : pool_ok p -> forall key, is_Some (view p !! key) <-> is_Some (store p !! key).
Proof.
  intros Hp key. rewrite lookup_view. destruct (store p !! key) as [n|] eqn:E; cbn; [| done].
  destruct (ok_store p Hp _ _ E) as (h & -> & _). split; by eauto.
Qed.

Lemma view_DropAll p : pool_ok p -> view (DropAll p) = ∅.
Proof.
  intros Hp. unfold DropAll. rewrite view_DropAll_keys by done.
  apply map_empty. intros key. apply map_lookup_filter_None. right. intros c Hk Hn. apply Hn. cbn.
  destruct (proj1 (view_dom p Hp key)) as [n Hs]; [by eauto |].
  apply list_elem_of_fmap. exists (key, n). split; [done |]. by apply elem_of_map_to_list.
Qed.

(** After [DropAll] no handler is left that is not canceled. *)
Lemma connection_pool_drop_all p :
  pool_ok p -> forall n h, handlers (DropAll p) !! n = Some h -> h_canceled h = true /\ h_closed h = true.
Proof.
  intros Hp n h Hh. pose proof (ok_DropAll p Hp) as Hq.
  assert (h_canceled h = true) as Hc; [| by eauto using ok_closed].
  destruct (h_canceled h) eqn:Hc; [done |]. pose proof (ok_heap _ Hq n h Hh Hc) as Hs.
  destruct (proj2 (view_dom _ Hq (Key h))) as [? Hv]; [by eauto |]. by rewrite view_DropAll in Hv.
Qed.

Lemma Put_inv p c ttl now :
  pool_ok p -> p_cancel p = false -> cn_key c <> [] ->
  match Put c ttl now p with
  | inr q => view p !! cn_key c = None /\ view q = <[cn_key c := c]> (view p) /\ pool_ok q
  | inl _ => is_Some (view p !! cn_key c)
  end.
Proof.
  intros Hp Hc Hk. unfold Put, put_check. rewrite Hc, (proj2 (streq_neq _ _) Hk). destruct (put (cn_key c) c ttl now p) as [e|q] eqn:E.
  - unfold put in E. destruct (get (cn_key c) p) as [|[n h]] eqn:Eg; [done |]. erewrite lookup_view_inr by done. by eauto.
  - split; [| split; [by eapply view_put | by eapply ok_put]].
    unfold put in E. destruct (get (cn_key c) p) eqn:Eg; [by eapply lookup_view_inl | done].
Qed.

(** [Put] of a key in use is refused: the TTL of the connection there is not
    updated, as the comment of [Put] says it is. *)
Theorem put_key_in_use_refused p c ttl now :
  pool_ok p -> is_Some (view p !! cn_key c) -> exists e, Put c ttl now p = inl e.
Proof.
  intros Hp Hv. destruct (Put c ttl now p) as [e|q] eqn:E; [by eauto |]. exfalso.
  assert (p_cancel p = false /\ cn_key c <> []) as [Hc Hk].
  { unfold Put, put_check in E. destruct (p_cancel p); [done |]. split; [done |]. intros Hk. by rewrite Hk in E. }
  pose proof (Put_inv p c ttl now Hp Hc Hk) as H. rewrite E in H. destruct H as [H _]. rewrite H in Hv. by destruct Hv.
Qed.

Lemma length_view p : pool_ok p -> Length p = size (view p).
Proof.
  intros Hp. unfold Length. rewrite <- !size_dom. f_equal. apply set_eq. intros k.
  rewrite !elem_of_dom. symmetry. by apply view_dom.
Qed.

Lemma all_view p c : c ∈ All p <-> exists key, view p !! key = Some c.
Proof.
  unfold All. rewrite list_elem_of_omap. split.
  - intros ([k n] & Hn%elem_of_map_to_list & Hc). exists k. rewrite lookup_view, Hn. exact Hc.
  - intros [k Hk]. rewrite lookup_view in Hk. apply bind_Some in Hk as (n & Hn & Hc).
    exists (k, n). split; [by apply elem_of_map_to_list | done].
Qed.

(** C28: The pool refines a finite map from keys to connections: [Get] looks a key
    up, [Length] counts the keys, [All] lists the connections; [Put] of a connection
    whose key is not in use inserts it under its key, unless the pool is canceled or
    the key is empty; [Drop] deletes; [DropAll] empties the map, and leaves no
    handler that is not canceled and closed. *)
Theorem connection_pool_refines_map p c ttl now key :
  pool_ok p ->
  Get key p = match view p !! key with
              | Some c => inr c
              | None => inl (pool_error "connection %s not found in the pool" "get connection")
              end /\
  Length p = size (view p) /\ (forall x, x ∈ All p <-> exists k, view p !! k = Some x) /\
  (view p !! cn_key c = None ->
   match Put c ttl now p with
   | inr q => p_cancel p = false /\ cn_key c <> [] /\ view q = <[cn_key c := c]> (view p) /\ pool_ok q
   | inl _ => p_cancel p = true \/ cn_key c = []
   end) /\
  view (Drop key p) = delete key (view p) /\
  view (DropAll p) = ∅ /\
  forall n h, handlers (DropAll p) !! n = Some h -> h_canceled h = true /\ h_closed h = true.
Proof.
  intros Hp. split_and!; [| by apply length_view | apply all_view | | by apply view_Drop | by apply view_DropAll |].
  - unfold Get. destruct (get key p) as [e|[n h]] eqn:E; [| by erewrite lookup_view_inr].
    erewrite lookup_view_inl by done. unfold get in E.
    destruct (store p !! key) as [n|]; [destruct (handlers p !! n) |]; naive_solver.
  - intros Hf. pose proof (Put_inv p c ttl now Hp) as H. unfold Put, put_check in *.
    destruct (p_cancel p); [by left |]. destruct (streq (cn_key c) "") eqn:Ek; [apply streq_eq in Ek; by right |].
    apply streq_neq in Ek. specialize (H eq_refl Ek). destruct (put _ _ _ _ _) as [e|q].
    + rewrite Hf in H. by destruct H.
    + by destruct H as (_ & ? & ?).
  - by apply connection_pool_drop_all.
Qed.

Definition tcp_conn : connection := NewConnection false "tcp:10.0.0.9:40000" "tcp" "10.0.0.1:5060" "10.0.0.9:40000".

Lemma connection_pool_refines_map_witness :
  exists q, Put tcp_conn 3600 100 NewConnectionPool = inr q /\ view q = {[ cn_key tcp_conn := tcp_conn ]}.
Proof.
  pose proof (connection_pool_refines_map NewConnectionPool tcp_conn 3600 100 [] ok_new) as H.
  do 3 apply proj2 in H. apply proj1 in H.
  assert (exists q, Put tcp_conn 3600 100 NewConnectionPool = inr q) as [q E] by (eexists; reflexivity).
  rewrite E in H. exists q. split; [exact E |]. destruct (H eq_refl) as (_ & _ & -> & _). reflexivity.
Defined.

(** ** The fate of errors *)

Definition handler_error (h : handler) (inner : gerror) (raddr : bytes) : gerror :=
  ConnectionHandlerError inner (Key h) "%p" (Network (h_conn h)) (cn_laddr (h_conn h)) raddr.

(** The connection of the key is gone and closed, all others are kept. *)
Definition dropped (key : bytes) (n : nat) (p q : pool) : Prop :=
  view q = delete key (view p) /\
  exists h, handlers q !! n = Some h /\ h_canceled h = true /\ h_closed h = true.

Lemma dropped_Drop key n h p : pool_ok p -> get key p = inr (n, h) -> dropped key n p (Drop key p).
Proof.
  intros Hp Hg. split; [by apply view_Drop |]. unfold Drop, drop. rewrite Hg. cbn.
  eexists. by rewrite lookup_insert_eq.
Qed.

Lemma dropped_with_serving key n p q s : dropped key n p q -> dropped key n p (with_serving s q).
Proof. done. Qed.

Lemma Drop_errs key p : p_errs (Drop key p) = p_errs p.
Proof. unfold Drop, drop. by destruct (get key p) as [|[]]. Qed.

Lemma Drop_serving key p : p_serving (Drop key p) = p_serving p.
Proof. unfold Drop, drop. by destruct (get key p) as [|[]]. Qed.

Section fates.

Context (err_text : error -> bytes) (mapper : msg -> msg) (uuid : nat -> bytes).
Context (p : pool) (n : nat) (h : handler) (now : Z) (raddr : bytes).
Context (Hp : pool_ok p) (Hw : p_serving p = SWait) (Hg : get (Key h) p = inr (n, h)).

(** The errors passed up once the reader of the pool's errors took the next one. *)
Definition passed_up (q : pool) : list gerror :=
  p_errs (step err_text mapper uuid EServeOut q).

Lemma read_error_fate x ra :
  p_cancel p = false -> isExpired x = false ->
  let inner := read_error (h_conn h) x ra in
  let q := serve_error err_text (handler_error h inner raddr) now p in
  dropped (Key h) n p q /\ passed_up q = p_errs p ++ [inner].
Proof using Hp Hg.
  intros Hc Hx inner. assert (isExpired inner = false) as Hi by done.
  assert (isSome (As as_connection_error inner) = true) as Ha by done.
  assert (isNetwork inner = true) as Hn by done.
  unfold serve_error, handler_error. cbn [As as_handler_error]. rewrite Hg, Hi, Ha, Hn, Hc.
  destruct (is_EOF err_text inner); (split; [by eapply dropped_with_serving, dropped_Drop |]);
    unfold passed_up; cbn [step with_serving p_serving with_err p_errs]; by rewrite Drop_errs.
Qed.

Lemma malformed_fate i m :
  p_cancel p = false ->
  let inner := SipError (MalformedMessageError i m) in
  let q := serve_error err_text (handler_error h inner raddr) now p in
  if is_EOF err_text inner then dropped (Key h) n p q /\ passed_up q = p_errs p
  else view q = view p /\ passed_up q = p_errs p ++ [inner].
Proof using Hp Hw Hg.
  intros Hc. unfold serve_error, handler_error. cbn [As as_handler_error]. rewrite Hg. cbn [isExpired].
  destruct (is_EOF _ _); rewrite ?Hc; [| by split].
  cbn [isSome As as_connection_error]. split; [by eapply dropped_Drop |].
  unfold passed_up. cbn [step]. by rewrite Drop_serving, Hw, Drop_errs.
Qed.

Lemma expiry_fate text :
  let q := serve_error err_text (handler_error h (ExpireError text) raddr) now p in
  passed_up q = p_errs p /\
  if Expired now h then dropped (Key h) n p q else q = p.
Proof using Hp Hw Hg.
  unfold serve_error, handler_error. cbn [As as_handler_error]. rewrite Hg. cbn [isExpired].
  destruct (Expired now h); unfold passed_up; cbn [step];
    rewrite ?Drop_serving, Hw, ?Drop_errs; [split; [done | by eapply dropped_Drop] | done].
Qed.

End fates.

(** What an error of a handler does while the pool is not canceled: a failed
    read drops and closes the connection and is passed up; a malformed message
    is passed up and the connection kept, unless the text of its error holds the
    letters eof, when the connection is dropped and nothing passed up; the
    expiry timer drops a connection whose time is over and is otherwise
    ignored. *)
Theorem handler_error_fate err_text mapper uuid p n h now raddr :
  pool_ok p -> p_serving p = SWait -> p_cancel p = false -> get (Key h) p = inr (n, h) ->
  (forall x ra, isExpired x = false ->
     let inner := read_error (h_conn h) x ra in
     let q := serve_error err_text (handler_error h inner raddr) now p in
     dropped (Key h) n p q /\ passed_up err_text mapper uuid q = p_errs p ++ [inner]) /\
  (forall i m,
     let inner := SipError (MalformedMessageError i m) in
     let q := serve_error err_text (handler_error h inner raddr) now p in
     if is_EOF err_text inner then dropped (Key h) n p q /\ passed_up err_text mapper uuid q = p_errs p
     else view q = view p /\ passed_up err_text mapper uuid q = p_errs p ++ [inner]) /\
  (forall text,
     let q := serve_error err_text (handler_error h (ExpireError text) raddr) now p in
     passed_up err_text mapper uuid q = p_errs p /\
     if Expired now h then dropped (Key h) n p q else q = p).
Proof.
  intros Hp Hw Hc Hg. split; [| split].
  - intros x ra Hx. by apply read_error_fate.
  - intros i m. by apply malformed_fate.
  - intros text. by apply expiry_fate.
Qed.

(** One TCP connection, stored as handler 0. *)
Definition one_pool : pool :=
  match Put tcp_conn 3600 100 NewConnectionPool with inr q => q | inl _ => NewConnectionPool end.
Definition one_handler : handler := NewConnectionHandler tcp_conn 3600 100.

Lemma one_pool_ok : pool_ok one_pool.
Proof. eapply (ok_put tcp_conn 3600 100); [apply ok_new | done | reflexivity]. Defined.

(** A malformed message from a user named geoff costs it the connection. *)
Lemma handler_error_fate_witness :
  let text := fun _ : error => "missing required 'Content-Length' header" in
  let inner := SipError (MalformedMessageError (Errorf "") "INVITE sip:geoff@example.com SIP/2.0") in
  let q := serve_error text (handler_error one_handler inner "10.0.0.9:40000") 200 one_pool in
  dropped (cn_key tcp_conn) 0 one_pool q /\
  passed_up text (fun m => m) (fun _ => []) q = [].
Proof.
  intros text inner q.
  assert (is_EOF text inner = true) as E by (vm_compute; reflexivity).
  pose proof (proj1 (proj2 (handler_error_fate text (fun m => m) (fun _ => []) one_pool 0 one_handler 200
    "10.0.0.9:40000" one_pool_ok (eq_refl _) (eq_refl _) (eq_refl _)))
    (Errorf "") "INVITE sip:geoff@example.com SIP/2.0") as H.
  cbv zeta in H. fold inner in H. rewrite E in H. exact H.
Defined.

(** ** Shutdown *)

(** The loop of a stream handler is blocked on its message. *)
Definition pinned (m : msg) (h : handler) : Prop :=
  cn_streamed (h_conn h) = true /\ h_pipe h = Some (SendMsg m) /\ h_done h = false.

(** ... and the goroutine that would take it has returned. *)
Definition stuck (n : nat) (m : msg) (p : pool) : Prop :=
  pool_ok p /\ p_serving p = SStopped /\ p_done p = false /\
  exists h, handlers p !! n = Some h /\ pinned m h.

Lemma pinned_report m e raddr fatal h : pinned m h -> pinned m (report e raddr fatal h).
Proof. unfold report. by destruct (handleError h e raddr) as [[]|], fatal. Qed.

Lemma pinned_sent m h s : pinned m h -> s <> FromPipe -> pinned m (sent h s).
Proof.
  intros Hp Hs. destruct s; try done. cbn. by destruct (h_reader h) as [| ? [] | |].
Qed.

Section shutdown.

Context (err_text : error -> bytes) (mapper : msg -> msg) (uuid : nat -> bytes).

Lemma stuck_on_handler n m p k f :
  stuck n m p -> pool_ok (on_handler k f p) ->
  (forall h h', pinned m h -> f h = Ok h' -> pinned m h') -> stuck n m (on_handler k f p).
Proof.
  intros (Hp & Hs & Hd & h & Hh & Hpin) Hok Hf. split; [done |].
  unfold on_handler. destruct (handlers p !! k) as [g|] eqn:E; [| by eauto].
  destruct (f g) as [g'| |] eqn:Ef; cbn; [| by eauto | by eauto].
  split; [done |]. split; [done |]. destruct (decide (k = n)) as [->|].
  - exists g'. rewrite lookup_insert_eq. simplify_eq. by eauto.
  - exists h. by rewrite lookup_insert_ne.
Qed.

Lemma stuck_Drop n m key p :
  stuck n m p -> stuck n m (Drop key p).
Proof.
  intros H. pose proof H as (Hp & Hs & Hd & h & Hh & Hpin). pose proof (ok_Drop key p Hp) as Hq. revert Hq.
  unfold Drop, drop. destruct (get key p) as [e|[k g]] eqn:E; intros Hq; [done |].
  split; [done |]. do 2 (split; [done |]). apply get_inr in E as [_ E]. cbn.
  destruct (decide (k = n)) as [->|].
  - exists (Cancel g). rewrite lookup_insert_eq. by simplify_eq.
  - exists h. by rewrite lookup_insert_ne.
Qed.

Lemma stuck_DropAll n m p : stuck n m p -> stuck n m (DropAll p).
Proof.
  unfold DropAll. generalize (map_to_list (store p)).*1 as l. intros l. revert p.
  induction l as [| key l IH]; intros p Hp; [done |]. by apply IH, stuck_Drop.
Qed.

(** A change that leaves the handlers alone. *)
Lemma stuck_same n m p q :
  stuck n m p -> pool_ok q -> handlers q = handlers p -> p_serving q = SStopped -> p_done q = false ->
  stuck n m q.
Proof. intros (_ & _ & _ & H) Hq Hh Hs Hd. split; [done |]. by rewrite Hh. Qed.

Lemma stuck_undone n m p :
  stuck n m p -> forallb (fun nh => h_done nh.2) (map_to_list (handlers p)) = false.
Proof.
  intros (_ & _ & _ & h & Hh & _ & _ & Hd). apply not_true_is_false. rewrite forallb_forall. intros H.
  specialize (H (n, h)). rewrite <- list_elem_of_In, elem_of_map_to_list in H. cbn in H.
  by rewrite H in Hd.
Qed.

Lemma pinned_read_stream m data h h' :
  pinned m h -> read_stream uuid data h = Ok h' -> pinned m h'.
Proof.
  unfold read_stream. destruct (Stream.Write _ _ _) as [q err]. intros Hh.
  destruct (Stream.p_goroutine q); [| | done]; destruct err; intros [= <-]; by try apply pinned_report.
Qed.

Lemma Ok_inj {A} (a b : A) : Ok a = Ok b -> a = b.
Proof. by intros [= ->]. Qed.

Lemma stuck_step n m ev p : stuck n m p -> stuck n m (step err_text mapper uuid ev p).
Proof.
  intros H. pose proof (ok_step err_text mapper uuid ev p (proj1 H)) as Hok.
  pose proof H as (Hp & Hs & Hd & h & Hh & Hpin).
  destruct ev; cbn [step] in *; try (apply stuck_on_handler; [done | done |]); try by apply stuck_Drop.
  - destruct (put_check c p); [done | by eapply stuck_same].
  - destruct (p_puts p !! i) as [[c ttl]|]; [| done].
    destruct (put _ _ _ _ _) as [|q] eqn:E; [by eapply stuck_same |].
    unfold put in E. destruct (get _ _); [| done]. injection E as <-.
    split; [done |]. do 2 (split; [done |]). exists h. cbn. rewrite lookup_insert_ne; [done |].
    intros <-. by rewrite (ok_next p Hp) in Hh.
  - by eapply stuck_same.
  - destruct (p_disposing p) eqn:E; try done. destruct (p_cancel p); [| done].
    pose proof (stuck_DropAll n m p H) as H'. eapply stuck_same; [exact H' | done | done | apply H' | done].
  - destruct (p_disposing p) eqn:E; try done. by rewrite (stuck_undone n m p H).
  - intros g g' Hg. destruct (h_reader g); try by intros [= <-].
    destruct (h_closed g || h_done g); [by intros [= <-] |]. rewrite (proj1 Hg). by apply pinned_read_stream.
  - intros g g' Hg. destruct (h_reader g); try by intros [= <-]. destruct (h_done g); [by intros [= <-] |].
    rewrite (proj1 Hg). intros [= <-]. by apply pinned_report.
  - intros g g' Hg. destruct (h_done g); [by intros [= <-] |]. unfold pipe_next.
    rewrite (proj1 (proj2 Hg)). by intros [= <-].
  - intros g g' Hg. rewrite (proj1 (proj2 Hg)). by intros [= <-].
  - intros g g' Hg. destruct (h_reader g); try by intros [= <-].
    destruct (Stream.p_goroutine _); try done; destruct (_ =? _); by intros [= <-].
  - intros g g' Hg. rewrite (proj1 (proj2 Hg)). destruct (h_reader g); by intros [= <-].
  - intros g g' Hg. destruct s; cbn [pending].
    + rewrite (proj1 (proj2 Hg)). by intros [= <-].
    + destruct (h_reader g) eqn:Er; try by intros [= <-]. destruct (h_canceled g); [| by intros [= <-]].
      intros E. apply Ok_inj in E as <-. by apply pinned_sent.
    + destruct (h_tasks g !! i) as [[]|]; [| destruct (h_canceled g) |]; by intros [= <-].
  - by rewrite Hs.
  - destruct (p_disposing p) eqn:E; try done. unfold p_done in Hd. by rewrite E in Hd.
  - by rewrite Hs.
  - destruct (p_cancel p); by rewrite ?Hs.
  - by rewrite Hs.
Qed.

Lemma stuck_run n m evs p : stuck n m p -> stuck n m (run err_text mapper uuid evs p).
Proof.
  revert p. induction evs as [| ev evs IH]; intros p Hp; [done |]. apply IH.
  unfold run_step. destruct (p_crashed p); auto using stuck_step.
Qed.

End shutdown.

(** A shutdown can hang: once [serveHandlers] has returned on the cancel
    signal while the loop of a stream connection is blocked on a message, the
    pool is never done, whatever happens. *)
Theorem pool_shutdown_can_hang err_text mapper uuid n m p evs :
  stuck n m p -> p_done (run err_text mapper uuid evs p) = false.
Proof. intros H. by destruct (stuck_run err_text mapper uuid n m evs p H) as (_ & _ & ? & _). Qed.

(** A whole request. *)
Definition wire (user : bytes) : bytes :=
  "MESSAGE sip:" ++ user ++ "@10.0.0.1 SIP/2.0" ++ CRLF ++
  "Via: SIP/2.0/TCP 10.0.0.9:40000;branch=z9hG4bKa" ++ CRLF ++ "Content-Length: 0" ++ CRLF ++ CRLF.

(** Two requests arrive; the first is taken by [serveHandlers], the cancel signal
    comes, and the select of [serveHandlers] takes it. *)
Definition hang_events : list event :=
  [EPutStart tcp_conn 3600; EPutGo 0 100; ERead 0 (wire "a" ++ wire "b") [] [];
   EPipe 0; EHand 0 FromPipe 100; EPipe 0; ECancel; EServeCancel].

Definition hung : pool :=
  run (fun _ => []) (fun m => m) (fun _ => []) hang_events NewConnectionPool.

(** A handler of [p] is blocked on a message. *)
Definition blocked_message (n : nat) (p : pool) : option (handler * msg) :=
  h ← handlers p !! n;
  match h_pipe h with
  | Some (SendMsg m) => if cn_streamed (h_conn h) && negb (h_done h) then Some (h, m) else None
  | _ => None
  end.

Lemma blocked_stuck n p h m :
  pool_ok p -> p_serving p = SStopped -> p_done p = false -> blocked_message n p = Some (h, m) ->
  stuck n m p.
Proof.
  intros Hp Hs Hd. unfold blocked_message. destruct (handlers p !! n) as [g|] eqn:E; [| done]. cbn.
  destruct (h_pipe g) as [[m'|]|] eqn:Em; [| done | done].
  destruct (cn_streamed _ && _) eqn:Ec; [| done]. intros [= <- <-]. simp_bool.
  do 3 (split; [done |]). exists g. by repeat split.
Qed.

Lemma pool_shutdown_can_hang_witness :
  forall evs, p_done (run (fun _ => []) (fun m => m) (fun _ => []) (hang_events ++ evs) NewConnectionPool) = false.
Proof.
  intros evs. unfold run. rewrite foldl_app.
  change (foldl _ NewConnectionPool hang_events) with hung.
  assert (isSome (blocked_message 0 hung) = true) as E by (vm_compute; reflexivity).
  destruct (blocked_message 0 hung) as [[h m]|] eqn:Eb; [| discriminate E].
  apply (pool_shutdown_can_hang _ _ _ 0 m). apply (blocked_stuck 0 hung h).
  - apply ok_run, ok_new.
  - vm_compute. reflexivity.
  - vm_compute. reflexivity.
  - exact Eb.
Defined.

(** A shutdown can panic: [dispose] does not wait for the goroutines of the
    datagrams, so one that still has its message to send when the channel is
    closed sends on a closed channel. *)
Theorem pool_shutdown_can_panic err_text mapper uuid p n h m :
  p_disposing p = DWait -> map_Forall (fun _ h => h_done h = true) (handlers p) ->
  handlers p !! n = Some h -> SendMsg m ∈ h_tasks h ->
  p_crashed (step err_text mapper uuid EDisposeEnd p) = true.
Proof.
  intros Hd Ha Hh Hm. cbn [step]. rewrite Hd.
  assert (forallb (fun nh => h_done nh.2) (map_to_list (handlers p)) = true) as ->.
  { apply forallb_forall. intros [k g] Hk. apply list_elem_of_In, elem_of_map_to_list in Hk. by apply (Ha k). }
  assert (existsb (fun nh => sends_message nh.2) (map_to_list (handlers p)) = true) as E; [| by cbn; rewrite E].
  apply existsb_exists. exists (n, h). split; [by apply list_elem_of_In, elem_of_map_to_list |].
  apply existsb_exists. exists (SendMsg m). split; [by apply list_elem_of_In | done].
Qed.

Definition udp_conn : connection := NewConnection true "udp:0.0.0.0:5060" "udp" "0.0.0.0:5060" "".

(** A datagram is parsed while the pool is canceled and its socket closed. *)
Definition panic_events : list event :=
  [EPutStart udp_conn 0; EPutGo 0 100; ERead 0 (wire "a") "10.0.0.9:40000" [];
   ECancel; EDispose; EReadErr 0 ClosedPipe []].

Definition closing : pool :=
  run (fun _ => []) (fun m => m) (fun _ => []) panic_events NewConnectionPool.

Definition task_message (n : nat) (p : pool) : option (handler * msg) :=
  h ← handlers p !! n;
  match h_tasks h with SendMsg m :: _ => Some (h, m) | _ => None end.

Lemma one_handler_done p :
  pool_ok p -> p_next p = 1 ->
  match handlers p !! 0 with Some h => h_done h | None => true end = true ->
  map_Forall (fun _ h => h_done h = true) (handlers p).
Proof.
  intros Hp Hn H k h Hk. destruct k as [| k]; [by rewrite Hk in H |].
  rewrite (ok_next p Hp) in Hk; [done | lia].
Qed.

Lemma pool_shutdown_can_panic_witness :
  p_crashed (run (fun _ => []) (fun m => m) (fun _ => []) (panic_events ++ [EDisposeEnd]) NewConnectionPool) = true.
Proof.
  unfold run. rewrite foldl_app. change (foldl _ NewConnectionPool panic_events) with closing.
  assert (p_crashed closing = false) as Hc by (vm_compute; reflexivity).
  cbn [foldl]. unfold run_step. rewrite Hc.
  assert (isSome (task_message 0 closing) = true) as E by (vm_compute; reflexivity).
  destruct (task_message 0 closing) as [[h m]|] eqn:Et; [| discriminate E]. unfold task_message in Et.
  destruct (handlers closing !! 0) as [g|] eqn:Eh; [| discriminate Et]. cbn in Et.
  destruct (h_tasks g) as [| [m'|e] l] eqn:El; [discriminate Et | | discriminate Et].
  apply (pool_shutdown_can_panic _ _ _ closing 0 g m').
  - vm_compute. reflexivity.
  - apply one_handler_done; [apply ok_run, ok_new | vm_compute; reflexivity | vm_compute; reflexivity].
  - exact Eh.
  - rewrite El. left.
Defined.

(** *** An orderly shutdown *)

(** The handler waits for input and has nothing under way. *)
Definition quiet (h : handler) : Prop :=
  h_reader h = RReading /\ h_pipe h = None /\ h_tasks h = [] /\ h_done h = false /\
  h_taken h = length (Stream.p_events (h_parser h)) /\
  Stream.p_streamed (h_parser h) = true /\ Stream.p_input (h_parser h) = [] /\
  Stream.p_closed (h_parser h) = false /\ Stream.p_goroutine (h_parser h) = Stream.Reading.

Definition finished (h : handler) : Prop :=
  h_done h = true /\ h_closed h = true /\ h_tasks h = [] /\ h_canceled h = true.

(** The read of a closed connection fails, and the goroutines end. *)
Definition finish (n : nat) : list event :=
  [EReadErr n (NetError false false "use of closed network connection") [];
   EGiveUp n FromReader; EReaderStop n; EPipeEnd n].

Lemma quiet_Stop uuid h :
  quiet h ->
  exists q, Stream.Stop uuid (length (Stream.p_input (h_parser h))) (h_parser h) = q /\
    Stream.p_goroutine q = Stream.Finished /\ Stream.p_events q = Stream.p_events (h_parser h).
Proof.
  intros (_ & _ & _ & _ & _ & Hs & Hi & Hc & Hg). eexists. split; [done |].
  destruct (h_parser h) as [pp st sk inp cl go dr ev]. cbn in Hs, Hi, Hc, Hg. by subst.
Qed.

Section orderly.

Context (err_text : error -> bytes) (mapper : msg -> msg) (uuid : nat -> bytes).

Lemma set_handler_twice n h g p : set_handler n h (set_handler n g p) = set_handler n h p.
Proof. unfold set_handler, with_store. cbn. by rewrite insert_insert_eq. Qed.

Lemma on_handler_set n f h h' p :
  f h = Ok h' -> on_handler n f (set_handler n h p) = set_handler n h' p.
Proof.
  intros Hf. unfold on_handler. cbn [handlers set_handler with_store]. rewrite lookup_insert_eq, Hf.
  apply set_handler_twice.
Qed.

Lemma set_handler_id n h p : handlers p !! n = Some h -> set_handler n h p = p.
Proof. intros Hh. unfold set_handler, with_store. destruct p. cbn in *. by rewrite insert_id. Qed.

Lemma run_finish n h p :
  handlers p !! n = Some h -> quiet h -> h_canceled h = true -> h_closed h = true ->
  p_crashed p = false ->
  exists h', run err_text mapper uuid (finish n) p = set_handler n h' p /\ finished h'.
Proof.
  intros Hh Hq Hc Hcl Hcr. pose proof Hq as (Hr & Hpi & Ht & Hd & Htk & _).
  cut (exists h', run err_text mapper uuid (finish n) (set_handler n h p) = set_handler n h' p /\ finished h');
    [by rewrite (set_handler_id n h p Hh) |]. unfold run, finish. cbn [foldl].
  assert (forall g ev, run_step err_text mapper uuid (set_handler n g p) ev
                       = step err_text mapper uuid ev (set_handler n g p)) as Hrun
    by (intros g ev; unfold run_step; cbn [set_handler with_store p_crashed]; by rewrite Hcr).
  rewrite Hrun. destruct (cn_streamed (h_conn h)) eqn:Es.
  - destruct (quiet_Stop uuid h Hq) as (q & Eq & Eg & Ee). cbn [step].
    erewrite on_handler_set by (rewrite Hr, Hd, Es; reflexivity).
    rewrite Hrun. cbn [step]. erewrite on_handler_set by (cbn; rewrite Hc; reflexivity).
    rewrite Hrun. cbn [step].
    erewrite on_handler_set by (cbn; rewrite Eq, Eg, Ee, Htk, Nat.eqb_refl; reflexivity).
    rewrite Hrun. cbn [step]. erewrite on_handler_set by (cbn; rewrite Hpi; reflexivity).
    eexists. split; [done |]. by repeat split.
  - cbn [step]. erewrite on_handler_set by (rewrite Hr, Hd, Es; reflexivity).
    do 3 (rewrite Hrun; cbn [step]; erewrite on_handler_set by (cbn; rewrite ?Hpi; reflexivity)).
    eexists. split; [done |]. by repeat split.
Qed.

Lemma run_app evs1 evs2 p :
  run err_text mapper uuid (evs1 ++ evs2) p =
  run err_text mapper uuid evs2 (run err_text mapper uuid evs1 p).
Proof. apply foldl_app. Qed.

Definition ready (p : pool) (n : nat) : Prop :=
  exists h, handlers p !! n = Some h /\ quiet h /\ h_canceled h = true /\ h_closed h = true.

Lemma run_finish_all ns p :
  NoDup ns -> (forall n, n ∈ ns -> ready p n) -> p_crashed p = false ->
  exists hs, run err_text mapper uuid (ns ≫= finish) p = with_store (store p) hs p /\
    (forall n, n ∈ ns -> exists h, hs !! n = Some h /\ finished h) /\
    (forall n, n ∉ ns -> hs !! n = handlers p !! n).
Proof.
  intros Hnd. revert p. induction Hnd as [| n ns Hn Hnd IH]; intros p Hr Hc.
  { exists (handlers p). split; [by destruct p |]. split; [by intros n ?%not_elem_of_nil | done]. }
  destruct (Hr n) as (h & Hh & Hq & Hca & Hcl); [by left |].
  destruct (run_finish n h p Hh Hq Hca Hcl Hc) as (h' & E & Hf).
  change ((n :: ns) ≫= finish) with (finish n ++ (ns ≫= finish)). rewrite run_app, E.
  destruct (IH (set_handler n h' p)) as (hs & E' & H1 & H2); [| done |].
  { intros m Hm. destruct (Hr m) as (g & Hg & ?); [by right |]. exists g. cbn. rewrite lookup_insert_ne; [done |].
    intros <-. done. }
  exists hs. split; [by rewrite E' |]. split.
  - intros m [->|Hm]%elem_of_cons; [| by apply H1]. exists h'. rewrite H2 by done. cbn.
    by rewrite lookup_insert_eq.
  - intros m Hm. apply not_elem_of_cons in Hm as [Hm Hm']. rewrite H2 by done. cbn.
    by rewrite lookup_insert_ne.
Qed.

End orderly.

(** [DropAll] changes a handler by [Cancel] only. *)
Lemma DropAll_handlers p n h :
  handlers (DropAll p) !! n = Some h ->
  exists g, handlers p !! n = Some g /\ (h = g \/ h = Cancel g).
Proof.
  unfold DropAll. generalize (map_to_list (store p)).*1 as l. intros l. revert p.
  induction l as [| key l IH]; intros p; cbn [foldl]; [by eauto |].
  intros (g & Hg & Hgh)%IH. unfold Drop, drop in Hg.
  destruct (get key p) as [|[k g']] eqn:E; [by eauto |]. cbn in Hg. apply get_inr in E as [_ E].
  destruct (decide (k = n)) as [->|]; [rewrite lookup_insert_eq in Hg; injection Hg as <- |
    rewrite lookup_insert_ne in Hg by done; by eauto].
  exists g'. split; [done |]. right. by destruct Hgh as [->| ->].
Qed.

Lemma DropAll_frame p :
  p_crashed (DropAll p) = p_crashed p.
Proof.
  unfold DropAll. generalize (map_to_list (store p)).*1 as l. intros l. revert p.
  induction l as [| key l IH]; intros p; cbn [foldl]; [done |]. rewrite IH.
  unfold Drop, drop. by destruct (get key p) as [|[]].
Qed.

(** A handler that is quiet, or over with nothing left to send. *)
Definition at_rest (h : handler) : Prop := quiet h \/ (h_done h = true /\ h_tasks h = []).

(** The handlers after the goroutines ended. *)
Definition all_over (hs : gmap nat handler) : Prop :=
  map_Forall (fun _ h => h_done h = true /\ h_closed h = true /\ h_tasks h = []) hs.

(** From the wait on: the goroutines of the handlers end. *)
Lemma handlers_end err_text mapper uuid q :
  p_crashed q = false ->
  map_Forall (fun _ h => at_rest h /\ h_canceled h = true /\ h_closed h = true) (handlers q) ->
  exists evs hs, run err_text mapper uuid evs q = with_store (store q) hs q /\ all_over hs.
Proof.
  intros Hcr Hq. set (busy := filter (fun nh => h_done nh.2 = false) (handlers q)).
  set (ns := (map_to_list busy).*1).
  assert (forall n, n ∈ ns <-> exists h, handlers q !! n = Some h /\ h_done h = false) as Hns.
  { intros n. unfold ns, busy. rewrite list_elem_of_fmap. split.
    - intros ([m h] & -> & Hm). apply elem_of_map_to_list, map_lookup_filter_Some in Hm. by exists h.
    - intros (h & Hh). exists (n, h). by rewrite elem_of_map_to_list, map_lookup_filter_Some. }
  destruct (run_finish_all err_text mapper uuid ns q) as (hs & E & H1 & H2); [| | done |].
  { apply NoDup_fst_map_to_list. }
  { intros n (h & Hh & Hf)%Hns. destruct (Hq n h Hh) as ([Hqu | [Hdo _]] & ? & ?); [by exists h | congruence]. }
  exists (ns ≫= finish), hs. split; [done |]. intros n h Hh. destruct (decide (n ∈ ns)) as [Hi|Hi].
  - destruct (H1 n Hi) as (h' & Hh' & ? & ? & ? & _). by simplify_eq.
  - rewrite H2 in Hh by done. destruct (Hq n h Hh) as ([Hqu | [Hdo Ht]] & ? & ?); [| done].
    destruct Hi. apply Hns. exists h. split; [done | apply Hqu].
Qed.

(** ... and [dispose] closes the channels. *)
Lemma dispose_ends err_text mapper uuid p :
  p_disposing p = DWait -> p_crashed p = false -> all_over (handlers p) ->
  run err_text mapper uuid [EDisposeEnd] p = with_disposing DEnd p.
Proof.
  intros Hd Hc Ha. unfold run, run_step. cbn [foldl]. rewrite Hc. cbn [step]. rewrite Hd.
  assert (forallb (fun nh => h_done nh.2) (map_to_list (handlers p)) = true) as ->.
  { apply forallb_forall. intros [k g] Hk. apply list_elem_of_In, elem_of_map_to_list in Hk. by apply (Ha k). }
  assert (existsb (fun nh => sends_message nh.2) (map_to_list (handlers p)) = false) as E; [| cbn; by rewrite E].
  apply not_true_is_false. rewrite existsb_exists. intros ([k g] & Hk & Hs).
  apply list_elem_of_In, elem_of_map_to_list in Hk. destruct (Ha k g Hk) as (_ & _ & Ht).
  unfold sends_message in Hs. cbn in Hs. by rewrite Ht in Hs.
Qed.

(** C29: A shutdown with nothing under way completes: from every canceled pool
    whose handlers are at rest there are steps after which the pool is done
    without a panic, the store is empty, and every connection is closed and its
    handler done. *)
Theorem pool_shutdown_completes err_text mapper uuid p :
  pool_ok p -> p_cancel p = true -> p_disposing p = DIdle -> p_crashed p = false ->
  map_Forall (fun _ h => at_rest h) (handlers p) ->
  exists evs, let q := run err_text mapper uuid evs p in
    p_done q = true /\ p_crashed q = false /\ store q = ∅ /\
    map_Forall (fun _ h => h_done h = true /\ h_closed h = true) (handlers q).
Proof.
  intros Hp Hc Hd Hcr Hr. set (q := with_disposing DWait (DropAll p)).
  assert (p_crashed q = false) as Hqc by (cbn; by rewrite DropAll_frame).
  assert (store q = ∅) as Hqs.
  { apply map_empty. intros k. destruct (store q !! k) eqn:E; [| done].
    destruct (proj2 (view_dom _ (ok_DropAll p Hp) k)) as [c Hv]; [by eauto |]. by rewrite view_DropAll in Hv. }
  destruct (handlers_end err_text mapper uuid q Hqc) as (evs & hs & E & Ha).
  { intros n h Hh. split; [| by eapply connection_pool_drop_all].
    destruct (DropAll_handlers p n h Hh) as (g & Hg & [->| ->]); by apply (Hr n g). }
  exists ([EDispose] ++ evs ++ [EDisposeEnd]). cbn zeta. rewrite !run_app.
  assert (run err_text mapper uuid [EDispose] p = q) as ->
    by (unfold run, run_step; cbn [foldl]; rewrite Hcr; cbn [step]; by rewrite Hd, Hc).
  rewrite E, dispose_ends by done. split; [done |]. split; [exact Hqc |]. split; [exact Hqs |].
  intros n h Hh. destruct (Ha n h Hh) as (? & ? & _). done.
Qed.

Lemma pool_shutdown_completes_witness :
  exists evs, let q := run (fun _ => []) (fun m => m) (fun _ => []) evs (signal_cancel one_pool) in
    p_done q = true /\ p_crashed q = false /\ store q = ∅ /\
    map_Forall (fun _ h => h_done h = true /\ h_closed h = true) (handlers q).
Proof.
  apply (pool_shutdown_completes _ _ _ (signal_cancel one_pool)); try reflexivity.
  - destruct one_pool_ok. by split.
  - intros n h Hh. left. change (<[0 := one_handler]> (∅ : gmap nat handler) !! n = Some h) in Hh.
    apply lookup_insert_Some in Hh as [[_ <-] | [_ Hh]]; [by repeat split |].
    by rewrite lookup_empty in Hh.
Defined.

End ConnPoolTheorems.
