(* ===== verification/ListenPool.v ===== *)
(** * The listener pool: src/transport/listener_pool.go

    Built like the connection pool: handlers in a heap, a store of their numbers,
    channels without a buffer ([hconns] and [herrs]).  The goroutine
    [acceptConnections] of a handler accepts, or is blocked on sending a
    connection or an error, or has returned, when the handler is done.  Sockets
    are the events [LAccept] and [LAcceptErr]. *)

From S2P Require Import Prelude GoStrings Escape Params Headers HeaderStore Message ParserCommon Packet Stream Transport ConnPool.
From stdpp Require Import options.
Import Transport.

Module ListenPool.

(** What [Accept] returns: the dynamic type of the base connection, the network
    of its address, its addresses. *)
Inductive conn_type : Set := TlsConn | WsConn (over_tls : bool) | OtherConn.

Record base_conn : Type := mkBase {
  b_type : conn_type;
  b_packet : bool;
  b_network : bytes;
  b_laddr : bytes;
  b_raddr : bytes
}.

(** The type switch of [acceptConnections]. *)
Definition accepted_network (b : base_conn) : bytes :=
  match b_type b with
  | TlsConn => "tls"
  | WsConn true => "wss"
  | WsConn false => "ws"
  | OtherConn => ToLower (b_network b)
  end.

Definition accepted_connection (b : base_conn) : ConnPool.connection :=
  let network := accepted_network b in
  ConnPool.NewConnection (b_packet b) (network ++ ":" ++ b_raddr b) network (b_laddr b) (b_raddr b).

(** A [net.Listener]: what [listenerNetwork] says of it, and its address. *)
Record listener : Type := mkListener { l_network : bytes; l_addr : bytes }.

Inductive accepting : Type :=
| AAccepting
| ASendConn (c : ConnPool.connection)
| ASendErr (e : gerror)
| AGone.

Record handler : Type := mkHandler {
  h_key : bytes;
  h_listener : listener;
  h_canceled : bool;
  h_closed : bool;
  h_accepting : accepting
}.

Definition NewListenerHandler (key : bytes) (l : listener) : handler :=
  mkHandler key l false false AAccepting.

(** [Serve] waits for [acceptConnections], then closes [done]. *)
Definition h_done (h : handler) : bool := match h_accepting h with AGone => true | _ => false end.

Definition Cancel (h : handler) : handler :=
  mkHandler (h_key h) (h_listener h) true true (h_accepting h).

Definition set_accepting (a : accepting) (h : handler) : handler :=
  mkHandler (h_key h) (h_listener h) (h_canceled h) (h_closed h) a.

(** The deferred function closes the listener. *)
Definition return_ (h : handler) : handler :=
  mkHandler (h_key h) (h_listener h) (h_canceled h) true AGone.

Definition accept_error (h : handler) (e : gerror) : gerror :=
  ListenerHandlerError e (h_key h) "%p" (l_network (h_listener h)) (l_addr (h_listener h)).

(** ** The pool *)

Inductive serving : Type :=
| SWait
| SOut (c : ConnPool.connection)
| SErrOut (e : gerror)
| SStopped.

Inductive disposing : Type := DIdle | DWait | DEnd.

Record pool : Type := mkPool {
  store : gmap (list ascii) nat;
  handlers : gmap nat handler;
  p_next : nat;
  p_puts : list (bytes * listener);
  p_cancel : bool;
  p_serving : serving;
  p_disposing : disposing;
  p_output : list ConnPool.connection;
  p_errs : list gerror;
  p_crashed : bool
}.

Definition NewListenerPool : pool := mkPool ∅ ∅ 0 [] false SWait DIdle [] [] false.

Definition p_done (p : pool) : bool := match p_disposing p with DEnd => true | _ => false end.

Definition with_store (s : gmap (list ascii) nat) (hs : gmap nat handler) (p : pool) : pool :=
  mkPool s hs (p_next p) (p_puts p) (p_cancel p) (p_serving p) (p_disposing p) (p_output p)
    (p_errs p) (p_crashed p).
Definition with_puts (l : list (bytes * listener)) (p : pool) : pool :=
  mkPool (store p) (handlers p) (p_next p) l (p_cancel p) (p_serving p) (p_disposing p)
    (p_output p) (p_errs p) (p_crashed p).
Definition with_serving (s : serving) (p : pool) : pool :=
  mkPool (store p) (handlers p) (p_next p) (p_puts p) (p_cancel p) s (p_disposing p) (p_output p)
    (p_errs p) (p_crashed p).
Definition with_disposing (d : disposing) (p : pool) : pool :=
  mkPool (store p) (handlers p) (p_next p) (p_puts p) (p_cancel p) (p_serving p) d (p_output p)
    (p_errs p) (p_crashed p).
Definition passed (out : list ConnPool.connection) (errs : list gerror) (p : pool) : pool :=
  mkPool (store p) (handlers p) (p_next p) (p_puts p) (p_cancel p) SWait (p_disposing p)
    (p_output p ++ out) (p_errs p ++ errs) (p_crashed p).
Definition signal_cancel (p : pool) : pool :=
  mkPool (store p) (handlers p) (p_next p) (p_puts p) true (p_serving p) (p_disposing p)
    (p_output p) (p_errs p) (p_crashed p).
Definition crash (p : pool) : pool :=
  mkPool (store p) (handlers p) (p_next p) (p_puts p) (p_cancel p) (p_serving p) (p_disposing p)
    (p_output p) (p_errs p) true.

Definition set_handler (n : nat) (h : handler) (p : pool) : pool :=
  with_store (store p) (<[n := h]> (handlers p)) p.

Definition pool_error (text op : bytes) : gerror := PoolError (Plain text) op "transport.ListenerPool".

Definition get (key : bytes) (p : pool) : gerror + nat * handler :=
  match store p !! key with
  | Some n => match handlers p !! n with
              | Some h => inr (n, h)
              | None => inl (pool_error "listenr %s not found in the pool" "get listener")
              end
  | None => inl (pool_error "listenr %s not found in the pool" "get listener")
  end.

Definition Get (key : bytes) (p : pool) : gerror + listener :=
  match get key p with inr (_, h) => inr (h_listener h) | inl e => inl e end.

Definition put (key : bytes) (l : listener) (p : pool) : gerror + pool :=
  match get key p with
  | inr _ => inl (pool_error "key %s already exists in the pool" "put listener")
  | inl _ =>
      let h := NewListenerHandler key l in
      inr (mkPool (<[h_key h := p_next p]> (store p)) (<[p_next p := h]> (handlers p)) (S (p_next p))
             (p_puts p) (p_cancel p) (p_serving p) (p_disposing p) (p_output p) (p_errs p)
             (p_crashed p))
  end.

Definition put_check (key : bytes) (p : pool) : option gerror :=
  if p_cancel p then Some (pool_error "listener pool closed" "put listener")
  else if streq key "" then Some (pool_error "empty listener key" "put listener")
  else None.

Definition Put (key : bytes) (l : listener) (p : pool) : gerror + pool :=
  match put_check key p with Some e => inl e | None => put key l p end.

Definition drop (key : bytes) (p : pool) : gerror + pool :=
  match get key p with
  | inl e => inl e
  | inr (n, h) => inr (with_store (delete key (store p)) (<[n := Cancel h]> (handlers p)) p)
  end.

Definition Drop (key : bytes) (p : pool) : pool :=
  match drop key p with inr p => p | inl _ => p end.

Definition DropAll (p : pool) : pool := foldl (fun p key => Drop key p) p (map_to_list (store p)).*1.

Definition All (p : pool) : list listener :=
  omap (fun kn => h_listener <$> handlers p !! kn.2) (map_to_list (store p)).

Definition Length (p : pool) : nat := size (store p).

(** ** serveHandlers *)

Definition as_listener_error (e : gerror) : option (gerror * bytes) :=
  match e with ListenerHandlerError i k _ _ _ => Some (i, k) | _ => None end.

Definition serve_error (e : gerror) (p : pool) : pool :=
  match As as_listener_error e with
  | None => p
  | Some (inner, key) =>
      match get key p with
      | inl _ => p
      | inr (_, h) =>
          with_serving (SErrOut e) (if isNetwork inner then Drop (h_key h) p else p)
      end
  end.

Inductive event : Type :=
| LPutStart (key : bytes) (l : listener)
| LPutGo (i : nat)
| LDrop (key : bytes)
| LCancel
| LDispose
| LDisposeEnd
| LAccept (n : nat) (b : base_conn)
| LAcceptErr (n : nat) (e : gerror)
| LGiveUp (n : nat)
| LHand (n : nat)
| LLate (n : nat)
| LServeOut
| LServeCancel
| LServeEnd.

Definition on_handler (n : nat) (f : handler -> handler) (p : pool) : pool :=
  match handlers p !! n with Some h => set_handler n (f h) p | None => p end.

Definition step (ev : event) (p : pool) : pool :=
  match ev with
  | LPutStart key l =>
      match put_check key p with None => with_puts (p_puts p ++ [(key, l)]) p | Some _ => p end
  | LPutGo i =>
      match p_puts p !! i with
      | Some (key, l) =>
          let p := with_puts (take i (p_puts p) ++ list.drop (S i) (p_puts p)) p in
          match put key l p with inr p => p | inl _ => p end
      | None => p
      end
  | LDrop key => Drop key p
  | LCancel => signal_cancel p
  | LDispose =>
      match p_disposing p with
      | DIdle => if p_cancel p then with_disposing DWait (DropAll p) else p
      | _ => p
      end
  | LDisposeEnd =>
      match p_disposing p with
      | DWait =>
          if forallb (fun nh => h_done nh.2) (map_to_list (handlers p)) then with_disposing DEnd p else p
      | _ => p
      end
  | LAccept n b =>
      on_handler n (fun h =>
        match h_accepting h with
        | AAccepting => if h_closed h then h else set_accepting (ASendConn (accepted_connection b)) h
        | _ => h
        end) p
  | LAcceptErr n e =>
      on_handler n (fun h =>
        match h_accepting h with
        | AAccepting => set_accepting (ASendErr (accept_error h e)) h
        | _ => h
        end) p
  | LGiveUp n =>
      on_handler n (fun h =>
        match h_accepting h with
        | ASendErr _ => if h_canceled h then return_ h else h
        | _ => h
        end) p
  | LHand n =>
      match p_serving p, p_disposing p, handlers p !! n with
      | SWait, (DIdle | DWait), Some h =>
          match h_accepting h with
          | ASendConn c => with_serving (SOut c) (set_handler n (set_accepting AAccepting h) p)
          | ASendErr e => serve_error e (set_handler n (return_ h) p)
          | _ => p
          end
      | _, _, _ => p
      end
  | LLate n =>
      match p_disposing p, handlers p !! n with
      | DEnd, Some h =>
          match h_accepting h with ASendConn _ | ASendErr _ => crash p | _ => p end
      | _, _ => p
      end
  | LServeOut =>
      match p_serving p with
      | SOut c => passed [c] [] p
      | SErrOut e => passed [] [e] p
      | _ => p
      end
  | LServeCancel =>
      if p_cancel p then
        match p_serving p with SOut _ | SErrOut _ => with_serving SStopped p | _ => p end
      else p
  | LServeEnd =>
      match p_serving p, p_disposing p with SWait, DEnd => with_serving SStopped p | _, _ => p end
  end.

Definition run (evs : list event) (p : pool) : pool :=
  foldl (fun p ev => if p_crashed p then p else step ev p) p evs.

(** ** Lemmas *)

Lemma listener_get_inr key p n h :
  get key p = inr (n, h) <-> store p !! key = Some n /\ handlers p !! n = Some h.
Proof.
  unfold get. destruct (store p !! key) as [m|]; [| naive_solver].
  destruct (handlers p !! m) eqn:E; naive_solver.
Qed.

(** The store, the handlers and the cancellations agree. *)
Record pool_ok (p : pool) : Prop := {
  ok_store key n : store p !! key = Some n ->
    exists h, handlers p !! n = Some h /\ h_key h = key /\ key <> [] /\ h_canceled h = false;
  ok_heap n h : handlers p !! n = Some h ->
    (h_canceled h = false -> store p !! h_key h = Some n) /\ (h_canceled h = true -> h_closed h = true);
  ok_next n : p_next p <= n -> handlers p !! n = None;
  ok_puts : Forall (fun kl => kl.1 <> []) (p_puts p)
}.

(** What a step of a handler keeps. *)
Definition keeps (h h' : handler) : Prop :=
  h_key h' = h_key h /\ h_canceled h' = h_canceled h /\ (h_closed h = true -> h_closed h' = true).

Lemma listener_ok_set_handler n h h' p :
  pool_ok p -> handlers p !! n = Some h -> keeps h h' -> pool_ok (set_handler n h' p).
Proof.
  intros [H1 H2 H3 H4] Hn (Kk & Kc & Kl). split; cbn; try done.
  - intros key m Hm. destruct (H1 _ _ Hm) as (g & Hg & ? & ? & ?). destruct (decide (n = m)) as [<-|].
    + exists h'. rewrite lookup_insert_eq. simplify_eq. by rewrite Kk, Kc.
    + exists g. by rewrite lookup_insert_ne.
  - intros m g. destruct (decide (n = m)) as [<-|]; [rewrite lookup_insert_eq; intros [= <-] |
      rewrite lookup_insert_ne by done; apply H2]. rewrite Kk, Kc. destruct (H2 _ _ Hn). auto.
  - intros m Hm. destruct (decide (n = m)) as [<-|]; [by rewrite (H3 n) in Hn |].
    rewrite lookup_insert_ne; auto.
Qed.

Lemma ok_on_handler n f p :
  pool_ok p -> (forall h, keeps h (f h)) -> pool_ok (on_handler n f p).
Proof.
  intros Hp Hf. unfold on_handler. destruct (handlers p !! n) eqn:E; [| done].
  by eapply listener_ok_set_handler.
Qed.

Lemma listener_ok_Drop key p : pool_ok p -> pool_ok (Drop key p).
Proof.
  intros Hp. unfold Drop, drop. destruct (get key p) as [e|[n h]] eqn:E; [done |].
  apply listener_get_inr in E as [Es Eh]. destruct Hp as [H1 H2 H3 H4].
  destruct (H1 _ _ Es) as (? & ? & Hk & Hne & Hc). simplify_eq. split; cbn; try done.
  - intros k m. rewrite lookup_delete_Some. intros [Hkk Hm]. destruct (H1 _ _ Hm) as (g & Hg & ? & ? & ?).
    assert (n <> m) by (intros <-; naive_solver). exists g. by rewrite lookup_insert_ne.
  - intros m g. destruct (decide (n = m)) as [<-|]; [rewrite lookup_insert_eq; by intros [= <-] |].
    rewrite lookup_insert_ne by done. intros Hg. destruct (H2 m g Hg) as [H5 H6]. split; [| done].
    intros Hgc. rewrite lookup_delete_ne; [by auto |]. intros Hkk. apply H5 in Hgc. congruence.
  - intros m Hm. rewrite lookup_insert_ne; [by apply H3 |]. intros <-. by rewrite H3 in Eh.
Qed.

Lemma listener_ok_DropAll p : pool_ok p -> pool_ok (DropAll p).
Proof.
  unfold DropAll. generalize (map_to_list (store p)).*1 as l. intros l. revert p.
  induction l as [| k l IH]; intros p Hp; [done |]. by apply IH, listener_ok_Drop.
Qed.

Lemma listener_ok_put key l p q : pool_ok p -> key <> [] -> put key l p = inr q -> pool_ok q.
Proof.
  intros Hp Hk. unfold put. destruct (get key p) as [e|] eqn:E; [| done]. intros [= <-].
  destruct Hp as [H1 H2 H3 H4]. assert (store p !! key = None) as Es.
  { unfold get in E. destruct (store p !! key) eqn:Es; [| done]. by destruct (H1 _ _ Es) as (? & Hx & _); rewrite Hx in E. }
  assert (handlers p !! p_next p = None) as Hf by (apply H3; lia). split; cbn; try done.
  - intros k n. rewrite lookup_insert_Some. intros [[<- <-]|[Hkk Hn]].
    + eexists. by rewrite lookup_insert_eq.
    + destruct (H1 _ _ Hn) as (h & Hh & ?). exists h. rewrite lookup_insert_ne; [done | congruence].
  - intros n h. rewrite lookup_insert_Some. intros [[<- <-]|[Hn Hh]]; [cbn; by rewrite lookup_insert_eq |].
    destruct (H2 n h Hh) as [H5 H6]. split; [| done]. intros Hc. rewrite lookup_insert_ne; [by auto |].
    intros Hkk. apply H5 in Hc. congruence.
  - intros n Hn. rewrite lookup_insert_ne by lia. apply H3. lia.
Qed.

Lemma listener_ok_Put key l p q : pool_ok p -> Put key l p = inr q -> pool_ok q.
Proof.
  intros Hp. unfold Put, put_check. destruct (p_cancel p); [done |].
  destruct (streq key "") eqn:Es; [done |]. apply streq_neq in Es. by apply listener_ok_put.
Qed.

Lemma ok_frame p q :
  pool_ok p -> store q = store p -> handlers q = handlers p -> p_next q = p_next p ->
  Forall (fun kl => kl.1 <> []) (p_puts q) -> pool_ok q.
Proof. intros [H1 H2 H3 H4] Es Eh En Hp. split; rewrite ?Es, ?Eh, ?En; try done. Qed.

Lemma listener_ok_step ev p : pool_ok p -> pool_ok (step ev p).
Proof.
  intros Hp. assert (forall s, pool_ok (with_serving s p)) as Hs by (intros s; by eapply ok_frame, (ok_puts p Hp)).
  destruct ev; cbn [step].
  - destruct (put_check key p) eqn:E; [done |]. eapply ok_frame; try done. apply Forall_app.
    split; [apply Hp |]. repeat constructor. unfold put_check in E. destruct (p_cancel p); [done |].
    destruct (streq key "") eqn:Es; [done |]. by apply streq_neq in Es.
  - destruct (p_puts p !! i) as [[key l]|] eqn:E; [| done].
    assert (pool_ok (with_puts (take i (p_puts p) ++ list.drop (S i) (p_puts p)) p)) as Hq.
    { eapply ok_frame; try done. apply Forall_app. split; [apply Forall_take | apply Forall_drop]; apply Hp. }
    destruct (put _ _ _) as [|q] eqn:Eq; [done |]. eapply listener_ok_put, Eq; [done |].
    by eapply Forall_lookup_1 in E; [| apply Hp].
  - by apply listener_ok_Drop.
  - by eapply ok_frame, (ok_puts p Hp).
  - destruct (p_disposing p); try done. destruct (p_cancel p); [| done].
    by eapply ok_frame, (ok_puts _ (listener_ok_DropAll p Hp)); [apply listener_ok_DropAll | ..].
  - destruct (p_disposing p); try done. destruct (forallb _ _); [| done]. by eapply ok_frame, (ok_puts p Hp).
  - apply ok_on_handler; [done |]. intros h. by destruct (h_accepting h), (h_closed h).
  - apply ok_on_handler; [done |]. intros h. by destruct (h_accepting h).
  - apply ok_on_handler; [done |]. intros h. by destruct (h_accepting h), (h_canceled h).
  - assert (forall h h' s, handlers p !! n = Some h -> keeps h h' -> pool_ok (with_serving s (set_handler n h' p))) as Hh.
    { intros h h' s Hn Hk. pose proof (listener_ok_set_handler n h h' p Hp Hn Hk) as Hq. by eapply ok_frame, (ok_puts _ Hq). }
    destruct (p_serving p) eqn:Ev, (p_disposing p); try done;
      (destruct (handlers p !! n) as [h|] eqn:E; [| done]); destruct (h_accepting h) eqn:Ea; try done;
      try (by eapply Hh); (assert (pool_ok (set_handler n (return_ h) p)) as Hq by (by eapply listener_ok_set_handler));
      unfold serve_error; (destruct (As _ _) as [[inner key]|]; [| done]); (destruct (get _ _) as [|[k g]]; [done |]);
      destruct (isNetwork inner);
      [pose proof (listener_ok_Drop (h_key g) _ Hq) as Hd; by eapply ok_frame, (ok_puts _ Hd) | by eapply ok_frame, (ok_puts _ Hq)
      | pose proof (listener_ok_Drop (h_key g) _ Hq) as Hd; by eapply ok_frame, (ok_puts _ Hd) | by eapply ok_frame, (ok_puts _ Hq)].
  - destruct (p_disposing p); try done. destruct (handlers p !! n) as [h|]; [| done].
    destruct (h_accepting h); try done; by eapply ok_frame, (ok_puts p Hp).
  - destruct (p_serving p); try done; by eapply ok_frame, (ok_puts p Hp).
  - destruct (p_cancel p); [| done]. destruct (p_serving p); auto.
  - destruct (p_serving p), (p_disposing p); auto.
Qed.

Lemma listener_ok_run evs p : pool_ok p -> pool_ok (run evs p).
Proof.
  revert p. induction evs as [| ev evs IH]; intros p Hp; [done |]. cbn. apply IH.
  destruct (p_crashed p); auto using listener_ok_step.
Qed.

Lemma listener_ok_new : pool_ok NewListenerPool.
Proof. split; cbn; try by intros; simplify_map_eq. Qed.

End ListenPool.
