(* ===== verification/ListenPoolTheorems.v ===== *)
(** * Shutdown of the listener pool: src/transport/listener_pool.go

    When a canceled pool gets done, and when it never does: an accepted connection
    is handed to the pool without a look at the cancellation, so it waits for ever
    once the goroutine that takes it has gone. *)

From S2P Require Import Prelude GoStrings Transport ConnPool ListenPool.
From stdpp Require Import options.
Import Transport ListenPool.

Module ListenPoolTheorems.

(** ** The network of a listener *)

(** A [net.Listener] by its dynamic type; [Networked] has a [Network] method, as
    the listeners of the protocols do. *)
Inductive net_listener : Type := Networked (network : bytes) | TCPListener | UnixListener | OtherListener.

Definition listenerNetwork (ls : net_listener) : bytes :=
  match ls with
  | Networked network => network
  | TCPListener => "tcp"
  | UnixListener => "unix"
  | OtherListener => ""
  end.

(** [tcpListener.Network] and [wsListener.Network]. *)
Definition listener_Network (network : bytes) : net_listener := Networked (ToUpper network).

(** ** Dropping all listeners *)

Lemma Drop_handlers key p n h :
  handlers (Drop key p) !! n = Some h -> exists g, handlers p !! n = Some g /\ (h = g \/ h = Cancel g).
Proof.
  unfold Drop, drop. destruct (get key p) as [|[k g]] eqn:E; [by eauto |]. cbn.
  apply listener_get_inr in E as [_ E]. rewrite lookup_insert_Some. intros [[<- <-] | [_ Hh]]; eauto.
Qed.

Lemma Drop_frame key p :
  p_crashed (Drop key p) = p_crashed p /\ p_serving (Drop key p) = p_serving p /\
  p_disposing (Drop key p) = p_disposing p /\ p_next (Drop key p) = p_next p.
Proof. unfold Drop, drop. by destruct (get key p) as [|[]]. Qed.

Lemma Drop_store key p : pool_ok p -> store (Drop key p) = delete key (store p).
Proof.
  intros Hp. unfold Drop, drop. destruct (get key p) as [|[k g]] eqn:E; [| done].
  destruct (store p !! key) as [n|] eqn:Es; [| by rewrite delete_id]. destruct (ok_store _ Hp _ _ Es) as (h & Hh & _).
  by rewrite (proj2 (listener_get_inr key p n h)) in E.
Qed.

(** What [DropAll] keeps. *)
Definition dropped (p q : pool) : Prop :=
  (p_crashed q = p_crashed p /\ p_serving q = p_serving p /\ p_disposing q = p_disposing p) /\
  forall n h, handlers q !! n = Some h -> exists g, handlers p !! n = Some g /\ h_accepting h = h_accepting g.

Lemma DropAll_dropped p : dropped p (DropAll p).
Proof.
  unfold DropAll. generalize (map_to_list (store p)).*1 as l. intros l. revert p.
  induction l as [| key l IH]; intros p; [split; [done | eauto] |]. cbn [foldl].
  destruct (IH (Drop key p)) as [(? & ? & ?) H2]. destruct (Drop_frame key p) as (? & ? & ? & _).
  split; [split_and!; congruence |]. intros n h Hh. destruct (H2 n h Hh) as (g & Hg & ->).
  apply Drop_handlers in Hg as (g' & Hg' & [-> | ->]); eauto.
Qed.

Lemma DropAll_empties p : pool_ok p -> store (DropAll p) = ∅.
Proof.
  intros Hp. unfold DropAll. set (l := (map_to_list (store p)).*1).
  assert (forall k, is_Some (store p !! k) -> k ∈ l) as Hl.
  { intros k [n Hn]. apply list_elem_of_fmap. exists (k, n). by rewrite elem_of_map_to_list. }
  clearbody l. revert p Hp Hl. induction l as [| key l IH]; intros p Hp Hl; cbn [foldl].
  - apply map_empty. intros k. destruct (store p !! k) eqn:E; [| done].
    exfalso. by eapply not_elem_of_nil, (Hl k).
  - apply IH; [by apply listener_ok_Drop |]. intros k [n Hn]. rewrite Drop_store in Hn by done.
    apply lookup_delete_Some in Hn as [Hne Hn]. destruct (proj1 (elem_of_cons l k key) (Hl k ltac:(eauto))) as [->|]; done.
Qed.

(** ** The handlers end *)

Definition holds_conn (h : handler) : bool := match h_accepting h with ASendConn _ => true | _ => false end.

(** Whether the pool's goroutine can still take a connection, or need not. *)
Definition able (p : pool) : Prop :=
  p_crashed p = false /\ p_disposing p = DWait /\
  (p_serving p = SWait \/ map_Forall (fun _ h => holds_conn h = false) (handlers p)).

Lemma run_one ev p : p_crashed p = false -> run [ev] p = step ev p.
Proof. unfold run. cbn. by intros ->. Qed.

Lemma listener_run_app e1 e2 p : run (e1 ++ e2) p = run e2 (run e1 p).
Proof. apply foldl_app. Qed.

(** The closed listener refuses, and the canceled handler gives its error up. *)
Lemma refused p n h :
  p_crashed p = false -> handlers p !! n = Some h -> h_canceled h = true -> h_accepting h = AAccepting ->
  run [LAcceptErr n EOF; LGiveUp n] p = set_handler n (return_ h) p.
Proof.
  intros Hc Hn Hca Ha. unfold run. cbn [foldl]. rewrite Hc. set (h1 := set_accepting (ASendErr (accept_error h EOF)) h).
  assert (step (LAcceptErr n EOF) p = set_handler n h1 p) as ->.
  { cbn [step]. unfold on_handler. by rewrite Hn, Ha. }
  change (p_crashed (set_handler n h1 p)) with (p_crashed p). rewrite Hc. cbn [step]. unfold on_handler.
  change (handlers (set_handler n h1 p)) with (<[n := h1]> (handlers p)). rewrite lookup_insert_eq. cbn [h1 set_accepting h_accepting h_canceled]. rewrite Hca.
  unfold set_handler, with_store. cbn. by rewrite insert_insert_eq.
Qed.

(** The goroutine of a canceled handler ends. *)
Lemma handler_ends p n h :
  able p -> handlers p !! n = Some h -> h_canceled h = true ->
  exists evs q h', run evs p = q /\ able q /\ store q = store p /\ handlers q = <[n := h']> (handlers p) /\
    h_done h' = true /\ h_canceled h' = true.
Proof.
  intros (Hc & Hd & Hs) Hn Hca. assert (forall h' q, h_canceled h' = h_canceled h -> holds_conn h' = false ->
    p_crashed q = false -> p_disposing q = DWait -> handlers q = <[n := h']> (handlers p) ->
    p_serving q = p_serving p \/ p_serving q = SWait -> able q) as Hable.
  { intros h' q _ Hh' Hqc Hqd Hqh Hqs. split_and!; try done. destruct Hqs as [-> | ->]; [| by left].
    destruct Hs as [Hs | Hs]; [by left |]. right. rewrite Hqh. by apply map_Forall_insert_2. }
  destruct (h_accepting h) as [| c | e |] eqn:Ea.
  - exists [LAcceptErr n EOF; LGiveUp n], (set_handler n (return_ h) p), (return_ h).
    rewrite (refused p n h) by done. split_and!; try done. by apply (Hable (return_ h)); auto.
  - destruct Hs as [Hs | Hs]; [| specialize (Hs n h Hn); unfold holds_conn in Hs; by rewrite Ea in Hs].
    set (q1 := passed [c] [] (set_handler n (set_accepting AAccepting h) p)).
    assert (run [LHand n; LServeOut] p = q1) as E1.
    { unfold run. cbn [foldl]. rewrite Hc. cbn [step]. rewrite Hs, Hd, Hn, Ea. cbn. by rewrite Hc. }
    exists ([LHand n; LServeOut] ++ [LAcceptErr n EOF; LGiveUp n]), (set_handler n (return_ h) q1), (return_ h).
    rewrite listener_run_app, E1, (refused q1 n (set_accepting AAccepting h)) by (try done; cbn; by rewrite lookup_insert_eq).
    split_and!; try done.
    + apply (Hable (return_ h)); try done; [| by right]. cbn. by rewrite insert_insert_eq.
    + cbn. by rewrite insert_insert_eq.
  - exists [LGiveUp n], (set_handler n (return_ h) p), (return_ h). rewrite run_one by done. cbn [step]. unfold on_handler.
    rewrite Hn, Ea, Hca. split_and!; try done. by apply (Hable (return_ h)); auto.
  - exists [], p, h. split_and!; try done; [by rewrite insert_id |]. unfold h_done. by rewrite Ea.
Qed.

(** The handlers of [q] are those of [p], and those in [ns] are done. *)
Definition ends (ns : list nat) (p q : pool) : Prop :=
  able q /\ store q = store p /\ map_Forall (fun _ h => h_canceled h = true) (handlers q) /\
  forall n h, handlers q !! n = Some h ->
    exists g, handlers p !! n = Some g /\ (n ∈ ns \/ h_done g = true -> h_done h = true).

Lemma one_ends n p :
  able p -> map_Forall (fun _ h => h_canceled h = true) (handlers p) -> exists evs, ends [n] p (run evs p).
Proof.
  intros Hp Hc. destruct (handlers p !! n) as [h|] eqn:Hn.
  - destruct (handler_ends p n h Hp Hn (Hc n h Hn)) as (evs & q & h' & E & Hq & Es & Eh & Hd & Hca).
    exists evs. rewrite E. split_and!; try done; [rewrite Eh; by apply map_Forall_insert_2 |].
    intros m g. rewrite Eh, lookup_insert_Some. intros [[<- <-] | [Hne Hg]]; [by eauto |].
    exists g. split; [done |]. intros [->%list_elem_of_singleton | ?]; done.
  - exists []. split_and!; try done. intros m h Hh. exists h. split; [done |].
    intros [->%list_elem_of_singleton | ?]; [cbn in Hh; by simplify_eq | done].
Qed.

Lemma all_end ns p :
  able p -> map_Forall (fun _ h => h_canceled h = true) (handlers p) -> exists evs, ends ns p (run evs p).
Proof.
  revert p. induction ns as [| n ns IH]; intros p Hp Hc.
  - exists []. split_and!; try done. intros n h Hh. exists h. split; [done |]. intros [?%elem_of_nil | ?]; done.
  - destruct (one_ends n p Hp Hc) as (evs & Hq & Es & Hcq & Hdq).
    destruct (IH _ Hq Hcq) as (evs' & Hq' & Es' & Hcq' & Hdq').
    exists (evs ++ evs'). rewrite listener_run_app. split_and!; try done; [congruence |].
    intros m h Hh. destruct (Hdq' m h Hh) as (g & Hg & H1). destruct (Hdq m g Hg) as (g' & Hg' & H2).
    exists g'. split; [done |]. rewrite elem_of_cons. intros [[-> | Hm] | Hm]; apply H1; auto.
    right. apply H2. left. by apply list_elem_of_singleton.
Qed.

(** ** Shutdown *)

(** A canceled pool whose goroutine still takes connections, or to which none is
    to be handed, gets done: all listeners are closed, all handlers have ended, and
    nothing panics. *)
Theorem listener_shutdown_completes p :
  pool_ok p -> p_cancel p = true -> p_disposing p = DIdle -> p_crashed p = false ->
  p_serving p <> SStopped \/ map_Forall (fun _ h => holds_conn h = false) (handlers p) ->
  exists evs, let q := run evs p in
    p_done q = true /\ p_crashed q = false /\ store q = ∅ /\
    map_Forall (fun _ h => h_done h = true /\ h_closed h = true) (handlers q).
Proof.
  intros Hp Hca Hd Hc Hs. set (q := with_disposing DWait (DropAll p)).
  assert (run [LDispose] p = q) as E1 by (rewrite run_one by done; cbn [step]; by rewrite Hd, Hca).
  pose proof (listener_ok_run [LDispose] p Hp) as Hq. rewrite E1 in Hq.
  destruct (DropAll_dropped p) as [(Fc & Fs & Fd) Fh].
  assert (map_Forall (fun _ h => h_canceled h = true) (handlers q)) as Hcan.
  { intros n h Hh. destruct (h_canceled h) eqn:E; [done |]. apply (ok_heap _ Hq) in Hh as [Hh _]. specialize (Hh E).
    change (store q) with (store (DropAll p)) in Hh. by rewrite DropAll_empties, lookup_empty in Hh. }
  assert (exists evs, able (run evs q) /\ store (run evs q) = store q /\ handlers (run evs q) = handlers q)
    as (evs1 & Ha & Es1 & Eh1).
  { assert (p_crashed q = false /\ p_disposing q = DWait /\ p_serving q = p_serving p) as (Qc & Qd & Qs) by (cbn; split_and!; congruence).
    destruct (p_serving p) as [| c | e |] eqn:Ep.
    - exists []. (split; [split_and!; [done.. | by left] | by split]).
    - exists [LServeOut]. rewrite run_one by done. cbn [step]. rewrite Qs. (split; [split_and!; [done.. | by left] | by split]).
    - exists [LServeOut]. rewrite run_one by done. cbn [step]. rewrite Qs. (split; [split_and!; [done.. | by left] | by split]).
    - exists []. split; [| by split]. split_and!; [done.. |]. right. destruct Hs as [Hs | Hs]; [done |]. intros n h Hh.
      destruct (Fh n h Hh) as (g & Hg & E). unfold holds_conn. rewrite E. apply (Hs n g Hg). }
  destruct (all_end (map_to_list (handlers q)).*1 (run evs1 q) Ha) as (evs2 & (Hc2 & Hd2 & _) & Es2 & Hcan2 & Hdone);
    [by rewrite Eh1 |]. set (q2 := run evs2 (run evs1 q)) in *.
  assert (map_Forall (fun _ h => h_done h = true) (handlers q2)) as Hall.
  { intros n h Hh. destruct (Hdone n h Hh) as (g & Hg & H). apply H. left. rewrite Eh1 in Hg.
    apply list_elem_of_fmap. exists (n, g). by rewrite elem_of_map_to_list. }
  exists ([LDispose] ++ evs1 ++ evs2 ++ [LDisposeEnd]). rewrite !listener_run_app, E1. fold q2. rewrite run_one by done.
  cbn [step]. rewrite Hd2.
  assert (forallb (fun nh => h_done nh.2) (map_to_list (handlers q2)) = true) as ->.
  { apply forallb_forall. intros [k g] Hk. apply list_elem_of_In, elem_of_map_to_list in Hk. by apply (Hall k). }
  cbn. split_and!; try done; [rewrite Es2, Es1; by apply DropAll_empties |].
  assert (pool_ok q2) as Hq2 by (by apply listener_ok_run, listener_ok_run).
  intros n h Hh. split; [by apply (Hall n) |]. apply (ok_heap _ Hq2 n h Hh). by apply (Hcan2 n).
Qed.

(** A handler waits with a connection for a goroutine that has gone. *)
Definition stuck (n : nat) (p : pool) : Prop :=
  pool_ok p /\ p_serving p = SStopped /\ p_disposing p <> DEnd /\
  exists h, handlers p !! n = Some h /\ holds_conn h = true.

Lemma stuck_frame n p q :
  stuck n p -> pool_ok q -> p_serving q = p_serving p -> p_disposing q <> DEnd ->
  (forall h, handlers p !! n = Some h -> holds_conn h = true -> exists h', handlers q !! n = Some h' /\ holds_conn h' = true) ->
  stuck n q.
Proof. intros (_ & Hs & _ & h & Hh & Hc) Hq Es Hd Hk. split_and!; try done; [congruence | by eapply Hk]. Qed.

Lemma Drop_keeps key p n h :
  handlers p !! n = Some h -> holds_conn h = true -> exists h', handlers (Drop key p) !! n = Some h' /\ holds_conn h' = true.
Proof.
  intros Hn Hc. unfold Drop, drop. destruct (get key p) as [|[k g]] eqn:E; [by eauto |]. apply listener_get_inr in E as [_ E]. cbn.
  destruct (decide (k = n)) as [->|]; [rewrite lookup_insert_eq; simplify_eq; by eauto | rewrite lookup_insert_ne; eauto].
Qed.

Lemma DropAll_keeps p n h :
  handlers p !! n = Some h -> holds_conn h = true -> exists h', handlers (DropAll p) !! n = Some h' /\ holds_conn h' = true.
Proof.
  unfold DropAll. generalize (map_to_list (store p)).*1 as l. intros l. revert p h.
  induction l as [| key l IH]; intros p h Hh Hc; [by eauto |]. cbn [foldl].
  destruct (Drop_keeps key p n h Hh Hc) as (h' & ? & ?). by eapply IH.
Qed.

Lemma on_handler_keeps p n m f h :
  (forall g, holds_conn g = true -> f g = g) -> handlers p !! n = Some h -> holds_conn h = true ->
  exists h', handlers (on_handler m f p) !! n = Some h' /\ holds_conn h' = true.
Proof.
  intros Hf Hn Hc. unfold on_handler. destruct (handlers p !! m) as [g|] eqn:E; [| by eauto]. cbn.
  destruct (decide (m = n)) as [->|]; [| rewrite lookup_insert_ne by done; eauto].
  rewrite lookup_insert_eq. simplify_eq. rewrite Hf by done. eauto.
Qed.

Lemma listener_stuck_on_handler n p m f :
  stuck n p -> pool_ok (on_handler m f p) -> (forall g, holds_conn g = true -> f g = g) -> stuck n (on_handler m f p).
Proof.
  intros H Hok Hf. pose proof H as (_ & _ & Hd & _).
  assert (p_serving (on_handler m f p) = p_serving p /\ p_disposing (on_handler m f p) = p_disposing p) as [? E]
    by (unfold on_handler; by destruct (handlers p !! m)).
  apply (stuck_frame n p); try done; [by rewrite E |]. intros g. by apply on_handler_keeps.
Qed.

Lemma listener_stuck_step ev n p : stuck n p -> stuck n (step ev p).
Proof.
  intros H. pose proof H as (Hp & Hs & Hd & h & Hh & Hc). pose proof (listener_ok_step ev p Hp) as Hok.
  destruct ev; cbn [step] in *.
  - destruct (put_check key p); [done |]. apply (stuck_frame n p); try done. eauto.
  - destruct (p_puts p !! i) as [[key l]|]; [| done]. set (p0 := with_puts _ p) in *.
    unfold put in *. destruct (get key p0) as [e|[]]; [| apply (stuck_frame n p); try done; eauto].
    apply (stuck_frame n p); try done. intros g Hg Hgc. cbn. rewrite lookup_insert_ne; [by eauto |].
    intros E. by rewrite (ok_next _ Hp n) in Hh by lia.
  - destruct (Drop_frame key p) as (_ & ? & E & _). apply (stuck_frame n p _ H Hok); [done | by rewrite E | apply Drop_keeps].
  - apply (stuck_frame n p); try done. eauto.
  - destruct (p_disposing p) eqn:Ed; [| done..]. destruct (p_cancel p); [| done].
    destruct (DropAll_dropped p) as [(_ & ? & _) _]. apply (stuck_frame n p); try done. cbn. apply DropAll_keeps.
  - destruct (p_disposing p) eqn:Ed; try done. destruct (forallb _ _) eqn:Ef; [| done]. exfalso.
    rewrite forallb_forall in Ef. specialize (Ef (n, h)). cbn in Ef. unfold h_done in Ef. unfold holds_conn in Hc.
    destruct (h_accepting h); try done. by discriminate Ef; apply list_elem_of_In, elem_of_map_to_list.
  - apply listener_stuck_on_handler; try done. intros x Hx. unfold holds_conn in Hx. by destruct (h_accepting x).
  - apply listener_stuck_on_handler; try done. intros x Hx. unfold holds_conn in Hx. by destruct (h_accepting x).
  - apply listener_stuck_on_handler; try done. intros x Hx. unfold holds_conn in Hx. by destruct (h_accepting x).
  - by rewrite Hs.
  - by destruct (p_disposing p).
  - by rewrite Hs.
  - rewrite Hs. by destruct (p_cancel p).
  - by rewrite Hs.
Qed.

(** Once the goroutine of the pool has gone, a handler with an accepted connection
    never ends and the pool is never done, whatever happens. *)
Theorem listener_shutdown_hangs n p evs : stuck n p -> p_done (run evs p) = false.
Proof.
  intros H. assert (stuck n (run evs p)) as (_ & _ & Hd & _).
  { unfold run. revert p H. induction evs as [| ev evs IH]; intros p H; [done |]. cbn [foldl]. apply IH.
    destruct (p_crashed p); [done | by apply listener_stuck_step]. }
  unfold p_done. by destruct (p_disposing (run evs p)).
Qed.

(** ** Instances *)

Definition base (raddr : bytes) : base_conn := mkBase OtherConn false "tcp" "0.0.0.0:5060" raddr.

(** A listener has accepted a connection when the pool is canceled. *)
Definition canceled_pool : pool :=
  run [LPutStart "tcp:0.0.0.0:5060" (mkListener "TCP" "0.0.0.0:5060"); LPutGo 0; LAccept 0 (base "192.0.2.1:4000"); LCancel]
    NewListenerPool.

Lemma listener_shutdown_completes_witness :
  exists evs, let q := run evs canceled_pool in
    p_done q = true /\ p_crashed q = false /\ store q = ∅ /\
    map_Forall (fun _ h => h_done h = true /\ h_closed h = true) (handlers q).
Proof.
  apply (listener_shutdown_completes canceled_pool); [apply listener_ok_run, listener_ok_new | reflexivity.. | by left].
Defined.

(** Another one was being passed up, and the goroutine saw the cancellation first. *)
Definition stuck_pool : pool :=
  run [LPutStart "tcp:0.0.0.0:5060" (mkListener "TCP" "0.0.0.0:5060"); LPutGo 0; LAccept 0 (base "192.0.2.1:4000"); LHand 0;
       LAccept 0 (base "192.0.2.2:4000"); LCancel; LServeCancel; LDispose] NewListenerPool.

Lemma listener_shutdown_hangs_witness : p_done (run [LGiveUp 0; LServeEnd; LDisposeEnd] stuck_pool) = false.
Proof.
  apply (listener_shutdown_hangs 0). split_and!; [apply listener_ok_run, listener_ok_new | reflexivity | discriminate |].
  eexists. split; reflexivity.
Defined.

End ListenPoolTheorems.
