(* ===== verification/Protocols.v ===== *)
(** * The transport protocols: src/transport/protocol.go, udp.go, tcp.go, tls.go, ws.go, wss.go

    A protocol owns a pool of connections and, for the stream protocols, a pool
    of listeners.  What the network does for a call (resolving a name, opening a
    listener, dialing, writing) is the argument [io] of the call; the bytes
    written are the list [written] with the key of the connection and the remote
    address.  The TCP and WebSocket protocols have the same code up to the dial;
    TLS and WSS replace the functions that listen and dial. *)

From S2P Require Import Prelude GoStrings Escape Params Headers HeaderStore Message ParserCommon Packet Stream Transport ConnPool ListenPool.
From stdpp Require Import options.
Import Headers Message Packet Transport.

Module Protocols.

Inductive kind : Set := UDP | TCP | TLS | WS | WSS.

#[export] Instance kind_eq_dec : EqDecision kind.
Proof. solve_decision. Defined.

Definition kind_network (k : kind) : bytes :=
  match k with UDP => "udp" | TCP => "tcp" | TLS => "tls" | WS => "ws" | WSS => "wss" end.

(** [time.Hour] *)
Definition sockTTL : Z := 3600000000000.

Record protocol : Type := mkProtocol {
  pr_kind : kind;
  pr_network : bytes;
  pr_reliable : bool;
  pr_streamed : bool;
  listeners : ListenPool.pool;
  connections : ConnPool.pool;
  piped : nat;
  refused : list ConnPool.connection;
  written : list (bytes * bytes * bytes)
}.

(** [NewUdpProtocol] *)
Definition NewUdpProtocol : protocol :=
  mkProtocol UDP "udp" false false ListenPool.NewListenerPool ConnPool.NewConnectionPool 0 [] [].

(** [NewTcpProtocol], [NewTlsProtocol], [NewWsProtocol] and [NewWssProtocol]. *)
Definition new_stream_protocol (k : kind) : protocol :=
  mkProtocol k (kind_network k) true true ListenPool.NewListenerPool ConnPool.NewConnectionPool 0 [] [].
Definition NewTcpProtocol : protocol := new_stream_protocol TCP.
Definition NewTlsProtocol : protocol := new_stream_protocol TLS.
Definition NewWsProtocol : protocol := new_stream_protocol WS.
Definition NewWssProtocol : protocol := new_stream_protocol WSS.

(** [protocol.Network] *)
Definition Network (p : protocol) : bytes := ToUpper (pr_network p).

Definition set_connections (c : ConnPool.pool) (p : protocol) : protocol :=
  mkProtocol (pr_kind p) (pr_network p) (pr_reliable p) (pr_streamed p) (listeners p) c (piped p)
    (refused p) (written p).
Definition set_listeners (l : ListenPool.pool) (p : protocol) : protocol :=
  mkProtocol (pr_kind p) (pr_network p) (pr_reliable p) (pr_streamed p) l (connections p) (piped p)
    (refused p) (written p).
Definition set_piped (n : nat) (r : list ConnPool.connection) (p : protocol) : protocol :=
  mkProtocol (pr_kind p) (pr_network p) (pr_reliable p) (pr_streamed p) (listeners p)
    (connections p) n r (written p).
Definition write (key raddr data : bytes) (p : protocol) : protocol :=
  mkProtocol (pr_kind p) (pr_network p) (pr_reliable p) (pr_streamed p) (listeners p)
    (connections p) (piped p) (refused p) (written p ++ [(key, raddr, data)]).

(** ** The network *)

(** A resolved address: its port and its text. *)
Record addr : Type := mkAddr { a_port : N; a_text : bytes }.

(** What a dial gives: a connection; for WebSocket possibly a connection whose
    upgrade failed; or no connection. *)
Inductive dialed : Type :=
| DialOk (laddr : bytes)
| DialFallback (laddr : bytes)
| DialErr (e : gerror).

Record net : Type := mkNet {
  n_resolve : bytes -> gerror + addr;
  n_listen : addr -> gerror + bytes;
  n_dial : addr -> dialed;
  n_write : bytes -> option gerror;
  n_port_ptr : N;
  n_now : Z
}.

Definition protocol_error (e : gerror) (op : bytes) : gerror := ProtocolError e op "%p".

(** ** UDP *)

Definition udp_key (port : N) : bytes := "udp:0.0.0.0:" ++ show_N port.

Definition udp_Listen (io : net) (t : Target) (p : protocol) : protocol * option gerror :=
  let t := FillTargetHostAndPort (Network p) t in
  match n_resolve io (Addr t) with
  | inl e => (p, Some (protocol_error e "resolve target address %s %s"))
  | inr laddr =>
      match n_listen io laddr with
      | inl e => (p, Some (protocol_error e "listen on %s %s address"))
      | inr ltext =>
          let key := pr_network p ++ ":0.0.0.0:" ++ show_N (a_port laddr) in
          let c := ConnPool.NewConnection true key (pr_network p) ltext [] in
          match ConnPool.Put c 0 (n_now io) (connections p) with
          | inl e => (p, Some (protocol_error e "put %s connection to the pool"))
          | inr q => (set_connections q p, None)
          end
      end
  end.

Definition msg_Source (m : msg) : res bytes :=
  match m with MRequest r => request_Source r | MResponse r => Ok (src (rs_msg r)) end.

(** The search for the connection on the source port; [parts[2]] panics when the
    key has fewer parts. *)
Fixpoint find_port (port : bytes) (l : list ConnPool.connection) : res (option ConnPool.connection) :=
  match l with
  | [] => Ok None
  | c :: l =>
      match Split (ConnPool.cn_key c) ":" !! 2 with
      | None => Panic
      | Some part => if streq part port then Ok (Some c) else find_port port l
      end
  end.

Definition udp_Send (io : net) (t : Target) (m : msg) (p : protocol) : res (protocol * option gerror) :=
  let t := FillTargetHostAndPort (Network p) t in
  if streq (t_Host t) "" then
    Ok (p, Some (protocol_error (Plain "empty remote target host") "send SIP message to %s %s"))
  else
    match n_resolve io (Addr t) with
    | inl e => Ok (p, Some (protocol_error e "resolve target address %s %s"))
    | inr raddr =>
        source ← msg_Source m;
        match SplitHostPort source with
        | Panic => Panic
        | Err e => Ok (p, Some (protocol_error (SipError e) "resolve source port"))
        | Ok (_, port) =>
            found ← find_port port (ConnPool.All (connections p));
            match found with
            | None => Ok (p, Some (protocol_error (Plain "connection on port %s not found") "search connection"))
            | Some c =>
                match n_write io (ConnPool.cn_key c) with
                | Some e =>
                    Ok (p, Some (protocol_error
                          (ConnectionError e "write" (ConnPool.Network c) (ConnPool.cn_laddr c) (a_text raddr) "%p")
                          "write SIP message to the %s connection"))
                | None => Ok (write (ConnPool.cn_key c) (a_text raddr) (msg_String m) p, None)
                end
            end
        end
    end.

(** ** Stream protocols *)

(** [Listen]: the key is made of the address of the port variable, since [%d]
    of a pointer prints it. *)
Definition stream_Listen (io : net) (t : Target) (p : protocol) : protocol * option gerror :=
  let t := FillTargetHostAndPort (Network p) t in
  match n_resolve io (Addr t) with
  | inl e => (p, Some (protocol_error e "resolve target address %s %s"))
  | inr laddr =>
      match n_listen io laddr with
      | inl e => (p, Some (protocol_error e "listen on %s %s address"))
      | inr ltext =>
          let key := pr_network p ++ ":0.0.0.0:" ++ show_N (n_port_ptr io) in
          match ListenPool.Put key (ListenPool.mkListener (Network p) ltext) (listeners p) with
          | inl e => (p, Some (protocol_error e "put %s listener to the pool"))
          | inr q => (set_listeners q p, None)
          end
      end
  end.

(** [getOrCreateConnection]: a failed put returns the connection with the error;
    [Send] drops it. *)
Definition getOrCreateConnection (io : net) (raddr : addr) (p : protocol)
    : protocol * (gerror + ConnPool.connection) :=
  let key := pr_network p ++ ":" ++ a_text raddr in
  match ConnPool.Get key (connections p) with
  | inr c => (p, inr c)
  | inl _ =>
      match n_dial io raddr with
      | DialErr e => (p, inl (Wrap "dial to %s %s" e))
      | DialOk laddr | DialFallback laddr =>
          let c := ConnPool.NewConnection false key (pr_network p) laddr (a_text raddr) in
          match ConnPool.Put c sockTTL (n_now io) (connections p) with
          | inl e => (p, inl (Wrap "put %s connection to the pool" e))
          | inr q => (set_connections q p, inr c)
          end
      end
  end.

(** The fields of the message that are logged before the write are those that the
    transport layer has evaluated before the call ([TransportLayer.send_through]). *)
Definition stream_Send (io : net) (t : Target) (m : msg) (p : protocol) : protocol * option gerror :=
  let t := FillTargetHostAndPort (Network p) t in
  if streq (t_Host t) "" then
    (p, Some (protocol_error (Plain "empty remote target host") "send SIP message to %s %s"))
  else
    match n_resolve io (Addr t) with
    | inl e => (p, Some (protocol_error e "resolve target address %s %s"))
    | inr raddr =>
        match getOrCreateConnection io raddr p with
        | (p, inl e) => (p, Some (protocol_error e "get or create %s connection"))
        | (p, inr c) =>
            match n_write io (ConnPool.cn_key c) with
            | Some e =>
                (p, Some (protocol_error
                       (ConnectionError e "write" (ConnPool.Network c) (ConnPool.cn_laddr c)
                          (ConnPool.cn_raddr c) "%p")
                       "write SIP message to the %s connection"))
            | None => (write (ConnPool.cn_key c) (a_text raddr) (msg_String m) p, None)
            end
        end
    end.

(** [pipePools]: the next connection of the listeners goes into the pool, or is
    closed when the pool refuses it. *)
Definition pipe_pools (now : Z) (p : protocol) : protocol :=
  match ListenPool.p_output (listeners p) !! piped p with
  | None => p
  | Some c =>
      match ConnPool.Put c sockTTL now (connections p) with
      | inr q => set_piped (S (piped p)) (refused p) (set_connections q p)
      | inl _ => set_piped (S (piped p)) (refused p ++ [c]) p
      end
  end.

(** ** WebSocket

    The methods of ws.go repeat those of tcp.go; the dial may fall back to a
    connection without the WebSocket framing. *)

Definition ws_Listen (io : net) (t : Target) (p : protocol) : protocol * option gerror := stream_Listen io t p.
Definition ws_getOrCreateConnection (io : net) (raddr : addr) (p : protocol)
    : protocol * (gerror + ConnPool.connection) := getOrCreateConnection io raddr p.
Definition ws_Send (io : net) (t : Target) (m : msg) (p : protocol) : protocol * option gerror := stream_Send io t m p.
Definition ws_pipe_pools (now : Z) (p : protocol) : protocol := pipe_pools now p.

(** ** The interface Protocol *)

Definition Listen (io : net) (t : Target) (p : protocol) : protocol * option gerror :=
  match pr_kind p with
  | UDP => udp_Listen io t p
  | TCP | TLS => stream_Listen io t p
  | WS | WSS => ws_Listen io t p
  end.

Definition Send (io : net) (t : Target) (m : msg) (p : protocol) : res (protocol * option gerror) :=
  match pr_kind p with
  | UDP => udp_Send io t m p
  | TCP | TLS => Ok (stream_Send io t m p)
  | WS | WSS => Ok (ws_Send io t m p)
  end.

End Protocols.
