(* ===== verification/TransportLayer.v ===== *)
(** * The transport layer: src/transport/layer.go

    The layer keeps a protocol per network and the ports it listens on.  A
    protocol is shared by the store and its goroutines: an operation on it puts
    its new state back under its key.  [Send] writes into the Via and the
    recipient of the request it is given: it returns the message as it is after
    the call.  Name resolution and sockets are arguments of the calls ([dns], and
    [net] of Protocols.v); [net.ParseIP] is defined as in Go's net package. *)

From S2P Require Import Prelude GoStrings Escape Params Headers HeaderStore Message ParserCommon Packet Stream Transport ConnPool ListenPool Protocols.
From stdpp Require Import options.
Import Params Headers HeaderStore Message Packet Transport Protocols.

Module TransportLayer.

(** ** net.ParseIP, as a test *)

(** A decimal octet without leading zeros; the rest. *)
Definition octet (s : bytes) : option bytes :=
  match s with
  | a :: s1 =>
      if is_digit a then
        match s1 with
        | b :: s2 =>
            if is_digit b then
              if beq a "0" then None
              else match s2 with
                   | c :: s3 =>
                       if is_digit c then
                         if (digit_val a * 100 + digit_val b * 10 + digit_val c <? 256)%N
                         then match s3 with
                              | d :: _ => if is_digit d then None else Some s3
                              | [] => Some s3
                              end
                         else None
                       else Some s2
                   | [] => Some s2
                   end
            else Some s1
        | [] => Some s1
        end
      else None
  | [] => None
  end.

Definition skip_byte (c : byte) (s : bytes) : option bytes :=
  match s with d :: s => if beq d c then Some s else None | [] => None end.

Definition parse_ipv4 (s : bytes) : bool :=
  match s ← octet s; s ← skip_byte "." s; s ← octet s; s ← skip_byte "." s;
        s ← octet s; s ← skip_byte "." s; octet s with
  | Some [] => true
  | _ => false
  end.

Definition is_hex_digit (c : byte) : bool := mem c "0123456789abcdefABCDEF".

(** The number of hexadecimal digits in front. *)
Fixpoint hex_run (s : bytes) : nat :=
  match s with c :: s => if is_hex_digit c then S (hex_run s) else 0 | [] => 0 end.

Fixpoint hex_value (acc : N) (n : nat) (s : bytes) : N :=
  match n, s with
  | S n, c :: s =>
      let d := if is_digit c then digit_val c else (code (lower c) - 87)%N in
      hex_value (acc * 16 + d) n s
  | _, _ => acc
  end.

(** The groups of an IPv6 address: [i] bytes are read, [ell] tells of an
    ellipsis. *)
Fixpoint ipv6_groups (fuel i : nat) (ell : bool) (s : bytes) : bool :=
  match fuel with
  | O => match s with [] => negb ell | _ => false end
  | S fuel =>
      let c := hex_run s in
      if (c =? 0) || (0xffff <? hex_value 0 c s)%N then false
      else match drop c s with
           | (d :: _) as s' =>
               if beq d "." then
                 (ell || (i =? 12)) && (i + 4 <=? 16) && parse_ipv4 s &&
                 (if i + 4 <? 16 then ell else negb ell)
               else if beq d ":" then
                 match drop 1 s' with
                 | [] => false
                 | e :: s2 =>
                     if beq e ":" then
                       if ell then false
                       else match s2 with
                            | [] => i + 2 <? 16
                            | _ => ipv6_groups fuel (i + 2) true s2
                            end
                     else ipv6_groups fuel (i + 2) ell (e :: s2)
                 end
               else false
           | [] => if i + 2 <? 16 then ell else negb ell
           end
  end.

Definition parse_ipv6 (s : bytes) : bool :=
  match s with
  | a :: b :: s' =>
      if beq a ":" && beq b ":" then match s' with [] => true | _ => ipv6_groups 8 0 true s' end
      else ipv6_groups 8 0 false s
  | _ => ipv6_groups 8 0 false s
  end.

(** [net.ParseIP(s) != nil]: the first dot or colon decides. *)
Definition ParseIP (s : bytes) : bool :=
  match IndexAny s ".:" with
  | None => false
  | Some i => if bool_decide (s !! i = Some "."%char) then parse_ipv4 s else parse_ipv6 s
  end.

(** ** Name resolution *)

(** The first SRV record, and an address: its port, its text, whether it is IPv4. *)
Record dns : Type := mkDns {
  d_srv : bytes -> bytes -> option (bytes * N);
  d_resolve : bytes -> bytes -> option (N * bytes * bool)
}.

(** ** The layer *)

(** How many messages and errors of a protocol the goroutine of the layer has taken
    from the channels: of its connections, and of its listeners. *)
Record taken : Type := mkTaken { tk_msgs : nat; tk_errs : nat; tk_listener_errs : nat }.

Record layer : Type := mkLayer {
  protocols : gmap (list ascii) protocol;
  listenPorts : gmap (list ascii) (list N);
  tpl_ip : bytes;
  tpl_canceled : bool;
  tpl_msgs : list msg;
  tpl_errs : list gerror;
  tpl_taken : gmap (list ascii) taken
}.

Definition NewLayer (ip : bytes) : layer := mkLayer ∅ ∅ ip false [] [] ∅.

Definition set_protocols (ps : gmap (list ascii) protocol) (l : layer) : layer :=
  mkLayer ps (listenPorts l) (tpl_ip l) (tpl_canceled l) (tpl_msgs l) (tpl_errs l) (tpl_taken l).
Definition set_ports (ps : gmap (list ascii) (list N)) (l : layer) : layer :=
  mkLayer (protocols l) ps (tpl_ip l) (tpl_canceled l) (tpl_msgs l) (tpl_errs l) (tpl_taken l).
Definition add_msg (m : msg) (l : layer) : layer :=
  mkLayer (protocols l) (listenPorts l) (tpl_ip l) (tpl_canceled l) (tpl_msgs l ++ [m]) (tpl_errs l) (tpl_taken l).
Definition add_err (e : gerror) (l : layer) : layer :=
  mkLayer (protocols l) (listenPorts l) (tpl_ip l) (tpl_canceled l) (tpl_msgs l) (tpl_errs l ++ [e]) (tpl_taken l).

Definition Cancel (l : layer) : layer :=
  mkLayer (protocols l) (listenPorts l) (tpl_ip l) true (tpl_msgs l) (tpl_errs l) (tpl_taken l).

(** *** protocolStore *)

Definition put (key : bytes) (p : protocol) (l : layer) : layer :=
  set_protocols (<[key := p]> (protocols l)) l.

Definition get (key : bytes) (l : layer) : option protocol := protocols l !! key.

Definition getOrPutNew (key : bytes) (factory : gerror + protocol) (l : layer)
    : layer * (gerror + protocol) :=
  match get key l with
  | Some p => (l, inr p)
  | None =>
      match factory with
      | inl e => (l, inl e)
      | inr p => (put key p l, inr p)
      end
  end.

Definition drop_protocol (key : bytes) (l : layer) : layer * bool :=
  match get key l with
  | None => (l, false)
  | Some _ => (set_protocols (delete key (protocols l)) l, true)
  end.

Definition all (l : layer) : list protocol := (map_to_list (protocols l)).*2.

(** *** Protocols *)

Definition protocolFactory (network : bytes) : gerror + protocol :=
  let n := ToLower network in
  if streq n "udp" then inr NewUdpProtocol
  else if streq n "tcp" then inr NewTcpProtocol
  else if streq n "tls" then inr NewTlsProtocol
  else if streq n "ws" then inr NewWsProtocol
  else if streq n "wss" then inr NewWssProtocol
  else inl (UnsupportedProtocolError "protocol %s is not supported").

Definition getProtocol (network : bytes) (l : layer) : layer * (gerror + protocol) :=
  let network := ToLower network in
  getOrPutNew network (protocolFactory network) l.

Definition IsReliable (l : layer) (network : bytes) : bool :=
  match get network l with Some p => pr_reliable p | None => false end.

Definition IsStreamed (l : layer) (network : bytes) : bool :=
  match get network l with Some p => pr_streamed p | None => false end.

(** *** Listen *)

(** A network without a port yet gets the port. *)
Definition record_port (network : bytes) (port : N) (l : layer) : layer :=
  match listenPorts l !! network with
  | Some _ => l
  | None => set_ports (<[network := [port]]> (listenPorts l)) l
  end.

Definition Listen (io : net) (network addr : bytes) (l : layer) : res (layer * option gerror) :=
  if tpl_canceled l then Ok (l, Some (Plain "transport layer is canceled"))
  else
    match getProtocol network l with
    | (l, inl e) => Ok (l, Some e)
    | (l, inr p) =>
        match NewTargetFromAddr addr with
        | Panic => Panic
        | Err e => Ok (l, Some (SipError e))
        | Ok t =>
            let t := FillTargetHostAndPort (Network p) t in
            let '(p', err) := Protocols.Listen io t p in
            let l := put (ToLower network) p' l in
            match err, t_Port t with
            | None, Some port => Ok (record_port (Network p) port l, None)
            | None, None => Panic
            | Some e, _ => Ok (l, Some e)
            end
        end
    end.

(** *** Send *)

(** A write through the pointer [viaHop]. *)
Definition rewrite_via (f : ViaHop -> ViaHop) (rq : request) : request :=
  rq_map (fun x => with_hdrs x (update_first (hdrs x) "Via" (update_hop f))) rq.

Definition set_sent_by (transport host : bytes) (hop : ViaHop) : ViaHop :=
  mkViaHop (ProtocolName hop) (ProtocolVersion hop) transport host (Port hop) (vh_params hop).

Definition set_hop_port (port : N) (hop : ViaHop) : ViaHop :=
  mkViaHop (ProtocolName hop) (ProtocolVersion hop) (Transport hop) (Host hop) (Some port) (vh_params hop).

(** The sent-by port when the Via has none: [pick] is what [rand] draws;
    [rand.Intn(0)] panics. *)
Definition sent_by_port (pick : nat) (network : bytes) (l : layer) : res N :=
  match listenPorts l !! network with
  | Some ports =>
      match ports !! (pick mod length ports) with Some p => Ok p | None => Panic end
  | None => Ok (DefaultPort network)
  end.

(** The network that an SRV target is resolved in. *)
Definition resolve_network (network : bytes) : option bytes :=
  if streq network "UDP" then Some "udp"
  else if streq network "TLS" || streq network "WS" || streq network "WSS" || streq network "TCP"
  then Some "tcp"
  else None.

(** A host that is not an address is looked up; [addr.Target] ends in a dot. *)
Definition lookup_target (d : dns) (network : bytes) (t : Target) : res Target :=
  if ParseIP (t_Host t) then Ok t
  else
    match d_srv d (ToLower network) (t_Host t) with
    | None => Ok t
    | Some (target, port) =>
        match target with
        | [] => Panic
        | _ =>
            let text := removelast target ++ ":" ++ show_N port in
            match resolve_network network with
            | None => Ok t
            | Some n =>
                match d_resolve d n text with
                | None => Ok t
                | Some (port, ip, v4) =>
                    Ok (mkTarget (if (v4 : bool) then ip else "[" ++ ip ++ "]") (Some port))
                end
            end
        end
    end.

(** [msg.Recipient().UriParams().Remove(...)] of the transport parameter. *)
Definition remove_transport (rq : request) : res request :=
  match recipient rq with
  | Some (SipUriPtr u) =>
      match FUriParams u with
      | Some ps =>
          Ok (mkRequest (rq_msg rq) (method rq)
                (Some (SipUriPtr (mkSipUri (FIsEncrypted u) (FUser u) (FPassword u) (FHost u) (FPort u)
                                    (Some (Remove ps "transport")) (FHeaders u)))))
      | None => Panic
      end
  | _ => Panic
  end.

Definition send_through (io : net) (network : bytes) (t : Target) (m : msg) (p : protocol) (l : layer)
    : res (layer * msg * option gerror) :=
  _ ← msg_shown m;
  match Protocols.Send io t m p with
  | Panic => Panic
  | Err e => Err e
  | Ok (p', err) =>
      Ok (put (ToLower network) p' l, m,
          option_map (Wrap "send SIP message through %s protocol to %s") err)
  end.

Definition bad_target (e : error) : gerror := Wrap "build address target for %s" (SipError e).

Definition send_request (io : net) (d : dns) (pick : nat) (rq : request) (hop : ViaHop) (l : layer)
    : res (layer * msg * option gerror) :=
  network ← request_Transport rq;
  let rq := rewrite_via (set_sent_by (ToUpper network) (tpl_ip l)) rq in
  match getProtocol network l with
  | (l, inl e) => Ok (l, MRequest rq, Some e)
  | (l, inr p) =>
      rq ← match Port hop with
           | Some _ => Ok rq
           | None => port ← sent_by_port pick network l; Ok (rewrite_via (set_hop_port port) rq)
           end;
      dest ← request_Destination rq;
      match NewTargetFromAddr dest with
      | Panic => Panic
      | Err e => Ok (l, MRequest rq, Some (bad_target e))
      | Ok t =>
          t ← lookup_target d network t;
          rq ← remove_transport rq;
          send_through io network t (MRequest rq) p l
      end
  end.

Definition send_response (io : net) (rs : response) (l : layer) : res (layer * msg * option gerror) :=
  let network := response_Transport rs in
  match getProtocol network l with
  | (l, inl e) => Ok (l, MResponse rs, Some e)
  | (l, inr p) =>
      dest ← response_Destination rs;
      match NewTargetFromAddr dest with
      | Panic => Panic
      | Err e => Ok (l, MResponse rs, Some (bad_target e))
      | Ok t => send_through io network t (MResponse rs) p l
      end
  end.

Definition Send (io : net) (d : dns) (pick : nat) (m : msg) (l : layer)
    : res (layer * msg * option gerror) :=
  if tpl_canceled l then Ok (l, m, Some (Plain "transport layer is canceled"))
  else
    match ViaHop_ (hdrs (msg_of m)) with
    | None =>
        Ok (l, m, Some (SipError (MalformedMessageError (Errorf "missing required 'Via' header") (msg_String m))))
    | Some hop =>
        match m with
        | MRequest rq => send_request io d pick rq hop l
        | MResponse rs => send_response io rs l
        end
    end.

(** *** What the protocols send up *)

(** [handleMessage] and [handlerError]: after a cancel the select may take
    either case ([take_cancel]). *)
Definition handleMessage (take_cancel : bool) (m : msg) (l : layer) : layer :=
  if tpl_canceled l && take_cancel then l else add_msg m l.
Definition handlerError (take_cancel : bool) (e : gerror) (l : layer) : layer :=
  if tpl_canceled l && take_cancel then l else add_err e l.

Definition taken_of (key : bytes) (l : layer) : taken := default (mkTaken 0 0 0) (tpl_taken l !! key).

Definition set_taken (key : bytes) (t : taken) (l : layer) : layer :=
  mkLayer (protocols l) (listenPorts l) (tpl_ip l) (tpl_canceled l) (tpl_msgs l) (tpl_errs l) (<[key := t]> (tpl_taken l)).

Definition took_message (key : bytes) (l : layer) : layer :=
  let t := taken_of key l in set_taken key (mkTaken (S (tk_msgs t)) (tk_errs t) (tk_listener_errs t)) l.
Definition took_error (key : bytes) (l : layer) : layer :=
  let t := taken_of key l in set_taken key (mkTaken (tk_msgs t) (S (tk_errs t)) (tk_listener_errs t)) l.
Definition took_listener_error (key : bytes) (l : layer) : layer :=
  let t := taken_of key l in set_taken key (mkTaken (tk_msgs t) (tk_errs t) (S (tk_listener_errs t))) l.

(** [dispose]: the protocols are dropped under their network names; the ports
    are forgotten. *)
Definition dispose (l : layer) : layer :=
  set_ports ∅ (foldl (fun l p => (drop_protocol (Network p) l).1) l (all l)).

End TransportLayer.
