(* ===== verification/TransportTheorems.v ===== *)
(** * What targets and received messages guarantee: src/transport

    Targets against their text; the way back of a response through the request
    it answers; the network names of the layer against those of the
    transactions; the fields [Send] rewrites; the reuse of connections. *)

From S2P Require Import Prelude GoStrings Escape Params Headers HeaderStore Message ParserCommon Packet Stream StreamProofs TxKeys Fsm ClientTx ServerTx Samples Transport ConnPool ListenPool Protocols TransportLayer.
From stdpp Require Import options.
Import Params Headers HeaderStore Message Packet StreamProofs Samples Transport Protocols TransportLayer.

Module TransportTheorems.

(** ** Targets *)

(** A host that needs no brackets: no colon and no bracket in it. *)
Definition plain_host (h : bytes) : bool :=
  negb (mem ":" h) && negb (mem "[" h) && negb (mem "]" h).

Lemma ContainsByte_mem s c : ContainsByte s c = mem c s.
Proof.
  unfold ContainsByte. destruct (IndexByte s c) eqn:E; simpl.
  - destruct (mem c s) eqn:Em; [done |]. apply IndexByte_None in Em. congruence.
  - by apply IndexByte_None in E.
Qed.

Lemma SplitHostPort_plain host port :
  plain_host host = true -> forallb is_digit port = true ->
  SplitHostPort (host ++ ":" ++ port) = Ok (host, port).
Proof.
  intros Hh Hp. unfold plain_host in Hh. simp_bool.
  assert (forall c, is_digit c = false -> mem c port = false) as Hm by (intros c; auto using not_digit_mem).
  unfold SplitHostPort. rewrite LastIndexByte_app_cons by by apply Hm.
  assert (drop (length host + 1) (host ++ ":" ++ port) = port) as ->
    by (rewrite <- drop_drop, drop_app_length; done).
  assert (take (length host) (host ++ ":" ++ port) = host) as Ht by apply take_app_length.
  assert (split_result (host ++ ":" ++ port) (host ++ ":" ++ port) host port = Ok (host, port)) as Hs.
  { unfold split_result. rewrite !ContainsByte_mem, !mem_app, !Hm by done.
    repeat match goal with H : mem _ host = false |- _ => rewrite H; clear H end. done. }
  destruct (host ++ ":" ++ port) as [| c rest] eqn:E; [by destruct host |].
  assert (beq c "[" = false) as ->.
  { destruct host as [| d host]; injection E as <- _; [done |]. simpl in *. simp_bool.
    rewrite beq_neq in *. congruence. }
  rewrite Ht, ContainsByte_mem. by destruct (mem ":" host).
Qed.

Lemma NewTargetFromAddr_plain host port :
  plain_host host = true -> (port < 2 ^ 16)%N ->
  NewTargetFromAddr (host ++ ":" ++ show_N port) = Ok (mkTarget host (Some port)).
Proof.
  intros Hh Hp. unfold NewTargetFromAddr. rewrite SplitHostPort_plain by auto using show_N_all_digits.
  cbn [mbind res_bind]. rewrite Atoi_show by lia. cbn [mbind res_bind]. unfold NewTarget, to_uint16.
  rewrite Z.mod_small by lia. by rewrite N2Z.id.
Qed.

Lemma SplitHostPort_colons host port :
  mem ":" host = true -> head host <> Some "["%char -> forallb is_digit port = true ->
  SplitHostPort (host ++ ":" ++ port) = Err tooManyColons.
Proof.
  intros Hc Hb Hp. unfold SplitHostPort.
  rewrite LastIndexByte_app_cons by (by apply not_digit_mem).
  assert (take (length host) (host ++ ":" ++ port) = host) as Ht by apply take_app_length.
  destruct (host ++ ":" ++ port) as [| c rest] eqn:E; [by destruct host |].
  assert (beq c "[" = false) as ->.
  { destruct host as [| d host]; [done |]. injection E as <- _. apply beq_neq. intros ->. by apply Hb. }
  by rewrite Ht, ContainsByte_mem, Hc.
Qed.

(** The text of a target with a host name or an IPv4 address parses back to
    the target; the text of one with an IPv6 address never parses. *)
Theorem target_round_trip host port :
  (port < 2 ^ 16)%N -> TrimSpace host <> [] ->
  (plain_host host = true ->
   NewTargetFromAddr (Addr (mkTarget host (Some port))) = Ok (mkTarget host (Some port))) /\
  (mem ":" host = true -> head host <> Some "["%char ->
   NewTargetFromAddr (Addr (mkTarget host (Some port))) = Err tooManyColons).
Proof.
  intros Hp Hh. unfold Addr. cbn [t_Host t_Port]. destruct (TrimSpace host) eqn:E; [done |]. split.
  - intros Hc. by apply NewTargetFromAddr_plain.
  - intros Hc Hb. unfold NewTargetFromAddr. by rewrite SplitHostPort_colons by auto using show_N_all_digits.
Qed.

(** The IPv6 destination that [NewTargetFromAddr] itself accepts in brackets. *)
Lemma target_round_trip_witness :
  NewTargetFromAddr "[::1]:5060" = Ok (mkTarget "::1" (Some 5060%N)) /\
  NewTargetFromAddr (Addr (mkTarget "::1" (Some 5060%N))) = Err tooManyColons /\
  NewTargetFromAddr (Addr (mkTarget "10.0.0.1" (Some 5060%N))) = Ok (mkTarget "10.0.0.1" (Some 5060%N)).
Proof.
  split; [vm_compute; reflexivity |]. split.
  - apply (target_round_trip "::1" 5060); [reflexivity | vm_compute; discriminate | reflexivity | discriminate].
  - apply (target_round_trip "10.0.0.1" 5060); [reflexivity | vm_compute; discriminate | reflexivity].
Defined.

(** ** The way back of a response *)

Lemma ToUpper_idem s : ToUpper (ToUpper s) = ToUpper s.
Proof.
  unfold ToUpper. rewrite map_map. apply map_ext. intros c. revert c.
  assert (forall c, beq (upper (upper c)) (upper c) = true) as H by (apply byte_forall; vm_compute; reflexivity).
  intros c. by apply beq_eq.
Qed.

Lemma ToUpper_nonempty s : s <> [] -> ToUpper s <> [].
Proof. by destruct s. Qed.

Lemma Source_set rq s : s <> [] -> request_Source (rq_map (fun m => SetSource m s) rq) = Ok s.
Proof. intros Hs. unfold request_Source. cbn. by destruct s. Qed.

(** The text the way back is parsed from. *)
Lemma response_addressing uuid id rq code rsn b rs :
  src (rq_msg rq) <> [] -> tp (rq_msg rq) <> [] ->
  NewResponseFromRequest uuid id rq code rsn b = Ok rs ->
  response_Destination rs = Ok (src (rq_msg rq)) /\ response_Transport rs = ToUpper (tp (rq_msg rq)).
Proof.
  intros Hs Ht. unfold NewResponseFromRequest.
  assert (request_Transport rq = Ok (ToUpper (tp (rq_msg rq)))) as -> by (unfold request_Transport; by destruct (tp _)).
  assert (request_Source rq = Ok (src (rq_msg rq))) as -> by (unfold request_Source; by destruct (src _)).
  cbn [mbind res_bind]. destruct (request_Destination rq); [| done | done]. cbn [mbind res_bind].
  intros [= <-]. unfold response_Destination, response_Transport. cbn. split; [by destruct (src _) |].
  rewrite !ToUpper_idem. by destruct (tp (rq_msg rq)).
Qed.

(** Where the answer to a request from [raddr] belongs: to [raddr] itself for a
    stream or when the client asked for rport, else to the sender's host and the
    port its Via names. *)
Definition way_back (network : bytes) (streamed : bool) (rhost : bytes) (rport : N) (hop : ViaHop) : Target :=
  let asked := match vh_params hop with Some ps => Has ps "rport" | None => false end in
  mkTarget rhost (Some (if streamed || asked then rport
                        else match Port hop with Some p => p | None => DefaultPort network end)).

Lemma Has_Add ps k k' v : Has (Add ps k v) k' = streq k k' || Has ps k'.
Proof.
  unfold Has, Add. destruct (params ps !! k) eqn:E; cbn; (destruct (decide (k = k')) as [->|Hn];
    [rewrite lookup_insert_eq, streq_refl; by rewrite ?E |
     rewrite lookup_insert_ne by done; apply streq_neq in Hn; by rewrite Hn]).
Qed.

Lemma received_rport rhost rport hop ps : Has (received_params rhost rport hop ps) "rport" = Has ps "rport".
Proof.
  unfold received_params. set (q := if _ && _ then _ else _).
  assert (Has q "rport" = Has ps "rport") as Hq by (subst q; destruct (_ && _); by rewrite ?Has_Add).
  rewrite <- Hq. destruct (Has q "rport") eqn:E; [by rewrite Has_Add, E, orb_true_r | done].
Qed.

Lemma DefaultPort_bound n : (DefaultPort n < 2 ^ 16)%N.
Proof. unfold DefaultPort. by repeat destruct (streq _ _). Qed.

Lemma received_source_target network streamed rhost rport hop ps :
  plain_host rhost = true -> (rport < 2 ^ 16)%N -> vh_params hop = Some ps ->
  (forall p, Port hop = Some p -> (p < 2 ^ 16)%N) ->
  NewTargetFromAddr (received_source network streamed rhost (rhost ++ ":" ++ show_N rport) hop
                       (received_params rhost (show_N rport) hop ps))
  = Ok (way_back network streamed rhost rport hop).
Proof.
  intros Hh Hp Hps Hb. unfold received_source, way_back. rewrite received_rport, Hps.
  destruct (streamed || Has ps "rport"); apply NewTargetFromAddr_plain; try done.
  destruct (Port hop) eqn:E; [by apply Hb | apply DefaultPort_bound].
Qed.

(** C16: A response built from a request that a host name or IPv4 address sent, with a
    top Via that has a set of parameters, goes back over the network the request came
    from: to the address it came from for a stream or with rport (RFC 3581), and
    otherwise to the sender's host at the port of its Via (RFC 3261 18.2.2, without
    its maddr case, which the code does not have).  An IPv6 sender is not covered:
    see [ipv6_sender_unreachable]. *)
Theorem response_returns_to_sender network streamed laddr rhost rport rq hop ps uuid id code rsn b :
  network <> [] -> plain_host rhost = true -> (rport < 2 ^ 16)%N ->
  ViaHop_ (hdrs (rq_msg rq)) = Some hop -> vh_params hop = Some ps ->
  (forall p, Port hop = Some p -> (p < 2 ^ 16)%N) ->
  exists rq',
    Transport.handleMessage network streamed laddr (rhost ++ ":" ++ show_N rport) (MRequest rq)
      = Ok (Some (MRequest rq')) /\
    forall rs, NewResponseFromRequest uuid id rq' code rsn b = Ok rs ->
    response_Transport rs = ToUpper network /\
    exists dest, response_Destination rs = Ok dest /\
      NewTargetFromAddr dest = Ok (way_back network streamed rhost rport hop).
Proof.
  intros Hn Hh Hp Hv Hps Hb. unfold Transport.handleMessage.
  rewrite SplitHostPort_plain by auto using show_N_all_digits. cbn [msg_map].
  cbn [rq_map rq_msg hdrs SetDestination]. rewrite Hv, Hps. eexists. split; [reflexivity |].
  intros rs Hrs. set (source := received_source _ _ _ _ _ _) in *.
  assert (NewTargetFromAddr source = Ok (way_back network streamed rhost rport hop)) as Ht
    by (by apply received_source_target).
  assert (source <> []) as Hne by (intros E; rewrite E in Ht; done).
  apply response_addressing in Hrs as [Hd Htr]; [| exact Hne | by apply ToUpper_nonempty].
  split; [by rewrite Htr; cbn; rewrite !ToUpper_idem | by exists source].
Qed.

Lemma response_returns_to_sender_witness :
  exists rq', Transport.handleMessage "UDP" false "10.0.0.1:5060" "192.0.2.7:40000" (MRequest sample_register)
      = Ok (Some (MRequest rq')) /\
    forall rs, NewResponseFromRequest "u" "" rq' 200 "OK" [] = Ok rs ->
    response_Transport rs = "UDP" /\
    exists dest, response_Destination rs = Ok dest /\
      NewTargetFromAddr dest = Ok (way_back "UDP" false "192.0.2.7" 40000 (sample_hop "UDP")).
Proof.
  eapply (response_returns_to_sender "UDP" false "10.0.0.1:5060" "192.0.2.7" 40000 sample_register
            (sample_hop "UDP")); try reflexivity; [discriminate |].
  intros p. vm_compute. intros [= <-]. reflexivity.
Defined.

(** The source of a request that an IPv6 address sent without rport is written
    without brackets, and no target can be made of it. *)
Example ipv6_sender_unreachable :
  exists rq', Transport.handleMessage "UDP" false "[::1]:5060" "[2001:db8::7]:40000" (MRequest sample_register)
      = Ok (Some (MRequest rq')) /\
    src (rq_msg rq') = "2001:db8::7:5066" /\ NewTargetFromAddr (src (rq_msg rq')) = Err tooManyColons.
Proof. eexists. split; [reflexivity |]. split; vm_compute; reflexivity. Qed.

End TransportTheorems.
