(* ===== verification/TransportReach.v ===== *)
(** * The states a transport layer reaches: src/transport/layer.go

    The calls of the layer, the goroutines of its protocols and its own
    goroutine as one step relation; the invariant of every state it reaches,
    and what follows from it for sends and for the transactions above.  A call
    of the layer is one step; what the pools do inside is interleaved with the
    calls event by event (ConnPool.v and ListenPool.v split their calls
    further). *)

From S2P Require Import Prelude GoStrings Escape Params Headers HeaderStore Message ParserCommon Packet Stream StreamProofs TxKeys Fsm ClientTx ServerTx Samples Transport ConnPool ConnPoolTheorems ListenPool Protocols TransportLayer TransportTheorems.
From stdpp Require Import options.
Import Params Headers HeaderStore Message Packet StreamProofs Samples Transport Protocols TransportLayer TransportTheorems.

Module TransportReach.

(** ** Steps *)

(** Puts come from the protocols only. *)
Definition is_cancel (ev : ConnPool.event) : bool :=
  match ev with ConnPool.ECancel => true | _ => false end.
Definition is_listener_put (ev : ListenPool.event) : bool :=
  match ev with ListenPool.LPutStart _ _ | ListenPool.LPutGo _ => true | _ => false end.
Definition is_listener_cancel (ev : ListenPool.event) : bool :=
  match ev with ListenPool.LCancel => true | _ => false end.

Section steps.

Context (err_text : error -> bytes) (mapper : msg -> msg) (uuid : nat -> bytes).

(** The goroutines of the pools, of the protocols and of the layer. *)
Inductive goroutine : layer -> layer -> Prop :=
| step_connections key p ev l :
    get key l = Some p -> ConnPoolTheorems.is_put ev = false -> (is_cancel ev = true -> tpl_canceled l = true) ->
    goroutine l (put key (set_connections (ConnPool.run_step err_text mapper uuid (connections p) ev) p) l)
| step_listeners key p ev l :
    get key l = Some p -> pr_streamed p = true -> is_listener_put ev = false ->
    (is_listener_cancel ev = true -> tpl_canceled l = true) ->
    goroutine l (put key (set_listeners (ListenPool.run [ev] (listeners p)) p) l)
| step_pipe key p now l :
    get key l = Some p -> pr_streamed p = true -> goroutine l (put key (pipe_pools now p) l)
| step_message c m key p l :
    get key l = Some p -> ConnPool.p_output (connections p) !! tk_msgs (taken_of key l) = Some m ->
    goroutine l (took_message key (handleMessage c m l))
| step_error c e key p l :
    get key l = Some p -> ConnPool.p_errs (connections p) !! tk_errs (taken_of key l) = Some e ->
    goroutine l (took_error key (handlerError c e l))
| step_listener_error c e key p l :
    get key l = Some p -> ListenPool.p_errs (listeners p) !! tk_listener_errs (taken_of key l) = Some e ->
    goroutine l (took_listener_error key (handlerError c e l))
| step_dispose l : tpl_canceled l = true -> goroutine l (dispose l).

(** ... and the calls of the layer. *)
Inductive step : layer -> layer -> Prop :=
| step_listen io network addr e l l' : Listen io network addr l = Ok (l', e) -> step l l'
| step_send io d pick m m' e l l' : Send io d pick m l = Ok (l', m', e) -> step l l'
| step_cancel l : step l (Cancel l)
| step_goroutine l l' : goroutine l l' -> step l l'.

Definition reaches : layer -> layer -> Prop := rtc step.

End steps.

(** ** Connections that a pool keeps *)

Definition conns (P : ConnPool.connection -> Prop) (p : ConnPool.pool) : Prop :=
  forall n h, ConnPool.handlers p !! n = Some h -> P (ConnPool.h_conn h).

Section conns.

Import ConnPool.
Context (P : connection -> Prop).

Lemma conns_set_handler n h h' p :
  conns P p -> handlers p !! n = Some h -> ConnPoolTheorems.keeps h h' -> conns P (set_handler n h' p).
Proof.
  intros Hp Hn [Kc _ _ _] m g. cbn. rewrite lookup_insert_Some. intros [[<- <-]|[_ Hm]].
  - rewrite Kc. by eapply Hp.
  - by eapply Hp.
Qed.

Lemma conns_Drop key p : conns P p -> conns P (Drop key p).
Proof.
  intros Hp. unfold Drop, drop. destruct (get key p) as [|[n h]] eqn:E; [done |].
  apply ConnPoolTheorems.get_inr in E as [_ Eh]. intros m g. cbn. rewrite lookup_insert_Some.
  intros [[<- <-]|[_ Hm]]; [exact (Hp _ _ Eh) | by eapply Hp].
Qed.

Lemma conns_put key c ttl now p q : conns P p -> P c -> put key c ttl now p = inr q -> conns P q.
Proof.
  intros Hp Hc. unfold put. destruct (get key p); [| done]. intros [= <-] n h. cbn.
  rewrite lookup_insert_Some. intros [[_ <-]|[_ Hn]]; [done | by eapply Hp].
Qed.

Lemma conns_Put c ttl now p q : conns P p -> P c -> Put c ttl now p = inr q -> conns P q.
Proof. unfold Put. destruct (put_check c p); [done |]. apply conns_put. Qed.

Lemma conns_closed : ConnPoolTheorems.closed (conns P).
Proof.
  split; [apply conns_set_handler | apply conns_Drop |]. intros p q Hp _ E _ _ n h. rewrite E. apply Hp.
Qed.

End conns.

(** ** The invariant *)

Definition udp_keyed (c : ConnPool.connection) : Prop := exists port, ConnPool.cn_key c = udp_key port.

Record protocol_ok (key : bytes) (p : protocol) : Prop := {
  po_key : key = kind_network (pr_kind p);
  po_network : pr_network p = kind_network (pr_kind p);
  po_reliable : pr_reliable p = bool_decide (pr_kind p <> UDP);
  po_streamed : pr_streamed p = bool_decide (pr_kind p <> UDP);
  po_connections : ConnPoolTheorems.pool_ok (connections p);
  po_listeners : ListenPool.pool_ok (listeners p);
  po_udp : pr_kind p = UDP -> conns udp_keyed (connections p)
}.

(** Protocols are stored under their lower-case names; at most one port is kept
    per network, under the upper-case name. *)
Record layer_ok (l : layer) : Prop := {
  lo_protocols key p : protocols l !! key = Some p -> protocol_ok key p;
  lo_ports network ports : listenPorts l !! network = Some ports ->
    exists k port, network = ToUpper (kind_network k) /\ ports = [port]
}.

Lemma po_set_connections key p c :
  protocol_ok key p -> ConnPoolTheorems.pool_ok c -> (pr_kind p = UDP -> conns udp_keyed c) ->
  protocol_ok key (set_connections c p).
Proof. by intros [] ? ?; split. Qed.

Lemma po_set_listeners key p q :
  protocol_ok key p -> ListenPool.pool_ok q -> protocol_ok key (set_listeners q p).
Proof. by intros [] ?; split. Qed.

Lemma po_write key p k r data : protocol_ok key p -> protocol_ok key (write k r data p).
Proof. by intros []; split. Qed.

Lemma po_set_piped key p n r : protocol_ok key p -> protocol_ok key (set_piped n r p).
Proof. by intros []; split. Qed.

Lemma po_Put key p c ttl now q :
  protocol_ok key p -> (pr_kind p = UDP -> udp_keyed c) ->
  ConnPool.Put c ttl now (connections p) = inr q -> protocol_ok key (set_connections q p).
Proof.
  intros Hp Hc Hq. apply po_set_connections; [done | |].
  - eapply ConnPoolTheorems.ok_Put, Hq. apply Hp.
  - intros Hk. eapply conns_Put, Hq; [by eapply po_udp | auto].
Qed.

#[local] Hint Resolve po_write po_set_piped : transport.

Lemma po_new k p :
  p = (if decide (k = UDP) then NewUdpProtocol else new_stream_protocol k) ->
  protocol_ok (kind_network k) p.
Proof.
  intros ->. destruct (decide (k = UDP)) as [->|Hk]; split; try done;
    try apply ConnPoolTheorems.ok_new; try apply ListenPool.listener_ok_new; cbn.
  - by rewrite bool_decide_true.
  - by rewrite bool_decide_true.
Qed.

Lemma protocolFactory_ok network p :
  protocolFactory network = inr p -> protocol_ok (ToLower network) p.
Proof.
  unfold protocolFactory.
  destruct (streq _ "udp") eqn:E1; [apply streq_eq in E1 as ->; intros [= <-]; by apply (po_new UDP) |].
  destruct (streq _ "tcp") eqn:E2; [apply streq_eq in E2 as ->; intros [= <-]; by apply (po_new TCP) |].
  destruct (streq _ "tls") eqn:E3; [apply streq_eq in E3 as ->; intros [= <-]; by apply (po_new TLS) |].
  destruct (streq _ "ws") eqn:E4; [apply streq_eq in E4 as ->; intros [= <-]; by apply (po_new WS) |].
  destruct (streq _ "wss") eqn:E5; [apply streq_eq in E5 as ->; intros [= <-]; by apply (po_new WSS) | done].
Qed.

(** *** The calls of a protocol *)

Lemma po_Listen key io t p p' e :
  protocol_ok key p -> Protocols.Listen io t p = (p', e) -> protocol_ok key p'.
Proof.
  intros Hp. unfold Protocols.Listen.
  assert (udp_Listen io t p = (p', e) -> pr_kind p = UDP -> protocol_ok key p') as Hu.
  { unfold udp_Listen. intros H Hk. destruct (n_resolve _ _) as [|a]; [by simplify_eq |].
    destruct (n_listen io a); [by simplify_eq |].
    destruct (ConnPool.Put _ _ _ _) as [|q] eqn:E; simplify_eq; [done |].
    eapply po_Put, E; [done |]. intros _. exists (a_port a). cbn. by rewrite (po_network _ _ Hp), Hk. }
  assert (stream_Listen io t p = (p', e) -> protocol_ok key p') as Hs.
  { unfold stream_Listen. intros H. destruct (n_resolve _ _) as [|a]; [by simplify_eq |].
    destruct (n_listen io a); [by simplify_eq |].
    destruct (ListenPool.Put _ _ _) as [|q] eqn:E; simplify_eq; [done |].
    apply po_set_listeners; [done |]. eapply ListenPool.listener_ok_Put, E. apply Hp. }
  unfold ws_Listen. destruct (pr_kind p); auto.
Qed.

Lemma po_Send key io t m p p' e :
  protocol_ok key p -> Protocols.Send io t m p = Ok (p', e) -> protocol_ok key p'.
Proof.
  intros Hp. unfold Protocols.Send.
  assert (udp_Send io t m p = Ok (p', e) -> protocol_ok key p') as Hu.
  { unfold udp_Send. destruct (streq _ _); [by intros [= <- _] |].
    destruct (n_resolve _ _) as [|a]; [by intros [= <- _] |].
    destruct (msg_Source m) as [s| |]; [| done | done]. cbn [mbind res_bind].
    destruct (SplitHostPort s) as [[h port]| |]; [| by intros [= <- _] | done].
    destruct (find_port _ _) as [[c|]| |]; [| by intros [= <- _] | done | done]. cbn [mbind res_bind].
    destruct (n_write _ _); intros [= <- _]; auto with transport. }
  destruct (pr_kind p) eqn:Hk; [exact Hu | | | |]; clear Hu;
    unfold ws_Send, stream_Send, getOrCreateConnection; intros [= H];
    repeat first [case_match | progress simplify_eq]; auto with transport;
    first [eapply po_Put | apply po_write; eapply po_Put]; eauto; congruence.
Qed.

Lemma po_pipe key now p : protocol_ok key p -> pr_streamed p = true -> protocol_ok key (pipe_pools now p).
Proof.
  intros Hp Hs. unfold pipe_pools. destruct (_ !! _) as [c|]; [| done].
  destruct (ConnPool.Put _ _ _ _) as [|q] eqn:E; [auto with transport |].
  apply po_set_piped. eapply po_Put, E; [done |]. intros Hk.
  by rewrite (po_streamed _ _ Hp), bool_decide_false in Hs by congruence.
Qed.

(** *** The calls of the layer *)

Lemma ToLower_idem s : ToLower (ToLower s) = ToLower s.
Proof.
  unfold ToLower. rewrite map_map. apply map_ext. intros c. revert c.
  assert (forall c, beq (lower (lower c)) (lower c) = true) as H by (apply byte_forall; vm_compute; reflexivity).
  intros c. by apply beq_eq.
Qed.

Lemma lo_put key p l : layer_ok l -> protocol_ok key p -> layer_ok (put key p l).
Proof.
  intros [H1 H2] Hp. split; cbn; [| done]. intros k q. rewrite lookup_insert_Some.
  intros [[<- <-]|[_ Hq]]; auto.
Qed.

Lemma lo_getProtocol network l l' r :
  layer_ok l -> getProtocol network l = (l', r) ->
  layer_ok l' /\ forall p, r = inr p -> protocol_ok (ToLower network) p.
Proof.
  intros Hl. unfold getProtocol, getOrPutNew, get. destruct (protocols l !! _) as [q|] eqn:E.
  { intros [= <- <-]. split; [done |]. intros p [= <-]. by eapply lo_protocols. }
  destruct (protocolFactory _) as [|q] eqn:Ef; intros [= <- <-]; [done |].
  apply protocolFactory_ok in Ef. rewrite ToLower_idem in Ef. split; [by apply lo_put |]. by intros p [= <-].
Qed.

Lemma lo_record_port k port l :
  layer_ok l -> layer_ok (record_port (ToUpper (kind_network k)) port l).
Proof.
  intros Hl. unfold record_port. destruct (_ !! _); [done |]. destruct Hl as [H1 H2]. split; cbn; [done |].
  intros n ps. rewrite lookup_insert_Some. intros [[<- <-]|[_ Hn]]; [by eauto | by apply H2].
Qed.

Lemma lo_Listen io network addr l l' e :
  layer_ok l -> Listen io network addr l = Ok (l', e) -> layer_ok l'.
Proof.
  intros Hl. unfold Listen. destruct (tpl_canceled l); [by intros [= <- _] |].
  destruct (getProtocol network l) as [l1 [x|p]] eqn:Eg;
    apply lo_getProtocol in Eg as [H1 Hp]; try done; [by intros [= <- _] |]. specialize (Hp p eq_refl).
  destruct (NewTargetFromAddr addr) as [t| |]; [| by intros [= <- _] | done].
  destruct (Protocols.Listen _ _ p) as [p' err] eqn:El. apply (po_Listen (ToLower network)) in El; [| done].
  destruct err, (t_Port (FillTargetHostAndPort (Network p) t)); intros [= <- _]; auto using lo_put.
  unfold Network. rewrite (po_network _ _ Hp). auto using lo_record_port, lo_put.
Qed.

Lemma lo_send_through io network t m p l l' m' e :
  layer_ok l -> protocol_ok (ToLower network) p ->
  send_through io network t m p l = Ok (l', m', e) -> layer_ok l'.
Proof.
  intros Hl Hp. unfold send_through. intros ([] & _ & H)%bind_Ok. revert H.
  destruct (Protocols.Send _ _ _ _) as [[p' x]| |] eqn:E; try done. intros [= <- _ _]. eauto using lo_put, po_Send.
Qed.

Lemma lo_Send io d pick m l l' m' e :
  layer_ok l -> Send io d pick m l = Ok (l', m', e) -> layer_ok l'.
Proof.
  intros Hl. unfold Send. destruct (tpl_canceled l); [by intros [= <- _ _] |].
  destruct (ViaHop_ _) as [hop|]; [| by intros [= <- _ _]].
  destruct m as [rq|rs]; [unfold send_request | unfold send_response].
  - destruct (request_Transport rq) as [network| |]; [| done | done]. cbn [mbind res_bind].
    destruct (getProtocol network l) as [l1 [x|p]] eqn:Eg;
      apply lo_getProtocol in Eg as [H1 Hp]; try done; [by intros [= <- _ _] |]. specialize (Hp p eq_refl).
    destruct (match Port hop with Some _ => _ | None => _ end) as [rq'| |]; [| done | done]. cbn [mbind res_bind].
    destruct (request_Destination rq') as [dest| |]; [| done | done]. cbn [mbind res_bind].
    destruct (NewTargetFromAddr dest) as [t| |]; [| by intros [= <- _ _] | done].
    destruct (lookup_target d network t) as [t'| |]; [| done | done]. cbn [mbind res_bind].
    destruct (remove_transport rq') as [rq2| |]; [| done | done]. cbn [mbind res_bind].
    by apply lo_send_through.
  - destruct (getProtocol _ l) as [l1 [x|p]] eqn:Eg;
      apply lo_getProtocol in Eg as [H1 Hp]; try done; [by intros [= <- _ _] |]. specialize (Hp p eq_refl).
    destruct (response_Destination rs) as [dest| |]; [| done | done]. cbn [mbind res_bind].
    destruct (NewTargetFromAddr dest) as [t| |]; [| by intros [= <- _ _] | done].
    by apply lo_send_through.
Qed.

Lemma lo_dispose l : layer_ok l -> layer_ok (dispose l).
Proof.
  intros [H1 H2]. split; cbn; [| by intros ? ?; rewrite lookup_empty].
  unfold dispose. cbn. generalize (all l) as ps. intros ps. revert l H1 H2.
  induction ps as [| p ps IH]; intros l H1 H2; [done |]. cbn. apply IH; unfold drop_protocol;
    destruct (get _ _); cbn; try done. intros k q. rewrite lookup_delete_Some. intros [_ Hq]. auto.
Qed.

Section reaches.

Context (err_text : error -> bytes) (mapper : msg -> msg) (uuid : nat -> bytes).

Lemma lo_goroutine l l' : goroutine err_text mapper uuid l l' -> layer_ok l -> layer_ok l'.
Proof.
  intros Hs Hl. destruct Hs as [key p ev l Hg Hev _ | key p ev l Hg _ _ _ | key p now l Hg Hs
    | c m key p l _ _ | c e key p l _ _ | c e key p l _ _ | l _]; eauto using lo_dispose.
  - assert (protocol_ok key p) as Hp by (by apply Hl). apply lo_put; [done |].
    apply po_set_connections; [done | |]; unfold ConnPool.run_step; (case_match; [by apply Hp |]).
    + apply ConnPoolTheorems.ok_step, Hp.
    + intros Hk. apply ConnPoolTheorems.closed_step; [apply conns_closed | done | by apply Hp].
  - assert (protocol_ok key p) as Hp by (by apply Hl). apply lo_put; [done |].
    apply po_set_listeners; [done |]. apply ListenPool.listener_ok_run, Hp.
  - apply lo_put; [done |]. apply po_pipe; [by apply Hl | done].
  - unfold handleMessage. destruct (_ && _); by destruct Hl.
  - unfold handlerError. destruct (_ && _); by destruct Hl.
  - unfold handlerError. destruct (_ && _); by destruct Hl.
Qed.

Lemma lo_Cancel l : layer_ok l -> layer_ok (Cancel l).
Proof. by intros []. Qed.

Lemma lo_step l l' : step err_text mapper uuid l l' -> layer_ok l -> layer_ok l'.
Proof. intros [| | |] Hl; eauto using lo_Listen, lo_Send, lo_Cancel, lo_goroutine. Qed.

Lemma lo_new ip : layer_ok (NewLayer ip).
Proof. split; intros ? ?; cbn; by rewrite lookup_empty. Qed.

Lemma lo_reaches ip l : reaches err_text mapper uuid (NewLayer ip) l -> layer_ok l.
Proof.
  intros H. assert (layer_ok (NewLayer ip)) as H0 by apply lo_new. induction H; eauto using lo_step.
Qed.

End reaches.

(** C13: Whatever calls, connections and goroutines do, the layer keeps each
    protocol under its lower-case name with pools in order, gives every UDP
    socket a key of the form udp:0.0.0.0:port, and records at most one port per
    network. *)
Theorem transport_layer_invariant err_text mapper uuid ip l :
  reaches err_text mapper uuid (NewLayer ip) l -> layer_ok l.
Proof. apply lo_reaches. Qed.

(** ** Sends *)

(** Parameters whose values the code reads have one. *)
Definition has_value (k : bytes) (ps : headerParams) : Prop := Get ps k <> Some None.

Definition uri_sendable (u : Uri) : Prop :=
  exists su ps, u = SipUriPtr su /\ FUriParams su = Some ps /\ has_value "transport" ps.

Definition hop_sendable (hop : ViaHop) : Prop :=
  forall ps, vh_params hop = Some ps -> has_value "received" ps.

Definition sendable (m : msg) : Prop :=
  (forall hop, ViaHop_ (hdrs (msg_of m)) = Some hop -> hop_sendable hop) /\
  match m with
  | MRequest rq =>
      (exists u, recipient rq = Some u /\ uri_sendable u) /\
      (forall u, route_uri (hdrs (rq_msg rq)) = Some u -> uri_sendable u)
  | MResponse _ => True
  end.

Lemma MaybeString_value ps k v : has_value k ps -> Get ps k = Some v -> exists s, MaybeString_String v = Ok s.
Proof. unfold has_value. destruct v; [by eauto |]. congruence. Qed.

Lemma uri_transport_total u t : uri_sendable u -> exists t', uri_transport u t = Ok t'.
Proof.
  intros (su & ps & -> & Hps & Hv). unfold uri_transport. cbn. rewrite Hps.
  destruct (Get ps "transport") as [v|] eqn:E; [| by eauto].
  destruct (MaybeString_value _ _ _ Hv E) as [s ->]. cbn. by eauto.
Qed.

Lemma request_Transport_total rq : sendable (MRequest rq) -> exists t, request_Transport rq = Ok t.
Proof.
  intros (_ & (u & Hu & Hs) & Hr). unfold request_Transport. destruct (tp (rq_msg rq)); [| by eauto].
  assert (exists u', match route_uri (hdrs (rq_msg rq)) with Some u => Some u | None => recipient rq end = Some u' /\
    uri_sendable u') as (u' & -> & Hu').
  { destruct (route_uri _) eqn:E; eauto. }
  destruct (uri_transport_total u' (via_transport (hdrs (rq_msg rq))) Hu') as [t ->]. cbn. by eauto.
Qed.

Lemma via_target_total hop t : hop_sendable hop -> exists a, via_target hop (Ok t) = Ok a.
Proof.
  intros Hh. unfold via_target. destruct (Port hop); cbn; (destruct (vh_params hop) as [ps|] eqn:E; [| by eauto]);
    (destruct (Get ps "received") as [v|] eqn:Er; [| cbn; by eauto]);
    destruct (MaybeString_value _ _ _ (Hh _ E) Er) as [s ->]; cbn; by eauto.
Qed.

Lemma request_Source_total rq : sendable (MRequest rq) -> exists s, request_Source rq = Ok s.
Proof.
  intros Hs. unfold request_Source. destruct (src _); [| by eauto].
  destruct (ViaHop_ _) as [hop|] eqn:E; [| by eauto].
  destruct (request_Transport_total rq Hs) as [t ->]. by apply via_target_total, Hs.
Qed.

Lemma request_Destination_total rq : sendable (MRequest rq) -> exists s, request_Destination rq = Ok s.
Proof.
  intros Hs. pose proof Hs as (_ & (u & Hu & Hsu) & Hr). unfold request_Destination.
  destruct (dest _); [| by eauto]. destruct (request_Transport_total rq Hs) as [t ->].
  assert (forall su : SipUri, exists s, (port ← match FPort su with Some p => Ok p | None => DefaultPort <$> Ok t end;
    Ok (host_port (FHost su) port)) = Ok s) as Hp by (intros su; destruct (FPort su); cbn; by eauto).
  destruct (route_uri _) as [r|] eqn:E.
  - destruct (Hr _ eq_refl) as (su & ps & -> & _). apply Hp.
  - destruct Hsu as (su & ps & -> & _). rewrite Hu. apply Hp.
Qed.

Lemma response_Destination_total rs : sendable (MResponse rs) -> exists s, response_Destination rs = Ok s.
Proof.
  intros [Hs _]. unfold response_Destination. destruct (dest _); [| by eauto].
  destruct (ViaHop_ _) as [hop|] eqn:E; [| by eauto]. by apply via_target_total, Hs.
Qed.

Lemma msg_shown_total m : sendable m -> msg_shown m = Ok tt.
Proof.
  destruct m as [rq|rs]; intros Hm; cbn [msg_shown]; unfold request_shown, response_shown.
  - destruct (request_Transport_total rq Hm) as [? ->], (request_Source_total rq Hm) as [? ->],
      (request_Destination_total rq Hm) as [? ->]. done.
  - by destruct (response_Destination_total rs Hm) as [? ->].
Qed.

Lemma SplitHostPort_total a : SplitHostPort a <> Panic.
Proof.
  unfold SplitHostPort, split_result. destruct (LastIndexByte a ":") as [i|] eqn:El; [| done].
  destruct a as [| c a]; [done |]. destruct (beq c "["); [| by repeat case_match].
  destruct (IndexByte (c :: a) "]") as [n|] eqn:Ei; [| done].
  destruct (_ =? length _) eqn:En; [done |]. destruct (_ =? i); [by repeat case_match |].
  destruct ((c :: a) !! (n + 1)) eqn:E; [by destruct (beq _ _) |].
  apply lookup_ge_None in E. apply Nat.eqb_neq in En. apply IndexByte_lt in Ei. lia.
Qed.

Lemma Atoi_total s : Atoi s <> Panic.
Proof. unfold Atoi. repeat case_match; simplify_eq; done. Qed.

Lemma NewTargetFromAddr_total a : NewTargetFromAddr a <> Panic.
Proof.
  unfold NewTargetFromAddr. pose proof (SplitHostPort_total a).
  destruct (SplitHostPort a) as [[h port]| |]; try done. cbn. pose proof (Atoi_total port). by destruct (Atoi port).
Qed.

Lemma ViaHop_rewrite f rq :
  ViaHop_ (hdrs (rq_msg (rewrite_via f rq))) = option_map f (ViaHop_ (hdrs (rq_msg rq))).
Proof.
  unfold ViaHop_, Via, GetHeaders. cbn. rewrite lookup_update_first, decide_True by done.
  destruct (lookup_list _ _) as [| [] ?]; try done. by destruct hops.
Qed.

Lemma headers_rewrite f rq name :
  ToLower name <> "via" -> GetHeaders (hdrs (rq_msg (rewrite_via f rq))) name = GetHeaders (hdrs (rq_msg rq)) name.
Proof. intros Hn. unfold GetHeaders. cbn. rewrite lookup_update_first, decide_False; [done |]. by intros E. Qed.

Lemma sendable_rewrite f rq :
  (forall hop, vh_params (f hop) = vh_params hop) -> sendable (MRequest rq) -> sendable (MRequest (rewrite_via f rq)).
Proof.
  intros Hf (Hv & Hu & Hr). split; [| split; [done |]].
  - intros hop. cbn [msg_of]. rewrite ViaHop_rewrite. destruct (ViaHop_ _) as [hop0|] eqn:E; [| done].
    intros [= <-] ps. rewrite Hf. by apply Hv.
  - intros u. unfold route_uri. rewrite headers_rewrite by done. apply Hr.
Qed.

Lemma remove_transport_total rq :
  sendable (MRequest rq) -> exists rq', remove_transport rq = Ok rq' /\ rq_msg rq' = rq_msg rq /\ sendable (MRequest rq').
Proof.
  intros (Hv & (u & Hu & (su & ps & -> & Hps & _)) & Hr). unfold remove_transport. rewrite Hu, Hps.
  eexists. split; [reflexivity |]. split; [done |]. split; [done |]. split; [| done].
  eexists. split; [reflexivity |]. eexists _, _. split; [reflexivity |]. split; [reflexivity |].
  unfold has_value, Get, Remove. cbn. case_match; cbn; by rewrite ?lookup_delete_eq; try congruence.
Qed.

(** The keys of the UDP sockets have a third part. *)
Lemma udp_key_port n : Split (udp_key n) ":" !! 2 = Some (show_N n).
Proof.
  change (udp_key n) with ("udp" ++ ":" ++ "0.0.0.0" ++ ":" ++ show_N n).
  rewrite (Split_byte "udp" _ ":"), (Split_byte "0.0.0.0" _ ":") by done.
  by rewrite Split_byte_end by (apply not_digit_mem, show_N_all_digits; done).
Qed.

Lemma find_port_total port l : Forall udp_keyed l -> exists r, find_port port l = Ok r.
Proof.
  induction 1 as [| c l [n Hc] _ IH]; cbn; [by eauto |]. rewrite Hc, udp_key_port.
  destruct (streq _ _); [by eauto | done].
Qed.

(** The search finds the socket of the port. *)
Lemma find_port_found port l :
  Forall udp_keyed l -> (exists c, c ∈ l /\ ConnPool.cn_key c = udp_key port) ->
  exists c, find_port (show_N port) l = Ok (Some c) /\ ConnPool.cn_key c = udp_key port.
Proof.
  intros Hl. induction Hl as [| c l [n Hc] _ IH]; intros (c' & Hin & Hk); [by apply elem_of_nil in Hin |].
  cbn. rewrite Hc, udp_key_port. destruct (streq (show_N n) (show_N port)) eqn:E.
  - apply streq_eq in E. exists c. split; [done |]. rewrite Hc. unfold udp_key. by rewrite E.
  - apply IH. exists c'. split; [| done]. apply elem_of_cons in Hin as [-> |]; [| done]. exfalso.
    rewrite Hc in Hk. apply streq_neq in E. apply E. unfold udp_key in Hk. by apply app_inv_head in Hk.
Qed.

Lemma All_conns P p : conns P p -> Forall P (ConnPool.All p).
Proof.
  intros Hp. unfold ConnPool.All. apply Forall_forall. intros c Hc.
  apply list_elem_of_omap in Hc as ([k n] & _ & Hn). cbn in Hn.
  destruct (ConnPool.handlers p !! n) as [h|] eqn:E; [| done]. injection Hn as <-. by eapply Hp.
Qed.

Lemma msg_Source_total m : sendable m -> exists s, msg_Source m = Ok s.
Proof. destruct m; cbn [msg_Source]; [apply request_Source_total | by eauto]. Qed.

Lemma protocol_send_total key io t m p :
  protocol_ok key p -> sendable m -> exists r, Protocols.Send io t m p = Ok r.
Proof.
  intros Hp Hm. unfold Protocols.Send. destruct (pr_kind p) eqn:Hk; eauto. unfold udp_Send.
  destruct (streq _ _); [by eauto |]. destruct (n_resolve _ _); [by eauto |].
  destruct (msg_Source_total m Hm) as [s ->]. cbn [mbind res_bind].
  pose proof (SplitHostPort_total s). destruct (SplitHostPort s) as [[h port]| |]; [| by eauto | done].
  destruct (find_port_total port (ConnPool.All (connections p))) as [r ->]; [by apply All_conns, Hp |].
  cbn [mbind res_bind]. destruct r; [| by eauto]. destruct (n_write _ _); by eauto.
Qed.

Lemma send_through_total io network t m p l :
  protocol_ok (ToLower network) p -> sendable m -> exists r, send_through io network t m p l = Ok r.
Proof.
  intros Hp Hm. unfold send_through. rewrite (msg_shown_total m Hm). cbn [mbind res_bind].
  destruct (protocol_send_total _ io t m p Hp Hm) as [[p' e] ->]. by eauto.
Qed.

Lemma sent_by_port_total pick network l : layer_ok l -> exists port, sent_by_port pick network l = Ok port.
Proof.
  intros Hl. unfold sent_by_port. destruct (listenPorts l !! network) as [ports|] eqn:E; [| by eauto].
  destruct (lo_ports _ Hl _ _ E) as (k & port & _ & ->). exists port. cbn [length]. by rewrite Nat.mod_1_r.
Qed.

Lemma lookup_target_total d network t :
  (forall n h r, d_srv d n h = Some r -> r.1 <> []) -> exists t', lookup_target d network t = Ok t'.
Proof.
  intros Hd. unfold lookup_target. destruct (ParseIP _); [by eauto |].
  destruct (d_srv _ _ _) as [[target port]|] eqn:E; [| by eauto]. apply Hd in E. cbn in E.
  destruct target; [done |]. repeat case_match; by eauto.
Qed.

(** C14: A send returns, without a panic, in every reachable state of the layer and
    whatever the network answers, for a message such that: the top Via has no received
    parameter without a value; the recipient of a request, and its first Route if
    there is one, are SIP URIs with a set of parameters (not nil) in which transport
    has a value if it is there; and the SRV records looked up have a non-empty
    target. *)
Theorem layer_send_total err_text mapper uuid ip l io d pick m :
  reaches err_text mapper uuid (NewLayer ip) l -> sendable m ->
  (forall n h r, d_srv d n h = Some r -> r.1 <> []) ->
  exists r, Send io d pick m l = Ok r.
Proof.
  intros Hl%lo_reaches Hm Hd. unfold Send. destruct (tpl_canceled l); [by eauto |].
  destruct (ViaHop_ _) as [hop|]; [| by eauto]. destruct m as [rq|rs]; [unfold send_request | unfold send_response].
  - destruct (request_Transport_total rq Hm) as [network ->]. cbn [mbind res_bind].
    destruct (getProtocol network l) as [l1 [x|p]] eqn:Eg; apply lo_getProtocol in Eg as [H1 Hp]; try done; [by eauto |].
    specialize (Hp p eq_refl). set (rq1 := rewrite_via _ rq).
    assert (sendable (MRequest rq1)) as Hs1 by (by apply sendable_rewrite).
    assert (exists rq2, match Port hop with Some _ => Ok rq1
      | None => port ← sent_by_port pick network l1; Ok (rewrite_via (set_hop_port port) rq1) end = Ok rq2 /\
      sendable (MRequest rq2)) as (rq2 & -> & Hs2).
    { destruct (Port hop); [by eauto |]. destruct (sent_by_port_total pick network l1 H1) as [port ->].
      cbn. eexists. split; [done |]. by apply sendable_rewrite. }
    cbn [mbind res_bind]. destruct (request_Destination_total rq2 Hs2) as [dest ->]. cbn [mbind res_bind].
    pose proof (NewTargetFromAddr_total dest). destruct (NewTargetFromAddr dest) as [t| |]; [| by eauto | done].
    destruct (lookup_target_total d network t Hd) as [t' ->]. cbn [mbind res_bind].
    destruct (remove_transport_total rq2 Hs2) as (rq3 & -> & _ & Hs3). cbn [mbind res_bind].
    by apply send_through_total.
  - destruct (getProtocol _ l) as [l1 [x|p]] eqn:Eg; apply lo_getProtocol in Eg as [H1 Hp]; try done; [by eauto |].
    destruct (response_Destination_total rs Hm) as [dest ->]. cbn [mbind res_bind].
    pose proof (NewTargetFromAddr_total dest). destruct (NewTargetFromAddr dest) as [t| |]; [| by eauto | done].
    by apply send_through_total; [apply Hp |].
Qed.

(** *** What a request looks like on the wire *)

Lemma protocol_send_writes io t m p p' :
  Protocols.Send io t m p = Ok (p', None) ->
  exists key raddr, written p' = written p ++ [(key, raddr, msg_String m)].
Proof.
  unfold Protocols.Send.
  assert (udp_Send io t m p = Ok (p', None) -> exists key raddr, written p' = written p ++ [(key, raddr, msg_String m)]) as Hu.
  { unfold udp_Send. destruct (streq _ _); [done |]. destruct (n_resolve _ _) as [|a]; [done |].
    destruct (msg_Source m) as [s| |]; [| done | done]. cbn [mbind res_bind].
    destruct (SplitHostPort s) as [[h port]| |]; [| done | done].
    destruct (find_port _ _) as [[c|]| |]; [| done | done | done]. cbn [mbind res_bind].
    destruct (n_write _ _); [done |]. intros [= <-]. by eexists _, _. }
  destruct (pr_kind p) eqn:Hk; [exact Hu | | | |]; clear Hu;
    unfold ws_Send, stream_Send, getOrCreateConnection; intros [= H];
    repeat first [case_match | progress simplify_eq]; try done; by eexists _, _.
Qed.

Lemma getProtocol_frame network l l' r :
  getProtocol network l = (l', r) -> listenPorts l' = listenPorts l /\ tpl_ip l' = tpl_ip l.
Proof.
  unfold getProtocol, getOrPutNew. destruct (get _ _); [by intros [= <- _] |].
  destruct (protocolFactory _); by intros [= <- _].
Qed.

(** The sent-by of the top Via after a send: its port is the one the request
    names, one that the layer listens on, or the default. *)
Definition sent_by (network : bytes) (l : layer) (hop hop' : ViaHop) : Prop :=
  ProtocolName hop' = ProtocolName hop /\ ProtocolVersion hop' = ProtocolVersion hop /\
  Transport hop' = ToUpper network /\ Host hop' = tpl_ip l /\ vh_params hop' = vh_params hop /\
  exists port, Port hop' = Some port /\
    match Port hop, listenPorts l !! network with
    | Some p, _ => port = p
    | None, Some ports => port ∈ ports
    | None, None => port = DefaultPort network
    end.

Definition same_but_via (rq rq' : request) : Prop :=
  method rq' = method rq /\ body (rq_msg rq') = body (rq_msg rq) /\
  sipVersion (rq_msg rq') = sipVersion (rq_msg rq) /\ headerOrder (hdrs (rq_msg rq')) = headerOrder (hdrs (rq_msg rq)) /\
  forall name, ToLower name <> "via" -> GetHeaders (hdrs (rq_msg rq')) name = GetHeaders (hdrs (rq_msg rq)) name.

Lemma same_rewrite f rq rq' : same_but_via rq rq' -> same_but_via rq (rewrite_via f rq').
Proof.
  intros (H1 & H2 & H3 & H4 & H5). split_and!; try done.
  - cbn. rewrite <- H4. unfold update_first. by repeat case_match.
  - intros name Hn. rewrite headers_rewrite by done. auto.
Qed.

Lemma send_port pick network l l' hop rq rq' :
  ViaHop_ (hdrs (rq_msg rq)) = Some hop -> listenPorts l' = listenPorts l ->
  match Port hop with
  | Some _ => Ok (rewrite_via (set_sent_by (ToUpper network) (tpl_ip l)) rq)
  | None => port ← sent_by_port pick network l';
            Ok (rewrite_via (set_hop_port port) (rewrite_via (set_sent_by (ToUpper network) (tpl_ip l)) rq))
  end = Ok rq' ->
  same_but_via rq rq' /\ recipient rq' = recipient rq /\
  exists hop', ViaHop_ (hdrs (rq_msg rq')) = Some hop' /\ sent_by network l hop hop'.
Proof.
  intros Hh Hl. unfold sent_by, sent_by_port. rewrite Hl. destruct (Port hop) as [p|] eqn:Ep.
  - intros [= <-]. split; [by apply same_rewrite |]. split; [done |]. rewrite ViaHop_rewrite, Hh.
    eexists. split; [done |]. cbn. rewrite Ep. split_and!; try done. by eexists.
  - destruct (match listenPorts l !! network with Some _ => _ | None => _ end) as [port| |] eqn:E; [| done | done].
    cbn [mbind res_bind]. intros [= <-]. split; [by do 2 apply same_rewrite |]. split; [done |].
    rewrite !ViaHop_rewrite, Hh. eexists. split; [done |]. cbn. split_and!; try done. exists port. split; [done |].
    destruct (listenPorts l !! network) as [ports|]; [| congruence].
    destruct (ports !! _) eqn:Eq; simplify_eq. by eapply list_elem_of_lookup_2.
Qed.

(** C15: A request sent over the layer leaves it with the sent-by of its top Via
    rewritten as RFC 3261 18.1.1 says (transport, host, a port), its other Via
    fields and all other headers as they were, no transport parameter in its
    URI; and its text is what the protocol wrote. *)
Theorem send_rewrites_via io d pick rq l l' m' :
  Send io d pick (MRequest rq) l = Ok (l', m', None) ->
  exists network hop rq' hop',
    request_Transport rq = Ok network /\ ViaHop_ (hdrs (rq_msg rq)) = Some hop /\ m' = MRequest rq' /\
    ViaHop_ (hdrs (rq_msg rq')) = Some hop' /\ sent_by network l hop hop' /\ same_but_via rq rq' /\
    (exists u ps, recipient rq' = Some (SipUriPtr u) /\ FUriParams u = Some ps /\ Get ps "transport" = None) /\
    exists p key raddr, get (ToLower network) l' = Some p /\ last (written p) = Some (key, raddr, msg_String m').
Proof.
  unfold Send. destruct (tpl_canceled l); [done |]. cbn [msg_of].
  destruct (ViaHop_ _) as [hop|] eqn:Eh; [| done]. unfold send_request.
  destruct (request_Transport rq) as [network| |]; [| done | done]. cbn [mbind res_bind].
  destruct (getProtocol network l) as [l1 [x|p]] eqn:Eg; [done |]. apply getProtocol_frame in Eg as [Eports Eip].
  destruct (match Port hop with Some _ => _ | None => _ end) as [rq2| |] eqn:E2; [| done | done]. cbn [mbind res_bind].
  apply (send_port _ _ l) in E2 as (Hsame & _ & hop' & Eh' & Hsent); [| done | done].
  destruct (request_Destination rq2) as [dest| |]; [| done | done]. cbn [mbind res_bind].
  destruct (NewTargetFromAddr dest) as [t| |]; [| done | done].
  destruct (lookup_target d network t) as [t'| |]; [| done | done]. cbn [mbind res_bind].
  unfold remove_transport. destruct (recipient rq2) as [[u| |]|] eqn:Eu; try done.
  destruct (FUriParams u) as [ps|] eqn:Eps; [| done]. cbn [mbind res_bind].
  set (rq3 := mkRequest _ _ _). unfold send_through. intros ([] & _ & H)%bind_Ok. revert H.
  destruct (Protocols.Send _ _ _ p) as [[p' err]| |] eqn:Es; try done. destruct err; [done |]. intros [= <- <-].
  apply protocol_send_writes in Es as (key & raddr & Hw).
  exists network, hop, rq3, hop'. split_and!; try done.
  - eexists _, _. split; [reflexivity |]. split; [reflexivity |]. unfold Get, Remove. cbn.
    case_match; cbn; by rewrite ?lookup_delete_eq.
  - exists p', key, raddr. unfold get, put. cbn. rewrite lookup_insert_eq, Hw. split; [done |]. by rewrite last_snoc.
Qed.

(** *** Connections are reused *)

(** After a message went out over a stream protocol, the next one to the
    same address is written to the same connection: nothing is dialed, whatever
    a dial would give, and the pools stay as they are. *)
Theorem stream_connection_reused key io io' t m m' p p' raddr :
  protocol_ok key p -> pr_streamed p = true ->
  n_resolve io (Addr (FillTargetHostAndPort (Network p) t)) = inr raddr ->
  Protocols.Send io t m p = Ok (p', None) ->
  n_resolve io' (Addr (FillTargetHostAndPort (Network p) t)) = inr raddr ->
  (forall k, n_write io' k = None) ->
  exists conn, last (written p') = Some (conn, a_text raddr, msg_String m) /\
    Protocols.Send io' t m' p' = Ok (write conn (a_text raddr) (msg_String m') p', None).
Proof.
  intros Hp Hs Hr Hsend Hr' Hw.
  assert (pr_kind p <> UDP) as Hk by (rewrite (po_streamed _ _ Hp) in Hs; by apply bool_decide_eq_true in Hs).
  assert (forall q io0 n, pr_kind q = pr_kind p -> Protocols.Send io0 t n q = Ok (stream_Send io0 t n q)) as Hst.
  { intros q io0 n Hq. unfold Protocols.Send. rewrite Hq. by destruct (pr_kind p). }
  rewrite Hst in Hsend by done. injection Hsend as Hsend. unfold stream_Send in Hsend. rewrite Hr in Hsend.
  destruct (streq _ "") eqn:Eh; [done |].
  destruct (getOrCreateConnection io raddr p) as [p1 [e|c]] eqn:Eg; [done |].
  destruct (n_write io _); [done |]. injection Hsend as <-.
  assert (pr_kind p1 = pr_kind p /\ pr_network p1 = pr_network p /\
    ConnPool.Get (pr_network p ++ ":" ++ a_text raddr) (connections p1) = inr c) as (Ek & En & Ec).
  { revert Eg. unfold getOrCreateConnection.
    destruct (ConnPool.Get _ _) as [|c0] eqn:E0; [| by intros [= <- <-]].
    assert (forall laddr, match ConnPool.Put (ConnPool.NewConnection false (pr_network p ++ ":" ++ a_text raddr)
        (pr_network p) laddr (a_text raddr)) sockTTL (n_now io) (connections p) with
      | inl e => (p, inl (Wrap "put %s connection to the pool" e))
      | inr q => (set_connections q p, inr (ConnPool.NewConnection false (pr_network p ++ ":" ++ a_text raddr)
          (pr_network p) laddr (a_text raddr))) end = (p1, inr c) ->
      pr_kind p1 = pr_kind p /\ pr_network p1 = pr_network p /\
      ConnPool.Get (pr_network p ++ ":" ++ a_text raddr) (connections p1) = inr c) as Hput.
    { intros laddr. destruct (ConnPool.Put _ _ _ _) as [|q] eqn:Eq; [done |]. intros [= <- <-].
      split_and!; try done. cbn. by eapply ConnPoolTheorems.Get_after_Put in Eq. }
    destruct (n_dial io raddr); [apply Hput | apply Hput | done]. }
  exists (ConnPool.cn_key c). cbn. rewrite last_snoc. split; [done |].
  rewrite Hst by done. unfold stream_Send, getOrCreateConnection.
  assert (Network (write (ConnPool.cn_key c) (a_text raddr) (msg_String m) p1) = Network p) as -> by (unfold Network; by rewrite <- En).
  rewrite Eh, Hr'. cbn [write pr_network connections]. rewrite En, Ec, Hw. done.
Qed.

(** ** Transactions over the layer *)

Lemma upper_not_key network k : ToUpper network <> kind_network k.
Proof.
  intros E. assert (ToUpper (kind_network k) = kind_network k) as H by (by rewrite <- E, ToUpper_idem).
  by destruct k.
Qed.

(** The layer knows a protocol by its lower-case name only, but a request
    that has a transport names it in upper case: every transaction of such a
    request is unreliable, over TCP, TLS and WebSocket too, and a client
    transaction starts the retransmission timer A. *)
Theorem transactions_never_reliable err_text mapper uuid ip l rq :
  reaches err_text mapper uuid (NewLayer ip) l -> tp (rq_msg rq) <> [] ->
  (forall k p, k <> UDP -> get (kind_network k) l = Some p ->
   IsReliable l (kind_network k) = true /\ IsReliable l (ToUpper (kind_network k)) = false) /\
  (forall rnd key t spin e, ClientTx.NewClientTx (IsReliable l) rnd rq = Ok (key, t) ->
   (ClientTx.Init spin e t).2 = None ->
   ClientTx.timer_a (ClientTx.Init spin e t).1 = Fsm.AfterFunc TxKeys.Timer_A) /\
  (forall key t, ServerTx.NewServerTx (IsReliable l) rq = Ok (key, t) ->
   ServerTx.timer_g_time (ServerTx.Init t) = TxKeys.Timer_G).
Proof.
  intros Hl%lo_reaches Htp.
  assert (forall n, IsReliable l (ToUpper n) = false) as Hf.
  { intros n. unfold IsReliable, get. destruct (protocols l !! ToUpper n) as [p|] eqn:E; [| done].
    apply Hl in E as [Hk _ _ _ _ _ _]. by apply upper_not_key in Hk. }
  assert (forall r, tp (rq_msg r) = tp (rq_msg rq) -> request_Transport r = Ok (ToUpper (tp (rq_msg rq)))) as Hr.
  { intros r Er. unfold request_Transport. rewrite Er. by destruct (tp (rq_msg rq)). }
  split_and!.
  - intros k p Hk Hg. split; [| apply Hf]. unfold IsReliable. rewrite Hg. apply Hl in Hg as [Hkey _ Hrel _ _ _ _].
    rewrite Hrel. apply bool_decide_true. intros Ek. rewrite Ek in Hkey. by destruct k.
  - intros rnd key t spin e (_ & _ & tr & Ht & ->)%ClientTx.NewClientTx_Ok.
    rewrite Hr in Ht by (cbn; by destruct (ViaHop_ _)). injection Ht as <-. rewrite Hf.
    unfold ClientTx.Init. cbn. by destruct (Fsm.e_send e 0 _).
  - intros key t (_ & _ & tr & Ht & ->)%ServerTx.NewServerTx_Ok.
    rewrite Hr in Ht by done. injection Ht as <-. rewrite Hf.
    unfold ServerTx.Init. cbn. by destruct (IsInvite rq).
Qed.

(** ** Examples *)

(** A network that grants everything, with [port] for the port of an address;
    no SRV records. *)
Definition granting (port : N) : net :=
  mkNet (fun a => inr (mkAddr port a)) (fun a => inr (a_text a)) (fun _ => DialOk "10.0.0.1:40000")
    (fun _ => None) 824633802752 0.
Definition no_srv : dns := mkDns (fun _ _ => None) (fun _ _ => None).

Definition after_listen (network addr : bytes) (port : N) : layer :=
  match Listen (granting port) network addr (NewLayer "10.0.0.1") with
  | Ok (l, _) => l
  | _ => NewLayer "10.0.0.1"
  end.

Lemma after_listen_reached err_text mapper uuid network addr port :
  reaches err_text mapper uuid (NewLayer "10.0.0.1") (after_listen network addr port).
Proof.
  unfold after_listen. destruct (Listen _ _ _ _) as [[l e]| |] eqn:E; [| apply rtc_refl | apply rtc_refl].
  by eapply rtc_once, step_listen.
Qed.

Definition to_bob : request := rq_map (fun m => SetTransport m "tcp") sample_register.

Lemma sample_sendable transport meth : sendable (MRequest (sample_request transport meth)).
Proof.
  split; [| split].
  - intros hop. vm_compute. intros [= <-] ps [= <-]. discriminate.
  - eexists. split; [reflexivity |]. eexists _, _. split; [reflexivity |]. split; [reflexivity |]. discriminate.
  - discriminate.
Qed.

Lemma transport_layer_invariant_witness :
  layer_ok (after_listen "UDP" "0.0.0.0:5066" 5066) /\
  listenPorts (after_listen "UDP" "0.0.0.0:5066" 5066) !! ("UDP" : bytes) = Some [5066%N].
Proof.
  split; [| vm_compute; reflexivity].
  apply (transport_layer_invariant (fun _ => []) id (fun _ => []) "10.0.0.1"). apply after_listen_reached.
Defined.

Lemma layer_send_total_witness :
  exists r, Send (granting 5066) no_srv 3 (MRequest sample_register) (after_listen "UDP" "0.0.0.0:5066" 5066) = Ok r.
Proof.
  apply (layer_send_total (fun _ => []) id (fun _ => []) "10.0.0.1").
  - apply after_listen_reached.
  - apply sample_sendable.
  - discriminate.
Defined.

Lemma send_rewrites_via_witness :
  exists l' rq' hop',
    Send (granting 5066) no_srv 0 (MRequest sample_register) (after_listen "UDP" "0.0.0.0:5066" 5066)
      = Ok (l', MRequest rq', None) /\
    ViaHop_ (hdrs (rq_msg rq')) = Some hop' /\ Host hop' = "10.0.0.1" /\ same_but_via sample_register rq' /\
    exists p key raddr, get "udp" l' = Some p /\
      last (written p) = Some (key, raddr, msg_String (MRequest rq')).
Proof.
  destruct (Send (granting 5066) no_srv 0 (MRequest sample_register) (after_listen "UDP" "0.0.0.0:5066" 5066))
    as [[[l' m'] err]| |] eqn:E.
  2, 3: exfalso; apply (f_equal (fun r => match r with Ok _ => true | _ => false end)) in E;
    vm_compute in E; discriminate.
  assert (isSome err = false) as He.
  { change (match Ok (l', m', err) with Ok (_, _, err) => isSome err | _ => true end = false). rewrite <- E.
    vm_compute. reflexivity. }
  destruct err; [discriminate |].
  destruct (send_rewrites_via _ _ _ _ _ _ _ E) as (network & hop & rq' & hop' & Hn & _ & -> & Hv & Hs & Hsame & _ & Hw).
  assert (request_Transport sample_register = Ok "UDP") as Hu by (vm_compute; reflexivity).
  rewrite Hu in Hn. injection Hn as <-.
  exists l', rq', hop'. split; [reflexivity |]. split; [exact Hv |]. split; [| split; [exact Hsame | exact Hw]].
  destruct Hs as (_ & _ & _ & Hh & _). rewrite Hh. vm_compute. reflexivity.
Defined.

Definition tcp_after (io : net) : protocol :=
  (stream_Send io (mkTarget "10.0.0.9" (Some 5060%N)) (MRequest to_bob) NewTcpProtocol).1.

(** A network on which every dial fails. *)
Definition no_dial : net :=
  mkNet (fun a => inr (mkAddr 5060 a)) (fun a => inr (a_text a)) (fun _ => DialErr (Plain "refused"))
    (fun _ => None) 0 0.

Lemma stream_connection_reused_witness :
  exists conn, last (written (tcp_after (granting 5060))) = Some (conn, "10.0.0.9:5060" : bytes, msg_String (MRequest to_bob)) /\
    Protocols.Send no_dial (mkTarget "10.0.0.9" (Some 5060%N)) (MRequest to_bob) (tcp_after (granting 5060)) =
      Ok (write conn "10.0.0.9:5060" (msg_String (MRequest to_bob)) (tcp_after (granting 5060)), None).
Proof.
  apply (stream_connection_reused "tcp" (granting 5060) no_dial (mkTarget "10.0.0.9" (Some 5060%N))
    (MRequest to_bob) (MRequest to_bob) NewTcpProtocol _ (mkAddr 5060 "10.0.0.9:5060")).
  - apply (po_new TCP). reflexivity.
  - reflexivity.
  - vm_compute. reflexivity.
  - unfold Protocols.Send, tcp_after. cbn [pr_kind NewTcpProtocol new_stream_protocol].
    destruct (stream_Send _ _ _ _) as [p' err] eqn:E. cbn [fst]. do 2 f_equal.
    assert (isSome err = false) as He by (change (isSome (p', err).2 = false); rewrite <- E; vm_compute; reflexivity).
    by destruct err.
  - vm_compute. reflexivity.
  - reflexivity.
Defined.

(** A client transaction over TCP retransmits. *)
Lemma transactions_never_reliable_witness :
  let l := after_listen "TCP" "0.0.0.0:5060" 5060 in
  IsReliable l "tcp" = true /\ IsReliable l "TCP" = false /\
  exists key t, ClientTx.NewClientTx (IsReliable l) "rnd" to_bob = Ok (key, t) /\
    ClientTx.timer_a (ClientTx.Init Fsm.run_spin good_env t).1 = Fsm.AfterFunc TxKeys.Timer_A.
Proof.
  intros l. assert (tp (rq_msg to_bob) <> []) as Htp by discriminate.
  pose proof (transactions_never_reliable (fun _ => []) id (fun _ => []) "10.0.0.1" l to_bob
    (after_listen_reached _ _ _ _ _ _) Htp) as (H1 & H2 & _).
  destruct (get "tcp" l) as [p|] eqn:E.
  2: exfalso; apply (f_equal isSome) in E; vm_compute in E; discriminate.
  destruct (H1 TCP p) as [Ht Hf]; [discriminate | exact E |]. split; [exact Ht |]. split; [exact Hf |].
  destruct (ClientTx.NewClientTx (IsReliable l) "rnd" to_bob) as [[key t]| |] eqn:En.
  2, 3: exfalso; apply (f_equal (fun r => match r with Ok _ => true | _ => false end)) in En;
    vm_compute in En; discriminate.
  exists key, t. split; [reflexivity |]. apply (H2 "rnd" key t); [exact En |].
  apply (f_equal (fun r => match r with Ok kt => isSome (ClientTx.Init Fsm.run_spin good_env kt.2).2 | _ => true end)) in En.
  cbn [snd] in En. destruct (ClientTx.Init _ _ _).2; [| reflexivity]. vm_compute in En. discriminate.
Defined.

End TransportReach.
