(* ===== verification/Builder.v ===== *)
(** * The request builder: src/sip/builder.go

    The builder as a record with one operation per method, [Build] with its
    errors, and the sharing of the CSeq object between a builder and the
    requests it built.  The order in which [Build] ranges over the map of
    generic headers is an argument. *)

From S2P Require Import Prelude GoStrings Escape Params Headers HeaderStore Message TxKeys Fsm ClientTx.
From stdpp Require Import options.
Import Params Headers HeaderStore Message TxKeys.

Module Builder.

Record RequestBuilder : Type := mkBuilder {
  b_protocol : bytes;
  b_protocolVersion : bytes;
  b_transport : bytes;
  b_host : bytes;
  b_method : RequestMethod;
  b_cseq : N * RequestMethod;
  b_recipient : option Uri;
  b_body : bytes;
  b_callID : bytes;
  b_via : list ViaHop;
  b_from : option NameAddr;
  b_to : option NameAddr;
  b_contact : option ContactHeader;
  b_expires : option N;
  b_userAgent : option bytes;
  b_maxForwards : option N;
  b_supported : option (list bytes);
  b_require : option (list bytes);
  b_allow : option (list RequestMethod);
  b_contentType : option bytes;
  b_accept : option bytes;
  b_route : option (list Uri);
  b_generic : gmap (list ascii) Header
}.

(** [rnd] is what [util.RandString(32)] returns. *)
Definition NewRequestBuilder (rnd : bytes) : RequestBuilder :=
  mkBuilder "SIP" "2.0" "UDP" "localhost" [] (1%N, []) None [] rnd [] None None None None
    (Some "GoSIP") (Some 70%N) None None None None None None ∅.

(** ** The setters *)

(** One assignment each. *)
Definition put_transport (x : bytes) (b : RequestBuilder) : RequestBuilder :=
  let '(mkBuilder pr pv _ ho me cs re bo ca vi fr tO co ex ua mf su rq al ct ac ro ge) := b in
  mkBuilder pr pv x ho me cs re bo ca vi fr tO co ex ua mf su rq al ct ac ro ge.
Definition put_host (x : bytes) (b : RequestBuilder) : RequestBuilder :=
  let '(mkBuilder pr pv tr _ me cs re bo ca vi fr tO co ex ua mf su rq al ct ac ro ge) := b in
  mkBuilder pr pv tr x me cs re bo ca vi fr tO co ex ua mf su rq al ct ac ro ge.
Definition put_method (m : RequestMethod) (c : N * RequestMethod) (b : RequestBuilder) : RequestBuilder :=
  let '(mkBuilder pr pv tr ho _ _ re bo ca vi fr tO co ex ua mf su rq al ct ac ro ge) := b in
  mkBuilder pr pv tr ho m c re bo ca vi fr tO co ex ua mf su rq al ct ac ro ge.
Definition put_target (r : option Uri) (bo ca : bytes) (b : RequestBuilder) : RequestBuilder :=
  let '(mkBuilder pr pv tr ho me cs _ _ _ vi fr tO co ex ua mf su rq al ct ac ro ge) := b in
  mkBuilder pr pv tr ho me cs r bo ca vi fr tO co ex ua mf su rq al ct ac ro ge.
Definition put_via (x : list ViaHop) (b : RequestBuilder) : RequestBuilder :=
  let '(mkBuilder pr pv tr ho me cs re bo ca _ fr tO co ex ua mf su rq al ct ac ro ge) := b in
  mkBuilder pr pv tr ho me cs re bo ca x fr tO co ex ua mf su rq al ct ac ro ge.
Definition put_parties (f t : option NameAddr) (c : option ContactHeader) (b : RequestBuilder) : RequestBuilder :=
  let '(mkBuilder pr pv tr ho me cs re bo ca vi _ _ _ ex ua mf su rq al ct ac ro ge) := b in
  mkBuilder pr pv tr ho me cs re bo ca vi f t c ex ua mf su rq al ct ac ro ge.
Definition put_numbers (e : option N) (u : option bytes) (mf : option N) (b : RequestBuilder) : RequestBuilder :=
  let '(mkBuilder pr pv tr ho me cs re bo ca vi fr tO co _ _ _ su rq al ct ac ro ge) := b in
  mkBuilder pr pv tr ho me cs re bo ca vi fr tO co e u mf su rq al ct ac ro ge.
Definition put_options (s r : option (list bytes)) (a : option (list RequestMethod)) (b : RequestBuilder)
    : RequestBuilder :=
  let '(mkBuilder pr pv tr ho me cs re bo ca vi fr tO co ex ua mf _ _ _ ct ac ro ge) := b in
  mkBuilder pr pv tr ho me cs re bo ca vi fr tO co ex ua mf s r a ct ac ro ge.
Definition put_content (c a : option bytes) (r : option (list Uri)) (g : gmap (list ascii) Header)
    (b : RequestBuilder) : RequestBuilder :=
  let '(mkBuilder pr pv tr ho me cs re bo ca vi fr tO co ex ua mf su rq al _ _ _ _) := b in
  mkBuilder pr pv tr ho me cs re bo ca vi fr tO co ex ua mf su rq al c a r g.

Definition SetTransport (t : bytes) (b : RequestBuilder) : RequestBuilder :=
  put_transport (match t with [] => "UDP" | _ => t end) b.

Definition SetHost (h : bytes) (b : RequestBuilder) : RequestBuilder :=
  put_host (match h with [] => "localhost" | _ => h end) b.

Definition SetMethod (m : RequestMethod) (b : RequestBuilder) : RequestBuilder :=
  put_method m ((b_cseq b).1, m) b.

(** [uint32(seqNo)] *)
Definition SetSeqNo (n : N) (b : RequestBuilder) : RequestBuilder :=
  put_method (b_method b) ((n mod 2 ^ 32)%N, (b_cseq b).2) b.

Definition SetRecipient (u : Uri) (b : RequestBuilder) : RequestBuilder :=
  put_target (Some (Uri_Clone u)) (b_body b) (b_callID b) b.

Definition SetBody (s : bytes) (b : RequestBuilder) : RequestBuilder :=
  put_target (b_recipient b) s (b_callID b) b.

Definition SetCallID (c : option bytes) (b : RequestBuilder) : RequestBuilder :=
  match c with
  | Some c => put_target (b_recipient b) (b_body b) c b
  | None => b
  end.

Definition default (d s : bytes) : bytes := match s with [] => d | _ => s end.

(** The empty fields of the hop are filled in. *)
Definition AddVia (hop : ViaHop) (b : RequestBuilder) : RequestBuilder :=
  put_via (b_via b ++ [mkViaHop (default (b_protocol b) (ProtocolName hop))
    (default (b_protocolVersion b) (ProtocolVersion hop)) (default (b_transport b) (Transport hop))
    (default (b_host b) (Host hop)) (Port hop)
    (Some (match vh_params hop with Some ps => ps | None => NewParams end))]) b.

(** [SetHost] of a wildcard does nothing. *)
Definition uri_set_host (h : bytes) (u : Uri) : Uri :=
  match u with
  | SipUriPtr u => SipUriPtr (mkSipUri (FIsEncrypted u) (FUser u) (FPassword u) h (FPort u) (FUriParams u) (FHeaders u))
  | u => u
  end.

(** The clone of an address with a host; a nil [Uri] panics. *)
Definition local_address (a : NameAddr) (b : RequestBuilder) : res (NameAddr * Uri) :=
  let a := Address_Clone a in
  match na_addr a with
  | None => Panic
  | Some u =>
      let u := if streq (Uri_Host u) "" then uri_set_host (b_host b) u else u in
      Ok (mkNameAddr (na_name a) (Some u) (na_params a), u)
  end.

Definition SetFrom (a : option NameAddr) (b : RequestBuilder) : res RequestBuilder :=
  match a with
  | None => Ok (put_parties None (b_to b) (b_contact b) b)
  | Some a => '(f, _) ← local_address a b; Ok (put_parties (Some f) (b_to b) (b_contact b) b)
  end.

Definition SetTo (a : option NameAddr) (b : RequestBuilder) : res RequestBuilder :=
  match a with
  | None => Ok (put_parties (b_from b) None (b_contact b) b)
  | Some a => '(t, _) ← local_address a b; Ok (put_parties (b_from b) (Some t) (b_contact b) b)
  end.

Definition SetContact (a : option NameAddr) (b : RequestBuilder) : res RequestBuilder :=
  match a with
  | None => Ok (put_parties (b_from b) (b_to b) None b)
  | Some a =>
      '(c, u) ← local_address a b;
      Ok (put_parties (b_from b) (b_to b) (Some (mkContact (na_name c) u (na_params c))) b)
  end.

Definition SetExpires (e : option N) (b : RequestBuilder) : RequestBuilder :=
  put_numbers e (b_userAgent b) (b_maxForwards b) b.
Definition SetUserAgent (u : option bytes) (b : RequestBuilder) : RequestBuilder :=
  put_numbers (b_expires b) u (b_maxForwards b) b.
Definition SetMaxForwards (m : option N) (b : RequestBuilder) : RequestBuilder :=
  put_numbers (b_expires b) (b_userAgent b) m b.
Definition SetAllow (a : option (list RequestMethod)) (b : RequestBuilder) : RequestBuilder :=
  put_options (b_supported b) (b_require b) a b.
Definition SetSupported (l : list bytes) (b : RequestBuilder) : RequestBuilder :=
  put_options (match l with [] => None | _ => Some l end) (b_require b) (b_allow b) b.
Definition SetRequire (l : list bytes) (b : RequestBuilder) : RequestBuilder :=
  put_options (b_supported b) (match l with [] => None | _ => Some l end) (b_allow b) b.
Definition SetContentType (c : option bytes) (b : RequestBuilder) : RequestBuilder :=
  put_content c (b_accept b) (b_route b) (b_generic b) b.
Definition SetAccept (a : option bytes) (b : RequestBuilder) : RequestBuilder :=
  put_content (b_contentType b) a (b_route b) (b_generic b) b.
Definition SetRoutes (l : list Uri) (b : RequestBuilder) : RequestBuilder :=
  put_content (b_contentType b) (b_accept b) (match l with [] => None | _ => Some l end) (b_generic b) b.
Definition AddHeader (h : Header) (b : RequestBuilder) : RequestBuilder :=
  put_content (b_contentType b) (b_accept b) (b_route b) (<[Header_Name h := h]> (b_generic b)) b.
Definition RemoveHeader (n : bytes) (b : RequestBuilder) : RequestBuilder :=
  put_content (b_contentType b) (b_accept b) (b_route b) (delete n (b_generic b)) b.

(** ** Build *)

Definition opt_header {A} (f : A -> Header) (o : option A) : list Header :=
  match o with Some x => [f x] | None => [] end.

(** The headers in the order of the appends; [order] lists the keys of the map
    of generic headers in the order of the range. *)
Definition built_headers (order : list bytes) (from to : NameAddr) (b : RequestBuilder) : list Header :=
  opt_header HRoute (b_route b) ++
  match b_via b with [] => [] | hops => [HVia hops] end ++
  [HCSeq (b_cseq b).1 (b_cseq b).2; HFrom from; HTo to; HCallID (b_callID b)] ++
  opt_header HContact (b_contact b) ++
  opt_header HMaxForwards (b_maxForwards b) ++
  opt_header HExpires (b_expires b) ++
  opt_header HSupported (b_supported b) ++
  opt_header HAllow (b_allow b) ++
  opt_header HContentType (b_contentType b) ++
  opt_header HAccept (b_accept b) ++
  opt_header HUserAgent (b_userAgent b) ++
  omap (fun k => b_generic b !! k) order.

Definition Build (uuid : bytes) (order : list bytes) (b : RequestBuilder) : res request :=
  if streq (b_method b) "" then Err (Errorf "undefined method name")
  else
    match b_recipient b, b_from b, b_to b with
    | None, _, _ => Err (Errorf "empty recipient")
    | Some _, None, _ => Err (Errorf "empty 'From' header")
    | Some _, Some _, None => Err (Errorf "empty 'To' header")
    | Some r, Some from, Some to =>
        Ok (rq_map (fun m => Message.SetBody m (b_body b) true)
              (NewRequest uuid [] (b_method b) (Some r) (b_protocol b ++ "/" ++ b_protocolVersion b)
                 (built_headers order from to b) []))
    end.

(** ** Calls of a builder *)

Inductive call : Type :=
| CTransport (t : bytes) | CHost (h : bytes) | CMethod (m : RequestMethod) | CSeqNo (n : N)
| CRecipient (u : Uri) | CBody (s : bytes) | CCallID (c : option bytes) | CVia (hop : ViaHop)
| CFrom (a : option NameAddr) | CTo (a : option NameAddr) | CContact (a : option NameAddr)
| CExpires (e : option N) | CUserAgent (u : option bytes) | CMaxForwards (m : option N)
| CAllow (a : option (list RequestMethod)) | CSupported (l : list bytes) | CRequire (l : list bytes)
| CContentType (c : option bytes) | CAccept (a : option bytes) | CRoutes (l : list Uri)
| CHeader (h : Header) | CRemove (n : bytes).

Definition apply_call (c : call) (b : RequestBuilder) : res RequestBuilder :=
  match c with
  | CTransport t => Ok (SetTransport t b) | CHost h => Ok (SetHost h b) | CMethod m => Ok (SetMethod m b)
  | CSeqNo n => Ok (SetSeqNo n b) | CRecipient u => Ok (SetRecipient u b) | CBody s => Ok (SetBody s b)
  | CCallID c => Ok (SetCallID c b) | CVia hop => Ok (AddVia hop b)
  | CFrom a => SetFrom a b | CTo a => SetTo a b | CContact a => SetContact a b
  | CExpires e => Ok (SetExpires e b) | CUserAgent u => Ok (SetUserAgent u b)
  | CMaxForwards m => Ok (SetMaxForwards m b) | CAllow a => Ok (SetAllow a b)
  | CSupported l => Ok (SetSupported l b) | CRequire l => Ok (SetRequire l b)
  | CContentType c => Ok (SetContentType c b) | CAccept a => Ok (SetAccept a b)
  | CRoutes l => Ok (SetRoutes l b) | CHeader h => Ok (AddHeader h b) | CRemove n => Ok (RemoveHeader n b)
  end.

Fixpoint calls (l : list call) (b : RequestBuilder) : res RequestBuilder :=
  match l with
  | [] => Ok b
  | c :: l => b ← apply_call c b; calls l b
  end.

(** ** The shared CSeq *)

(** A built request holds the CSeq object of its builder: what the setters write
    there shows in the request. *)
Definition see_cseq (b : RequestBuilder) (rq : request) : request :=
  rq_map (fun m => with_hdrs m (update_first (hdrs m) "CSeq" (fun h =>
    match h with HCSeq _ _ => HCSeq (b_cseq b).1 (b_cseq b).2 | h => h end))) rq.

End Builder.
