(* ===== verification/BuilderTheorems.v ===== *)
(** * What the request builder guarantees: src/sip/builder.go *)

From S2P Require Import Prelude GoStrings Escape Params Headers HeaderStore Message TxKeys Fsm ClientTx Samples Builder.
From stdpp Require Import options.
Import Params Headers HeaderStore Message TxKeys Builder.

Module BuilderTheorems.

(** ** The invariant of a builder *)

Definition hop_ok (hop : ViaHop) : Prop :=
  ProtocolName hop <> [] /\ ProtocolVersion hop <> [] /\ Transport hop <> [] /\ Host hop <> [] /\
  is_Some (vh_params hop).

(** An address with a URI that names a host, or a wildcard. *)
Definition addr_ok (u : Uri) : Prop := match u with SipUriPtr u => FHost u <> [] | _ => True end.
Definition party_ok (a : NameAddr) : Prop := exists u, na_addr a = Some u /\ addr_ok u.

Record builder_ok (b : RequestBuilder) : Prop := {
  bo_cseq : (b_cseq b).2 = b_method b /\ ((b_cseq b).1 < 2 ^ 32)%N;
  bo_protocol : b_protocol b = "SIP" /\ b_protocolVersion b = "2.0";
  bo_names : b_transport b <> [] /\ b_host b <> [];
  bo_via : Forall hop_ok (b_via b);
  bo_from a : b_from b = Some a -> party_ok a;
  bo_to a : b_to b = Some a -> party_ok a;
  bo_contact c : b_contact b = Some c -> addr_ok (ct_addr c)
}.

Lemma bo_new rnd : builder_ok (NewRequestBuilder rnd).
Proof. by split. Qed.

Lemma default_nonempty d s : d <> [] -> default d s <> [].
Proof. by destruct s. Qed.

Lemma local_address_ok a b f u :
  b_host b <> [] -> local_address a b = Ok (f, u) -> na_addr f = Some u /\ addr_ok u.
Proof.
  intros Hh. unfold local_address. destruct (na_addr (Address_Clone a)) as [v|]; [| done].
  intros [= <- <-]. split; [done |]. destruct (streq (Uri_Host v) "") eqn:E.
  - by destruct v.
  - apply streq_neq in E. by destruct v.
Qed.

Lemma bo_parties f t c b :
  builder_ok b -> (forall a, f = Some a -> party_ok a) -> (forall a, t = Some a -> party_ok a) ->
  (forall a, c = Some a -> addr_ok (ct_addr a)) -> builder_ok (put_parties f t c b).
Proof. by destruct b; intros [] ? ? ?; split. Qed.

Lemma bo_SetFrom a b b' : builder_ok b -> SetFrom a b = Ok b' -> builder_ok b'.
Proof.
  intros Hb. unfold SetFrom. destruct a as [a|]; [| intros [= <-]; by apply bo_parties; try apply Hb].
  destruct (local_address a b) as [[f u]| |] eqn:El; [| done | done]. cbn. intros [= <-].
  apply local_address_ok in El; [| apply Hb]. apply bo_parties; try apply Hb.
  intros x [= <-]. by exists u.
Qed.

Lemma bo_SetTo a b b' : builder_ok b -> SetTo a b = Ok b' -> builder_ok b'.
Proof.
  intros Hb. unfold SetTo. destruct a as [a|]; [| intros [= <-]; by apply bo_parties; try apply Hb].
  destruct (local_address a b) as [[f u]| |] eqn:El; [| done | done]. cbn. intros [= <-].
  apply local_address_ok in El; [| apply Hb]. apply bo_parties; try apply Hb.
  intros x [= <-]. by exists u.
Qed.

Lemma bo_SetContact a b b' : builder_ok b -> SetContact a b = Ok b' -> builder_ok b'.
Proof.
  intros Hb. unfold SetContact. destruct a as [a|]; [| intros [= <-]; by apply bo_parties; try apply Hb].
  destruct (local_address a b) as [[f u]| |] eqn:El; [| done | done]. cbn. intros [= <-].
  apply local_address_ok in El as [_ Hu]; [| apply Hb]. apply bo_parties; try apply Hb.
  by intros x [= <-].
Qed.

Lemma bo_AddVia hop b : builder_ok b -> builder_ok (AddVia hop b).
Proof.
  intros Hb. assert (hop_ok (mkViaHop (default (b_protocol b) (ProtocolName hop))
    (default (b_protocolVersion b) (ProtocolVersion hop)) (default (b_transport b) (Transport hop))
    (default (b_host b) (Host hop)) (Port hop)
    (Some (match vh_params hop with Some ps => ps | None => NewParams end)))) as Hh.
  { destruct Hb as [_ [Hp Hv] [Ht Hh] _ _ _ _]. rewrite Hp, Hv. split_and!; cbn; eauto using default_nonempty. }
  unfold AddVia. destruct b, Hb. split; try done. cbn. apply Forall_app. split; [done |]. by apply Forall_singleton.
Qed.

Lemma bo_call c b b' : builder_ok b -> apply_call c b = Ok b' -> builder_ok b'.
Proof.
  intros Hb. destruct c; cbn; eauto using bo_SetFrom, bo_SetTo, bo_SetContact; intros [= <-];
    try (by apply bo_AddVia); try (destruct c as [c|]; [| done]); destruct b, Hb; try by split.
  - split; try done. cbn. split; [by destruct t | by apply bo_names0].
  - split; try done. cbn. split; [by apply bo_names0 | by destruct h].
  - split; try done. cbn. split; [done | by apply bo_cseq0].
  - split; try done. cbn. split; [by apply bo_cseq0 |]. apply N.mod_upper_bound. lia.
Qed.

Lemma bo_calls l b b' : builder_ok b -> calls l b = Ok b' -> builder_ok b'.
Proof.
  revert b. induction l as [| c l IH]; intros b Hb; cbn; [by intros [= <-] |].
  destruct (apply_call c b) as [b1| |] eqn:E; [| done | done]. cbn. eauto using bo_call.
Qed.

(** ** The built headers *)

Lemma filter_opt {A} (f : A -> Header) o n :
  (forall x, key_of (f x) <> n) -> filter (fun h => key_of h = n) (opt_header f o) = [].
Proof. intros H. destruct o as [x|]; [| done]. cbn [opt_header]. by rewrite filter_cons_False by apply H. Qed.

Section built.

Context (uuid : bytes) (order : list bytes) (b : RequestBuilder) (rq : request).
Context (Hrq : Build uuid order b = Ok rq).

Lemma Build_inv : exists r from to,
  b_recipient b = Some r /\ b_from b = Some from /\ b_to b = Some to /\ b_method b <> [] /\
  rq = rq_map (fun m => Message.SetBody m (b_body b) true)
         (NewRequest uuid [] (b_method b) (Some r) (b_protocol b ++ "/" ++ b_protocolVersion b)
            (built_headers order from to b) []).
Proof using Hrq.
  revert Hrq. unfold Build. destruct (streq (b_method b) "") eqn:E; [done |]. apply streq_neq in E.
  destruct (b_recipient b), (b_from b), (b_to b); try done. intros [= <-]. by eexists _, _, _.
Qed.

Lemma built_list n : n <> "content-length" -> exists from to,
  b_from b = Some from /\ b_to b = Some to /\
  lookup_list (hdrs (rq_msg rq)) n = filter (fun h => key_of h = n) (built_headers order from to b).
Proof using Hrq.
  intros Hn. destruct Build_inv as (r & from & to & _ & Hf & Ht & _ & ->). exists from, to.
  split; [done |]. split; [done |]. cbn [rq_map rq_msg NewRequest].
  rewrite hdrs_SetBody by done. cbn [new_message hdrs]. apply lookup_list_new.
Qed.

(** Which headers come first under their names. *)
Lemma built_cseq : CSeq (hdrs (rq_msg rq)) = Some (b_cseq b).
Proof using Hrq.
  unfold CSeq, GetHeaders. destruct (built_list "cseq") as (from & to & _ & _ & E); [done |].
  change (ToLower "CSeq") with ("cseq" : bytes). rewrite E. unfold built_headers.
  rewrite !filter_app, !filter_opt by done. destruct (b_via b); cbn; by destruct (b_cseq b).
Qed.

Lemma built_parties : exists from to,
  b_from b = Some from /\ b_to b = Some to /\
  From_ (hdrs (rq_msg rq)) = Some from /\ To (hdrs (rq_msg rq)) = Some to /\
  CallID (hdrs (rq_msg rq)) = Some (b_callID b).
Proof using Hrq.
  destruct (built_list "from") as (from & to & Hf & Ht & E1); [done |].
  destruct (built_list "to") as (from2 & to2 & Hf2 & Ht2 & E2); [done |].
  destruct (built_list "call-id") as (from3 & to3 & Hf3 & Ht3 & E3); [done |]. simplify_eq.
  exists from, to. split; [done |]. split; [done |]. unfold From_, To, CallID, GetHeaders.
  change (ToLower "From") with ("from" : bytes). change (ToLower "To") with ("to" : bytes).
  change (ToLower "Call-ID") with ("call-id" : bytes). rewrite E1, E2, E3. unfold built_headers.
  rewrite !filter_app, !filter_opt by done. by destruct (b_via b).
Qed.

Lemma built_via_hops : b_via b <> [] -> Via (hdrs (rq_msg rq)) = Some (b_via b).
Proof using Hrq.
  intros Hv. unfold Via, GetHeaders. destruct (built_list "via") as (from & to & _ & _ & E); [done |].
  change (ToLower "Via") with ("via" : bytes). rewrite E. unfold built_headers.
  rewrite !filter_app, !filter_opt by done. by destruct (b_via b).
Qed.

Lemma built_via : b_via b <> [] -> ViaHop_ (hdrs (rq_msg rq)) = head (b_via b).
Proof using Hrq. intros Hv. unfold ViaHop_. rewrite built_via_hops by done. by destruct (b_via b). Qed.

(** A list of Require options is kept but never sent. *)
Lemma built_require :
  (forall k h, b_generic b !! k = Some h -> key_of h <> "require") ->
  GetHeaders (hdrs (rq_msg rq)) "Require" = [].
Proof using Hrq.
  intros Hg. unfold GetHeaders. destruct (built_list "require") as (from & to & _ & _ & E); [done |].
  change (ToLower "Require") with ("require" : bytes). rewrite E. unfold built_headers.
  rewrite !filter_app, !filter_opt by done.
  assert (filter (fun h => key_of h = "require") (omap (fun k => b_generic b !! k) order) = []) as ->.
  { clear E Hrq. induction order as [| k l IH]; [done |]. cbn [omap list_omap]. destruct (b_generic b !! k) as [h|] eqn:Ek; [| done].
    by rewrite filter_cons_False by (by eapply Hg). }
  by destruct (b_via b).
Qed.

End built.

(** C32: A builder that any sequence of calls (that returned) made builds a request exactly when a
    method, a recipient, a From and a To were set.  The request then has a CSeq of its
    own method; the Call-ID; From and To addresses that have a host unless they are a
    wildcard; as its Via all the hops that were added, in order, each with protocol
    name, version, transport, host and a set of parameters; the body; and the length
    of the body, modulo 2^32, as its Content-Length. *)
Theorem built_request_well_formed rnd l b uuid order :
  calls l (NewRequestBuilder rnd) = Ok b ->
  (b_method b <> [] /\ is_Some (b_recipient b) /\ is_Some (b_from b) /\ is_Some (b_to b) <->
   exists rq, Build uuid order b = Ok rq) /\
  forall rq, Build uuid order b = Ok rq ->
    (exists n, CSeq (hdrs (rq_msg rq)) = Some (n, method rq) /\ (n < 2 ^ 32)%N) /\
    CallID (hdrs (rq_msg rq)) = Some (b_callID b) /\
    (exists from to, From_ (hdrs (rq_msg rq)) = Some from /\ party_ok from /\
                     To (hdrs (rq_msg rq)) = Some to /\ party_ok to) /\
    (b_via b <> [] -> Via (hdrs (rq_msg rq)) = Some (b_via b) /\ Forall hop_ok (b_via b)) /\
    body (rq_msg rq) = b_body b /\
    ContentLength (hdrs (rq_msg rq)) = Some (N.of_nat (length (b_body b)) mod 2 ^ 32)%N.
Proof.
  intros Hb%bo_calls; [| apply bo_new]. split.
  - split.
    + intros (Hm & [r Hr] & [f Hf] & [t Ht]). unfold Build. apply streq_neq in Hm. rewrite Hm, Hr, Hf, Ht. by eauto.
    + intros (rq & (r & f & t & -> & -> & -> & Hm & _)%Build_inv). by eauto.
  - intros rq Hrq. pose proof (built_cseq _ _ _ _ Hrq) as Hc.
    destruct (built_parties _ _ _ _ Hrq) as (from & to & Hf & Ht & -> & -> & ->).
    pose proof (built_via_hops _ _ _ _ Hrq) as Hv. pose proof (Build_inv _ _ _ _ Hrq) as (r & f & t & _ & _ & _ & _ & ->).
    destruct Hb as [[Hm Hn] _ _ Hvia Hfrom Hto _]. rewrite Hc. split_and!; try done.
    + exists (b_cseq b).1. split; [| done]. cbn. rewrite <- Hm. by destruct (b_cseq b).
    + exists from, to. auto.
    + intros Hne. split; [by apply Hv | exact Hvia].
    + cbn. unfold Message.SetBody. by destruct (GetHeaders _ _).
    + apply SetBody_length.
Qed.

(** ** From a builder to a transaction *)

Lemma Get_Add ps k v : Get (Add ps k v) k = Some v.
Proof. unfold Get, Add. destruct (params ps !! k); cbn; apply lookup_insert_eq. Qed.

Lemma cookie_branch_generated rnd : cookie_branch (Some (Some (GenerateBranch rnd))) = Ok (Some (GenerateBranch rnd)).
Proof. reflexivity. Qed.

(** Every request that a builder with a Via makes starts a client transaction,
    unless its addresses cannot be evaluated (a transport or received parameter
    without a value) or the Via has a branch of its own: the transaction has the fresh branch in its key. *)
Theorem built_request_starts_transaction rnd l b uuid order rq is_reliable rnd' hop :
  calls l (NewRequestBuilder rnd) = Ok b -> Build uuid order b = Ok rq ->
  head (b_via b) = Some hop -> (forall ps, vh_params hop = Some ps -> Has ps "branch" = false) ->
  request_shown (ClientTx.prepareClientRequest (GenerateBranch rnd') rq) = Ok tt ->
  exists t, ClientTx.NewClientTx is_reliable rnd' rq
              = Ok (Join [GenerateBranch rnd'; key_method (method rq)] sep, t).
Proof.
  intros Hb%bo_calls Hrq Hhop Hbr Hsh; [| apply bo_new].
  assert (ViaHop_ (hdrs (rq_msg rq)) = Some hop) as Hv.
  { rewrite <- Hhop. eapply built_via; [exact Hrq |]. by intros E; rewrite E in Hhop. }
  assert (hop_ok hop) as (_ & _ & _ & _ & [ps Hps]).
  { destruct (b_via b) eqn:E; [done |]. injection Hhop as ->. pose proof (bo_via _ Hb) as Hf. rewrite E in Hf.
    by apply Forall_cons in Hf as [? _]. }
  assert (exists tr, request_Transport (ClientTx.prepareClientRequest (GenerateBranch rnd') rq) = Ok tr) as [tr Ht]
    by (apply bind_Ok in Hsh as (tr & ? & _); eauto).
  exists (ClientTx.new_clientTx (ClientTx.prepareClientRequest (GenerateBranch rnd') rq) (is_reliable tr)).
  apply ClientTx.NewClientTx_Ok. cbv zeta. split; [| by eauto]. clear tr Ht Hsh.
  set (rq' := ClientTx.prepareClientRequest _ rq).
  assert (hdrs (rq_msg rq') = update_first (hdrs (rq_msg rq)) "Via"
            (update_hop (fun h => ClientTx.add_branch h (GenerateBranch rnd')))) as Hh.
  { subst rq'. unfold ClientTx.prepareClientRequest. cbn. by rewrite Hv. }
  assert (ViaHop_ (hdrs (rq_msg rq')) = Some (ClientTx.add_branch hop (GenerateBranch rnd'))) as Hv'.
  { revert Hv. rewrite Hh. unfold ViaHop_, Via, GetHeaders. rewrite lookup_update_first, decide_True by done.
    destruct (lookup_list _ _) as [| [] ?]; try done. destruct hops; [done |]. by intros [= ->]. }
  assert (forall n, ToLower n <> "via" -> GetHeaders (hdrs (rq_msg rq')) n = GetHeaders (hdrs (rq_msg rq)) n) as Hg.
  { intros n Hn. unfold GetHeaders. rewrite Hh, lookup_update_first, decide_False; [done |]. by intros E. }
  assert (CSeq (hdrs (rq_msg rq')) = Some ((b_cseq b).1, method rq)) as Hc.
  { unfold CSeq. rewrite Hg by done. fold (CSeq (hdrs (rq_msg rq))). rewrite (built_cseq _ _ _ _ Hrq).
    destruct (Build_inv _ _ _ _ Hrq) as (r & f & t & _ & _ & _ & _ & ->). cbn.
    destruct Hb as [[<- _] _ _ _ _ _ _]. by destruct (b_cseq b). }
  unfold MakeClientTxKey. rewrite Hc, Hv'. unfold via_branch, ClientTx.add_branch. cbn [vh_params].
  rewrite Hps, (Hbr _ Hps), Get_Add. cbn [mbind res_bind]. rewrite cookie_branch_generated. cbn [mbind res_bind].
  done.
Qed.

(** ** One builder, several requests *)

(** A request shares its CSeq with the builder it came from: choosing another
    method for the next request changes the CSeq of the first one, which then
    names a method the request does not have. *)
Theorem builder_shares_cseq rnd l b uuid order rq m :
  calls l (NewRequestBuilder rnd) = Ok b -> Build uuid order b = Ok rq -> m <> method rq ->
  CSeq (hdrs (rq_msg (see_cseq b rq))) = Some ((b_cseq b).1, method rq) /\
  CSeq (hdrs (rq_msg (see_cseq (SetMethod m b) rq))) = Some ((b_cseq b).1, m) /\
  method (see_cseq (SetMethod m b) rq) <> m.
Proof.
  intros Hb%bo_calls Hrq Hm; [| apply bo_new].
  assert (forall b', CSeq (hdrs (rq_msg (see_cseq b' rq))) = Some ((b_cseq b').1, (b_cseq b').2)) as Hs.
  { intros b'. pose proof (built_cseq _ _ _ _ Hrq) as Hc. revert Hc. unfold CSeq, GetHeaders. cbn.
    rewrite lookup_update_first, decide_True by done. by destruct (lookup_list _ _) as [| [] ?]. }
  split_and!; rewrite ?Hs.
  - destruct (Build_inv _ _ _ _ Hrq) as (r & f & t & _ & _ & _ & _ & ->). cbn.
    by destruct Hb as [[-> _] _ _ _ _ _ _].
  - by destruct b.
  - cbn. congruence.
Qed.

(** ** Examples *)

Definition invite_calls : list call :=
  [ CHost "atlanta.com"; CMethod INVITE; CRecipient (Samples.sip_uri "bob" "biloxi.com");
    CFrom (Some (mkNameAddr (Some "Alice") (Some (Samples.sip_uri "alice" "")) (Samples.tag "1928301774")));
    CTo (Some (mkNameAddr None (Some (Samples.sip_uri "bob" "biloxi.com")) (Some NewParams)));
    CVia (mkViaHop [] [] [] [] None None); CRequire ["100rel"]; CBody "v=0" ].

Definition alice_builder : RequestBuilder :=
  match calls invite_calls (NewRequestBuilder "a84b4c76e66710") with Ok b => b | _ => NewRequestBuilder [] end.

Definition alice_request : request :=
  match Build "u" [] alice_builder with Ok rq => rq | _ => Samples.sample_invite end.

(** The From header gets the host of the builder, the Require option is lost. *)
Lemma built_request_well_formed_witness :
  (exists n, CSeq (hdrs (rq_msg alice_request)) = Some (n, INVITE) /\ (n < 2 ^ 32)%N) /\
  ContentLength (hdrs (rq_msg alice_request)) = Some 3%N /\
  SentBy <$> ViaHop_ (hdrs (rq_msg alice_request)) = Some ("atlanta.com" : bytes) /\
  GetHeaders (hdrs (rq_msg alice_request)) "Require" = [].
Proof.
  destruct (proj2 (built_request_well_formed "a84b4c76e66710" invite_calls alice_builder "u" []
    ltac:(vm_compute; reflexivity)) alice_request ltac:(vm_compute; reflexivity))
    as (Hc & _ & _ & _ & _ & Hl).
  split; [exact Hc |]. split; [rewrite Hl; vm_compute; reflexivity |]. split; vm_compute; reflexivity.
Defined.

Lemma built_request_starts_transaction_witness :
  exists t, ClientTx.NewClientTx (fun _ => false) "rnd" alice_request
              = Ok (Join [GenerateBranch "rnd"; INVITE] sep, t).
Proof.
  apply (built_request_starts_transaction "a84b4c76e66710" invite_calls alice_builder "u" [] alice_request
    (fun _ => false) "rnd" (mkViaHop "SIP" "2.0" "UDP" "atlanta.com" None (Some NewParams))).
  - vm_compute. reflexivity.
  - vm_compute. reflexivity.
  - vm_compute. reflexivity.
  - intros ps. vm_compute. by intros [= <-].
  - vm_compute. reflexivity.
Defined.

Lemma builder_shares_cseq_witness :
  CSeq (hdrs (rq_msg (see_cseq (SetMethod "BYE" alice_builder) alice_request))) = Some (1%N, "BYE" : bytes) /\
  method (see_cseq (SetMethod "BYE" alice_builder) alice_request) <> "BYE".
Proof.
  destruct (builder_shares_cseq "a84b4c76e66710" invite_calls alice_builder "u" [] alice_request "BYE"
    ltac:(vm_compute; reflexivity) ltac:(vm_compute; reflexivity) ltac:(vm_compute; discriminate)) as (_ & H1 & H2).
  split; [exact H1 | exact H2].
Defined.

End BuilderTheorems.
