(* ===== verification/Server.v ===== *)
(** * The server: src/server.go, src/options.go

    The server stands on the transaction layer and the transport layer: it
    completes the messages it sends, routes the requests the transaction layer
    passes up to the registered handlers, and sends requests that wait for their
    final response, with one answer to a challenge.  Handlers are numbers; the
    calls of handlers are the list [s_calls].  The order in which Go ranges over
    the map of handlers is an argument of each call that depends on it. *)

From S2P Require Import Prelude GoStrings Escape Params Headers HeaderStore Message ParserCommon Packet TxKeys Fsm ClientTx ServerTx TxLayer Transport Protocols TransportLayer.
From stdpp Require Import options.
Import Params Headers HeaderStore Message Packet TxKeys Fsm Transport Protocols.

Module Server.

Record ServerConfig : Type := mkConfig {
  cf_Host : bytes;
  cf_Extensions : list bytes;
  cf_UserAgent : bytes
}.

Record server : Type := mkServer {
  s_running : bool;
  s_host : bytes;
  s_ip : bytes;
  s_handlers : gmap (list ascii) nat;
  s_extensions : list bytes;
  s_userAgent : bytes;
  s_tx : TxLayer.layer;
  s_tp : TransportLayer.layer;
  s_hwg : nat;
  s_calls : list (nat * request * option nat)
}.

(** [resolve] is [net.ResolveIPAddr], [self] is [util.ResolveSelfIP]; a failure
    panics in the logger. *)
Definition NewServer (resolve : bytes -> option bytes) (self : option bytes) (c : ServerConfig) : res server :=
  '(host, ip) ← match cf_Host c with
                | _ :: _ => match resolve (cf_Host c) with Some ip => Ok (cf_Host c, ip) | None => Panic end
                | [] => match self with Some ip => Ok (ip, ip) | None => Panic end
                end;
  Ok (mkServer true host ip ∅ (cf_Extensions c)
        (match cf_UserAgent c with [] => "GoSIP" | u => u end)
        TxLayer.NewLayer (TransportLayer.NewLayer ip) 0 []).

Definition set_tx (l : TxLayer.layer) (s : server) : server :=
  mkServer (s_running s) (s_host s) (s_ip s) (s_handlers s) (s_extensions s) (s_userAgent s) l (s_tp s)
    (s_hwg s) (s_calls s).
Definition set_tp (l : TransportLayer.layer) (s : server) : server :=
  mkServer (s_running s) (s_host s) (s_ip s) (s_handlers s) (s_extensions s) (s_userAgent s) (s_tx s) l
    (s_hwg s) (s_calls s).
Definition set_running (r : bool) (s : server) : server :=
  mkServer r (s_host s) (s_ip s) (s_handlers s) (s_extensions s) (s_userAgent s) (s_tx s) (s_tp s)
    (s_hwg s) (s_calls s).
Definition set_hwg (n : nat) (s : server) : server :=
  mkServer (s_running s) (s_host s) (s_ip s) (s_handlers s) (s_extensions s) (s_userAgent s) (s_tx s) (s_tp s)
    n (s_calls s).
Definition call_handler (h : nat) (rq : request) (tx : option nat) (s : server) : server :=
  mkServer (s_running s) (s_host s) (s_ip s) (s_handlers s) (s_extensions s) (s_userAgent s) (s_tx s) (s_tp s)
    (s_hwg s) (s_calls s ++ [(h, rq, tx)]).

Definition OnRequest (m : RequestMethod) (h : nat) (s : server) : server :=
  mkServer (s_running s) (s_host s) (s_ip s) (<[m := h]> (s_handlers s)) (s_extensions s) (s_userAgent s)
    (s_tx s) (s_tp s) (s_hwg s) (s_calls s).

Definition Listen (io : net) (network addr : bytes) (s : server) : res (server * option gerror) :=
  '(tp, err) ← TransportLayer.Listen io network addr (s_tp s); Ok (set_tp tp s, err).

(** ** Headers added to every message *)

Definition autoAppendMethods : list RequestMethod := [INVITE; "REGISTER"; "OPTIONS"; "REFER"; "NOTIFY"].

(** [order] lists the keys of the handlers in the order of the range. *)
Definition getAllowedMethods (order : list RequestMethod) : list RequestMethod :=
  let methods := [INVITE; ACK; CANCEL] in
  methods ++ filter (fun m => m ∉ methods) order.

(** A header is appended when there is none of its name. *)
Definition append_missing (name : bytes) (h : Header) (hs : headers) : headers :=
  match GetHeaders hs name with [] => AppendHeader hs h | _ => hs end.

(** The method that decides on Allow and Supported. *)
Definition auto_method (m : msg) : RequestMethod :=
  match m with
  | MRequest r => method r
  | MResponse r =>
      match CSeq (hdrs (rs_msg r)) with
      | Some (_, meth) => if IsProvisional r then [] else meth
      | None => []
      end
  end.

Definition agent_header (s : server) (m : msg) (hs : headers) : headers :=
  match m with
  | MRequest _ => append_missing "User-Agent" (HUserAgent (s_userAgent s)) hs
  | MResponse _ => append_missing "Server" (HServer (s_userAgent s)) hs
  end.

Definition capability_headers (order : list RequestMethod) (s : server) (m : RequestMethod) (hs : headers)
    : headers :=
  if bool_decide (m ∈ autoAppendMethods) then
    let hs := append_missing "Allow" (HAllow (getAllowedMethods order)) hs in
    match s_extensions s with
    | [] => hs
    | exts => append_missing "Supported" (HSupported exts) hs
    end
  else hs.

Definition length_header (x : message) : message :=
  match GetHeaders (hdrs x) "Content-Length" with [] => SetBody x (body x) true | _ => x end.

Definition appendAutoHeaders (order : list RequestMethod) (s : server) (m : msg) : msg :=
  let meth := auto_method m in
  msg_map (fun x => length_header
    (with_hdrs x (capability_headers order s meth (agent_header s m (hdrs x))))) m.

Definition prepareRequest (order : list RequestMethod) (s : server) (r : request) : request :=
  match appendAutoHeaders order s (MRequest r) with MRequest r => r | MResponse _ => r end.
Definition prepareResponse (order : list RequestMethod) (s : server) (r : response) : response :=
  match appendAutoHeaders order s (MResponse r) with MResponse r => r | MRequest _ => r end.

Definition stopped : error := Errorf "can not send through stopped server".

(** [Send]: the message as it is after the call, too. *)
Definition Send (io : net) (d : TransportLayer.dns) (pick : nat) (order : list RequestMethod) (m : msg)
    (s : server) : res (server * msg * option gerror) :=
  if s_running s then
    '(tp, m, err) ← TransportLayer.Send io d pick (appendAutoHeaders order s m) (s_tp s);
    Ok (set_tp tp s, m, err)
  else Ok (s, m, Some (SipError stopped)).

(** [sipTransport] *)
Definition IsReliable (s : server) (network : bytes) : bool := TransportLayer.IsReliable (s_tp s) network.
Definition IsStreamed (s : server) (network : bytes) : bool := TransportLayer.IsStreamed (s_tp s) network.

Section operations.

Context (spin : spinner) (envs : nat -> env) (uuid : nat -> bytes).

Definition Request (order : list RequestMethod) (r : request) (s : server) : res (nat * server) :=
  if s_running s then
    '(n, tx) ← TxLayer.Request spin envs (IsReliable s) (prepareRequest order s r) (s_tx s);
    Ok (n, set_tx tx s)
  else Err stopped.

(** The same call up to the return of [tx.Init]; it goes on with
    [TxLayer.request_step]. *)
Definition Request_begin (order : list RequestMethod) (r : request) (s : server) : res (nat * server) :=
  if s_running s then
    '(n, tx) ← TxLayer.Request_init spin envs (IsReliable s) (prepareRequest order s r) (s_tx s);
    Ok (n, set_tx tx s)
  else Err stopped.

Definition Respond (order : list RequestMethod) (r : response) (s : server) : res (nat * server * bool) :=
  if s_running s then
    '(n, tx, ok) ← TxLayer.Respond spin envs (prepareResponse order s r) (s_tx s);
    Ok (n, set_tx tx s, ok)
  else Err stopped.

Definition RespondOnRequest (order : list RequestMethod) (rq : request) (code : N) (rsn b : bytes)
    (hs : list Header) (s : server) : res (nat * server * bool) :=
  rs ← NewResponseFromRequest (uuid 0) [] rq code rsn b;
  Respond order (rs_map (fun m => with_hdrs m (foldl AppendHeader (hdrs m) hs)) rs) s.

(** ** Requests that come in *)

(** [handleRequest], with its [hwg.Done()]; a failed 405 is only logged. *)
Definition handleRequest (order : list RequestMethod) (req : request) (tx : option nat) (s : server) : res server :=
  let s := set_hwg (s_hwg s - 1) s in
  match s_handlers s !! method req with
  | Some h => Ok (call_handler h req tx s)
  | None =>
      if request_IsAck req then Ok s
      else
        match NewResponseFromRequest (uuid 0) [] req 405 "Method Not Allowed" [] with
        | Ok rs =>
            match Respond order rs s with
            | Ok (_, s, _) => Ok s
            | Err _ => Ok s
            | Panic => Panic
            end
        | _ => Panic
        end
  end.

(** [Shutdown]: once; then the layers are canceled. *)
Definition Shutdown (s : server) : server :=
  if s_running s then
    set_tp (TransportLayer.Cancel (s_tp s)) (set_tx (TxLayer.Cancel (s_tx s)) (set_running false s))
  else s.

(** *** The loop of [serve]

    What the select takes; [None] stands for a closed channel.  A request and an
    ACK start a goroutine of [handleRequest]. *)
Inductive served : Type :=
| SRequest (tx : option (nat * request))
| SAck (ack : option request)
| SResponse (r : option response)
| STxError (e : option gerror)
| STpError (e : option gerror).

Inductive level : Set := Debug | Warn | ErrorLevel.

Definition malformed (e : gerror) : option unit :=
  match e with SipError e => match sip_cause e with MalformedMessageError _ _ => Some tt | _ => None end | _ => None end.

(** The level an error is logged with. *)
Definition tx_error_level (e : gerror) : level :=
  if Is EOF e || Is ClosedPipe e then Debug else ErrorLevel.
Definition tp_error_level (e : gerror) : level :=
  if Is EOF e || Is ClosedPipe e then Debug else if isSome (As malformed e) then Warn else ErrorLevel.

(** The goroutines that are started, the level of what is logged, and whether
    the loop goes on; when it ends the server is shut down. *)
Definition serve (ev : served) (s : server) : server * list (request * option nat) * option level * bool :=
  match ev with
  | SRequest (Some (n, rq)) => (set_hwg (S (s_hwg s)) s, [(rq, Some n)], None, true)
  | SAck (Some ack) => (set_hwg (S (s_hwg s)) s, [(ack, None)], None, true)
  | SResponse (Some _) => (s, [], Some Warn, true)
  | STxError (Some e) => (s, [], Some (tx_error_level e), true)
  | STpError (Some e) => (s, [], Some (tp_error_level e), true)
  | SRequest None | SAck None | SResponse None | STxError None | STpError None => (Shutdown s, [], None, false)
  end.

(** ** Requests with a response *)

(** What the select of the waiting goroutine takes next. *)
Inductive output : Type :=
| OErr (e : tx_error)
| OErrsClosed
| OResponse (r : response)
| OResponsesClosed.

Inductive failure : Type :=
| FError (e : error)
| FTx (e : tx_error)
| FRequest (code : N) (rsn : bytes) (rq : request) (rs : option response).

Inductive outcome : Type :=
| Answered (r : response)
| Failed (f : failure)
| Waiting.

(** [RequestError] holds copies. *)
Definition NewRequestError (code : N) (rsn : bytes) (rq : request) (rs : option response) : res failure :=
  q ← CopyRequest (uuid 0) rq;
  match rs with
  | Some r => r ← CopyResponse (uuid 1) r; Ok (FRequest code rsn q (Some r))
  | None => Ok (FRequest code rsn q None)
  end.

Definition set_previous (l : list response) (r : response) : response :=
  mkResponse (rs_msg r) (status r) (reason r) l.

(** [getKey] *)
Definition response_key (r : response) : bytes := show_N (status r) ++ " " ++ reason r.

(** The loop ends with an outcome, or wants the request authorized. *)
Inductive awaited : Type :=
| Ended (o : outcome)
| Challenged (r : response).

Definition needs_auth (attempt : nat) (r : response) : bool :=
  ((status r =? 401)%N || (status r =? 407)%N) && (attempt <? 2).

(** The loop over the channels of a transaction: the responses that came, the
    provisional ones kept (one for each key), the last one.  [has_auth] tells of
    an authorizer; [handled] are the calls of the response handler (after a
    success a goroutine goes on calling it).  The last response can be one of
    the kept ones: the list it is given then holds it as it was before. *)
Fixpoint await (has_auth : bool) (attempt : nat) (rq : request) (outs : list output)
    (prev : list response) (last : option response) (handled : list response) : res (awaited * list response) :=
  match outs with
  | [] => Ok (Ended Waiting, handled)
  | OErr e :: _ => Ok (Ended (Failed (FTx e)), handled)
  | OErrsClosed :: outs => await has_auth attempt rq outs prev last handled
  | OResponsesClosed :: _ =>
      f ← NewRequestError 487 "Request Terminated" rq (set_previous prev <$> last);
      Ok (Ended (Failed f), handled)
  | OResponse r :: outs =>
      r ← CopyResponse (uuid 2) r;
      let handled := handled ++ [r] in
      if IsProvisional r then
        let prev := if existsb (fun p => streq (response_key p) (response_key r)) prev
                    then prev else prev ++ [r] in
        await has_auth attempt rq outs prev (Some r) handled
      else if IsSuccess r then Ok (Ended (Answered (set_previous prev r)), handled)
      else if needs_auth attempt r && has_auth then Ok (Challenged r, handled)
      else
        f ← NewRequestError (status r) (reason r) rq (Some (set_previous prev r));
        Ok (Ended (Failed f), handled)
  end.

(** The request as the transaction has it: the caller's object. *)
Definition tx_origin (n : nat) (rq : request) (s : server) : request :=
  match TxLayer.txs (s_tx s) !! n with Some (_, TxLayer.TxClient t) => ClientTx.c_origin t | _ => rq end.

(** The first goroutine of [requestWithContext]: the context ends before the result
    is there, and transaction [n] is canceled; what the transaction sends then is
    part of its outputs. *)
Definition context_done (n : nat) (s : server) : option (res server) :=
  l ← TxLayer.tx_step spin envs n (TxLayer.EClient ClientTx.CCancel) (s_tx s);
  Some (l ← l; Ok (set_tx l s)).

(** [requestWithContext]: [outs n] is what transaction [n] sends on its
    channels; [auth] is the authorizer, if one is given.  The numbers of the
    transactions it started and the calls of the response handler are returned. *)
Fixpoint requestWithContext (fuel : nat) (outs : nat -> list output)
    (auth : option (request -> response -> res request)) (orders : nat -> list RequestMethod) (attempt : nat)
    (rq : request) (s : server) : res (server * outcome * list nat * list response) :=
  match fuel with
  | O => Ok (s, Waiting, [], [])
  | S fuel =>
      match Request (orders attempt) rq s with
      | Panic => Panic
      | Err e => Ok (s, Failed (FError e), [], [])
      | Ok (n, s) =>
          let rq := tx_origin n rq s in
          '(a, handled) ← await (isSome auth) attempt rq (outs n) [] None [];
          match a, auth with
          | Challenged r, Some authorize =>
              match authorize rq r with
              | Panic => Panic
              | Err e => Ok (s, Failed (FError e), [n], handled)
              | Ok rq =>
                  '(s, o, ns, more) ← requestWithContext fuel outs auth orders (S attempt) rq s;
                  Ok (s, o, n :: ns, handled ++ more)
              end
          | Challenged _, None => Ok (s, Waiting, [n], handled)
          | Ended o, _ => Ok (s, o, [n], handled)
          end
      end
  end.

Definition RequestWithContext (outs : nat -> list output) (auth : option (request -> response -> res request))
    (orders : nat -> list RequestMethod) (rq : request) (s : server)
    : res (server * outcome * list nat * list response) :=
  requestWithContext 2 outs auth orders 1 rq s.

End operations.

End Server.
