(* ===== verification/GosipTheorems.v ===== *)
(** * What the server guarantees: src/server.go *)

From S2P Require Import Prelude GoStrings Escape Params Headers HeaderStore Message ParserCommon Packet TxKeys Fsm Samples ClientTx ServerTx TxLayer Auth Transport Protocols TransportLayer Server.
From stdpp Require Import options.
Import Params Headers HeaderStore Message Packet TxKeys Fsm Samples Server.

Module GosipTheorems.

(** ** Automatic headers *)

Lemma GetHeaders_missing name h hs k :
  key_of h = ToLower name ->
  GetHeaders (append_missing name h hs) k =
  if decide (ToLower name = ToLower k)
  then match GetHeaders hs k with [] => [h] | l => l end
  else GetHeaders hs k.
Proof.
  intros Hk. unfold append_missing, GetHeaders. case_decide as E.
  - rewrite <- E. destruct (lookup_list hs (ToLower name)) eqn:El; [| done].
    by rewrite lookup_list_Append, decide_True, El by done.
  - destruct (lookup_list hs (ToLower name)); [| done]. by rewrite lookup_list_Append, decide_False by congruence.
Qed.

Lemma append_missing_present name h hs : GetHeaders hs name <> [] -> append_missing name h hs = hs.
Proof. unfold append_missing. by destruct (GetHeaders hs name). Qed.

Lemma present_missing name h hs k :
  key_of h = ToLower name -> GetHeaders hs k <> [] -> GetHeaders (append_missing name h hs) k = GetHeaders hs k.
Proof. intros Hk Hp. rewrite GetHeaders_missing by done. case_decide; [| done]. by destruct (GetHeaders hs k). Qed.

Lemma after_missing name h hs : key_of h = ToLower name -> GetHeaders (append_missing name h hs) name <> [].
Proof. intros Hk. rewrite GetHeaders_missing, decide_True by done. by destruct (GetHeaders hs name). Qed.

Lemma present_agent s m hs k : GetHeaders hs k <> [] -> GetHeaders (agent_header s m hs) k = GetHeaders hs k.
Proof. destruct m; by apply present_missing. Qed.

Lemma present_capability order s meth hs k :
  GetHeaders hs k <> [] -> GetHeaders (capability_headers order s meth hs) k = GetHeaders hs k.
Proof.
  intros Hp. unfold capability_headers. case_bool_decide; [| done].
  assert (forall hs, GetHeaders hs k <> [] -> GetHeaders (append_missing "Allow" (HAllow (getAllowedMethods order)) hs) k
    = GetHeaders hs k) as Ha by (intros ? ?; by apply present_missing).
  destruct (s_extensions s); [by apply Ha |]. rewrite present_missing by (by rewrite ?Ha). by apply Ha.
Qed.

Lemma present_length x k : GetHeaders (hdrs x) k <> [] -> GetHeaders (hdrs (length_header x)) k = GetHeaders (hdrs x) k.
Proof.
  intros Hp. unfold length_header. destruct (GetHeaders (hdrs x) "Content-Length") eqn:E; [| done].
  unfold GetHeaders in *. apply hdrs_SetBody. intros Hk. rewrite Hk in Hp. by apply Hp.
Qed.

Lemma auto_hdrs order s m :
  msg_of (appendAutoHeaders order s m) =
  length_header (with_hdrs (msg_of m) (capability_headers order s (auto_method m) (agent_header s m (hdrs (msg_of m))))).
Proof. by destruct m. Qed.

Lemma present_auto order s m k :
  GetHeaders (hdrs (msg_of m)) k <> [] ->
  GetHeaders (hdrs (msg_of (appendAutoHeaders order s m))) k = GetHeaders (hdrs (msg_of m)) k.
Proof.
  intros Hp. rewrite auto_hdrs.
  assert (GetHeaders (capability_headers order s (auto_method m) (agent_header s m (hdrs (msg_of m)))) k
    = GetHeaders (hdrs (msg_of m)) k) as E by (rewrite present_capability; rewrite ?present_agent; done).
  rewrite present_length; cbn [with_hdrs hdrs]; congruence.
Qed.

Lemma length_header_body x : body (length_header x) = body x.
Proof. unfold length_header. destruct (GetHeaders _ _); [| done]. unfold SetBody. by destruct (GetHeaders _ _). Qed.

Lemma length_header_present x : GetHeaders (hdrs (length_header x)) "Content-Length" <> [].
Proof.
  unfold length_header. destruct (GetHeaders (hdrs x) "Content-Length") eqn:E; [| by rewrite E].
  pose proof (SetBody_length x (body x)) as H. unfold ContentLength in H. intros E2. by rewrite E2 in H.
Qed.

(** *** The allowed methods *)

Lemma allowed_NoDup order : NoDup order -> NoDup (getAllowedMethods order).
Proof.
  intros Ho. unfold getAllowedMethods. apply NoDup_app. split; [by apply (bool_decide_unpack _) |].
  split; [| by apply NoDup_filter]. intros m Hm Hf. by apply list_elem_of_filter in Hf as [Hf _].
Qed.

Lemma allowed_elem order m : m ∈ getAllowedMethods order <-> m ∈ [INVITE; ACK; CANCEL] \/ m ∈ order.
Proof.
  unfold getAllowedMethods. rewrite elem_of_app, list_elem_of_filter.
  destruct (decide (m ∈ [INVITE; ACK; CANCEL])); naive_solver.
Qed.

(** A range over the map of handlers. *)
Definition ranges (order : list RequestMethod) (s : server) : Prop := order ≡ₚ (map_to_list (s_handlers s)).*1.

Lemma ranges_NoDup order s : ranges order s -> NoDup order.
Proof. intros H. rewrite H. apply NoDup_fst_map_to_list. Qed.

Lemma ranges_elem order s m : ranges order s -> m ∈ order <-> is_Some (s_handlers s !! m).
Proof.
  intros H. rewrite H, list_elem_of_fmap. split.
  - intros ([k n] & -> & Hk%elem_of_map_to_list). by eauto.
  - intros [n Hn]. exists (m, n). by rewrite elem_of_map_to_list.
Qed.

(** The Allow header that a message without one gets. *)
Definition allow_of (s : server) (hs : list Header) : Prop :=
  exists ms, hs = [HAllow ms] /\ NoDup ms /\
    forall m, m ∈ ms <-> m ∈ [INVITE; ACK; CANCEL] \/ is_Some (s_handlers s !! m).

Lemma auto_allow order s m :
  ranges order s -> auto_method m ∈ autoAppendMethods -> GetHeaders (hdrs (msg_of m)) "Allow" = [] ->
  allow_of s (GetHeaders (hdrs (msg_of (appendAutoHeaders order s m))) "Allow").
Proof.
  intros Ho Hm Ha. exists (getAllowedMethods order). split_and!.
  - rewrite auto_hdrs. unfold capability_headers. rewrite bool_decide_true by done.
    assert (GetHeaders (agent_header s m (hdrs (msg_of m))) "Allow" = []) as Eg
      by (destruct m; cbn [agent_header]; by rewrite GetHeaders_missing, decide_False by done).
    set (hs := append_missing "Allow" _ _).
    assert (GetHeaders hs "Allow" = [HAllow (getAllowedMethods order)]) as H1
      by (subst hs; by rewrite GetHeaders_missing, decide_True, Eg by done).
    assert (GetHeaders (match s_extensions s with [] => hs | _ => append_missing "Supported" (HSupported (s_extensions s)) hs end)
      "Allow" = GetHeaders hs "Allow") as H2
      by (destruct (s_extensions s); [done |]; apply present_missing; [done | by rewrite H1]).
    rewrite present_length; cbn [with_hdrs hdrs]; revert H2; destruct (s_extensions s); intros E2; congruence.
  - by apply allowed_NoDup, (ranges_NoDup _ s).
  - intros x. rewrite allowed_elem. pose proof (ranges_elem order s x Ho) as Hx. clear -Hx. tauto.
Qed.

Lemma capability_supported order s meth hs :
  meth ∈ autoAppendMethods -> s_extensions s <> [] ->
  GetHeaders (capability_headers order s meth hs) "Supported" <> [].
Proof.
  intros Hm He. unfold capability_headers. rewrite bool_decide_true by done.
  destruct (s_extensions s); [done |]. by apply after_missing.
Qed.

Lemma capability_allow order s meth hs :
  meth ∈ autoAppendMethods -> GetHeaders (capability_headers order s meth hs) "Allow" <> [].
Proof.
  intros Hm. unfold capability_headers. rewrite bool_decide_true by done.
  set (hs' := append_missing "Allow" _ hs).
  assert (GetHeaders hs' "Allow" <> []) as Ha by (by apply after_missing).
  destruct (s_extensions s); [done |]. by rewrite present_missing.
Qed.

Definition agent_name (m : msg) : bytes := match m with MRequest _ => "User-Agent" | MResponse _ => "Server" end.

(** Every message the server sends carries a User-Agent or Server header, a
    Content-Length and, when its method is one of the five, an Allow header with
    exactly the methods of the server, each once; headers that were there stay
    as they were, and so does the body. *)
Theorem auto_headers_complete order s m :
  ranges order s ->
  let m' := appendAutoHeaders order s m in
  GetHeaders (hdrs (msg_of m')) (agent_name m) <> [] /\
  GetHeaders (hdrs (msg_of m')) "Content-Length" <> [] /\
  (auto_method m ∈ autoAppendMethods -> GetHeaders (hdrs (msg_of m)) "Allow" = [] ->
   allow_of s (GetHeaders (hdrs (msg_of m')) "Allow")) /\
  (auto_method m ∈ autoAppendMethods -> s_extensions s <> [] -> GetHeaders (hdrs (msg_of m')) "Supported" <> []) /\
  (forall k, GetHeaders (hdrs (msg_of m)) k <> [] -> GetHeaders (hdrs (msg_of m')) k = GetHeaders (hdrs (msg_of m)) k) /\
  body (msg_of m') = body (msg_of m).
Proof.
  intros Ho m'. subst m'. split_and!.
  - rewrite auto_hdrs. assert (GetHeaders (agent_header s m (hdrs (msg_of m))) (agent_name m) <> []) as H
      by (destruct m; by apply after_missing).
    rewrite present_length; cbn [with_hdrs hdrs]; by rewrite present_capability.
  - rewrite auto_hdrs. apply length_header_present.
  - by apply auto_allow.
  - intros Hm He. rewrite auto_hdrs, present_length; cbn [with_hdrs hdrs]; by apply capability_supported.
  - intros k. apply present_auto.
  - rewrite auto_hdrs. by rewrite length_header_body.
Qed.

(** Headers of other names are not touched. *)
Lemma auto_other order s m k :
  ToLower k ∉ ["user-agent"; "server"; "allow"; "supported"; "content-length"] ->
  GetHeaders (hdrs (msg_of (appendAutoHeaders order s m))) k = GetHeaders (hdrs (msg_of m)) k.
Proof.
  intros Hk. assert (forall name h hs, key_of h = ToLower name -> ToLower name <> ToLower k ->
    GetHeaders (append_missing name h hs) k = GetHeaders hs k) as Ho
    by (intros; by rewrite GetHeaders_missing, decide_False by done).
  assert (forall x, GetHeaders (hdrs (length_header x)) k = GetHeaders (hdrs x) k) as Hl.
  { intros x. unfold length_header. destruct (GetHeaders (hdrs x) "Content-Length"); [| done].
    unfold GetHeaders. apply hdrs_SetBody. set_solver. }
  rewrite auto_hdrs, Hl. cbn [with_hdrs hdrs]. unfold capability_headers.
  assert (GetHeaders (agent_header s m (hdrs (msg_of m))) k = GetHeaders (hdrs (msg_of m)) k) as Ea
    by (destruct m; apply Ho; set_solver).
  case_bool_decide; [| done]. destruct (s_extensions s); rewrite ?Ho by set_solver; done.
Qed.

Lemma auto_method_same order s m : auto_method (appendAutoHeaders order s m) = auto_method m.
Proof.
  destruct m as [rq|rs]; [done |].
  assert (CSeq (hdrs (msg_of (appendAutoHeaders order s (MResponse rs)))) = CSeq (hdrs (rs_msg rs))) as Hc
    by (unfold CSeq; rewrite auto_other by (by apply (bool_decide_unpack _)); done).
  change (match CSeq (hdrs (msg_of (appendAutoHeaders order s (MResponse rs)))) with
          | Some (_, meth) => if IsProvisional rs then [] else meth
          | None => []
          end = auto_method (MResponse rs)).
  by rewrite Hc.
Qed.

(** Completing a message twice is completing it once: the transactions send
    through the server, which completes what it has completed before. *)
Theorem auto_headers_idempotent order order' s m :
  appendAutoHeaders order' s (appendAutoHeaders order s m) = appendAutoHeaders order s m.
Proof.
  set (m' := appendAutoHeaders order s m).
  assert (auto_method m' = auto_method m) as Em by apply auto_method_same.
  assert (agent_header s m' (hdrs (msg_of m')) = hdrs (msg_of m')) as Ea.
  { assert (GetHeaders (hdrs (msg_of m')) (agent_name m) <> []) as H.
    { subst m'. rewrite auto_hdrs, present_length; cbn [with_hdrs hdrs]; rewrite present_capability; destruct m; by apply after_missing. }
    subst m'. destruct m; by apply append_missing_present. }
  assert (capability_headers order' s (auto_method m) (hdrs (msg_of m')) = hdrs (msg_of m')) as Ec.
  { assert (forall k, GetHeaders (capability_headers order s (auto_method m) (agent_header s m (hdrs (msg_of m)))) k <> [] ->
      GetHeaders (hdrs (msg_of m')) k <> []) as Hk
      by (intros k Hk; subst m'; rewrite auto_hdrs; by rewrite present_length).
    unfold capability_headers at 1. case_bool_decide as Hm; [| done].
    rewrite append_missing_present by (by apply Hk, capability_allow).
    destruct (s_extensions s) eqn:Ee; [done |]. apply append_missing_present, Hk.
    apply capability_supported; [done | by rewrite Ee]. }
  assert (length_header (with_hdrs (msg_of m') (hdrs (msg_of m'))) = msg_of m') as El.
  { assert (GetHeaders (hdrs (msg_of m')) "Content-Length" <> []) as H
      by (subst m'; rewrite auto_hdrs; apply length_header_present).
    unfold length_header. cbn [with_hdrs hdrs]. destruct (GetHeaders _ _); [done |]. by destruct (msg_of m'). }
  unfold appendAutoHeaders at 1. rewrite Em.
  assert (forall f, f (msg_of m') = msg_of m' -> msg_map f m' = m') as Hid.
  { intros f. clear. destruct m' as [[? ? ?]|[? ? ? ?]]; cbn; intros E; unfold rq_map, rs_map; cbn; by rewrite E. }
  apply Hid. by rewrite Ea, Ec.
Qed.

(** ** Requests without a handler *)

(** The added headers take no part in the key. *)
Lemma auto_view order s m : view (hdrs (msg_of (appendAutoHeaders order s m))) = view (hdrs (msg_of m)).
Proof.
  unfold view, ViaHop_, Via, CSeq, From_, CallID. rewrite !auto_other by (by apply (bool_decide_unpack _)). done.
Qed.

Lemma prepareResponse_msg order s rs : MResponse (prepareResponse order s rs) = appendAutoHeaders order s (MResponse rs).
Proof. done. Qed.

Lemma prepared_dest order s rs : dest (rs_msg (prepareResponse order s rs)) = dest (rs_msg rs).
Proof. unfold prepareResponse. cbn. unfold length_header, SetBody. by repeat case_match. Qed.

Section theorems.

Context (spin : spinner) (envs : nat -> env) (uuid : nat -> bytes).

(** A request without a handler is answered in the transaction that holds its key. *)
Lemma handleRequest_unhandled order req s tx key n t rs :
  s_running s = true -> TxLayer.canceled (s_tx s) = false -> s_handlers s !! method req = None ->
  request_IsAck req = false -> wf_section (hdrs (rq_msg req)) -> MakeServerTxKey (hdrs (rq_msg req)) = Ok key ->
  TxLayer.holds_server (s_tx s) key n t ->
  NewResponseFromRequest (uuid 0) [] req 405 "Method Not Allowed" [] = Ok rs ->
  handleRequest spin envs uuid order req tx s =
  (l ← TxLayer.store_tx n key
         (TxLayer.TxServer (fst (ServerTx.Respond spin (envs n) (prepareResponse order s rs) t))) (s_tx s);
   Ok (set_tx l (set_hwg (s_hwg s - 1) s))).
Proof using.
  intros Hr Hc Hm Ha Hw Hk Hh Hrs. unfold handleRequest. cbn [set_hwg s_handlers]. rewrite Hm, Ha, Hrs. unfold Respond.
  cbn [set_hwg s_running s_tx]. rewrite Hr. unfold TxLayer.Respond. rewrite Hc.
  change (prepareResponse order (set_hwg (s_hwg s - 1) s) rs) with (prepareResponse order s rs).
  rewrite destined_shown by (rewrite prepared_dest; by eapply response_destined). cbn [mbind res_bind].
  rewrite (TxLayer.getServerTx_holds _ _ key n t); [| | done].
  - cbn [mbind res_bind]. destruct (ServerTx.Respond spin (envs n) (prepareResponse order s rs) t) as [t' ok]. cbn [fst].
    unfold TxLayer.store_tx. by destruct (TxLayer.tx_crashed _).
  - rewrite <- Hk. apply MakeServerTxKey_view.
    change (hdrs (rs_msg (prepareResponse order s rs))) with (hdrs (msg_of (appendAutoHeaders order s (MResponse rs)))).
    rewrite auto_view. by eapply response_view.
Qed.

(** A request of a method without a handler is answered 405 in its own
    transaction, with the headers of the server; an ACK is dropped; a request
    with a handler is given to it, together with its transaction. *)
Theorem request_routing order req s tx :
  s_running s = true -> TxLayer.canceled (s_tx s) = false ->
  (forall h, s_handlers s !! method req = Some h ->
   handleRequest spin envs uuid order req tx s = Ok (call_handler h req tx (set_hwg (s_hwg s - 1) s))) /\
  (s_handlers s !! method req = None ->
   (request_IsAck req = true -> handleRequest spin envs uuid order req tx s = Ok (set_hwg (s_hwg s - 1) s)) /\
   forall key n t rs,
     request_IsAck req = false -> wf_section (hdrs (rq_msg req)) -> MakeServerTxKey (hdrs (rq_msg req)) = Ok key ->
     TxLayer.holds_server (s_tx s) key n t ->
     NewResponseFromRequest (uuid 0) [] req 405 "Method Not Allowed" [] = Ok rs ->
     let answered := fst (ServerTx.Respond spin (envs n) (prepareResponse order s rs) t) in
     handleRequest spin envs uuid order req tx s =
     (l ← TxLayer.store_tx n key (TxLayer.TxServer answered) (s_tx s);
      Ok (set_tx l (set_hwg (s_hwg s - 1) s)))).
Proof using.
  intros Hr Hc. split; [unfold handleRequest; cbn [set_hwg s_handlers]; by intros h -> |]. intros Hm.
  split; [unfold handleRequest; cbn [set_hwg s_handlers]; by rewrite Hm; intros -> |].
  intros key n t rs Ha Hw Hk Hh Hrs. by apply handleRequest_unhandled.
Qed.

(** ** Shutdown *)

(** A server that was shut down sends nothing more: requests, responses and
    messages are refused and change nothing; both layers are canceled; a second
    shutdown does nothing. *)
Theorem shutdown_refuses s io d pick order rq rs m :
  s_running s = true ->
  let s' := Shutdown s in
  TxLayer.canceled (s_tx s') = true /\ TransportLayer.tpl_canceled (s_tp s') = true /\
  s_running s' = false /\ Shutdown s' = s' /\
  Request spin envs order rq s' = Err stopped /\ Respond spin envs order rs s' = Err stopped /\
  Send io d pick order m s' = Ok (s', m, Some (Transport.SipError stopped)).
Proof using. intros Hr. unfold Shutdown. rewrite Hr. by split_and!. Qed.

(** ** Running handlers *)

(** The server with the goroutines of [handleRequest] that have not returned:
    the loop takes an event, or a goroutine runs. *)
Inductive serving : server * list (request * option nat) -> server * list (request * option nat) -> Prop :=
| serving_event ev s s' gs new lvl on :
    serve ev s = (s', new, lvl, on) -> serving (s, gs) (s', gs ++ new)
| serving_handler order rq tx s s' before after :
    handleRequest spin envs uuid order rq tx s = Ok s' ->
    serving (s, before ++ (rq, tx) :: after) (s', before ++ after).

Lemma hwg_serve ev s s' new lvl on : serve ev s = (s', new, lvl, on) -> s_hwg s' = s_hwg s + length new.
Proof using.
  destruct ev as [[[? ?]|]|[?|]|[?|]|[?|]|[?|]]; intros [= <- <- <- <-]; unfold Shutdown;
    try destruct (s_running s); cbn; lia.
Qed.

Lemma hwg_handleRequest order rq tx s s' :
  handleRequest spin envs uuid order rq tx s = Ok s' -> s_hwg s' = s_hwg s - 1.
Proof using.
  unfold handleRequest. destruct (s_handlers _ !! _); [by intros [= <-] |].
  destruct (request_IsAck rq); [by intros [= <-] |].
  destruct (NewResponseFromRequest _ _ _ _ _ _); try done. unfold Respond.
  destruct (s_running _); [| by intros [= <-]].
  destruct (TxLayer.Respond _ _ _ _) as [[[? ?] ?]| |]; cbn; by intros [= <-].
Qed.

(** The wait group of the server counts the handlers that run, so the shutdown
    that waits for it waits for all of them and for nothing else. *)
Theorem handlers_counted s0 s gs : s_hwg s0 = 0 -> rtc serving (s0, []) (s, gs) -> s_hwg s = length gs.
Proof using.
  intros H0. change (rtc serving (s0, []) (s, gs) -> s_hwg (s, gs).1 = length (s, gs).2).
  generalize (s, gs). apply rtc_ind_r; [done |]. intros x y _ Hxy IH.
  destruct Hxy as [ev s1 s1' gs1 new lvl on E | order rq tx s1 s1' b a E]; cbn in *.
  - by rewrite (hwg_serve _ _ _ _ _ _ E), length_app, IH.
  - rewrite (hwg_handleRequest _ _ _ _ _ E), IH, !length_app. cbn. lia.
Qed.

End theorems.

(** ** Waiting for a response *)

Section waiting.

Context (uuid : nat -> bytes).

(** The first response of each status and reason. *)
Definition keep_new (prev : list response) (r : response) : list response :=
  if existsb (fun p => streq (response_key p) (response_key r)) prev then prev else prev ++ [r].

Definition distinct (cs : list response) : list response := foldl keep_new [] cs.

Lemma keep_new_keys prev r k :
  k ∈ response_key <$> keep_new prev r <-> k ∈ response_key <$> prev \/ k = response_key r.
Proof using.
  unfold keep_new. destruct (existsb _ prev) eqn:E.
  - apply existsb_exists in E as (p & Hp & Hk%streq_eq). split; [by left |]. intros [?| ->]; [done |].
    rewrite <- Hk. apply list_elem_of_fmap. exists p. split; [done |]. by apply list_elem_of_In.
  - rewrite fmap_app, elem_of_app. cbn. rewrite elem_of_cons. set_solver.
Qed.

Lemma keep_new_NoDup prev r : NoDup (response_key <$> prev) -> NoDup (response_key <$> keep_new prev r).
Proof using.
  intros Hn. unfold keep_new. destruct (existsb _ prev) eqn:E; [done |].
  rewrite fmap_app. apply NoDup_app. split; [done |]. split; [| apply NoDup_singleton].
  intros k Hk ->%list_elem_of_singleton. apply list_elem_of_fmap in Hk as (p & Hp & Hin).
  apply not_true_iff_false in E. apply E, existsb_exists. exists p. split; [by apply list_elem_of_In |].
  by apply streq_eq.
Qed.

Lemma distinct_spec cs prev :
  NoDup (response_key <$> prev) ->
  NoDup (response_key <$> foldl keep_new prev cs) /\
  (forall k, k ∈ response_key <$> foldl keep_new prev cs <-> k ∈ response_key <$> prev \/ k ∈ response_key <$> cs).
Proof using.
  revert prev. induction cs as [| c cs IH]; intros prev Hn; cbn; [set_solver |].
  destruct (IH (keep_new prev c)) as [H1 H2]; [by apply keep_new_NoDup |]. split; [done |].
  intros k. rewrite H2, keep_new_keys, elem_of_cons. naive_solver.
Qed.

Definition copied (r c : response) : Prop := CopyResponse (uuid 2) r = Ok c.

Lemma copied_status r c : copied r c -> status c = status r.
Proof using.
  unfold copied, CopyResponse, cloneResponse. destruct (response_Destination r); [| done | done]. by intros [= <-].
Qed.

Lemma await_provisional auth attempt rq ps cs outs prev last handled :
  Forall2 copied ps cs -> Forall (fun p => IsProvisional p = true) ps ->
  await uuid auth attempt rq (map OResponse ps ++ outs) prev last handled =
  await uuid auth attempt rq outs (foldl keep_new prev cs)
    (match list.last cs with Some c => Some c | None => last end) (handled ++ cs).
Proof using.
  intros Hc. revert prev last handled. induction Hc as [| p c ps cs Hpc _ IH]; intros prev last handled Hp.
  { cbn. by rewrite app_nil_r. }
  apply Forall_cons in Hp as [Hp Hps]. cbn [map app await]. rewrite Hpc. cbn [mbind res_bind].
  assert (IsProvisional c = true) as Ec by (unfold IsProvisional in *; by rewrite (copied_status p c)).
  rewrite Ec. rewrite IH by done. cbn [foldl]. rewrite <- app_assoc. cbn [app].
  f_equal. destruct cs as [| c' cs]; [done |]. rewrite last_cons_cons.
  by assert (is_Some (list.last (c' :: cs))) as [x ->] by (by apply last_is_Some).
Qed.

(** C18: A final response that comes after provisional ones decides the outcome of a
    request: a success is returned, a first challenge with an authorizer asks for an
    answer, anything else is an error of its status.  The response that is returned or
    put into the error carries one provisional response for each status and reason
    that came before; the one that is handed to the authorizer carries none of
    them. *)
Theorem request_outcome auth attempt rq ps cs f g rest :
  Forall2 copied ps cs -> Forall (fun p => IsProvisional p = true) ps -> copied f g -> IsProvisional f = false ->
  await uuid auth attempt rq (map OResponse ps ++ OResponse f :: rest) [] None [] =
    (if IsSuccess f then Ok (Ended (Answered (set_previous (distinct cs) g)), cs ++ [g])
     else if needs_auth attempt f && auth then Ok (Challenged g, cs ++ [g])
     else e ← NewRequestError uuid (status f) (reason g) rq (Some (set_previous (distinct cs) g));
          Ok (Ended (Failed e), cs ++ [g])) /\
  NoDup (response_key <$> distinct cs) /\
  forall k, k ∈ response_key <$> distinct cs <-> k ∈ response_key <$> cs.
Proof using.
  intros Hc Hp Hf Hn. split.
  - rewrite (await_provisional _ _ _ ps cs) by done. cbn [await]. rewrite Hf. cbn [mbind res_bind app].
    pose proof (copied_status f g Hf) as Es. unfold IsProvisional, IsSuccess, needs_auth in *. rewrite Es, Hn. done.
  - destruct (distinct_spec cs []) as [H1 H2]; [constructor |]. split; [done |]. intros k. rewrite H2. set_solver.
Qed.

Lemma bind_end {A} (x : res A) (k : A -> awaited * list response) a h :
  (y ← x; Ok (k y)) = Ok (a, h) -> exists y, k y = (a, h).
Proof using. destruct x as [y| |]; [| done | done]. cbn. intros [= E]. by exists y. Qed.

Lemma await_challenged auth attempt rq outs prev last handled r h :
  await uuid auth attempt rq outs prev last handled = Ok (Challenged r, h) ->
  needs_auth attempt r = true /\ auth = true.
Proof using.
  revert prev last handled. induction outs as [| [e| |p|] outs IH]; intros prev last handled; cbn; try done; eauto.
  - destruct (CopyResponse _ p) as [c| |]; [| done | done]. cbn. destruct (IsProvisional c); [by apply IH |].
    destruct (IsSuccess c); [done |]. destruct (needs_auth attempt c && auth) eqn:E; [by intros [= <- _]; simp_bool |].
    intros (f & Hf)%bind_end. done.
  - intros (f & Hf)%bind_end. done.
Qed.

(** What ends the wait for a transaction. *)
Definition final (o : output) : Prop :=
  match o with
  | OErr _ | OResponsesClosed => True
  | OErrsClosed => False
  | OResponse r => IsProvisional r = false
  end.

Lemma await_ends auth attempt rq outs prev last handled h :
  Exists final outs -> await uuid auth attempt rq outs prev last handled <> Ok (Ended Waiting, h).
Proof using.
  intros Hf. revert prev last handled.
  induction outs as [| o outs IH]; intros prev last handled; [by apply Exists_nil in Hf |].
  apply Exists_cons in Hf. destruct o as [e| |p|]; cbn [await].
  - done.
  - destruct Hf; [done | auto].
  - destruct (CopyResponse (uuid 2) p) as [c| |] eqn:Ec; [| done | done]. cbn [mbind res_bind].
    assert (IsProvisional c = IsProvisional p) as Ep by (unfold IsProvisional; by rewrite (copied_status p c)).
    rewrite Ep. destruct (IsProvisional p) eqn:Ev; [destruct Hf as [Hf|]; [unfold final in Hf; congruence | auto] |].
    destruct (IsSuccess c); [done |]. destruct (needs_auth _ _ && _); [done |]. by intros (f & Hf')%bind_end.
  - by intros (f & Hf')%bind_end.
Qed.

End waiting.

Section attempts.

Context (spin : spinner) (envs : nat -> env) (uuid : nat -> bytes).
Context (outs : nat -> list output) (auth : option (request -> response -> res request)).
Context (orders : nat -> list RequestMethod).

Lemma request_step fuel attempt rq s :
  requestWithContext spin envs uuid (S fuel) outs auth orders attempt rq s =
  match Request spin envs (orders attempt) rq s with
  | Panic => Panic
  | Err e => Ok (s, Failed (FError e), [], [])
  | Ok (n, s) =>
      let rq := tx_origin n rq s in
      '(a, handled) ← await uuid (isSome auth) attempt rq (outs n) [] None [];
      match a, auth with
      | Challenged r, Some authorize =>
          match authorize rq r with
          | Panic => Panic
          | Err e => Ok (s, Failed (FError e), [n], handled)
          | Ok rq =>
              '(s, o, ns, more) ← requestWithContext spin envs uuid fuel outs auth orders (S attempt) rq s;
              Ok (s, o, n :: ns, handled ++ more)
          end
      | Challenged _, None => Ok (s, Waiting, [n], handled)
      | Ended o, _ => Ok (s, o, [n], handled)
      end
  end.
Proof using. done. Qed.

(** The second attempt is the last. *)
Lemma second_attempt fuel rq s :
  requestWithContext spin envs uuid (S fuel) outs auth orders 2 rq s =
  requestWithContext spin envs uuid 1 outs auth orders 2 rq s.
Proof using.
  rewrite !request_step. cbv zeta. destruct (Request _ _ _ _ _) as [[n s1]| |]; [| done | done].
  destruct (await _ _ _ _ _ _ _ _) as [[[o|r] h]| |] eqn:E; [done | | done | done].
  apply await_challenged in E as [E _]. unfold needs_auth in E. by rewrite andb_false_r in E.
Qed.

Lemma second_attempt_length rq s s' o ns h :
  requestWithContext spin envs uuid 1 outs auth orders 2 rq s = Ok (s', o, ns, h) -> length ns <= 1.
Proof using.
  rewrite !request_step. cbv zeta. destruct (Request _ _ _ _ _) as [[n s1]| |]; [| by intros [= _ _ <- _]; cbn; lia | done].
  destruct (await _ _ _ _ _ _ _ _) as [[[o'|r] h']| |] eqn:E; cbn [mbind res_bind]; [by intros [= _ _ <- _] | | done | done].
  apply await_challenged in E as [E _]. unfold needs_auth in E. by rewrite andb_false_r in E.
Qed.

(** When every transaction ends, so does a request. *)
Lemma attempt_ends fuel attempt rq s s' o ns h :
  (forall n, Exists final (outs n)) -> 2 <= attempt + fuel ->
  requestWithContext spin envs uuid (S fuel) outs auth orders attempt rq s = Ok (s', o, ns, h) -> o <> Waiting.
Proof using.
  intros Hf. revert attempt rq s s' o ns h. induction fuel as [| fuel IH]; intros attempt rq s s' o ns h Ha.
  all: rewrite request_step; cbv zeta;
    (destruct (Request _ _ _ _ _) as [[n s1]| |]; [| by intros [= _ <- _ _] | done]);
    (destruct (await _ _ _ _ _ _ _ _) as [[[o'|r] h']| |] eqn:E; cbn [mbind res_bind];
     [intros [= _ <- _ _]; intros ->; by apply (await_ends uuid _ _ _ _ _ _ _ _ (Hf n)) in E | | done | done]).
  - apply await_challenged in E as [E _]. unfold needs_auth in E. simp_bool. apply Nat.ltb_lt in H0. lia.
  - pose proof E as [_ Eauth]%await_challenged. destruct auth as [authorize|]; [| done].
    destruct (authorize _ r) as [rq'| |]; [| by intros [= _ <- _ _] | done].
    destruct (requestWithContext _ _ _ (S fuel) _ _ _ _ _ _) as [[[[s2 o2] ns2] h2]| |] eqn:E2; [| done | done].
    cbn. intros [= _ <- _ _]. eapply IH, E2. lia.
Qed.

End attempts.

(** C17: A request with a response is sent at most twice and needs no third
    attempt, whatever the responses and the authorizer are; when its
    transactions end, the call returns with a response or an error. *)
Theorem request_two_attempts spin envs uuid outs auth orders fuel rq s s' o ns h :
  RequestWithContext spin envs uuid outs auth orders rq s = Ok (s', o, ns, h) ->
  requestWithContext spin envs uuid (2 + fuel) outs auth orders 1 rq s = Ok (s', o, ns, h) /\
  length ns <= 2 /\
  ((forall n, Exists final (outs n)) -> o <> Waiting).
Proof.
  unfold RequestWithContext. intros H. split_and!.
  - rewrite <- H. cbn [Nat.add]. rewrite !(request_step _ _ _ _ _ _ _ 1). cbv zeta.
    destruct (Request _ _ _ _ _) as [[n s1]| |]; [| done | done].
    destruct (await _ _ _ _ _ _ _ _) as [[[o'|r] h']| |]; try done. destruct auth; [| done].
    cbn [mbind res_bind]. destruct (r0 _ r) as [rq'| |]; [| done | done]. by rewrite second_attempt.
  - revert H. rewrite request_step. cbv zeta.
    destruct (Request _ _ _ _ _) as [[n s1]| |]; [| by intros [= _ _ <- _]; cbn; lia | done].
    destruct (await _ _ _ _ _ _ _ _) as [[[o'|r] h']| |]; cbn [mbind res_bind];
      [by intros [= _ _ <- _]; cbn; lia | | done | done].
    destruct auth as [authorize|]; [| by intros [= _ _ <- _]; cbn; lia].
    destruct (authorize _ r) as [rq'| |]; [| by intros [= _ _ <- _]; cbn; lia | done].
    destruct (requestWithContext _ _ _ 1 _ _ _ _ _ _) as [[[[s2 o2] ns2] h2]| |] eqn:E2; [| done | done].
    apply second_attempt_length in E2. cbn. intros [= _ _ <- _]. cbn. lia.
  - intros Hf. by eapply attempt_ends in H; [| done | lia].
Qed.


(** ** Examples *)

Definition quiet_server : server :=
  match NewServer (fun _ => Some ("10.0.0.1" : bytes)) None (mkConfig "sip.example.com" ["100rel"] []) with
  | Ok s => s
  | _ => mkServer false [] [] ∅ [] [] TxLayer.NewLayer (TransportLayer.NewLayer []) 0 []
  end.

(** Handlers for INVITE and MESSAGE. *)
Definition sample_server : server := OnRequest "MESSAGE" 2 (OnRequest INVITE 1 quiet_server).

Lemma sample_ranges : ranges ["MESSAGE"; INVITE] sample_server.
Proof.
  unfold ranges. assert ((map_to_list (s_handlers sample_server)).*1 = ["MESSAGE"; INVITE] \/
    (map_to_list (s_handlers sample_server)).*1 = [INVITE; "MESSAGE"]) as [-> | ->]
    by (vm_compute; first [by left | by right]); [done | by apply Permutation_swap].
Qed.

Lemma auto_headers_complete_witness :
  let m' := appendAutoHeaders ["MESSAGE"; INVITE] sample_server (MRequest sample_register) in
  allow_of sample_server (GetHeaders (hdrs (msg_of m')) "Allow") /\
  GetHeaders (hdrs (msg_of m')) "Allow" = [HAllow [INVITE; ACK; CANCEL; "MESSAGE"]] /\
  GetHeaders (hdrs (msg_of m')) "Content-Length" = [HContentLength 0].
Proof.
  intros m'.
  destruct (auto_headers_complete _ sample_server (MRequest sample_register) sample_ranges) as (_ & _ & Ha & _).
  split; [apply Ha; [by apply (bool_decide_unpack _) | vm_compute; reflexivity] |]. split; vm_compute; reflexivity.
Defined.

Lemma shutdown_refuses_witness :
  Request run_spin (fun _ => good_env) [] sample_register (Shutdown sample_server) = Err stopped.
Proof.
  destruct (shutdown_refuses run_spin (fun _ => good_env) sample_server
    (Protocols.mkNet (fun _ => inl (Transport.Plain [])) (fun _ => inl (Transport.Plain [])) (fun _ => Protocols.DialErr (Transport.Plain []))
       (fun _ => None) 0 0)
    (TransportLayer.mkDns (fun _ _ => None) (fun _ _ => None)) 0 [] sample_register trying (MRequest sample_register)
    eq_refl) as (_ & _ & _ & _ & H & _).
  exact H.
Defined.

(** The server after the transaction layer passed up a REGISTER, for which it
    has no handler. *)
Definition with_register : server :=
  match TxLayer.handleRequest run_spin (fun _ => good_env) (fun _ => false) (fun _ => "u") sample_register TxLayer.NewLayer with
  | Ok l => set_tx l (set_hwg 1 sample_server)
  | _ => sample_server
  end.

Definition register_tx : ServerTx.serverTx :=
  match TxLayer.txs (s_tx with_register) !! 0 with
  | Some (_, TxLayer.TxServer t) => t
  | _ => ServerTx.new_serverTx sample_register false
  end.

Lemma request_routing_witness :
  exists rs, NewResponseFromRequest "u" [] sample_register 405 "Method Not Allowed" [] = Ok rs /\
    handleRequest run_spin (fun _ => good_env) (fun _ => "u") ["MESSAGE"; INVITE] sample_register (Some 0) with_register =
    (l ← TxLayer.store_tx 0 "z9hG4bK776asdhds__pc33.atlanta.com__5066__REGISTER"
           (TxLayer.TxServer (fst (ServerTx.Respond run_spin good_env
              (prepareResponse ["MESSAGE"; INVITE] with_register rs) register_tx))) (s_tx with_register);
     Ok (set_tx l (set_hwg 0 with_register))).
Proof.
  destruct (NewResponseFromRequest "u" [] sample_register 405 "Method Not Allowed" []) as [rs| |] eqn:E.
  2, 3: exfalso; apply (f_equal (fun r => match r with Ok _ => true | _ => false end)) in E; vm_compute in E; discriminate.
  exists rs. split; [reflexivity |].
  apply (proj2 (proj2 (request_routing run_spin (fun _ => good_env) (fun _ => "u") ["MESSAGE"; INVITE] sample_register
    with_register (Some 0) ltac:(vm_compute; reflexivity) ltac:(vm_compute; reflexivity))
    ltac:(vm_compute; reflexivity))).
  - vm_compute. reflexivity.
  - apply wf_section_new, sample_wf_headers.
  - vm_compute. reflexivity.
  - split; vm_compute; reflexivity.
  - exact E.
Defined.

(** A challenge and its answer. *)
Definition challenge : response :=
  let r := sample_response sample_register 401 "Unauthorized" in
  rs_map (fun m => with_hdrs m (AppendHeader (hdrs m)
    (HGeneric "WWW-Authenticate" ("Digest realm=" ++ [DQUOTE] ++ "biloxi.com" ++ [DQUOTE] ++ ",nonce=" ++
       [DQUOTE] ++ "84a4cc6f3082121f32b42a2187831a9e" ++ [DQUOTE])))) r.

Definition register_outs (n : nat) : list output :=
  if n =? 0 then [OResponse reg_trying; OResponse challenge] else [OErrsClosed; OResponse reg_trying; OResponse reg_trying; OResponse registered].

Definition bob : option (request -> response -> res request) :=
  Some (fun rq rs => Auth.AuthorizeRequest "rnd2" rq rs (Some "bob") (Some "zanzibar")).

Definition register_run :=
  RequestWithContext run_spin (fun _ => good_env) (fun _ => "u") register_outs bob
    (fun _ => ["MESSAGE"; INVITE]) sample_register sample_server.

Definition register_ok (r : res (server * outcome * list nat * list response)) : bool :=
  match r with
  | Ok (_, Answered r, ns, _) => (status r =? 200)%N && bool_decide (ns = [0; 1])
  | _ => false
  end.

Lemma request_outcome_witness :
  exists c g, copied (fun _ => "u") reg_trying c /\ copied (fun _ => "u") registered g /\
    await (fun _ => "u") true 1 sample_register [OResponse reg_trying; OResponse reg_trying; OResponse registered] [] None [] =
      Ok (Ended (Answered (set_previous [c] g)), [c; c; g]).
Proof.
  destruct (CopyResponse "u" reg_trying) as [c| |] eqn:Ec.
  2, 3: exfalso; apply (f_equal (fun r => match r with Ok _ => true | _ => false end)) in Ec; vm_compute in Ec; discriminate.
  destruct (CopyResponse "u" registered) as [g| |] eqn:Eg.
  2, 3: exfalso; apply (f_equal (fun r => match r with Ok _ => true | _ => false end)) in Eg; vm_compute in Eg; discriminate.
  exists c, g. split; [exact Ec |]. split; [exact Eg |].
  destruct (request_outcome (fun _ => "u") true 1 sample_register [reg_trying; reg_trying] [c; c] registered g [])
    as [H _].
  - repeat constructor; exact Ec.
  - repeat constructor; vm_compute; reflexivity.
  - exact Eg.
  - vm_compute. reflexivity.
  - cbn [map app] in H. rewrite H. unfold distinct. cbn [foldl keep_new existsb app]. unfold keep_new at 1. cbn [existsb].
    rewrite streq_refl. reflexivity.
Defined.

(** The second REGISTER, with credentials, is accepted. *)
Lemma request_two_attempts_witness :
  exists s' r ns h, register_run = Ok (s', Answered r, ns, h) /\ status r = 200%N /\ length ns <= 2 /\ ns = [0; 1].
Proof.
  assert (register_ok register_run = true) as Ht by (vm_compute; reflexivity).
  revert Ht. unfold register_run.
  destruct (RequestWithContext _ _ _ _ _ _ _ _) as [[[[s' o] ns] h]| |] eqn:E; [| discriminate | discriminate].
  destruct (request_two_attempts run_spin (fun _ => good_env) (fun _ => "u") register_outs bob
    (fun _ => ["MESSAGE"; INVITE]) 0 sample_register sample_server s' o ns h E) as (_ & Hl & _).
  unfold register_ok. destruct o as [r| |]; [| discriminate | discriminate]. intros [H1 H2]%andb_prop.
  exists s', r, ns, h. split; [reflexivity |]. split; [by apply N.eqb_eq |]. split; [exact Hl | by apply bool_decide_eq_true in H2].
Defined.

End GosipTheorems.
