(* ===== verification/System.v ===== *)
(** * The whole stack: src/server.go over src/transaction and src/transport

    The server, its transaction layer and its transport layer as one system of
    goroutines: what the transport passes up is taken by [listenMessages], what
    the transaction layer passes up is taken by [serve], which starts handlers;
    what transactions send goes through [sipTransport] back to the transport.
    The channels between the layers are the lists the layers keep, with the number
    of values that were taken; a transaction's messages are handed to the
    transport in order, possibly later than the code's synchronous call, with the
    outcome the transaction went on with. *)

From S2P Require Import Prelude GoStrings Escape Params Headers HeaderStore Message ParserCommon Packet Stream TxKeys Fsm ClientTx ServerTx ServerInv TxLayer Transport ConnPool ListenPool Protocols TransportLayer TransportTheorems TransportReach Server GosipTheorems.
From stdpp Require Import options.
Import Params Headers HeaderStore Message Packet TxKeys Fsm Transport Protocols Server.

Module System.

(** ** The state *)

(** [seen], [requests] and [acks] count what [listenMessages] took of the
    messages and [serve] of the transactions and the ACKs; [handlers] are the
    goroutines of [handleRequest] that have not run; [handed] and [direct] count
    the messages of each transaction, and of the layer itself, that went to the
    transport. *)
Record system : Type := mkSystem {
  sy_server : server;
  sy_seen : nat;
  sy_requests : nat;
  sy_acks : nat;
  sy_handlers : list (request * option nat);
  sy_handed : gmap nat nat;
  sy_direct : nat
}.

Definition NewSystem (s : server) : system := mkSystem s 0 0 0 [] ∅ 0.

Definition set_server (s : server) (y : system) : system :=
  mkSystem s (sy_seen y) (sy_requests y) (sy_acks y) (sy_handlers y) (sy_handed y) (sy_direct y).

Definition messages (y : system) : list msg := TransportLayer.tpl_msgs (s_tp (sy_server y)).

(** What a transaction gave to [tpl.Send]. *)
Definition tx_sent (x : TxLayer.tx) : list msg :=
  match x with TxLayer.TxClient t => ClientTx.c_sent t | TxLayer.TxServer t => ServerTx.s_sent t end.

Definition handed (n : nat) (y : system) : nat := default 0 (sy_handed y !! n).

(** The request a server transaction was made for. *)
Definition origin (l : TxLayer.layer) (n : nat) : option request :=
  match TxLayer.txs l !! n with
  | Some (_, TxLayer.TxServer t) => Some (ServerTx.s_origin t)
  | _ => None
  end.

(** ** The goroutines *)

Section operations.

Context (spin : spinner) (envs : nat -> env) (uuid : nat -> bytes).

(** [listenMessages] takes the next message; a new request is taken by [serve], or
    the server is shut down while it waits. *)
Definition take_with (taken : bool) (y : system) : option (res system) :=
  match messages y !! sy_seen y with
  | None => None
  | Some m =>
      Some (l ← TxLayer.handle_message spin envs (IsReliable (sy_server y)) uuid taken m (s_tx (sy_server y));
            let s := set_tx l (sy_server y) in
            Ok (mkSystem (if taken then s else Shutdown s) (S (sy_seen y)) (sy_requests y) (sy_acks y)
                  (sy_handlers y) (sy_handed y) (sy_direct y)))
  end.

Definition take_message : system -> option (res system) := take_with true.

(** [serve] takes the next transaction, or the next ACK, and starts a handler. *)
Definition take_request (y : system) : option system :=
  n ← TxLayer.requests (s_tx (sy_server y)) !! sy_requests y;
  rq ← origin (s_tx (sy_server y)) n;
  let '(s, new, _, _) := serve (SRequest (Some (n, rq))) (sy_server y) in
  Some (mkSystem s (sy_seen y) (S (sy_requests y)) (sy_acks y) (sy_handlers y ++ new) (sy_handed y) (sy_direct y)).

Definition take_ack (y : system) : option system :=
  rq ← TxLayer.acks (s_tx (sy_server y)) !! sy_acks y;
  let '(s, new, _, _) := serve (SAck (Some rq)) (sy_server y) in
  Some (mkSystem s (sy_seen y) (sy_requests y) (S (sy_acks y)) (sy_handlers y ++ new) (sy_handed y) (sy_direct y)).

(** Goroutine [i] of [handleRequest] runs. *)
Definition run_handler (order : list RequestMethod) (i : nat) (y : system) : option (res system) :=
  '(rq, tx) ← sy_handlers y !! i;
  Some (s ← Server.handleRequest spin envs uuid order rq tx (sy_server y);
        Ok (mkSystem s (sy_seen y) (sy_requests y) (sy_acks y) (delete i (sy_handlers y)) (sy_handed y)
              (sy_direct y))).

(** [sipTransport.Send] of the next message of transaction [n]; the transaction
    saw an error exactly if there is one. *)
Definition hand_over (io : net) (d : TransportLayer.dns) (pick : nat) (order : list RequestMethod) (n : nat)
    (y : system) : option (res system) :=
  '(_, x) ← TxLayer.txs (s_tx (sy_server y)) !! n;
  m ← tx_sent x !! handed n y;
  match Server.Send io d pick order m (sy_server y) with
  | Ok (s, _, err) =>
      if Bool.eqb (isSome err) (isSome (e_send (envs n) (handed n y) m)) then
        Some (Ok (mkSystem s (sy_seen y) (sy_requests y) (sy_acks y) (sy_handlers y)
                    (<[n := S (handed n y)]> (sy_handed y)) (sy_direct y)))
      else None
  | Err e => Some (Err e)
  | Panic => Some Panic
  end.

(** ... and of the next 481 of the layer; an error is only logged. *)
Definition send_direct (io : net) (d : TransportLayer.dns) (pick : nat) (order : list RequestMethod)
    (y : system) : option (res system) :=
  m ← TxLayer.tpl_sent (s_tx (sy_server y)) !! sy_direct y;
  Some ('(s, _, _) ← Server.Send io d pick order m (sy_server y);
        Ok (mkSystem s (sy_seen y) (sy_requests y) (sy_acks y) (sy_handlers y) (sy_handed y) (S (sy_direct y)))).

(** The calls of the user; the loop of [serve] ends with a shutdown, too.  A request
    is a call and the steps of its rest, or one step when nothing comes between. *)
Inductive call : server -> server -> Prop :=
| call_request order r n s s' : Request spin envs order r s = Ok (n, s') -> call s s'
| call_begin order r n s s' : Request_begin spin envs order r s = Ok (n, s') -> call s s'
| call_respond order r n ok s s' : Respond spin envs order r s = Ok (n, s', ok) -> call s s'
| call_send io d pick order m m' e s s' : Send io d pick order m s = Ok (s', m', e) -> call s s'
| call_listen io network addr e s s' : Listen io network addr s = Ok (s', e) -> call s s'
| call_on_request m h s : call s (OnRequest m h s)
| call_shutdown s : call s (Shutdown s).

(** What happens inside a transaction without a message: a timer, a goroutine, a
    call of the user who holds it. *)
Definition own_event (ev : TxLayer.tx_event) : bool :=
  match ev with
  | TxLayer.EClient (ClientTx.CReceive _) | TxLayer.EServer (ServerTx.SReceive _) => false
  | _ => true
  end.

Context (err_text : error -> bytes) (mapper : msg -> msg) (ids : nat -> bytes).

Inductive step : system -> system -> Prop :=
| step_transport y l :
    TransportReach.goroutine err_text mapper ids (s_tp (sy_server y)) l ->
    step y (set_server (set_tp l (sy_server y)) y)
| step_take_message taken y y' : take_with taken y = Some (Ok y') -> step y y'
| step_listen_end y l :
    TxLayer.listen_end (s_tx (sy_server y)) = Some l -> step y (set_server (set_tx l (sy_server y)) y)
| step_request ev n y l :
    TxLayer.request_step ev n (s_tx (sy_server y)) = Some l -> step y (set_server (set_tx l (sy_server y)) y)
| step_take_request y y' : take_request y = Some y' -> step y y'
| step_take_ack y y' : take_ack y = Some y' -> step y y'
| step_handler order i y y' : run_handler order i y = Some (Ok y') -> step y y'
| step_hand_over io d pick order n y y' : hand_over io d pick order n y = Some (Ok y') -> step y y'
| step_direct io d pick order y y' : send_direct io d pick order y = Some (Ok y') -> step y y'
| step_tx n ev y l :
    own_event ev = true -> TxLayer.tx_step spin envs n ev (s_tx (sy_server y)) = Some (Ok l) ->
    step y (set_server (set_tx l (sy_server y)) y)
| step_serve_tx n y l :
    TxLayer.serve_step n (s_tx (sy_server y)) = Some l -> step y (set_server (set_tx l (sy_server y)) y)
| step_call y s : call (sy_server y) s -> step y (set_server s y).

End operations.

End System.
