(* ===== verification/SystemTheorems.v ===== *)
(** * What the whole stack guarantees

    Invariants of every state the system of System.v reaches: the layers stay in
    order, and each message the transport passed up leads to at most one call of
    a handler, with the transaction that was made for it. *)

From S2P Require Import Prelude GoStrings Escape Params Headers HeaderStore Message ParserCommon Packet Stream TxKeys Fsm ClientTx ServerTx ServerInv TxLayer Transport ConnPool ListenPool Protocols TransportLayer TransportTheorems TransportReach Server GosipTheorems System.
From stdpp Require Import options.
Import Params Headers HeaderStore Message Packet TxKeys Fsm Transport Protocols Server System.

Module SystemTheorems.

(** ** What the transport layer passed up only grows *)

Section transport.

Import TransportLayer.

Lemma msgs_getProtocol network l l' r : getProtocol network l = (l', r) -> tpl_msgs l' = tpl_msgs l.
Proof.
  unfold getProtocol, getOrPutNew. destruct (get _ l); [by intros [= <- _] |].
  destruct (protocolFactory _); by intros [= <- _].
Qed.

Lemma msgs_Listen io network addr l l' e : Listen io network addr l = Ok (l', e) -> tpl_msgs l' = tpl_msgs l.
Proof.
  unfold Listen. destruct (tpl_canceled l); [by intros [= <- _] |].
  destruct (getProtocol network l) as [l1 [x|p]] eqn:E; apply msgs_getProtocol in E as <-; [by intros [= <- _] |].
  destruct (NewTargetFromAddr addr); [| by intros [= <- _] | done].
  destruct (Protocols.Listen _ _ _) as [p' err]. unfold record_port.
  repeat case_match; intros [= <- _]; done.
Qed.

Lemma msgs_send_through io network t m p l l' m' e :
  send_through io network t m p l = Ok (l', m', e) -> tpl_msgs l' = tpl_msgs l.
Proof.
  unfold send_through. intros ([] & _ & H)%bind_Ok. destruct (Protocols.Send _ _ _ _) as [[p' x]| |]; try done.
  by injection H as <- _ _.
Qed.

Lemma msgs_Send io d pick m l l' m' e : Send io d pick m l = Ok (l', m', e) -> tpl_msgs l' = tpl_msgs l.
Proof.
  unfold Send. destruct (tpl_canceled l); [by intros [= <- _ _] |].
  destruct (ViaHop_ _) as [hop|]; [| by intros [= <- _ _]].
  destruct m as [rq|rs]; [unfold send_request | unfold send_response].
  - intros (network & _ & H)%bind_Ok.
    destruct (getProtocol network l) as [l1 [x|p]] eqn:E; apply msgs_getProtocol in E as <-; [by injection H as <- _ _ |].
    apply bind_Ok in H as (rq' & _ & (dest & _ & H)%bind_Ok).
    destruct (NewTargetFromAddr dest); [| by injection H as <- _ _ | done].
    apply bind_Ok in H as (t' & _ & (rq2 & _ & H)%bind_Ok). by eapply msgs_send_through.
  - destruct (getProtocol _ l) as [l1 [x|p]] eqn:E; apply msgs_getProtocol in E as <-; [by intros [= <- _ _] |].
    intros (dest & _ & H)%bind_Ok. destruct (NewTargetFromAddr dest); [| by injection H as <- _ _ | done].
    by eapply msgs_send_through.
Qed.

Lemma msgs_dispose l : tpl_msgs (dispose l) = tpl_msgs l.
Proof.
  unfold dispose. cbn. generalize (all l) as ps. intros ps. revert l.
  induction ps as [| p ps IH]; intros l; [done |]. cbn. rewrite IH. unfold drop_protocol. by destruct (get _ _).
Qed.

Lemma msgs_goroutine err_text mapper ids l l' :
  TransportReach.goroutine err_text mapper ids l l' -> tpl_msgs l `prefix_of` tpl_msgs l'.
Proof.
  destruct 1 as [| | | c m key p l _ _ | c e key p l _ _ | c e key p l _ _ | l _]; try done.
  - unfold handleMessage. destruct (_ && _); [done |]. by eexists.
  - unfold handlerError. by destruct (_ && _).
  - unfold handlerError. by destruct (_ && _).
  - by rewrite msgs_dispose.
Qed.

End transport.

(** ** What the transaction layer passes up *)

Section transactions.

Context (spin : spinner) `{!FsmSpin spin} (envs : nat -> env) (is_reliable : bytes -> bool) (uuid : nat -> bytes).

Lemma origin_Receive e m t : ServerTx.s_origin (fst (ServerTx.Receive spin e m t)) = ServerTx.s_origin t.
Proof using FsmSpin0.
  unfold ServerTx.Receive. destruct m as [q|r]; [| done].
  repeat case_match; try done; by rewrite (proj1 (ServerInv.Spin_keeps spin e _ _)).
Qed.

Lemma origin_Respond e r t : ServerTx.s_origin (fst (ServerTx.Respond spin e r t)) = ServerTx.s_origin t.
Proof using FsmSpin0.
  unfold ServerTx.Respond. case_match; [done |]. by rewrite (proj1 (ServerInv.Spin_keeps spin e _ _)).
Qed.

Lemma origin_delete t : ServerTx.s_origin (ServerTx.delete t) = ServerTx.s_origin t.
Proof using. unfold ServerTx.delete. by destruct (ServerTx.s_done t). Qed.

Lemma origin_Terminate t : ServerTx.s_origin (ServerTx.Terminate t) = ServerTx.s_origin t.
Proof using. unfold ServerTx.Terminate. case_match; [done | apply origin_delete]. Qed.

Lemma origin_step e ev t t' :
  ServerTx.server_step spin e ev t = Some t' -> ServerTx.s_origin t' = ServerTx.s_origin t.
Proof using FsmSpin0.
  unfold ServerTx.server_step. destruct (ServerTx.s_crashed t); [done |]. destruct ev as [m | r | | k | n].
  - intros [= <-]. apply origin_Receive.
  - intros [= <-]. apply origin_Respond.
  - intros [= <-]. apply origin_Terminate.
  - destruct (is_armed _); [| done]. intros [= <-]. by destruct k.
  - intros ([x rest] & _ & [= <-])%bind_Some. destruct x as [x|[i|]]; cbn.
    + by case_match.
    + by rewrite (proj1 (ServerInv.Spin_keeps spin e _ _)).
    + unfold ServerTx.respond_trying. destruct (NewResponseFromRequest _ _ _ _ _ _); try done.
      by rewrite origin_Respond.
Qed.

(** The requests and ACKs of the layer are those they were; the origins stay. *)
Record quiet (l l' : TxLayer.layer) : Prop := {
  q_requests : TxLayer.requests l' = TxLayer.requests l;
  q_acks : TxLayer.acks l' = TxLayer.acks l;
  q_next : TxLayer.next l <= TxLayer.next l';
  q_origin n rq : origin l n = Some rq -> origin l' n = Some rq
}.

Lemma quiet_refl l : quiet l l.
Proof using. by split. Qed.

Lemma quiet_set_tx n k x y l :
  TxLayer.txs l !! n = Some (k, y) ->
  (forall t, y = TxLayer.TxServer t -> exists t', x = TxLayer.TxServer t' /\ ServerTx.s_origin t' = ServerTx.s_origin t) ->
  quiet l (TxLayer.set_tx n k x l).
Proof using.
  intros Hn Hx. split; try done. intros m rq. unfold origin. cbn. rewrite lookup_insert. case_decide; [| done].
  subst m. rewrite Hn. destruct y as [c|t]; [done |]. destruct (Hx t eq_refl) as (t' & -> & Ho). congruence.
Qed.

Lemma quiet_store_tx n k x y l l' :
  TxLayer.txs l !! n = Some (k, y) ->
  (forall t, y = TxLayer.TxServer t -> exists t', x = TxLayer.TxServer t' /\ ServerTx.s_origin t' = ServerTx.s_origin t) ->
  TxLayer.store_tx n k x l = Ok l' -> quiet l l'.
Proof using. unfold TxLayer.store_tx. destruct (TxLayer.tx_crashed x); [done |]. intros ? ? [= <-]. by eapply quiet_set_tx. Qed.

Lemma quiet_tx_step n ev l l' : TxLayer.tx_step spin envs n ev l = Some (Ok l') -> quiet l l'.
Proof using FsmSpin0.
  unfold TxLayer.tx_step. destruct (TxLayer.txs l !! n) as [[k [t|t]]|] eqn:E; [| | done]; destruct ev as [ev|ev]; try done.
  - intros (t' & _ & [= Hs])%bind_Some. by eapply quiet_store_tx.
  - intros (t' & Ht & [= Hs])%bind_Some. eapply quiet_store_tx; [done | | done].
    intros t0 [= <-]. exists t'. split; [done |]. by eapply origin_step.
Qed.

Lemma quiet_serve_step n l l' : TxLayer.serve_step n l = Some l' -> quiet l l'.
Proof using.
  unfold TxLayer.serve_step. case_bool_decide; [| done]. destruct (TxLayer.txs l !! n) as [[k x]|] eqn:E; [| done].
  destruct (TxLayer.tx_done x); [intros [= <-]; by split |]. destruct (TxLayer.canceled l); [| done].
  intros [= <-]. destruct (quiet_set_tx n k (TxLayer.terminate x) x l E) as [? ? ? Ho]; [| by split].
  intros t ->. eexists. split; [done |]. apply origin_Terminate.
Qed.

Lemma origin_fresh l : TxLayer.wf_layer l -> origin l (TxLayer.next l) = None.
Proof using.
  intros Hw. unfold origin. destruct (TxLayer.txs l !! _) as [[k x]|] eqn:E; [| done]. apply (TxLayer.lw_txs _ Hw) in E. lia.
Qed.

Lemma quiet_alloc key x l : TxLayer.wf_layer l -> quiet l (TxLayer.alloc key x l).2.
Proof using.
  intros Hw. split; cbn; try done; [lia |]. intros n rq Hn.
  assert (n <> TxLayer.next l) as Hne by (intros ->; by rewrite origin_fresh in Hn).
  unfold origin in *. cbn. by rewrite lookup_insert_ne.
Qed.

Lemma quiet_trans l1 l2 l3 : quiet l1 l2 -> quiet l2 l3 -> quiet l1 l3.
Proof using. intros [] []. split; [congruence | congruence | lia | auto]. Qed.

Lemma quiet_Request_init r l n l' :
  TxLayer.wf_layer l -> TxLayer.Request_init spin envs is_reliable r l = Ok (n, l') -> quiet l l'.
Proof using.
  intros Hw. unfold TxLayer.Request_init. destruct (TxLayer.canceled l); [done |]. destruct (request_IsAck r); [done |].
  intros ([key t] & _ & H)%bind_Ok. destruct (ClientTx.Init _ _ _) as [t' [err|]]; [done |].
  pose proof (quiet_alloc key (TxLayer.TxClient t') l Hw) as Hq. destruct (TxLayer.alloc _ _ _) as [m l1].
  injection H as <- <-. destruct Hq. by split.
Qed.

Lemma quiet_request_step ev n l l' : TxLayer.request_step ev n l = Some l' -> quiet l l'.
Proof using.
  unfold TxLayer.request_step. destruct ev; destruct (TxLayer.calls l !! n) as [[|]|]; try done.
  - destruct (TxLayer.txs l !! n) as [[k x]|]; [| done]. intros [= <-]. by split.
  - destruct (TxLayer.txs l !! n), (TxLayer.listening l); try done; intros [= <-]; by split.
  - destruct (TxLayer.txs l !! n), (TxLayer.canceled l); try done; intros [= <-]; by split.
Qed.

Lemma quiet_Request r l n l' :
  TxLayer.wf_layer l -> TxLayer.Request spin envs is_reliable r l = Ok (n, l') -> quiet l l'.
Proof using.
  intros Hw (l1 & l2 & H1 & H2 & H3)%TxLayer.Request_steps.
  eapply quiet_trans; [by eapply quiet_Request_init |]. eapply quiet_trans; by eapply quiet_request_step.
Qed.

Lemma quiet_Respond r l n l' ok : TxLayer.Respond spin envs r l = Ok (n, l', ok) -> quiet l l'.
Proof using FsmSpin0.
  unfold TxLayer.Respond. destruct (TxLayer.canceled l); [done |].
  intros ([] & _ & ([[[m k] t]|] & E & H)%bind_Ok)%bind_Ok; [| done]. apply TxLayer.getServerTx_Some in E.
  pose proof (origin_Respond (envs m) r t) as Ho. destruct (ServerTx.Respond _ _ _ _) as [t' ok'].
  apply bind_Ok in H as (l1 & Hs & [= <- <- <-]). eapply quiet_store_tx; [exact E | | exact Hs].
  intros t0 [= <-]. by exists t'.
Qed.

(** A message adds at most one request with its transaction, or one ACK: the
    message itself. *)
Inductive passes (m : msg) (l l' : TxLayer.layer) : Prop :=
| passes_nothing : quiet l l' -> passes m l l'
| passes_request rq :
    m = MRequest rq -> TxLayer.requests l' = TxLayer.requests l ++ [TxLayer.next l] ->
    TxLayer.acks l' = TxLayer.acks l -> TxLayer.next l' = S (TxLayer.next l) ->
    origin l' (TxLayer.next l) = Some rq -> (forall n r, origin l n = Some r -> origin l' n = Some r) ->
    passes m l l'
| passes_ack rq :
    m = MRequest rq -> TxLayer.requests l' = TxLayer.requests l -> TxLayer.acks l' = TxLayer.acks l ++ [rq] ->
    TxLayer.next l' = TxLayer.next l -> (forall n r, origin l n = Some r -> origin l' n = Some r) ->
    passes m l l'.

Lemma passes_new taken rq l l' :
  TxLayer.wf_layer l -> TxLayer.new_server is_reliable taken rq l = Ok l' -> passes (MRequest rq) l l'.
Proof using.
  intros Hw. unfold TxLayer.new_server. destruct (ServerTx.NewServerTx is_reliable rq) as [[key t]| |] eqn:E; try done.
  - pose proof (quiet_alloc key (TxLayer.TxServer (ServerTx.Init t)) l Hw) as [_ _ _ Ho].
    cbn [TxLayer.alloc]. intros [= <-]. destruct taken; [| apply passes_nothing; split; try done; cbn; lia].
    apply (passes_request _ _ _ rq); try done.
    unfold origin. cbn. rewrite lookup_insert_eq. apply ServerTx.NewServerTx_Ok in E as (_ & _ & tr & _ & ->).
    unfold ServerTx.Init. by repeat case_match.
  - intros [= <-]. by apply passes_nothing, quiet_refl.
Qed.

Lemma passes_message taken m l l' :
  TxLayer.wf_layer l -> TxLayer.handle_message spin envs is_reliable uuid taken m l = Ok l' -> passes m l l'.
Proof using FsmSpin0.
  intros Hw. unfold TxLayer.handle_message. destruct (TxLayer.canceled l) eqn:Ec; [intros [= <-]; by apply passes_nothing, quiet_refl |].
  destruct m as [rq|rs].
  - unfold TxLayer.handle_request. rewrite Ec. destruct (TxLayer.getServerTx _ l) as [[[[n k] t]|]| |] eqn:E; try done.
    + apply TxLayer.getServerTx_Some in E. intros H. apply passes_nothing. eapply quiet_store_tx; [exact E | | exact H].
      intros t0 [= <-]. eexists. split; [done |]. apply origin_Receive.
    + destruct (request_IsAck rq).
      { intros [= <-]. destruct taken; [by apply (passes_ack _ _ _ rq) | apply passes_nothing; by split]. }
      destruct (request_IsCancel rq); [| by eapply passes_new].
      unfold TxLayer.reject_cancel. destruct (NewResponseFromRequest _ _ _ _ _ _); try done.
      intros [= <-]. apply passes_nothing. by split.
    + intros [= <-]. by apply passes_nothing, quiet_refl.
  - unfold TxLayer.handle_response. rewrite Ec. destruct (TxLayer.getClientTx _ l) as [[[[n k] t]|]| |] eqn:E; try done.
    + apply TxLayer.getClientTx_Some in E. intros H. apply passes_nothing. by eapply quiet_store_tx.
    + intros [= <-]. apply passes_nothing. by destruct taken; split.
    + intros [= <-]. by apply passes_nothing, quiet_refl.
Qed.

End transactions.

(** ** The invariant of the system *)

(** Requests given to a goroutine of [handleRequest], run or not. *)
Definition given (y : system) : list (request * option nat) :=
  ((fun c => (c.1.2, c.2)) <$> s_calls (sy_server y)) ++ sy_handlers y.

Definition waiting (y : system) : list nat := drop (sy_requests y) (TxLayer.requests (s_tx (sy_server y))).

(** The transactions and the requests that were passed up: given or waiting. *)
Definition numbers (y : system) : list nat := omap snd (given y) ++ waiting y.

Definition passed (y : system) : list request :=
  (given y).*1 ++ omap (origin (s_tx (sy_server y))) (waiting y) ++
  drop (sy_acks y) (TxLayer.acks (s_tx (sy_server y))).

Record system_ok (y : system) : Prop := {
  ok_tx : TxLayer.wf_layer (s_tx (sy_server y));
  ok_tp : TransportReach.layer_ok (s_tp (sy_server y));
  ok_hwg : s_hwg (sy_server y) = length (sy_handlers y);
  ok_seen : sy_seen y <= length (messages y);
  ok_requests : sy_requests y <= length (TxLayer.requests (s_tx (sy_server y)));
  ok_acks : sy_acks y <= length (TxLayer.acks (s_tx (sy_server y)));
  ok_once : NoDup (numbers y);
  ok_old n : n ∈ numbers y -> n < TxLayer.next (s_tx (sy_server y));
  ok_waiting n : n ∈ waiting y -> is_Some (origin (s_tx (sy_server y)) n);
  ok_given rq n : (rq, Some n) ∈ given y -> origin (s_tx (sy_server y)) n = Some rq;
  ok_passed : MRequest <$> passed y ⊆+ take (sy_seen y) (messages y)
}.

Lemma submseteq_NoDup {A} (l k : list A) : l ⊆+ k -> NoDup k -> NoDup l.
Proof. intros [k' ->]%submseteq_Permutation. by intros [? _]%NoDup_app. Qed.

Lemma omap_submseteq {A B} (f : A -> option B) (l k : list A) : l ⊆+ k -> omap f l ⊆+ omap f k.
Proof. intros [k' ->]%submseteq_Permutation. rewrite omap_app. by apply submseteq_inserts_r. Qed.

Lemma take_grows {A} n m (l k : list A) : n <= length l -> n <= m -> l `prefix_of` k -> take n l ⊆+ take m k.
Proof.
  intros Hn Hm [x ->]. rewrite <- (take_app_le l x), <- (take_drop n (take m (l ++ x))) by done.
  rewrite take_take, Nat.min_l by done. by apply submseteq_inserts_r.
Qed.

Lemma omap_quiet l l' (ns : list nat) :
  (forall n r, origin l n = Some r -> origin l' n = Some r) -> (forall n, n ∈ ns -> is_Some (origin l n)) -> omap (origin l') ns = omap (origin l) ns.
Proof.
  intros Hq. induction ns as [| n ns IH]; intros Hs; [done |].
  destruct (Hs n) as [rq Hn]; [set_solver |]. cbn. rewrite Hn, (Hq _ _ Hn). f_equal. apply IH. set_solver.
Qed.

(** A step that passes nothing new up, and gives to handlers what waited. *)
Lemma ok_rearranged y y' :
  system_ok y -> quiet (s_tx (sy_server y)) (s_tx (sy_server y')) ->
  TxLayer.wf_layer (s_tx (sy_server y')) -> TransportReach.layer_ok (s_tp (sy_server y')) ->
  s_hwg (sy_server y') = length (sy_handlers y') -> messages y `prefix_of` messages y' ->
  sy_seen y <= sy_seen y' <= length (messages y') ->
  sy_requests y' <= length (TxLayer.requests (s_tx (sy_server y'))) ->
  sy_acks y' <= length (TxLayer.acks (s_tx (sy_server y'))) ->
  numbers y' ⊆+ numbers y -> waiting y' ⊆ waiting y ->
  (forall rq n, (rq, Some n) ∈ given y' -> (rq, Some n) ∈ given y \/ origin (s_tx (sy_server y')) n = Some rq) ->
  passed y' ⊆+ (given y).*1 ++ omap (origin (s_tx (sy_server y'))) (waiting y) ++
    drop (sy_acks y) (TxLayer.acks (s_tx (sy_server y))) ->
  system_ok y'.
Proof.
  intros [Ht Hp Hh Hs Hr Ha Ho Hold Hw Hg Hpa] Hq Ht' Hp' Hh' Em [Es Es'] Hr' Ha' Hn Hwa Hgi Hps.
  split; try done.
  - by eapply submseteq_NoDup.
  - intros n Hin. apply (elem_of_submseteq _ (numbers y)) in Hin; [| done]. apply Hold in Hin. apply q_next in Hq. lia.
  - intros n Hin. destruct (Hw n (Hwa _ Hin)) as [rq Hrq]. exists rq. by apply Hq.
  - intros rq n [Hin|Hin]%Hgi; [| done]. apply Hq. by apply Hg.
  - etrans; [| by apply (take_grows (sy_seen y) _ (messages y))]. etrans; [| exact Hpa]. apply fmap_submseteq.
    unfold passed. by rewrite <- (omap_quiet _ _ _ (q_origin _ _ Hq) Hw).
Qed.

(** A step that changes the layers alone. *)
Lemma ok_quiet y s :
  system_ok y -> quiet (s_tx (sy_server y)) (s_tx s) -> TxLayer.wf_layer (s_tx s) -> TransportReach.layer_ok (s_tp s) ->
  s_hwg s = s_hwg (sy_server y) -> s_calls s = s_calls (sy_server y) ->
  TransportLayer.tpl_msgs (s_tp (sy_server y)) `prefix_of` TransportLayer.tpl_msgs (s_tp s) ->
  system_ok (set_server s y).
Proof.
  intros Hy Hq Ht Hp Eh Ec Em.
  assert (given (set_server s y) = given y) as Eg by (unfold given; cbn; by rewrite Ec).
  assert (waiting (set_server s y) = waiting y) as Ew by (unfold waiting; cbn; by rewrite (q_requests _ _ Hq)).
  apply (ok_rearranged y); try done.
  - cbn. rewrite Eh. apply Hy.
  - split; [done |]. etrans; [apply Hy | by apply prefix_length].
  - cbn. rewrite (q_requests _ _ Hq). apply Hy.
  - cbn. rewrite (q_acks _ _ Hq). apply Hy.
  - unfold numbers. by rewrite Eg, Ew.
  - by rewrite Ew.
  - rewrite Eg. auto.
  - unfold passed. rewrite Eg, Ew. cbn. by rewrite (q_acks _ _ Hq).
Qed.

(** *** The steps *)

Lemma ok_take_request y y' : system_ok y -> take_request y = Some y' -> system_ok y'.
Proof.
  intros Hy. unfold take_request. intros (n & Hn & (rq & Hrq & H)%bind_Some)%bind_Some. cbn in H.
  injection H as <-. set (y' := mkSystem _ _ _ _ _ _ _).
  assert (waiting y = n :: waiting y') as Ew by (unfold waiting; cbn; by apply drop_S).
  assert (given y' = given y ++ [(rq, Some n)]) as Eg by (unfold given; cbn; by rewrite app_assoc).
  apply (ok_rearranged y); try done; try apply Hy.
  - cbn. rewrite length_app, (ok_hwg _ Hy). cbn. lia.
  - split; [done | apply Hy].
  - cbn. apply lookup_lt_Some in Hn. lia.
  - unfold numbers. rewrite Ew, Eg, omap_app, <- app_assoc. done.
  - rewrite Ew. set_solver.
  - rewrite Eg. intros r m [Hin | [= -> ->]%list_elem_of_singleton]%elem_of_app; auto.
  - unfold passed. rewrite Ew, Eg, fmap_app, <- app_assoc. cbn. rewrite Hrq. done.
Qed.

Lemma ok_take_ack y y' : system_ok y -> take_ack y = Some y' -> system_ok y'.
Proof.
  intros Hy. unfold take_ack. intros (rq & Hrq & H)%bind_Some. cbn in H.
  injection H as <-. set (y' := mkSystem _ _ _ _ _ _ _).
  assert (given y' = given y ++ [(rq, None)]) as Eg by (unfold given; cbn; by rewrite app_assoc).
  apply (ok_rearranged y); try done; try apply Hy.
  - cbn. rewrite length_app, (ok_hwg _ Hy). cbn. lia.
  - split; [done | apply Hy].
  - cbn. apply lookup_lt_Some in Hrq. lia.
  - unfold numbers. rewrite Eg, omap_app. cbn. by rewrite app_nil_r.
  - rewrite Eg. intros r m [Hin | [=]%list_elem_of_singleton]%elem_of_app; auto.
  - unfold passed. rewrite Eg, fmap_app, <- app_assoc. cbn. rewrite (drop_S _ _ _ Hrq).
    apply submseteq_skips_l, Permutation_submseteq, Permutation_middle.
Qed.

Section steps.

Context (spin : spinner) `{!FsmSpin spin} (envs : nat -> env) (uuid : nat -> bytes).
Context (err_text : error -> bytes) (mapper : msg -> msg) (ids : nat -> bytes).

Definition saw (l : TxLayer.layer) (y : system) : system :=
  mkSystem (set_tx l (sy_server y)) (S (sy_seen y)) (sy_requests y) (sy_acks y) (sy_handlers y) (sy_handed y)
    (sy_direct y).

(** The message that was taken is the request that is passed up. *)
Lemma passed_one y l rq :
  system_ok y -> messages y !! sy_seen y = Some (MRequest rq) -> passed (saw l y) ≡ₚ passed y ++ [rq] ->
  MRequest <$> passed (saw l y) ⊆+ take (S (sy_seen y)) (messages (saw l y)).
Proof using.
  intros Hy Em ->. unfold messages. cbn. change (TransportLayer.tpl_msgs (s_tp (sy_server y))) with (messages y).
  erewrite take_S_r by exact Em. rewrite fmap_app. apply submseteq_skips_r, Hy.
Qed.

Lemma ok_saw_request y l rq :
  system_ok y -> TxLayer.wf_layer l -> messages y !! sy_seen y = Some (MRequest rq) ->
  TxLayer.requests l = TxLayer.requests (s_tx (sy_server y)) ++ [TxLayer.next (s_tx (sy_server y))] ->
  TxLayer.acks l = TxLayer.acks (s_tx (sy_server y)) -> TxLayer.next l = S (TxLayer.next (s_tx (sy_server y))) ->
  origin l (TxLayer.next (s_tx (sy_server y))) = Some rq ->
  (forall n r, origin (s_tx (sy_server y)) n = Some r -> origin l n = Some r) -> system_ok (saw l y).
Proof using.
  intros Hy Hw Em Er Ea En Eo Hk. pose proof (lookup_lt_Some _ _ _ Em) as Hs.
  pose proof Hy as [Ht Hp Hh _ Hr Ha Ho Hold Hwa Hg Hpa].
  assert (waiting (saw l y) = waiting y ++ [TxLayer.next (s_tx (sy_server y))]) as Ew.
  { unfold waiting. cbn. by rewrite Er, drop_app_le. }
  assert (numbers (saw l y) = numbers y ++ [TxLayer.next (s_tx (sy_server y))]) as Enum.
  { unfold numbers. by rewrite Ew, app_assoc. }
  split; cbn [saw set_tx sy_server s_tx s_tp s_hwg sy_handlers sy_seen sy_requests sy_acks]; try done.
  - rewrite Er, length_app. lia.
  - by rewrite Ea.
  - rewrite Enum. apply NoDup_app. split; [done |]. split; [| apply NoDup_singleton].
    intros n Hn%Hold ->%list_elem_of_singleton. lia.
  - rewrite Enum, En. intros n [Hn%Hold | ->%list_elem_of_singleton]%elem_of_app; lia.
  - rewrite Ew. intros n [[r Hn]%Hwa | ->%list_elem_of_singleton]%elem_of_app; eauto.
  - intros r n Hin. apply Hk. by apply Hg.
  - apply (passed_one _ _ rq Hy Em). unfold passed. rewrite Ew, omap_app. cbn.
    rewrite Eo, Ea, (omap_quiet _ _ _ Hk Hwa), <- !app_assoc.
    apply Permutation_app_head, Permutation_app_head, Permutation_cons_append.
Qed.

Lemma ok_saw_ack y l rq :
  system_ok y -> TxLayer.wf_layer l -> messages y !! sy_seen y = Some (MRequest rq) ->
  TxLayer.requests l = TxLayer.requests (s_tx (sy_server y)) ->
  TxLayer.acks l = TxLayer.acks (s_tx (sy_server y)) ++ [rq] -> TxLayer.next l = TxLayer.next (s_tx (sy_server y)) ->
  (forall n r, origin (s_tx (sy_server y)) n = Some r -> origin l n = Some r) -> system_ok (saw l y).
Proof using.
  intros Hy Hw Em Er Ea En Hk. pose proof (lookup_lt_Some _ _ _ Em) as Hs.
  pose proof Hy as [Ht Hp Hh _ Hr Ha Ho Hold Hwa Hg Hpa].
  assert (waiting (saw l y) = waiting y) as Ew by (unfold waiting; cbn; by rewrite Er).
  assert (numbers (saw l y) = numbers y) as Enum by (unfold numbers; by rewrite Ew).
  split; cbn [saw set_tx sy_server s_tx s_tp s_hwg sy_handlers sy_seen sy_requests sy_acks]; try done.
  - by rewrite Er.
  - rewrite Ea, length_app. lia.
  - by rewrite Enum.
  - by rewrite Enum, En.
  - rewrite Ew. intros n [r Hn]%Hwa. eauto.
  - intros r n Hin. apply Hk. by apply Hg.
  - apply (passed_one _ _ rq Hy Em). unfold passed. rewrite Ew. cbn.
    by rewrite Ea, (omap_quiet _ _ _ Hk Hwa), drop_app_le, !app_assoc.
Qed.

Lemma ok_saw_nothing y l :
  system_ok y -> TxLayer.wf_layer l -> sy_seen y < length (messages y) -> quiet (s_tx (sy_server y)) l -> system_ok (saw l y).
Proof using.
  intros Hy Hw Hs Hq. pose proof Hq as [Er Ea _ _].
  assert (waiting (saw l y) = waiting y) as Ew by (unfold waiting; cbn; by rewrite Er).
  apply (ok_rearranged y); try done; try apply Hy; cbn [saw set_tx sy_server s_tx sy_requests sy_acks].
  - unfold messages in *. cbn. lia.
  - rewrite Er. apply Hy.
  - rewrite Ea. apply Hy.
  - unfold numbers. by rewrite Ew.
  - by rewrite Ew.
  - auto.
  - unfold passed. rewrite Ew. cbn. by rewrite Ea.
Qed.

(** A handler that ran was called, or the request was answered or dropped. *)
Lemma handleRequest_server order rq tx s s' :
  TxLayer.wf_layer (s_tx s) -> Server.handleRequest spin envs uuid order rq tx s = Ok s' ->
  quiet (s_tx s) (s_tx s') /\ TxLayer.wf_layer (s_tx s') /\ s_tp s' = s_tp s /\
  (s_calls s' = s_calls s \/ exists h, s_calls s' = s_calls s ++ [(h, rq, tx)]).
Proof using FsmSpin0.
  intros Hw. unfold Server.handleRequest. cbn [set_hwg s_handlers].
  destruct (s_handlers s !! method rq) as [h|]; [intros [= <-]; split_and!; eauto using quiet_refl |].
  destruct (request_IsAck rq); [intros [= <-]; split_and!; eauto using quiet_refl |].
  destruct (NewResponseFromRequest _ _ _ _ _ _) as [rs| |]; try done. unfold Respond.
  destruct (s_running _); [| intros [= <-]; split_and!; eauto using quiet_refl].
  destruct (TxLayer.Respond _ _ _ _) as [[[n l] ok]| |] eqn:E; [| | done]; cbn; intros [= <-];
    [| split_and!; auto using quiet_refl].
  cbn in E. split_and!; try done; [by eapply quiet_Respond | | by left].
  eapply (TxLayer.wf_layer_step spin envs (fun _ => false) uuid); [by eapply TxLayer.ls_respond | done].
Qed.

Lemma ok_run_handler order i y y' : system_ok y -> run_handler spin envs uuid order i y = Some (Ok y') -> system_ok y'.
Proof using FsmSpin0.
  intros Hy. unfold run_handler. intros ([rq tx] & Hi & [= (s & Hs & [= <-])%bind_Ok])%bind_Some.
  pose proof (GosipTheorems.hwg_handleRequest _ _ _ _ _ _ _ _ Hs) as Hh. apply handleRequest_server in Hs as (Hq & Hw & Etp & Hc); [| apply Hy].
  set (y' := mkSystem _ _ _ _ _ _ _).
  assert (given y' ⊆+ given y) as Hg.
  { unfold given. cbn. destruct Hc as [-> | [h ->]].
    - apply submseteq_skips_l, submseteq_delete.
    - rewrite fmap_app, <- app_assoc. apply submseteq_skips_l. cbn. by rewrite <- delete_Permutation. }
  apply (ok_rearranged y); try done; try apply Hy; cbn [y' sy_server sy_handlers sy_requests sy_acks sy_seen].
  - rewrite Etp. apply Hy.
  - rewrite Hh, (ok_hwg _ Hy), length_delete by (by eexists). lia.
  - unfold messages. cbn. by rewrite Etp.
  - split; [done |]. unfold messages. cbn. rewrite Etp. apply Hy.
  - rewrite (q_requests _ _ Hq). apply Hy.
  - rewrite (q_acks _ _ Hq). apply Hy.
  - unfold numbers, waiting. cbn. rewrite (q_requests _ _ Hq). by apply submseteq_skips_r, omap_submseteq.
  - unfold waiting. cbn. by rewrite (q_requests _ _ Hq).
  - intros r n Hin. left. by eapply elem_of_submseteq.
  - unfold passed, waiting. cbn. rewrite (q_requests _ _ Hq), (q_acks _ _ Hq). by apply submseteq_skips_r, fmap_submseteq.
Qed.

Lemma ok_Send io d pick order m s s' m' e :
  TransportReach.layer_ok (s_tp s) -> Send io d pick order m s = Ok (s', m', e) ->
  s_tx s' = s_tx s /\ TransportReach.layer_ok (s_tp s') /\ s_hwg s' = s_hwg s /\ s_calls s' = s_calls s /\
  TransportLayer.tpl_msgs (s_tp s') = TransportLayer.tpl_msgs (s_tp s).
Proof using.
  intros Hl. unfold Send. destruct (s_running s); [| by intros [= <- _ _]].
  intros ([[l m1] e1] & H & [= <- <- <-])%bind_Ok. cbn. split_and!; try done.
  - by eapply TransportReach.lo_Send.
  - by eapply msgs_Send.
Qed.

(** The counters of what was sent play no part. *)
Lemma ok_counters y h n :
  system_ok y -> system_ok (mkSystem (sy_server y) (sy_seen y) (sy_requests y) (sy_acks y) (sy_handlers y) h n).
Proof using. by intros []; split. Qed.

Lemma ok_sent io d pick order m s' m' e y :
  system_ok y -> Send io d pick order m (sy_server y) = Ok (s', m', e) -> system_ok (set_server s' y).
Proof using.
  intros Hy H. apply ok_Send in H as (Et & Hp & Eh & Ec & Em); [| apply Hy].
  apply ok_quiet; try done; rewrite ?Et, ?Em; [apply quiet_refl | apply Hy | done].
Qed.

Lemma ok_call y s : system_ok y -> call spin envs (sy_server y) s -> system_ok (set_server s y).
Proof using FsmSpin0.
  intros Hy Hc. remember (sy_server y) as s0 eqn:E. destruct Hc as [order r n s0 s H | order r n s0 s H | order r n ok s0 s H
    | io d pick order m m' e s0 s H | io network addr e s0 s H | m h s | s]; subst s0 || subst s.
  - unfold Request in H. destruct (s_running _); [| done]. apply bind_Ok in H as ([n' l] & H & [= <- <-]).
    apply ok_quiet; try done; cbn; [by eapply quiet_Request, H; apply Hy | | apply Hy].
    eapply TxLayer.wf_Request, H. apply Hy.
  - unfold Request_begin in H. destruct (s_running _); [| done]. apply bind_Ok in H as ([n' l] & H & [= <- <-]).
    apply ok_quiet; try done; cbn; [by eapply quiet_Request_init, H; apply Hy | | apply Hy].
    eapply TxLayer.wf_Request_init, H. apply Hy.
  - unfold Respond in H. destruct (s_running _); [| done]. apply bind_Ok in H as ([[n' l] b] & H & [= <- <- <-]).
    apply ok_quiet; try done; cbn; [by eapply quiet_Respond | | apply Hy].
    eapply (TxLayer.wf_layer_step spin envs (fun _ => false) (fun _ => [])); [by eapply TxLayer.ls_respond | apply Hy].
  - by eapply ok_sent.
  - unfold Listen in H. apply bind_Ok in H as ([l e'] & H & [= <- <-]).
    apply ok_quiet; try done; cbn; [apply Hy | | by rewrite (msgs_Listen _ _ _ _ _ _ H)].
    eapply TransportReach.lo_Listen, H. apply Hy.
  - apply ok_quiet; try done; apply Hy.
  - unfold Shutdown. destruct (s_running _); apply ok_quiet; try done; try apply Hy;
      [apply TxLayer.wf_Cancel, Hy | apply TransportReach.lo_Cancel, Hy].
Qed.

Lemma ok_take_with taken y y' : system_ok y -> take_with spin envs uuid taken y = Some (Ok y') -> system_ok y'.
Proof using FsmSpin0.
  intros Hy. unfold take_with. destruct (messages y !! sy_seen y) as [m|] eqn:Em; [| done].
  intros [= (l & Hl & [= <-])%bind_Ok]. assert (system_ok (saw l y)) as H.
  2: { destruct taken; [exact H |]. apply (ok_call (saw l y) _ H), call_shutdown. }
  assert (TxLayer.wf_layer l) as Hw.
  { eapply (TxLayer.wf_layer_step spin envs _ uuid); [by eapply TxLayer.ls_message | apply Hy]. }
  pose proof (passes_message spin envs _ uuid taken m _ l (ok_tx _ Hy) Hl) as Hp.
  destruct Hp as [Hq | rq -> Er Ea En Eo Hk | rq -> Er Ea En Hk].
  - apply ok_saw_nothing; try done. by eapply lookup_lt_Some.
  - by apply (ok_saw_request _ _ rq).
  - by apply (ok_saw_ack _ _ rq).
Qed.

Lemma system_step_ok y y' : step spin envs uuid err_text mapper ids y y' -> system_ok y -> system_ok y'.
Proof using FsmSpin0.
  intros Hs Hy. destruct Hs as [y l H | taken y y' H | y l H | ev n y l H | y y' H | y y' H | order i y y' H | io d pick order n y y' H
    | io d pick order y y' H | n ev y l _ H | n y l H | y s H]; eauto using ok_take_with, ok_take_request, ok_take_ack,
      ok_run_handler, ok_call.
  - apply ok_quiet; try done; cbn; [apply Hy | | by eapply msgs_goroutine].
    eapply TransportReach.lo_goroutine; [done | apply Hy].
  - apply ok_quiet; try done; cbn; [| eapply TxLayer.wf_listen_end, H; apply Hy | apply Hy].
    unfold TxLayer.listen_end in H. destruct (TxLayer.canceled _); [| done]. injection H as <-. by split.
  - apply ok_quiet; try done; cbn; [by eapply quiet_request_step | | apply Hy].
    eapply TxLayer.wf_request_step, H. apply Hy.
  - unfold hand_over in H. apply bind_Some in H as ([k x] & _ & (m & _ & H)%bind_Some).
    destruct (Send _ _ _ _ _ _) as [[[s m'] e]| |] eqn:E; try done. destruct (Bool.eqb _ _); [| done].
    injection H as <-. apply (ok_counters (set_server s y)). by eapply ok_sent.
  - unfold send_direct in H. apply bind_Some in H as (m & _ & [= ([[s m'] e] & E & [= <-])%bind_Ok]).
    apply (ok_counters (set_server s y)). by eapply ok_sent.
  - apply ok_quiet; try done; cbn; [by eapply quiet_tx_step | | apply Hy].
    eapply (TxLayer.wf_layer_step spin envs (fun _ => false) uuid); [by eapply TxLayer.ls_tx | apply Hy].
  - apply ok_quiet; try done; cbn; [by eapply quiet_serve_step | | apply Hy].
    eapply (TxLayer.wf_layer_step spin envs (fun _ => false) uuid); [by eapply TxLayer.ls_serve | apply Hy].
Qed.

Lemma system_new_ok resolve self c s : NewServer resolve self c = Ok s -> system_ok (NewSystem s).
Proof using.
  unfold NewServer. intros ([host ip] & _ & [= <-])%bind_Ok. split; cbn; try done.
  - apply TxLayer.wf_NewLayer.
  - by apply NoDup_nil.
  - by intros n ?%elem_of_nil.
  - by intros n ?%elem_of_nil.
  - by intros rq n ?%elem_of_nil.
Qed.

Definition reaches : system -> system -> Prop := rtc (step spin envs uuid err_text mapper ids).

Lemma ok_reaches y y' : reaches y y' -> system_ok y -> system_ok y'.
Proof using FsmSpin0. induction 1; eauto using system_step_ok. Qed.

(** C1: Whatever the network, the timers and the users do, the handlers of the server
    get each message that the transport passed up at most once: the calls are a
    part of the messages, counted with multiplicity; no transaction is given to
    two calls, and each call has the request of its transaction; the wait group
    counts the handlers that have not run. *)
Theorem handlers_called_once resolve self c s y :
  NewServer resolve self c = Ok s -> reaches (NewSystem s) y ->
  (fun call => MRequest call.1.2) <$> s_calls (sy_server y) ⊆+ messages y /\
  NoDup (omap snd (s_calls (sy_server y))) /\
  (forall h rq n, (h, rq, Some n) ∈ s_calls (sy_server y) -> origin (s_tx (sy_server y)) n = Some rq) /\
  s_hwg (sy_server y) = length (sy_handlers y).
Proof using FsmSpin0.
  intros Hs Hr. assert (system_ok y) as Hy by (eapply ok_reaches; [exact Hr | by eapply system_new_ok]).
  assert (omap snd (s_calls (sy_server y)) = omap snd ((fun c => (c.1.2, c.2)) <$> s_calls (sy_server y))) as ->.
  { generalize (s_calls (sy_server y)). intros l. induction l as [| [[? ?] [?|]] l IH]; cbn; by rewrite ?IH. }
  split_and!.
  - transitivity (MRequest <$> (given y).*1).
    + unfold given. rewrite !fmap_app. apply submseteq_inserts_r. by rewrite <- !list_fmap_compose.
    + etrans; [| apply (submseteq_take _ (sy_seen y))]. etrans; [| apply Hy]. apply fmap_submseteq.
      by apply submseteq_inserts_r.
  - pose proof (ok_once _ Hy) as Hn. unfold numbers, given in Hn. rewrite omap_app, <- app_assoc in Hn.
    by apply NoDup_app in Hn as [Hn _].
  - intros h rq n Hin. apply Hy. unfold given. apply elem_of_app. left.
    apply list_elem_of_fmap. by exists (h, rq, Some n).
  - apply Hy.
Qed.

(** ... and both layers keep their invariants: the store of transactions is in
    order, so are protocols, pools and ports. *)
Theorem system_invariant resolve self c s y :
  NewServer resolve self c = Ok s -> reaches (NewSystem s) y ->
  TxLayer.wf_layer (s_tx (sy_server y)) /\ TransportReach.layer_ok (s_tp (sy_server y)).
Proof using FsmSpin0.
  intros Hs Hr. assert (system_ok y) as Hy by (eapply ok_reaches; [exact Hr | by eapply system_new_ok]). by split; apply Hy.
Qed.

End steps.

End SystemTheorems.
