(* ===== verification/Delivery.v ===== *)
(** * A request through the whole stack

    From a datagram to the handler of its method, or to the 405 that goes back to
    its sender: the runs of the system of System.v through parser, pool, transport
    layer, transaction layer and server. *)

From S2P Require Import Prelude GoStrings Escape Params Headers HeaderStore Message ParserCommon ParamsRoundTrip UriRoundTrip NoPanic Packet Stream StreamProofs HeaderRoundTrip TxKeys Fsm Samples ClientTx ServerTx ServerInv TxLayer ParserTheorems MessageRoundTrip Transport ConnPool ConnPoolTheorems ListenPool Protocols TransportLayer TransportTheorems TransportReach Server GosipTheorems System SystemTheorems.
From stdpp Require Import options.
Import Params Headers HeaderStore Message Packet TxKeys Fsm Samples MessageRoundTrip Transport TransportTheorems Protocols Server System SystemTheorems.

Module Delivery.

(** ** A datagram through the pool *)

Lemma blank_printed m : ConnPool.blank (msg_String m) = false.
Proof. rewrite msg_String_lines. unfold ConnPool.blank. rewrite !forallb_app. cbn. by rewrite andb_false_r. Qed.

Section delivery.

Context (spin : spinner) `{!FsmSpin spin} (envs : nat -> env) (uuid : nat -> bytes).
Context (err_text : error -> bytes) (mapper : msg -> msg) (ids : nat -> bytes).

(** A pool that serves, with a packet connection that reads. *)
Record pool_ready (q : ConnPool.pool) (n : nat) (h : ConnPool.handler) : Prop := {
  pr_alive : ConnPool.p_crashed q = false;
  pr_serving : ConnPool.p_serving q = ConnPool.SWait;
  pr_disposing : ConnPool.p_disposing q = ConnPool.DIdle;
  pr_handler : ConnPool.handlers q !! n = Some h;
  pr_packet : ConnPool.cn_streamed (ConnPool.h_conn h) = false;
  pr_reading : ConnPool.h_reader h = ConnPool.RReading;
  pr_open : ConnPool.h_closed h = false /\ ConnPool.h_done h = false
}.

(** A datagram is read, handed to the pool's goroutine, and passed up. *)
Definition datagram_events (n i : nat) (data raddr id : bytes) (now : Z) : list ConnPool.event :=
  [ConnPool.ERead n data raddr id; ConnPool.EHand n (ConnPool.FromTask i) now; ConnPool.EServeOut].

Lemma All_same q q' :
  ConnPool.store q' = ConnPool.store q ->
  (forall k, ConnPool.h_conn <$> ConnPool.handlers q' !! k = ConnPool.h_conn <$> ConnPool.handlers q !! k) ->
  ConnPool.All q' = ConnPool.All q.
Proof using.
  intros Hs Hh. unfold ConnPool.All. rewrite Hs.
  induction (map_to_list (ConnPool.store q)) as [| [k n] l IH]; [done |]. cbn. rewrite Hh.
  destruct (ConnPool.h_conn <$> _); cbn; by rewrite IH.
Qed.

Lemma conn_insert (q : gmap nat ConnPool.handler) n h h' k :
  q !! n = Some h -> ConnPool.h_conn h' = ConnPool.h_conn h ->
  ConnPool.h_conn <$> <[n := h']> q !! k = ConnPool.h_conn <$> q !! k.
Proof using. intros Hn He. rewrite lookup_insert. case_decide; [| done]. subst. rewrite Hn. cbn. by rewrite He. Qed.

Lemma datagram_pool q n h m raddr id now m' :
  pool_ready q n h -> clean_msg m ->
  Transport.handleMessage (ConnPool.Network (ConnPool.h_conn h)) false (ConnPool.cn_laddr (ConnPool.h_conn h)) raddr
    (received id m) = Ok (Some m') ->
  let q' := ConnPool.run err_text mapper ids
              (datagram_events n (length (ConnPool.h_tasks h)) (msg_String m) raddr id now) q in
  ConnPool.p_output q' = ConnPool.p_output q ++ [mapper m'] /\ ConnPool.All q' = ConnPool.All q.
Proof using.
  intros [Hc Hs Hd Hn Hp Hr [Ho Hf]] Hm Hh. unfold datagram_events, ConnPool.run. cbn [foldl].
  assert (ConnPool.run_step err_text mapper ids q (ConnPool.ERead n (msg_String m) raddr id) =
    ConnPool.set_handler n (ConnPool.set_tasks (ConnPool.h_tasks h ++ [ConnPool.SendMsg (mapper m')]) h) q) as ->.
  { unfold ConnPool.run_step, ConnPool.step, ConnPool.on_handler, ConnPool.read_packet.
    rewrite Hc, Hn, Hr, Ho, Hf, Hp, blank_printed, ParseMessage_printed by done.
    unfold ConnPool.handle_message. by rewrite Hp, Hh. }
  set (h1 := ConnPool.set_tasks _ h). set (q1 := ConnPool.set_handler n h1 q).
  assert (ConnPool.run_step err_text mapper ids q1 (ConnPool.EHand n (ConnPool.FromTask (length (ConnPool.h_tasks h))) now) =
    ConnPool.with_serving (ConnPool.SOut (mapper m'))
      (ConnPool.set_handler n (ConnPool.renew now (ConnPool.sent h1 (ConnPool.FromTask (length (ConnPool.h_tasks h))))) q1)) as ->.
  { unfold ConnPool.run_step, ConnPool.step. cbn [q1 ConnPool.set_handler ConnPool.with_store ConnPool.p_crashed
      ConnPool.p_serving ConnPool.p_disposing ConnPool.handlers]. rewrite Hc, Hs, Hd, lookup_insert_eq.
    cbn [ConnPool.pending h1 ConnPool.set_tasks ConnPool.h_tasks]. by rewrite lookup_app_r, Nat.sub_diag. }
  unfold ConnPool.run_step. cbn [ConnPool.with_serving ConnPool.set_handler ConnPool.with_store ConnPool.p_crashed q1].
  rewrite Hc. split; [done |].
  apply All_same; [done |]. intros k. cbn.
  rewrite (conn_insert _ _ h1); [by rewrite (conn_insert _ _ h) | by rewrite lookup_insert_eq |].
  unfold ConnPool.renew. by destruct (ConnPool.h_expiry _).
Qed.

(** *** ... and through the transport layer *)

Lemma put_same key p l : TransportLayer.get key l = Some p -> TransportLayer.put key p l = l.
Proof using.
  intros Hg. unfold TransportLayer.put, TransportLayer.set_protocols. destruct l; cbn in *. f_equal. by apply insert_id.
Qed.

Lemma put_again key p p' l : TransportLayer.put key p' (TransportLayer.put key p l) = TransportLayer.put key p' l.
Proof using.
  unfold TransportLayer.put, TransportLayer.set_protocols. cbn. by rewrite insert_insert_eq.
Qed.

Lemma get_put key p l : TransportLayer.get key (TransportLayer.put key p l) = Some p.
Proof using. apply lookup_insert_eq. Qed.

(** The goroutines of a pool, event by event. *)
Lemma goroutine_run key p evs l :
  TransportLayer.get key l = Some p ->
  Forall (fun ev => ConnPoolTheorems.is_put ev = false /\ TransportReach.is_cancel ev = false) evs ->
  rtc (TransportReach.goroutine err_text mapper ids) l
    (TransportLayer.put key (set_connections (ConnPool.run err_text mapper ids evs (connections p)) p) l).
Proof using.
  intros Hg Hevs. revert p l Hg. induction Hevs as [| ev evs [Hp Hc] _ IH]; intros p l Hg.
  - cbn. rewrite put_same; [done |]. rewrite Hg. by destruct p.
  - eapply rtc_l; [apply (TransportReach.step_connections _ _ _ key p ev l); [done | done | by rewrite Hc] |].
    set (p1 := set_connections _ p). specialize (IH p1 (TransportLayer.put key p1 l) (get_put _ _ _)).
    rewrite put_again in IH. exact IH.
Qed.

(** What a datagram leaves as it was. *)
Record same_sockets (p p' : protocol) : Prop := {
  ss_kind : pr_kind p' = pr_kind p;
  ss_all : ConnPool.All (connections p') = ConnPool.All (connections p);
  ss_written : written p' = written p
}.

Lemma datagram_layer key l p n h m raddr id m' :
  TransportLayer.get key l = Some p -> pool_ready (connections p) n h ->
  TransportLayer.tk_msgs (TransportLayer.taken_of key l) = length (ConnPool.p_output (connections p)) -> clean_msg m ->
  Transport.handleMessage (ConnPool.Network (ConnPool.h_conn h)) false (ConnPool.cn_laddr (ConnPool.h_conn h)) raddr
    (received id m) = Ok (Some m') ->
  exists l' p', rtc (TransportReach.goroutine err_text mapper ids) l l' /\
    TransportLayer.tpl_msgs l' = TransportLayer.tpl_msgs l ++ [mapper m'] /\
    TransportLayer.tpl_canceled l' = TransportLayer.tpl_canceled l /\
    TransportLayer.get key l' = Some p' /\ same_sockets p p'.
Proof using.
  intros Hg Hr Htk Hm Hh. destruct (datagram_pool _ _ _ _ _ _ 0 _ Hr Hm Hh) as [Hout Hall].
  set (evs := datagram_events _ _ _ _ _ _) in *. set (p' := set_connections (ConnPool.run err_text mapper ids evs (connections p)) p).
  exists (TransportLayer.took_message key (TransportLayer.handleMessage false (mapper m') (TransportLayer.put key p' l))), p'.
  split_and!.
  - eapply rtc_r.
    + apply (goroutine_run key p evs l Hg). unfold evs, datagram_events. by repeat apply Forall_cons_2.
    + apply (TransportReach.step_message _ _ _ false _ key p'); [apply get_put |].
      cbn [p' set_connections connections]. rewrite Hout.
      change (TransportLayer.taken_of key (TransportLayer.put key p' l)) with (TransportLayer.taken_of key l).
      by rewrite Htk, lookup_app_r, Nat.sub_diag.
  - unfold TransportLayer.handleMessage. by rewrite andb_false_r.
  - unfold TransportLayer.handleMessage. by rewrite andb_false_r.
  - unfold TransportLayer.handleMessage. rewrite andb_false_r. apply get_put.
  - by split.
Qed.

Lemma transport_runs y l :
  rtc (TransportReach.goroutine err_text mapper ids) (s_tp (sy_server y)) l ->
  reaches spin envs uuid err_text mapper ids y (set_server (set_tp l (sy_server y)) y).
Proof using.
  intros H. remember (s_tp (sy_server y)) as l0 eqn:E. revert y E. induction H as [l|l l1 l' Hs Hr IH]; intros y ->.
  - assert (set_server (set_tp (s_tp (sy_server y)) (sy_server y)) y = y) as -> by (by destruct y as [[] ? ? ? ? ? ?]). done.
  - eapply rtc_l; [by apply step_transport |]. by apply (IH (set_server (set_tp l1 (sy_server y)) y)).
Qed.

(** ** A request through the layers *)

(** A running server with nothing in its channels, and a socket that reads. *)
Record ready (y : system) (key : bytes) (p : protocol) (n : nat) (h : ConnPool.handler) : Prop := {
  rd_running : s_running (sy_server y) = true;
  rd_tx : TxLayer.canceled (s_tx (sy_server y)) = false;
  rd_seen : sy_seen y = length (messages y);
  rd_requests : sy_requests y = length (TxLayer.requests (s_tx (sy_server y)));
  rd_protocol : TransportLayer.get key (s_tp (sy_server y)) = Some p;
  rd_pool : pool_ready (connections p) n h;
  rd_taken : TransportLayer.tk_msgs (TransportLayer.taken_of key (s_tp (sy_server y))) =
    length (ConnPool.p_output (connections p))
}.

(** The request [r] comes in a datagram from [raddr]; [rq] is what the layers make
    of it; no transaction is waiting for it, and it starts one. *)
Record incoming (y : system) (h : ConnPool.handler) (r : request) (raddr id : bytes) (rq : request) (k : TxKey) : Prop := {
  in_clean : clean_msg (MRequest r);
  in_mapped : exists m', Transport.handleMessage (ConnPool.Network (ConnPool.h_conn h)) false
      (ConnPool.cn_laddr (ConnPool.h_conn h)) raddr (received id (MRequest r)) = Ok (Some m') /\
    mapper m' = MRequest rq;
  in_new : TxLayer.getServerTx (hdrs (rq_msg rq)) (s_tx (sy_server y)) = Ok None;
  in_key : MakeServerTxKey (hdrs (rq_msg rq)) = Ok k;
  in_shown : request_shown rq = Ok tt;
  in_method : request_IsAck rq = false /\ request_IsCancel rq = false
}.

(** The handler goroutine of the request has been started. *)
Record dispatched (y : system) (key : bytes) (p : protocol) (rq : request) (k : TxKey) (y' : system) : Prop := {
  dp_handlers : sy_handlers y' = sy_handlers y ++ [(rq, Some (TxLayer.next (s_tx (sy_server y))))];
  dp_tx : exists reliable, TxLayer.holds_server (s_tx (sy_server y')) k (TxLayer.next (s_tx (sy_server y)))
            (ServerInv.started rq reliable);
  dp_open : TxLayer.canceled (s_tx (sy_server y')) = false;
  dp_running : s_running (sy_server y') = true;
  dp_table : s_handlers (sy_server y') = s_handlers (sy_server y);
  dp_calls : s_calls (sy_server y') = s_calls (sy_server y);
  dp_handed : sy_handed y' = sy_handed y;
  dp_tp : TransportLayer.tpl_canceled (s_tp (sy_server y')) = TransportLayer.tpl_canceled (s_tp (sy_server y));
  dp_protocol : exists p', TransportLayer.get key (s_tp (sy_server y')) = Some p' /\ same_sockets p p'
}.

Lemma NewServerTx_started is_reliable rq k :
  MakeServerTxKey (hdrs (rq_msg rq)) = Ok k -> request_shown rq = Ok tt ->
  exists tr, ServerTx.NewServerTx is_reliable rq = Ok (k, ServerTx.new_serverTx rq (is_reliable tr)).
Proof using.
  unfold ServerTx.NewServerTx. intros -> Hs. pose proof Hs as (tr & Ht & _)%bind_Ok. exists tr. by rewrite Hs, Ht.
Qed.

Lemma request_dispatched y key p n h r raddr id rq k :
  ready y key p n h -> incoming y h r raddr id rq k ->
  exists y', reaches spin envs uuid err_text mapper ids y y' /\ dispatched y key p rq k y'.
Proof using.
  intros [Hr Hc Hs Hq Hg Hp Htk] [Hm (m' & Hh & Hmap) Hnew Hk Hshown [Hack Hcan]].
  destruct (datagram_layer key (s_tp (sy_server y)) p n h _ raddr id m' Hg Hp Htk Hm Hh)
    as (l' & p' & Hrun & Hmsgs & Htc & Hg' & Hss). rewrite Hmap in Hmsgs.
  set (y1 := set_server (set_tp l' (sy_server y)) y).
  destruct (NewServerTx_started (IsReliable (sy_server y1)) rq k Hk Hshown) as [tr Htr].
  destruct (TxLayer.handleRequest_new spin envs (IsReliable (sy_server y1)) uuid rq (s_tx (sy_server y)) k
    (ServerTx.new_serverTx rq (IsReliable (sy_server y1) tr)) Hc Hnew Hack Hcan)
    as (l2 & Hreq & Hhold & Hreqs & Hc2 & _); [exact Htr |].
  set (y2 := saw l2 y1).
  assert (take_message spin envs uuid y1 = Some (Ok y2)) as H2.
  { unfold take_message, take_with. assert (messages y1 !! sy_seen y1 = Some (MRequest rq)) as ->.
    { unfold messages. cbn. rewrite Hmsgs, Hs. unfold messages. by rewrite lookup_app_r, Nat.sub_diag. }
    unfold TxLayer.handle_message. change (s_tx (sy_server y1)) with (s_tx (sy_server y)). rewrite Hc.
    unfold TxLayer.handleRequest in Hreq. by rewrite Hreq. }
  assert (exists y3, take_request y2 = Some y3 /\ sy_handlers y3 = sy_handlers y ++ [(rq, Some (TxLayer.next (s_tx (sy_server y))))] /\
    s_tx (sy_server y3) = l2 /\ s_tp (sy_server y3) = l' /\ sy_handed y3 = sy_handed y /\
    s_running (sy_server y3) = true /\ s_handlers (sy_server y3) = s_handlers (sy_server y) /\
    s_calls (sy_server y3) = s_calls (sy_server y)) as (y3 & H3 & E1 & E2 & E3 & E4 & E5 & E6 & E7).
  { unfold take_request. change (s_tx (sy_server y2)) with l2. change (sy_requests y2) with (sy_requests y).
    assert (origin l2 (TxLayer.next (s_tx (sy_server y))) = Some rq) as Ho.
    { unfold origin. destruct Hhold as [_ ->]. f_equal. apply (ServerInv.started_facts rq _). }
    rewrite Hreqs, Hq, lookup_app_r, Nat.sub_diag by done. cbn. rewrite Ho. cbn. eexists. by split_and!. }
  exists y3. split.
  - etrans; [by apply transport_runs |]. fold y1. eapply rtc_l; [by apply (step_take_message _ _ _ _ _ _ true) |].
    by eapply rtc_once, step_take_request.
  - split; try done; rewrite ?E2, ?E3; try done; by eauto.
Qed.

(** C11: A request can reach its handler.  Take a running server whose channels are
    drained, with a packet socket that is idle and reading, and a handler for the
    method of the request; a datagram with the text that the library prints for a
    clean request, which is no ACK or CANCEL, starts a transaction (its key can be
    made and is not in the store) and has fields that can be logged.  Then there is
    a run of the goroutines of the system in which that handler is called once more,
    with the request as the layers have completed it and the number of its
    transaction. *)
Theorem datagram_reaches_handler y key p n h r raddr id rq k f :
  ready y key p n h -> incoming y h r raddr id rq k -> s_handlers (sy_server y) !! method rq = Some f ->
  exists y', reaches spin envs uuid err_text mapper ids y y' /\
    s_calls (sy_server y') = s_calls (sy_server y) ++ [(f, rq, Some (TxLayer.next (s_tx (sy_server y))))].
Proof using.
  intros Hr Hi Hf. destruct (request_dispatched _ _ _ _ _ _ _ _ _ _ Hr Hi) as (y1 & H1 & [Hh Ht Ho Hru Hta Hca Hha Htp Hpr]).
  eexists. split; [eapply rtc_r; [exact H1 |]; apply (step_handler _ _ _ _ _ _ [] (length (sy_handlers y))) |].
  - unfold run_handler. rewrite Hh, lookup_app_r, Nat.sub_diag by done. cbn. unfold Server.handleRequest.
    cbn [set_hwg s_handlers]. rewrite Hta, Hf. done.
  - cbn. by rewrite Hca.
Qed.

(** ** The answer to a request without a handler *)

(** An order in which Go may range over the handlers. *)
Definition range_of (s : server) : list RequestMethod := (map_to_list (s_handlers s)).*1.

(** The first response of a new transaction is sent. *)
Lemma started_responds e rq reliable rs :
  (300 <= status rs)%N -> e_send e 0 (MResponse rs) = None ->
  let t := fst (ServerTx.Respond spin e rs (ServerInv.started rq reliable)) in
  ServerTx.s_sent t = [MResponse rs] /\ ServerTx.s_crashed t = false.
Proof using FsmSpin0.
  intros Hst He t. unfold t, ServerTx.Respond. destruct (ServerInv.started_facts rq reliable)
    as (Ho & Hrel & _ & Hd & Hc & Hf & _ & _ & _ & _). 
  assert (ServerTx.s_sent (ServerInv.started rq reliable) = []) as Hs.
  { unfold ServerInv.started, ServerTx.Init. by repeat case_match. }
  destruct (response_IsCancel rs); [cbn; by rewrite Hs, Hc |].
  set (x := ServerTx.set_timer_1xx None _).
  assert (ServerTx.s_sent x = [] /\ ServerTx.s_crashed x = false /\ ServerTx.s_lastResp x = Some rs /\
    ServerTx.s_fsm x = ServerTx.initial_state rq /\ ServerTx.s_origin x = rq) as (X1 & X2 & X3 & X4 & X5) by done.
  clearbody x.
  assert (ServerTx.response_input rs = ServerTx.server_input_user_300_plus) as ->.
  { unfold ServerTx.response_input, IsProvisional, IsSuccess.
    repeat match goal with |- context [(?a <? ?b)%N] => destruct (N.ltb_spec a b) end;
    repeat match goal with |- context [(?a <=? ?b)%N] => destruct (N.leb_spec a b) end; try done; lia. }
  assert (exists c act, ServerTx.server_fsm e x (ServerTx.s_fsm x) ServerTx.server_input_user_300_plus = Some (c, act) /\
    exists t', act x = (t', None) /\ ServerTx.s_sent t' = [MResponse rs] /\ ServerTx.s_crashed t' = false)
    as (c & act & Hfsm & t' & Hact & H1 & H2).
  { unfold ServerTx.server_fsm, ServerTx.initial_state in *. rewrite X4, X5.
    destruct (IsInvite rq); do 2 eexists; (split; [reflexivity |]);
      unfold ServerTx.act_respond_complete, ServerTx.act_final, ServerTx.send_last, ServerTx.Send;
      rewrite X3, X1; cbn [length]; rewrite He; eexists; (split; [reflexivity |]); cbn; [| by rewrite X2].
    unfold ServerTx.start_timer_h, ServerTx.start_timer_g. by repeat case_match; cbn; rewrite X2. }
  rewrite (ServerInv.Spin_one spin e _ _ _ _ _ Hfsm Hact). cbn. by rewrite H1, H2.
Qed.

(** A socket of the UDP protocol: stored, with the key of its port. *)
Record socket (p : protocol) (n : nat) (h : ConnPool.handler) (lhost : bytes) (lport : N) : Prop := {
  sk_stored : ConnPool.store (connections p) !! udp_key lport = Some n;
  sk_handler : ConnPool.handlers (connections p) !! n = Some h;
  sk_key : ConnPool.cn_key (ConnPool.h_conn h) = udp_key lport;
  sk_network : ConnPool.Network (ConnPool.h_conn h) = "UDP";
  sk_laddr : SplitHostPort (ConnPool.cn_laddr (ConnPool.h_conn h)) = Ok (lhost, show_N lport)
}.

Lemma socket_found p n h lhost lport :
  socket p n h lhost lport -> exists c, c ∈ ConnPool.All (connections p) /\ ConnPool.cn_key c = udp_key lport.
Proof using.
  intros [Hs Hh Hk _ _]. exists (ConnPool.h_conn h). split; [| done]. unfold ConnPool.All.
  apply list_elem_of_omap. exists (udp_key lport, n). split; [by apply elem_of_map_to_list |]. cbn. by rewrite Hh.
Qed.

(** A response whose source is a socket of the protocol is written there. *)
Lemma udp_Send_writes io p l0 t rs a lhost lport :
  pr_kind p = UDP -> ConnPool.All (connections p) = l0 -> Forall TransportReach.udp_keyed l0 ->
  (exists c, c ∈ l0 /\ ConnPool.cn_key c = udp_key lport) ->
  TrimSpace (t_Host t) <> [] -> is_Some (t_Port t) -> n_resolve io (Addr t) = inr a ->
  SplitHostPort (src (rs_msg rs)) = Ok (lhost, show_N lport) -> n_write io (udp_key lport) = None ->
  Protocols.Send io t (MResponse rs) p = Ok (write (udp_key lport) (a_text a) (msg_String (MResponse rs)) p, None).
Proof using.
  intros Hk <- Hall Hin Ht [port Hport] Hres Hsrc Hwr. destruct (TransportReach.find_port_found lport _ Hall Hin) as (c & Hf & Hck).
  unfold Protocols.Send. rewrite Hk. unfold udp_Send.
  assert (FillTargetHostAndPort (Network p) t = t) as ->.
  { unfold FillTargetHostAndPort. destruct t as [host pt]; cbn [t_Host t_Port] in *. rewrite Hport.
    by destruct (TrimSpace host). }
  assert (streq (t_Host t) "" = false) as -> by (apply streq_neq; intros E; apply Ht; by rewrite E).
  rewrite Hres. cbn [msg_Source mbind res_bind]. rewrite Hsrc, Hf. cbn [mbind res_bind]. by rewrite Hck, Hwr.
Qed.

(** What [handleMessage] of the connection writes into a request. *)
Lemma arrived network laddr rhost rport r hop ps rq :
  network <> [] -> plain_host rhost = true -> (rport < 2 ^ 16)%N ->
  ViaHop_ (hdrs (rq_msg r)) = Some hop -> vh_params hop = Some ps ->
  (forall p, Port hop = Some p -> (p < 2 ^ 16)%N) ->
  Transport.handleMessage network false laddr (rhost ++ ":" ++ show_N rport) (MRequest r) = Ok (Some (MRequest rq)) ->
  dest (rq_msg rq) = laddr /\ tp (rq_msg rq) = ToUpper network /\ src (rq_msg rq) <> [] /\
  NewTargetFromAddr (src (rq_msg rq)) = Ok (TransportTheorems.way_back network false rhost rport hop).
Proof using.
  intros Hn Hh Hp Hv Hps Hb. unfold Transport.handleMessage.
  rewrite TransportTheorems.SplitHostPort_plain by auto using show_N_all_digits. cbn [msg_map rq_map rq_msg hdrs SetDestination].
  pose proof (received_source_target network false rhost rport hop ps Hh Hp Hps Hb) as Ht.
  rewrite Hv, Hps. set (source := received_source _ _ _ _ _ _) in *. clearbody source. intros [= <-]. cbn.
  split_and!; try done. intros ->. discriminate Ht.
Qed.

Lemma wf_top_hop hs hop : wf_section hs -> ViaHop_ hs = Some hop -> wf_params (vh_params hop).
Proof using.
  intros Hw. unfold ViaHop_, Via, GetHeaders. pose proof (wf_section_list hs (ToLower "Via") Hw) as Hl.
  destruct (lookup_list _ _) as [| h l]; [done |]. apply Forall_cons in Hl as [Hh _].
  destruct h as [| | | | | | | | |[| hop' hops]| | | | | | | | | | | | |]; try done.
  intros [= <-]. by apply Forall_cons in Hh as [Hh _].
Qed.

Lemma arrived_section network laddr raddr r rq :
  Transport.handleMessage network false laddr raddr (MRequest r) = Ok (Some (MRequest rq)) ->
  wf_section (hdrs (rq_msg r)) -> wf_section (hdrs (rq_msg rq)).
Proof using.
  intros H Hw. unfold Transport.handleMessage in H. destruct (match SplitHostPort raddr with Ok _ => _ | _ => _ end) as [rhost rport].
  cbn [msg_map rq_map rq_msg hdrs SetDestination] in H. destruct (ViaHop_ (hdrs (rq_msg r))) as [hop|] eqn:Ev; [| done].
  pose proof (wf_top_hop _ _ Hw Ev) as Hp. destruct (vh_params hop) as [ps|]; [| done].
  assert (wf (received_params rhost rport hop ps)) as Hr.
  { unfold received_params. repeat case_match; auto using wf_Add. }
  set (ps' := received_params _ _ _ _) in *. set (source := received_source _ _ _ _ _ _) in H.
  clearbody ps' source. injection H as <-. cbn. apply wf_section_update; [done | |].
  - intros h. by destruct h as [| | | | | | | | |[| hop' hops]| | | | | | | | | | | | |].
  - intros h. destruct h as [| | | | | | | | |[| hop' hops]| | | | | | | | | | | | |]; try done.
    cbn. intros [_ Hh]%Forall_cons. by apply Forall_cons_2.
Qed.

(** The answer to a request that has its addresses. *)
Lemma answer_built u id rq code rsn b :
  tp (rq_msg rq) <> [] -> src (rq_msg rq) <> [] -> dest (rq_msg rq) <> [] ->
  exists rs, NewResponseFromRequest u id rq code rsn b = Ok rs /\ status rs = code /\
    tp (rs_msg rs) = ToUpper (tp (rq_msg rq)) /\ src (rs_msg rs) = dest (rq_msg rq) /\ dest (rs_msg rs) = src (rq_msg rq).
Proof using.
  intros Ht Hs Hd. unfold NewResponseFromRequest.
  assert (request_Transport rq = Ok (ToUpper (tp (rq_msg rq)))) as -> by (unfold request_Transport; by destruct (tp _)).
  assert (request_Source rq = Ok (src (rq_msg rq))) as -> by (unfold request_Source; by destruct (src _)).
  assert (request_Destination rq = Ok (dest (rq_msg rq))) as -> by (unfold request_Destination; by destruct (dest _)).
  eexists. split; [reflexivity |]. cbn. by rewrite ToUpper_idem.
Qed.

Lemma length_header_fields x :
  tp (length_header x) = tp x /\ src (length_header x) = src x /\ dest (length_header x) = dest x.
Proof using. unfold length_header, SetBody. repeat case_match; by cbn. Qed.

(** The server's headers leave the rest of a response alone. *)
Lemma prepared_fields order s rs :
  let r := prepareResponse order s rs in
  status r = status rs /\ tp (rs_msg r) = tp (rs_msg rs) /\ src (rs_msg r) = src (rs_msg rs) /\
  dest (rs_msg r) = dest (rs_msg rs) /\ view (hdrs (rs_msg r)) = view (hdrs (rs_msg rs)).
Proof using.
  intros r. unfold r, prepareResponse. cbn [appendAutoHeaders msg_map rs_map rs_msg status].
  destruct (length_header_fields (with_hdrs (rs_msg rs) (capability_headers order s (auto_method (MResponse rs))
    (agent_header s (MResponse rs) (hdrs (rs_msg rs)))))) as (-> & -> & ->).
  split_and!; try done. exact (GosipTheorems.auto_view order s (MResponse rs)).
Qed.

Lemma Send_response io d pick order r s p hop t a lhost lport l0 :
  s_running s = true -> TransportLayer.tpl_canceled (s_tp s) = false ->
  TransportLayer.get "udp" (s_tp s) = Some p -> pr_kind p = UDP -> ConnPool.All (connections p) = l0 ->
  Forall TransportReach.udp_keyed l0 -> (exists c, c ∈ l0 /\ ConnPool.cn_key c = udp_key lport) ->
  ViaHop_ (hdrs (rs_msg r)) = Some hop -> tp (rs_msg r) = "UDP" -> dest (rs_msg r) <> [] ->
  NewTargetFromAddr (dest (rs_msg r)) = Ok t -> TrimSpace (t_Host t) <> [] -> is_Some (t_Port t) ->
  n_resolve io (Addr t) = inr a -> SplitHostPort (src (rs_msg r)) = Ok (lhost, show_N lport) ->
  n_write io (udp_key lport) = None ->
  let r' := prepareResponse order s r in
  Send io d pick order (MResponse r) s =
  Ok (set_tp (TransportLayer.put "udp" (write (udp_key lport) (a_text a) (msg_String (MResponse r')) p) (s_tp s)) s,
      MResponse r', None).
Proof using.
  intros Hr Hc Hg Hk Hall Hkey Hin Hv Htp Hd Ht Hh Hp Hres Hsrc Hwr r'.
  destruct (prepared_fields order s r) as (_ & Etp & Esrc & Edest & Ev). fold r' in Etp, Esrc, Edest, Ev.
  unfold Send. rewrite Hr, <- GosipTheorems.prepareResponse_msg. fold r'.
  unfold TransportLayer.Send. rewrite Hc. cbn [msg_of].
  assert (ViaHop_ (hdrs (rs_msg r')) = Some hop) as -> by (unfold view in Ev; injection Ev; congruence).
  unfold TransportLayer.send_response, response_Transport, response_Destination. rewrite Etp, Htp, Edest.
  change (TransportLayer.getProtocol (ToUpper "UDP") (s_tp s))
    with (TransportLayer.getOrPutNew "udp" (TransportLayer.protocolFactory "udp") (s_tp s)).
  unfold TransportLayer.getOrPutNew. rewrite Hg.
  destruct (dest (rs_msg r)) as [| c0 dst] eqn:E; [done |]. cbn [mbind res_bind]. rewrite Ht.
  unfold TransportLayer.send_through. cbn [msg_shown]. unfold response_shown, response_Destination. rewrite Edest.
  cbn [mbind res_bind]. rewrite (udp_Send_writes io p l0 t r' a lhost lport) by (try done; by rewrite Esrc).
  done.
Qed.

(** The headers that identify a transaction and its dialog, as they are printed. *)
Definition identifying : list bytes := ["Via"; "From"; "To"; "Call-ID"; "CSeq"].
Definition lines_of (name : bytes) (m : message) : list bytes := Header_String <$> GetHeaders (hdrs m) name.

Lemma prepared_lines order s rs name :
  name ∈ identifying -> lines_of name (rs_msg (prepareResponse order s rs)) = lines_of name (rs_msg rs).
Proof using.
  intros Hn. unfold lines_of. f_equal. apply (GosipTheorems.auto_other order s (MResponse rs)).
  by repeat (apply elem_of_cons in Hn as [->|Hn]; [by apply (bool_decide_unpack _) |]); apply elem_of_nil in Hn.
Qed.

Lemma answer_lines u id rq code rsn b rs name :
  wf_section (hdrs (rq_msg rq)) -> NewResponseFromRequest u id rq code rsn b = Ok rs ->
  name ∈ identifying -> lines_of name (rs_msg rs) = lines_of name (rq_msg rq).
Proof using.
  intros Hw Hr Hn. apply (response_prints _ _ _ _ _ _ _ (ToLower name) Hw Hr).
  by repeat (apply elem_of_cons in Hn as [->|Hn]; [by apply (bool_decide_unpack _) |]); apply elem_of_nil in Hn.
Qed.

(** The handler goroutine of the request answers it: the transaction holds the
    405 it sent. *)
Lemma dispatched_answered y p rq k y1 order rs :
  dispatched y "udp" p rq k y1 -> s_handlers (sy_server y) !! method rq = None ->
  request_IsAck rq = false -> wf_section (hdrs (rq_msg rq)) -> MakeServerTxKey (hdrs (rq_msg rq)) = Ok k ->
  NewResponseFromRequest (uuid 0) [] rq 405 "Method Not Allowed" [] = Ok rs -> status rs = 405%N ->
  (forall m, e_send (envs (TxLayer.next (s_tx (sy_server y)))) 0 m = None) ->
  exists y2 t, run_handler spin envs uuid order (length (sy_handlers y)) y1 = Some (Ok y2) /\
    TxLayer.txs (s_tx (sy_server y2)) !! TxLayer.next (s_tx (sy_server y)) = Some (k, TxLayer.TxServer t) /\
    ServerTx.s_sent t = [MResponse (prepareResponse order (sy_server y1) rs)] /\
    s_running (sy_server y2) = true /\ s_tp (sy_server y2) = s_tp (sy_server y1) /\ sy_handed y2 = sy_handed y.
Proof using FsmSpin0.
  intros [Hh (rel & Ht) Ho Hru Hta Hca Hha Htp Hpr] Hf Hack Hw Hk Hrs Hst He.
  destruct (started_responds (envs (TxLayer.next (s_tx (sy_server y)))) rq rel (prepareResponse order (sy_server y1) rs))
    as [Hsent Hcr]; [destruct (prepared_fields order (sy_server y1) rs) as (-> & _); lia | done |].
  eexists _, _. split.
  - unfold run_handler. rewrite Hh, lookup_app_r, Nat.sub_diag by done. cbn [lookup list_lookup mbind option_bind].
    rewrite (GosipTheorems.handleRequest_unhandled spin envs uuid order rq (sy_server y1) _ k
      (TxLayer.next (s_tx (sy_server y))) _ rs) by (try done; by rewrite Hta).
    unfold TxLayer.store_tx. cbn [TxLayer.tx_crashed]. rewrite Hcr. reflexivity.
  - cbn [sy_server set_tx s_tx TxLayer.set_tx TxLayer.txs s_running set_hwg s_tp sy_handed].
    rewrite lookup_insert_eq. split_and!; try done.
Qed.

(** The system after the answer was written. *)
Definition written_to (y : system) (tx : nat) (p : protocol) (lport : N) (a : addr) (r : response) : system :=
  mkSystem (set_tp (TransportLayer.put "udp" (write (udp_key lport) (a_text a) (msg_String (MResponse r)) p)
      (s_tp (sy_server y))) (sy_server y)) (sy_seen y) (sy_requests y) (sy_acks y) (sy_handlers y)
    (<[tx := 1]> (sy_handed y)) (sy_direct y).

Lemma answer_handed_over y p n h lhost lport p1 tx k t r hop trg io a d pick order :
  TransportReach.protocol_ok "udp" p -> socket p n h lhost lport -> same_sockets p p1 ->
  s_running (sy_server y) = true -> TransportLayer.tpl_canceled (s_tp (sy_server y)) = false ->
  TransportLayer.get "udp" (s_tp (sy_server y)) = Some p1 ->
  TxLayer.txs (s_tx (sy_server y)) !! tx = Some (k, TxLayer.TxServer t) -> ServerTx.s_sent t = [MResponse r] ->
  sy_handed y !! tx = None -> (forall m, e_send (envs tx) 0 m = None) ->
  ViaHop_ (hdrs (rs_msg r)) = Some hop -> tp (rs_msg r) = "UDP" -> dest (rs_msg r) <> [] ->
  NewTargetFromAddr (dest (rs_msg r)) = Ok trg -> TrimSpace (t_Host trg) <> [] -> is_Some (t_Port trg) ->
  n_resolve io (Addr trg) = inr a -> SplitHostPort (src (rs_msg r)) = Ok (lhost, show_N lport) ->
  n_write io (udp_key lport) = None ->
  hand_over envs io d pick order tx y = Some (Ok (written_to y tx p1 lport a (prepareResponse order (sy_server y) r))).
Proof using.
  intros Hpo Hsk [Sk Sa _] Hru Htc Hg Htx Hsent Hhd He Hv Htp Hd Ht Hh Hp Hres Hsrc Hwr.
  assert (pr_kind p = UDP) as Hkind by (pose proof (TransportReach.po_key _ _ Hpo); by destruct (pr_kind p)).
  unfold hand_over. rewrite Htx. cbn [mbind option_bind tx_sent]. unfold handed. rewrite Hhd. cbn [default].
  rewrite Hsent. cbn [lookup list_lookup mbind option_bind].
  rewrite (Send_response io d pick order r (sy_server y) p1 hop trg a lhost lport (ConnPool.All (connections p))); try done.
  - by rewrite He.
  - by rewrite Sk.
  - by apply TransportReach.All_conns, Hpo.
  - by eapply socket_found.
Qed.


End delivery.

(** ** A concrete run *)

(** A server that listens on UDP port 5066, with the given handlers. *)
Definition listening : TransportLayer.layer := TransportReach.after_listen "UDP" "0.0.0.0:5066" 5066.

Definition udp_system (handlers : gmap (list ascii) nat) : system :=
  NewSystem (mkServer true "sip.example.com" "10.0.0.1" handlers [] "GoSIP" TxLayer.NewLayer listening 0 []).

Definition udp_protocol : protocol := default NewUdpProtocol (TransportLayer.get "udp" listening).

Definition udp_socket : ConnPool.handler :=
  default (ConnPool.NewConnectionHandler (ConnPool.NewConnection true [] [] [] []) 0 0)
    (ConnPool.handlers (connections udp_protocol) !! 0).

Definition arrived_request : request :=
  match Transport.handleMessage "UDP" false "0.0.0.0:5066" "192.0.2.7:40000" (received "id" (MRequest (sample_over "UDP"))) with
  | Ok (Some (MRequest rq)) => rq
  | _ => sample_register
  end.

Lemma arrived_is :
  Transport.handleMessage "UDP" false "0.0.0.0:5066" "192.0.2.7:40000" (received "id" (MRequest (sample_over "UDP")))
  = Ok (Some (MRequest arrived_request)).
Proof. vm_compute. reflexivity. Qed.

Lemma default_is {A} (x : A) (o : option A) : isSome o = true -> o = Some (default x o).
Proof. by destruct o. Qed.

Lemma udp_stored : TransportLayer.get "udp" listening = Some udp_protocol.
Proof. apply default_is. vm_compute. reflexivity. Qed.

Lemma udp_handler : ConnPool.handlers (connections udp_protocol) !! 0 = Some udp_socket.
Proof. apply default_is. vm_compute. reflexivity. Qed.

Lemma udp_ready handlers : ready (udp_system handlers) "udp" udp_protocol 0 udp_socket.
Proof.
  split; [vm_compute; reflexivity.. | exact udp_stored | | vm_compute; reflexivity].
  split; [vm_compute; reflexivity.. | exact udp_handler | vm_compute; reflexivity | vm_compute; reflexivity |].
  split; vm_compute; reflexivity.
Qed.

Lemma sample_incoming handlers :
  incoming id (udp_system handlers) udp_socket (sample_over "UDP") "192.0.2.7:40000" "id" arrived_request
    "z9hG4bK776asdhds__pc33.atlanta.com__5066__MESSAGE".
Proof.
  split.
  - exact (sm_clean _ (sample_over_clean "UDP" (or_intror eq_refl))).
  - exists (MRequest arrived_request). split; [exact arrived_is | reflexivity].
  - vm_compute. reflexivity.
  - vm_compute. reflexivity.
  - vm_compute. reflexivity.
  - split; vm_compute; reflexivity.
Qed.

Lemma datagram_reaches_handler_witness :
  exists y', reaches run_spin (fun _ => good_env) (fun _ => "uuid") (fun _ => []) id (fun _ => "id")
      (udp_system {[("MESSAGE" : bytes) := 7]}) y' /\
    s_calls (sy_server y') = [(7, arrived_request, Some 0)].
Proof.
  apply (datagram_reaches_handler run_spin (fun _ => good_env) (fun _ => "uuid") (fun _ => []) id (fun _ => "id")
    (udp_system {[("MESSAGE" : bytes) := 7]}) "udp" udp_protocol 0 udp_socket (sample_over "UDP") "192.0.2.7:40000" "id"
    arrived_request "z9hG4bK776asdhds__pc33.atlanta.com__5066__MESSAGE" 7).
  - apply udp_ready.
  - apply sample_incoming.
  - vm_compute. reflexivity.
Defined.

(** The system from the start of the server on. *)
Definition new_server : server :=
  mkServer true "sip.example.com" "10.0.0.1" ∅ [] "GoSIP" TxLayer.NewLayer (TransportLayer.NewLayer "10.0.0.1") 0 [].

Lemma udp_system_reached spin envs uuid err_text mapper ids :
  reaches spin envs uuid err_text mapper ids (NewSystem new_server) (udp_system {[("MESSAGE" : bytes) := 7]}).
Proof.
  eapply rtc_l; [apply (step_call _ _ _ _ _ _ (NewSystem new_server)), (call_on_request _ _ "MESSAGE" 7) |].
  unfold udp_system, listening, TransportReach.after_listen.
  destruct (TransportLayer.Listen _ _ _ _) as [[l e]| |] eqn:E; [| exfalso; apply (f_equal is_ok) in E; vm_compute in E; discriminate..].
  eapply rtc_once, (step_call _ _ _ _ _ _ (set_server (OnRequest "MESSAGE" 7 new_server) (NewSystem new_server))).
  apply (call_listen _ _ (TransportReach.granting 5066) "UDP" "0.0.0.0:5066" e).
  unfold Listen. cbn [sy_server set_server NewSystem OnRequest new_server s_tp]. rewrite E. reflexivity.
Qed.

Lemma handlers_called_once_witness :
  exists y, reaches run_spin (fun _ => good_env) (fun _ => "uuid") (fun _ => []) id (fun _ => "id") (NewSystem new_server) y /\
    sy_handlers y = [(arrived_request, Some 0)] /\ s_hwg (sy_server y) = 1.
Proof.
  destruct (request_dispatched run_spin (fun _ => good_env) (fun _ => "uuid") (fun _ => []) id (fun _ => "id")
    (udp_system {[("MESSAGE" : bytes) := 7]}) "udp" udp_protocol 0 udp_socket (sample_over "UDP") "192.0.2.7:40000" "id"
    arrived_request "z9hG4bK776asdhds__pc33.atlanta.com__5066__MESSAGE" (udp_ready _) (sample_incoming _)) as (y & Hy & Hd).
  assert (reaches run_spin (fun _ => good_env) (fun _ => "uuid") (fun _ => []) id (fun _ => "id") (NewSystem new_server) y) as Hr.
  { etransitivity; [apply udp_system_reached | exact Hy]. }
  exists y. split; [exact Hr |]. pose proof (dp_handlers _ _ _ _ _ _ Hd) as Hh. split; [exact Hh |].
  destruct (handlers_called_once run_spin (fun _ => good_env) (fun _ => "uuid") (fun _ => []) id (fun _ => "id")
    (fun _ => Some "10.0.0.1") None (mkConfig "sip.example.com" [] []) new_server y eq_refl Hr) as (_ & _ & _ & ->).
  rewrite Hh. reflexivity.
Defined.

Lemma system_invariant_witness :
  TxLayer.wf_layer (s_tx (sy_server (udp_system {[("MESSAGE" : bytes) := 7]}))) /\ TransportReach.layer_ok listening.
Proof.
  apply (system_invariant run_spin (fun _ => good_env) (fun _ => "uuid") (fun _ => []) id (fun _ => "id")
    (fun _ => Some "10.0.0.1") None (mkConfig "sip.example.com" [] []) new_server
    (udp_system {[("MESSAGE" : bytes) := 7]}) eq_refl).
  apply udp_system_reached.
Defined.

Lemma sample_received : hdrs (msg_of (received "id" (MRequest (sample_over "UDP")))) = hdrs (rq_msg (sample_over "UDP")).
Proof.
  apply (received_headers "id" (MRequest (sample_over "UDP"))).
  - apply wf_newHeaders.
  - by apply (bool_decide_unpack _); vm_compute.
  - cbn [msg_of]. rewrite sample_over_headers. repeat (apply Forall_cons_2; [reflexivity |]). apply Forall_nil_2.
Qed.

Lemma arrived_wf : wf_section (hdrs (rq_msg arrived_request)).
Proof.
  apply (arrived_section "UDP" "0.0.0.0:5066" "192.0.2.7:40000" _ _ arrived_is).
  change (rq_msg (mkRequest _ _ _)) with (msg_of (received "id" (MRequest (sample_over "UDP")))).
  rewrite sample_received. apply wf_section_new, Forall_app. split; [apply sample_wf_headers |].
  by repeat apply Forall_cons_2.
Qed.

Definition udp_io : net := TransportReach.granting 5066.


End Delivery.
