(* ===== verification/Answer.v ===== *)
(** * The answer to a request through the whole stack

    A user's request waits in its client transaction; a datagram with the
    response to it goes through parser, pool, transport layer and transaction
    layer to the user. *)

From S2P Require Import Prelude GoStrings Escape Params Headers HeaderStore Message ParserCommon ParamsRoundTrip UriRoundTrip NoPanic Packet Stream StreamProofs HeaderRoundTrip TxKeys Fsm Samples ClientTx ServerTx ClientInv ServerInv TxLayer LayerTheorems ParserTheorems MessageRoundTrip Transport ConnPool ConnPoolTheorems ListenPool Protocols TransportLayer TransportTheorems TransportReach Server GosipTheorems System SystemTheorems Delivery.
From stdpp Require Import options.
Import Params Headers HeaderStore Message Packet TxKeys Fsm Samples MessageRoundTrip Transport TransportTheorems Protocols Server System SystemTheorems Delivery.

Module Answer.

(** ** A transaction that waits *)

(** Its request is out and no final response has come. *)
Definition waits (t : ClientTx.clientTx) : Prop :=
  (ClientTx.c_fsm t = ClientTx.client_state_calling \/ ClientTx.c_fsm t = ClientTx.client_state_proceeding) /\
  ClientTx.c_done t = false /\ ClientTx.c_crashed t = false.

(** A final response to an INVITE is acknowledged; the ACK can be built. *)
Definition answerable (t : ClientTx.clientTx) (r : response) : Prop :=
  IsInvite (ClientTx.c_origin t) = true -> IsProvisional r = false -> ClientInv.ackable (ClientTx.c_origin t) r.

Section answer.

Context (spin : spinner) `{!FsmSpin spin}.

Lemma spin_outcome e i t c act :
  ClientTx.client_fsm e t (ClientTx.c_fsm t) i = Some (c, act) -> snd (act t) = None ->
  ClientTx.Spin spin e i t = (ClientTx.set_c_fsm c (fst (act t)), true).
Proof using FsmSpin0.
  intros Hf Ha. unfold ClientTx.Spin.
  rewrite (spin_run _ _ _ (ClientTx.client_fsm e t) (Some i) (ClientTx.c_fsm t) t (c, fst (act t), true)); [done |].
  unfold max_chain. cbn [run]. rewrite Hf. destruct (act t) as [t' o]. cbn in Ha. by subst.
Qed.

(** The ACK leaves what the user sees as it is. *)
Lemma ack_quiet e t r :
  ClientTx.c_lastResp t = Some r -> ClientInv.ackable (ClientTx.c_origin t) r -> ClientTx.c_crashed t = false ->
  ClientTx.c_crashed (ClientTx.ack e t) = false /\ ClientTx.c_lastResp (ClientTx.ack e t) = Some r /\
  ClientTx.c_done (ClientTx.ack e t) = ClientTx.c_done t /\ ClientTx.c_responses (ClientTx.ack e t) = ClientTx.c_responses t.
Proof using.
  intros Hl Ha Hc. unfold ClientTx.ack. rewrite Hl. specialize (Ha (e_uuid e (length (ClientTx.c_sent t))) (e_rnd e (length (ClientTx.c_sent t)))).
  destruct (NewAckRequest _ _ _ _ _ _) as [a| |]; [| done..]. cbn. unfold ClientTx.send_failed. by destruct (e_send _ _ _).
Qed.

Lemma passUp_gives e t r :
  ClientTx.c_lastResp t = Some r -> ClientTx.c_done t = false -> ClientTx.passUp e t = ClientTx.add_response r t.
Proof using. unfold ClientTx.passUp. by intros -> ->. Qed.

(** What a waiting transaction does with a response. *)
Lemma response_passed_up e t r :
  waits t -> response_IsCancel r = false -> answerable t r ->
  let t' := fst (ClientTx.Receive spin e (MResponse r) t) in
  ClientTx.c_responses t' = ClientTx.c_responses t ++ [r] /\ ClientTx.c_done t' = false /\ ClientTx.c_crashed t' = false /\
  (IsProvisional r = true -> waits t') /\ (IsProvisional r = false -> ~ waits t').
Proof using FsmSpin0.
  intros (Hf & Hd & Hc) Hn Ha. cbn zeta. unfold ClientTx.Receive. rewrite Hn.
  set (x := ClientTx.set_c_lastResp (Some r) t).
  assert (ClientTx.c_fsm x = ClientTx.c_fsm t /\ ClientTx.c_done x = false /\ ClientTx.c_crashed x = false /\
    ClientTx.c_lastResp x = Some r /\ ClientTx.c_origin x = ClientTx.c_origin t /\
    ClientTx.c_responses x = ClientTx.c_responses t) as (X1 & X2 & X3 & X4 & X5 & X6) by (by split_and!).
  clearbody x. unfold answerable in Ha. rewrite <- X5 in Ha. rewrite <- X1 in Hf. rewrite <- X6. clear dependent t.
  assert (exists c act, ClientTx.client_fsm e x (ClientTx.c_fsm x) (ClientTx.response_input r) = Some (c, act) /\
    snd (act x) = None /\ ClientTx.c_responses (fst (act x)) = ClientTx.c_responses x ++ [r] /\
    ClientTx.c_done (fst (act x)) = false /\ ClientTx.c_crashed (fst (act x)) = false /\
    (if IsProvisional r then c = ClientTx.client_state_proceeding
     else c <> ClientTx.client_state_calling /\ c <> ClientTx.client_state_proceeding)) as (c & act & H1 & H2 & H3 & H4 & H5 & H6).
  { unfold ClientTx.client_fsm, ClientTx.response_input. destruct (IsInvite (ClientTx.c_origin x)).
    - destruct (IsProvisional r).
      + destruct Hf as [-> | ->]; do 2 eexists; (split; [reflexivity |]);
          unfold ClientTx.act_invite_proceeding, ClientTx.act_passup, ClientTx.seq; rewrite (passUp_gives e x r) by done;
          (split; [reflexivity |]); cbn; do 4 (rewrite ?X3; cbn); split_and!; first [done | congruence].
      + specialize (Ha eq_refl eq_refl). destruct (ack_quiet e x r X4 Ha X3) as (K1 & K2 & K3 & K4). rewrite X2 in K3.
        destruct (IsSuccess r), Hf as [-> | ->]; do 2 eexists; (split; [reflexivity |]);
          unfold ClientTx.act_passup_accept, ClientTx.act_invite_final, ClientTx.seq; rewrite ?K1;
          first [rewrite (passUp_gives e x r) by done | rewrite (passUp_gives e (ClientTx.ack e x) r) by done];
          (split; [reflexivity |]); cbn; do 5 (rewrite ?X3, ?K1; cbn); split_and!; first [done | congruence].
    - clear Ha. destruct (IsProvisional r).
      + destruct Hf as [-> | ->]; do 2 eexists; (split; [reflexivity |]);
          unfold ClientTx.act_passup, ClientTx.seq; rewrite (passUp_gives e x r) by done;
          (split; [reflexivity |]); cbn; do 4 (rewrite ?X3; cbn); split_and!; first [done | congruence].
      + destruct (IsSuccess r), Hf as [-> | ->]; do 2 eexists; (split; [reflexivity |]);
          unfold ClientTx.act_non_invite_final, ClientTx.seq; rewrite (passUp_gives e x r) by done;
          (split; [reflexivity |]); cbn; do 4 (rewrite ?X3; cbn); split_and!; first [done | congruence]. }
  rewrite (spin_outcome _ _ _ _ _ H1 H2). cbn. split_and!; try done.
  - intros E. rewrite E in H6. subst c. split; [by right | done].
  - intros E. rewrite E in H6. destruct H6. intros ([E1 | E1] & _); done.
Qed.

(** ** A response through the layers *)

Context (envs : nat -> env) (uuid : nat -> bytes).
Context (err_text : error -> bytes) (mapper : msg -> msg) (ids : nat -> bytes).

(** A request that was sent waits for its answer. *)
Lemma request_waits order r s tx s' :
  Request spin envs order r s = Ok (tx, s') ->
  let sent := ClientTx.prepareClientRequest (GenerateBranch (e_rnd (envs (TxLayer.next (s_tx s))) 0)) (prepareRequest order s r) in
  tx = TxLayer.next (s_tx s) /\ exists k t, MakeClientTxKey (hdrs (rq_msg sent)) = Ok k /\
    TxLayer.holds_client (s_tx s') k tx t /\ waits t /\ ClientTx.c_origin t = sent /\
    ClientTx.c_sent t = [MRequest sent] /\ ClientTx.c_responses t = [].
Proof using.
  unfold Request. destruct (s_running s); [| done]. intros ([n l] & H & [= <- <-])%bind_Ok.
  apply TxLayer.Request_new in H as (k & t & Hk & -> & Hh & _ & tr & Hi). set (o := ClientTx.prepareClientRequest _ _) in *.
  split; [done |]. exists k, t. unfold ClientTx.Init, ClientTx.Send in Hi.
  cbn [ClientTx.c_origin ClientTx.new_clientTx ClientTx.c_sent length app] in Hi. destruct (e_send _ 0 _); [done |].
  injection Hi as <- _. split; [done |]. split; [done |].
  destruct (IsReliable s tr); cbn; (split_and!; try done); split_and!; try done; by left.
Qed.

(** C4: The response to a request can reach its user.  Take a running server whose
    channels are drained, with a packet socket that is idle and reading, and a client
    transaction that waits; a datagram with the text that the library prints for a
    clean response with the key of that transaction, not to a CANCEL; and, if it is a
    final response to an INVITE, let an ACK for it be buildable.  Then there is a run
    of the goroutines of the system in which it becomes the next response of the
    transaction, which goes on to wait after a provisional response and waits no more
    after a final one. *)
Theorem answer_reaches_user y key p n h rs raddr id m' rs' k tx t :
  ready y key p n h -> TxLayer.holds_client (s_tx (sy_server y)) k tx t -> waits t ->
  clean_msg (MResponse rs) ->
  Transport.handleMessage (ConnPool.Network (ConnPool.h_conn h)) false (ConnPool.cn_laddr (ConnPool.h_conn h)) raddr
    (received id (MResponse rs)) = Ok (Some m') -> mapper m' = MResponse rs' ->
  MakeClientTxKey (hdrs (rs_msg rs')) = Ok k -> response_IsCancel rs' = false -> answerable t rs' ->
  exists y' t', reaches spin envs uuid err_text mapper ids y y' /\
    TxLayer.holds_client (s_tx (sy_server y')) k tx t' /\
    ClientTx.c_responses t' = ClientTx.c_responses t ++ [rs'] /\ ClientTx.c_done t' = false /\
    (IsProvisional rs' = true -> waits t') /\ (IsProvisional rs' = false -> ~ waits t').
Proof using FsmSpin0.
  intros [Hr Hc Hs Hq Hg Hp Htk] Ht Hw Hm Hh Hmap Hk Hn Ha.
  destruct (datagram_layer err_text mapper ids key (s_tp (sy_server y)) p n h _ raddr id m' Hg Hp Htk Hm Hh)
    as (l' & p' & Hrun & Hmsgs & _). rewrite Hmap in Hmsgs.
  set (y1 := set_server (set_tp l' (sy_server y)) y).
  destruct (response_passed_up (envs tx) t rs' Hw Hn Ha) as (H1 & H2 & H3 & H4 & H5).
  set (t' := fst (ClientTx.Receive spin (envs tx) (MResponse rs') t)) in *.
  assert (TxLayer.handleMessage spin envs (IsReliable (sy_server y1)) uuid (MResponse rs') (s_tx (sy_server y1)) =
    Ok (TxLayer.set_tx tx k (TxLayer.TxClient t') (s_tx (sy_server y)))) as H6.
  { unfold TxLayer.handleMessage, TxLayer.handle_message. change (s_tx (sy_server y1)) with (s_tx (sy_server y)). unfold TxLayer.handle_response.
    rewrite Hc, (TxLayer.getClientTx_holds _ _ k tx t) by done. cbn [mbind res_bind]. fold t'.
    unfold TxLayer.store_tx. cbn [TxLayer.tx_crashed]. by rewrite H3. }
  set (y2 := saw (TxLayer.set_tx tx k (TxLayer.TxClient t') (s_tx (sy_server y))) y1).
  assert (take_message spin envs uuid y1 = Some (Ok y2)) as H7.
  { unfold take_message, take_with. assert (messages y1 !! sy_seen y1 = Some (MResponse rs')) as ->.
    { unfold messages. cbn. rewrite Hmsgs, Hs. unfold messages. by rewrite lookup_app_r, Nat.sub_diag. }
    unfold TxLayer.handleMessage in H6. by rewrite H6. }
  exists y2, t'. split; [| split_and!; try done].
  - etrans; [by apply transport_runs |]. by eapply rtc_once, (step_take_message _ _ _ _ _ _ true).
  - destruct Ht as [Ht1 Ht2]. split; [exact Ht1 | cbn; by rewrite lookup_insert_eq].
Qed.

(** A system that made a request is as ready as before. *)
Lemma ready_request y key p n h order r tx s' :
  ready y key p n h -> Request spin envs order r (sy_server y) = Ok (tx, s') -> ready (set_server s' y) key p n h.
Proof using.
  intros [Hr Hc Hs Hq Hg Hp Htk] H. unfold Request in H. rewrite Hr in H. apply bind_Ok in H as ([n' l] & H & [= <- <-]).
  pose proof (TxLayer.Request_new spin envs _ _ _ _ _ H) as (_ & _ & _ & _ & _ & Hc' & _).
  apply TxLayer.Request_requests in H. split; try done. cbn. by rewrite H.
Qed.

End answer.

(** ** A concrete answer *)

(** The 200 to the sample request. *)
Definition sample_answer : response := mkResponse (rq_msg (sample_over "UDP")) 200 "OK" [].

Lemma sample_answer_clean : clean_msg (MResponse sample_answer).
Proof.
  destruct (sm_clean _ (sample_over_clean "UDP" (or_intror eq_refl))) as [_ Hh Hb]. split; [| exact Hh | exact Hb].
  cbn. split_and!; vm_compute; reflexivity.
Qed.

Definition arrived_answer : response :=
  match Transport.handleMessage "UDP" false "0.0.0.0:5066" "192.0.2.7:5060" (received "id" (MResponse sample_answer)) with
  | Ok (Some (MResponse rs)) => rs
  | _ => sample_answer
  end.

Lemma answer_reaches_user_witness :
  exists s' y' t', Request run_spin (fun _ => good_env) [] (sample_over "UDP") (sy_server (udp_system ∅)) = Ok (0, s') /\
    reaches run_spin (fun _ => good_env) (fun _ => "uuid") (fun _ => []) id (fun _ => "id") (set_server s' (udp_system ∅)) y' /\
    (exists k, TxLayer.holds_client (s_tx (sy_server y')) k 0 t') /\ ClientTx.c_responses t' = [arrived_answer].
Proof.
  destruct (Request run_spin (fun _ => good_env) [] (sample_over "UDP") (sy_server (udp_system ∅))) as [[tx s']| |] eqn:E;
    [| apply (f_equal is_ok) in E; vm_compute in E; discriminate E..].
  destruct (request_waits run_spin (fun _ => good_env) _ _ _ _ _ E) as (-> & k & t & Hk & Hh & Hw & Ho & _ & Hr).
  exists s'. change (TxLayer.next (s_tx (sy_server (udp_system ∅)))) with 0 in *.
  destruct (answer_reaches_user run_spin (fun _ => good_env) (fun _ => "uuid") (fun _ => []) id (fun _ => "id")
    (set_server s' (udp_system ∅)) "udp" udp_protocol 0 udp_socket sample_answer "192.0.2.7:5060" "id"
    (MResponse arrived_answer) arrived_answer k 0 t) as (y' & t' & H1 & H2 & H3 & _).
  - apply (ready_request run_spin (fun _ => good_env) _ _ _ _ _ _ _ _ _ (udp_ready ∅) E).
  - exact Hh.
  - exact Hw.
  - exact sample_answer_clean.
  - vm_compute. reflexivity.
  - reflexivity.
  - rewrite <- Hk. vm_compute. reflexivity.
  - vm_compute. reflexivity.
  - intros Hi. exfalso. rewrite Ho in Hi. vm_compute in Hi. discriminate Hi.
  - exists y', t'. rewrite Hr in H3. split_and!; [done.. | by exists k | exact H3].
Defined.

End Answer.
