(* ===== verification/HeaderEquals.v ===== *)
(** * The Equals methods of the headers: src/sip/headers.go

    Each header type has its own method; two headers of different types are
    never equal.  The headers are two distinct objects, none of them nil. *)

From S2P Require Import Prelude GoStrings Escape Params Headers.
From stdpp Require Import options.
Import Params Headers.

Module HeaderEquals.

Definition GenericHeader_Equals (n c n' c' : bytes) : bool := streq n n' && streq c c'.
Definition From_Equals (a b : NameAddr) : bool := NameAddr_Equals a b.
Definition CallID_Equals (a b : bytes) : bool := streq a b.
Definition CSeq_Equals (n : N) (m : RequestMethod) (n' : N) (m' : RequestMethod) : bool :=
  (n =? n')%N && streq m m'.
Definition MaxForwards_Equals (a b : N) : bool := (a =? b)%N.
Definition Expires_Equals (a b : N) : bool := (a =? b)%N.
Definition ContentLength_Equals (a b : N) : bool := (a =? b)%N.

(** The lengths, then the options one by one. *)
Fixpoint options_equal (a b : list bytes) : bool :=
  match a, b with
  | x :: a, y :: b => streq x y && options_equal a b
  | _, _ => true
  end.
Definition Require_Equals (a b : list bytes) : bool := (length a =? length b) && options_equal a b.
Definition Supported_Equals (a b : list bytes) : bool := (length a =? length b) && options_equal a b.
Definition ProxyRequire_Equals (a b : list bytes) : bool := (length a =? length b) && options_equal a b.
Definition Unsupported_Equals (a b : list bytes) : bool := (length a =? length b) && options_equal a b.
Definition Allow_Equals (a b : list RequestMethod) : bool := (length a =? length b) && options_equal a b.

Definition UserAgent_Equals (a b : bytes) : bool := streq a b.
Definition Server_Equals (a b : bytes) : bool := streq a b.
Definition ContentType_Equals (a b : bytes) : bool := streq a b.
Definition Authenticate_Equals (a b : bytes) : bool := streq a b.
Definition Accept_Equals (a b : bytes) : bool := streq a b.
Definition Event_Equals (a b : bytes) : bool := streq a b.
Definition RecordRoute_Equals (a b : list Uri) : res bool := routes_equal a b.

Definition Header_Equals (h k : Header) : res bool :=
  match h, k with
  | HGeneric n c, HGeneric n' c' => Ok (GenericHeader_Equals n c n' c')
  | HTo a, HTo b => Ok (NameAddr_Equals a b)
  | HFrom a, HFrom b => Ok (From_Equals a b)
  | HContact a, HContact b => Ok (Contact_Equals a b)
  | HCallID a, HCallID b => Ok (CallID_Equals a b)
  | HCSeq n m, HCSeq n' m' => Ok (CSeq_Equals n m n' m')
  | HMaxForwards a, HMaxForwards b => Ok (MaxForwards_Equals a b)
  | HExpires a, HExpires b => Ok (Expires_Equals a b)
  | HContentLength a, HContentLength b => Ok (ContentLength_Equals a b)
  | HVia a, HVia b => Ok (hops_equal a b)
  | HRequire a, HRequire b => Ok (Require_Equals a b)
  | HSupported a, HSupported b => Ok (Supported_Equals a b)
  | HProxyRequire a, HProxyRequire b => Ok (ProxyRequire_Equals a b)
  | HUnsupported a, HUnsupported b => Ok (Unsupported_Equals a b)
  | HUserAgent a, HUserAgent b => Ok (UserAgent_Equals a b)
  | HServer a, HServer b => Ok (Server_Equals a b)
  | HAllow a, HAllow b => Ok (Allow_Equals a b)
  | HContentType a, HContentType b => Ok (ContentType_Equals a b)
  | HAuthenticate a, HAuthenticate b => Ok (Authenticate_Equals a b)
  | HAccept a, HAccept b => Ok (Accept_Equals a b)
  | HRoute a, HRoute b => routes_equal a b
  | HRecordRoute a, HRecordRoute b => RecordRoute_Equals a b
  | HEvent a, HEvent b => Ok (Event_Equals a b)
  | _, _ => Ok false
  end.

(** ** A clone is equal to its original *)

(** The addresses of the header are SIP URIs. *)
Definition sip_address (u : Uri) : Prop := match u with SipUriPtr _ => True | _ => False end.
Definition sip_addresses (h : Header) : Prop :=
  match h with
  | HTo a | HFrom a => forall u, na_addr a = Some u -> sip_address u
  | HContact c => sip_address (ct_addr c)
  | HRoute l | HRecordRoute l => Forall sip_address l
  | _ => True
  end.

Lemma options_equal_refl l : (length l =? length l) && options_equal l l = true.
Proof.
  rewrite Nat.eqb_refl. cbn. induction l as [| x l IH]; [done |]. cbn. by rewrite streq_refl, IH.
Qed.

Lemma Uri_Equals_Clone u : wf_uri u -> sip_address u -> Uri_Equals u (Uri_Clone u) = true.
Proof. destruct u; try done. intros Hw _. by apply SipUri_Equals_Clone. Qed.

Lemma opt_params_eq_Clone p : wf_params p -> opt_params_eq p (Clone <$> p) = true.
Proof. destruct p; [| done]. cbn. intros Hw. rewrite Clone_id by done. apply Params_Equals_refl. Qed.

Lemma NameAddr_Equals_Clone a :
  wf_params (na_params a) -> (forall u, na_addr a = Some u -> wf_uri u /\ sip_address u) ->
  NameAddr_Equals a (NameAddr_Clone a) = true.
Proof.
  intros Hp Hu. unfold NameAddr_Equals. cbn. rewrite maybe_eq_refl, opt_params_eq_Clone by done.
  destruct (na_addr a) as [u|]; [| done]. destruct (Hu u eq_refl). cbn. by rewrite Uri_Equals_Clone.
Qed.

Lemma ViaHop_Equals_refl hop : ViaHop_Equals hop hop = true.
Proof.
  unfold ViaHop_Equals. rewrite !streq_refl, Uint16PtrEq_refl. cbn.
  destruct (vh_params hop); [apply Params_Equals_refl | done].
Qed.

Lemma hops_equal_Clone hops : Forall (fun hop => wf_params (vh_params hop)) hops -> hops_equal hops (ViaHop_Clone <$> hops) = true.
Proof.
  induction 1 as [| hop hops Hh _ IH]; [done |]. cbn. by rewrite ViaHop_Clone_id, ViaHop_Equals_refl, IH.
Qed.

Lemma routes_equal_Clone l : Forall wf_uri l -> Forall sip_address l -> routes_equal l (Uri_Clone <$> l) = Ok true.
Proof.
  induction 1 as [| u l Hu _ IH]; intros Hs; [done |]. apply Forall_cons in Hs as [Hs Hl]. cbn.
  by rewrite Uri_Equals_Clone, IH.
Qed.

(** The copy of a header with well-formed parameters and no wildcard address is
    equal to it. *)
Theorem clone_equals_original h :
  wf_header h -> sip_addresses h -> Header_Equals h (Header_Clone h) = Ok true.
Proof.
  destruct h; cbn [Header_Clone Header_Equals wf_header sip_addresses];
    unfold GenericHeader_Equals, From_Equals, CallID_Equals, CSeq_Equals, MaxForwards_Equals, Expires_Equals,
      ContentLength_Equals, Require_Equals, Supported_Equals, ProxyRequire_Equals, Unsupported_Equals, Allow_Equals,
      UserAgent_Equals, Server_Equals, ContentType_Equals, Authenticate_Equals, Accept_Equals, Event_Equals,
      RecordRoute_Equals; rewrite ?options_equal_refl, ?streq_refl, ?N.eqb_refl; try done.
  - intros [Hp Hu] Hs. by rewrite NameAddr_Equals_Clone by auto.
  - intros [Hp Hu] Hs. by rewrite NameAddr_Equals_Clone by auto.
  - intros [Hp Hu] Hs. unfold Contact_Equals. cbn.
    by rewrite maybe_eq_refl, Uri_Equals_Clone, opt_params_eq_Clone.
  - intros Hw _. by rewrite hops_equal_Clone.
  - apply routes_equal_Clone.
  - apply routes_equal_Clone.
Qed.

(** ** Routes *)

(** Routes are compared with a prefix of the other side; when the other side ends
    first the comparison panics. *)
Theorem routes_equal_prefix a b :
  (routes_equal a b = Ok true <-> exists c d, b = c ++ d /\ Forall2 (fun u v => Uri_Equals u v = true) a c) /\
  (routes_equal a b = Panic <-> exists c u d, a = c ++ u :: d /\ Forall2 (fun u v => Uri_Equals u v = true) c b).
Proof.
  revert b. induction a as [| u a IH]; intros b; cbn.
  - split; [split; [by exists [], b | done] |]. split; [done |]. by intros ([] & ? & ? & ? & _).
  - destruct b as [| v b].
    + split; split; try done.
      * intros (c & d & E & F). symmetry in E. apply app_nil in E as [-> _]. by inv F.
      * intros _. by exists [], u, a.
    + destruct (IH b) as [H1 H2]. destruct (Uri_Equals u v) eqn:E; split.
      * rewrite H1. split.
        -- intros (c & d & -> & F). exists (v :: c), d. split; [done | by constructor].
        -- intros (c & d & Eq & F). destruct c as [| v' c]; inv F. cbn in Eq. simplify_eq. by exists c, d.
      * rewrite H2. split.
        -- intros (c & w & d & -> & F). exists (u :: c), w, d. split; [done | by constructor].
        -- intros (c & w & d & Eq & F). destruct c as [| u' c]; inv F. cbn in Eq. simplify_eq. by exists c, w, d.
      * split; [done |]. intros (c & d & Eq & F). destruct c; inv F. cbn in Eq. congruence.
      * split; [done |]. intros (c & w & d & Eq & F). destruct c; inv F. cbn in Eq. congruence.
Qed.

End HeaderEquals.
