(* ===== verification/HeaderObjects.v ===== *)
(** * Headers as objects: the methods of the header types in src/sip/headers.go

    Each header type implements the interface [Header]: its table of methods
    below is what the type's own methods do, on nil receivers, too.  Headers are
    pointers (or slices) that messages share, so here they live in a heap: a
    clone is a new object for some types and the receiver itself for others.  The
    functions on values that the rest of the development uses ([Header_Name],
    [Header_Value], [Header_String], [Header_Clone]) are what the methods
    compute. *)

From S2P Require Import Prelude GoStrings Escape Params Headers HeaderStore Message.
From stdpp Require Import options.
Import Params Headers.

Module HeaderObjects.

(** ** Tables of methods *)

(** What [Clone] returns: the receiver, a new object, or a nil pointer. *)
Inductive copied (T : Type) : Type :=
| Same
| New (x : T)
| Nil.
Arguments Same {T}.
Arguments New {T} x.
Arguments Nil {T}.

(** The methods on a receiver; [None] is nil. *)
Record Methods (T : Type) : Type := mkMethods {
  m_Name : option T -> res bytes;
  m_Value : option T -> res bytes;
  m_Clone : option T -> copied T
}.
Arguments mkMethods {T} _ _ _.
Arguments m_Name {T} _ _.
Arguments m_Value {T} _ _.
Arguments m_Clone {T} _ _.

(** [String] of every type: the name and the value. *)
Definition m_String {T} (t : Methods T) (x : option T) : res bytes :=
  n ← m_Name t x; v ← m_Value t x; Ok (n ++ ": " ++ v).

(** A field or a value receiver read through a nil pointer panics. *)
Definition deref {T} (f : T -> bytes) (x : option T) : res bytes :=
  match x with Some x => Ok (f x) | None => Panic end.

(** A nil slice is an empty one. *)
Definition of_slice {T} (f : list T -> bytes) (x : option (list T)) : res bytes := Ok (f (default [] x)).

Definition named {T} (name : bytes) (x : option T) : res bytes := Ok name.

(** A clone tests for nil and copies, or returns the receiver. *)
Definition copy_of {T} (f : T -> T) (x : option T) : copied T := match x with Some x => New (f x) | None => Nil end.
Definition receiver {T} (x : option T) : copied T := Same.

(** ** The types *)

Definition GenericHeader : Methods (bytes * bytes) := mkMethods (deref fst) (deref snd) (copy_of (fun x => (x.1, x.2))).

Definition ToHeader : Methods NameAddr := mkMethods (named "To") (deref NameAddr_Value) (copy_of NameAddr_Clone).

Definition FromHeader : Methods NameAddr := mkMethods (named "From") (deref NameAddr_Value) (copy_of NameAddr_Clone).

Definition ContactHeader : Methods Headers.ContactHeader :=
  mkMethods (named "Contact") (deref Contact_Value) (copy_of Contact_Clone).

Definition CallID : Methods bytes := mkMethods (named "Call-ID") (deref id) receiver.

Definition CSeq : Methods (N * RequestMethod) :=
  mkMethods (named "CSeq") (deref (fun c => show_N c.1 ++ " " ++ c.2)) (copy_of (fun c => (c.1, c.2))).

Definition MaxForwards : Methods N := mkMethods (named "Max-Forwards") (deref show_N) receiver.
Definition Expires : Methods N := mkMethods (named "Expires") (deref show_N) receiver.
Definition ContentLength : Methods N := mkMethods (named "Content-Length") (deref show_N) receiver.

Definition ViaHeader : Methods (list ViaHop) :=
  mkMethods (named "Via") (of_slice (fun via => Join (ViaHop_String <$> via) ", ")) (copy_of (fmap ViaHop_Clone)).

(** [copy] into a new slice of the same length. *)
Definition dup {T} (l : list T) : list T := l.

Definition RequireHeader : Methods (list bytes) :=
  mkMethods (named "Require") (deref (fun l => Join l ", ")) (copy_of dup).
Definition SupportedHeader : Methods (list bytes) :=
  mkMethods (named "Supported") (deref (fun l => Join l ", ")) (copy_of dup).
Definition ProxyRequireHeader : Methods (list bytes) :=
  mkMethods (named "Proxy-Require") (deref (fun l => Join l ", ")) (copy_of dup).
Definition UnsupportedHeader : Methods (list bytes) :=
  mkMethods (named "Unsupported") (deref (fun l => Join l ", ")) (copy_of dup).

Definition UserAgentHeader : Methods bytes := mkMethods (named "User-Agent") (deref id) receiver.
Definition ServerHeader : Methods bytes := mkMethods (named "Server") (deref id) receiver.

Definition AllowHeader : Methods (list RequestMethod) :=
  mkMethods (named "Allow") (of_slice (fun l => Join l ", ")) (copy_of dup).

Definition ContentType : Methods bytes := mkMethods (named "Content-Type") (deref id) receiver.
Definition Authenticate : Methods bytes := mkMethods (named "WWW-Authenticate") (deref id) receiver.
Definition Accept : Methods bytes := mkMethods (named "Accept") (deref id) receiver.

Definition RouteHeader : Methods (list Uri) :=
  mkMethods (named "Route") (deref Route_Value) (copy_of (fmap Uri_Clone)).
Definition RecordRouteHeader : Methods (list Uri) :=
  mkMethods (named "Record-Route") (deref Route_Value) (copy_of (fmap Uri_Clone)).

Definition Event : Methods bytes := mkMethods (named "Event") (deref id) receiver.

(** ** The interface *)

(** A call through the interface: the table of the header's type, its contents,
    and the header with other contents. *)
Definition dispatch {R : Type} (h : Header) (k : forall T : Type, Methods T -> T -> (T -> Header) -> R) : R :=
  match h with
  | HGeneric n c => k _ GenericHeader (n, c) (fun x => HGeneric x.1 x.2)
  | HTo a => k _ ToHeader a HTo
  | HFrom a => k _ FromHeader a HFrom
  | HContact c => k _ ContactHeader c HContact
  | HCallID s => k _ CallID s HCallID
  | HCSeq n m => k _ CSeq (n, m) (fun x => HCSeq x.1 x.2)
  | HMaxForwards n => k _ MaxForwards n HMaxForwards
  | HExpires n => k _ Expires n HExpires
  | HContentLength n => k _ ContentLength n HContentLength
  | HVia l => k _ ViaHeader l HVia
  | HRequire l => k _ RequireHeader l HRequire
  | HSupported l => k _ SupportedHeader l HSupported
  | HProxyRequire l => k _ ProxyRequireHeader l HProxyRequire
  | HUnsupported l => k _ UnsupportedHeader l HUnsupported
  | HUserAgent s => k _ UserAgentHeader s HUserAgent
  | HServer s => k _ ServerHeader s HServer
  | HAllow l => k _ AllowHeader l HAllow
  | HContentType s => k _ ContentType s HContentType
  | HAuthenticate s => k _ Authenticate s HAuthenticate
  | HAccept s => k _ Accept s HAccept
  | HRoute l => k _ RouteHeader l HRoute
  | HRecordRoute l => k _ RecordRouteHeader l HRecordRoute
  | HEvent s => k _ Event s HEvent
  end.

Definition Name (h : Header) : res bytes := dispatch h (fun T t x _ => m_Name t (Some x)).
Definition Value (h : Header) : res bytes := dispatch h (fun T t x _ => m_Value t (Some x)).
Definition String_ (h : Header) : res bytes := dispatch h (fun T t x _ => m_String t (Some x)).
Definition clone_of (h : Header) : copied Header :=
  dispatch h (fun T t x wrap => match m_Clone t (Some x) with Same => Same | New y => New (wrap y) | Nil => Nil end).

(** ** Objects *)

(** The objects under their addresses; a message holds addresses. *)
Notation heap := (gmap nat Header).

(** [Clone] of the object at [n]: the address of the clone. *)
Definition Clone (n : nat) (H : heap) : option (nat * heap) :=
  h ← H !! n;
  Some (match clone_of h with
        | New h => let k := fresh (dom H) in (k, <[k := h]> H)
        | Same | Nil => (n, H)
        end).

(** [cloneHeaders]: the headers of a message one by one. *)
Fixpoint clone_all (ns : list nat) (H : heap) : option (list nat * heap) :=
  match ns with
  | [] => Some ([], H)
  | n :: ns =>
      '(k, H) ← Clone n H;
      '(ks, H) ← clone_all ns H;
      Some (k :: ks, H)
  end.

(** The types whose clone is the receiver. *)
Definition shared (h : Header) : bool :=
  match h with
  | HCallID _ | HMaxForwards _ | HExpires _ | HContentLength _ | HUserAgent _ | HServer _ | HContentType _
  | HAuthenticate _ | HAccept _ | HEvent _ => true
  | _ => false
  end.

(** ** What they guarantee *)

(** The methods of every type compute the functions on values. *)
Theorem methods_compute h :
  Name h = Ok (Header_Name h) /\ Value h = Ok (Header_Value h) /\ String_ h = Ok (Header_String h).
Proof. by destruct h. Qed.

Lemma clone_of_spec h : clone_of h = if shared h then Same else New (Header_Clone h).
Proof. by destruct h. Qed.

Lemma shared_Clone h : shared (Header_Clone h) = shared h.
Proof. by destruct h. Qed.

Lemma clone_shared h : shared h = true -> Header_Clone h = h.
Proof. by destruct h. Qed.

(** The clone of a header has the contents of [Header_Clone]; the original is as
    it was; a write through the clone reaches the original exactly for the types
    that return their receiver. *)
Theorem clone_object n H h :
  H !! n = Some h ->
  exists k H', Clone n H = Some (k, H') /\ H' !! k = Some (Header_Clone h) /\ H' !! n = Some h /\
    (forall v, <[k := v]> H' !! n = Some (if shared h then v else h)) /\
    (forall m, m <> k -> H' !! m = H !! m).
Proof.
  intros Hn. unfold Clone. rewrite Hn. cbn. rewrite clone_of_spec. destruct (shared h) eqn:Es.
  - exists n, H. rewrite clone_shared by done. split_and!; try done. intros v. by rewrite lookup_insert_eq.
  - set (k := fresh (dom H)). assert (k <> n) as Hk.
    { intros E. apply (is_fresh (dom H)). change (fresh (dom H)) with k. rewrite E. by apply elem_of_dom_2 in Hn. }
    eexists k, _. split; [done |]. split_and!.
    + by rewrite lookup_insert_eq.
    + by rewrite lookup_insert_ne.
    + intros v. by rewrite !lookup_insert_ne.
    + intros m Hm. by rewrite lookup_insert_ne by congruence.
Qed.

(** Objects at their addresses. *)
Definition holds (H : heap) (ns : list nat) (hs : list Header) : Prop := Forall2 (fun n h => H !! n = Some h) ns hs.

(** [H'] has what [H] has, and more. *)
Lemma holds_more H H' ns hs : H ⊆ H' -> holds H ns hs -> holds H' ns hs.
Proof. intros Hs Hh. eapply Forall2_impl; [exact Hh |]. intros n h Hn. exact (lookup_weaken _ _ _ _ Hn Hs). Qed.

Lemma Clone_spec n H h :
  H !! n = Some h ->
  exists k H', Clone n H = Some (k, H') /\ H ⊆ H' /\ H' !! k = Some (Header_Clone h) /\
    (if shared h then k = n else k ∉ dom H).
Proof.
  intros Hn. unfold Clone. rewrite Hn. cbn. rewrite clone_of_spec. destruct (shared h) eqn:Es.
  - exists n, H. by rewrite clone_shared.
  - eexists _, _. split; [done |]. split; [apply insert_subseteq, not_elem_of_dom, is_fresh |].
    split; [by rewrite lookup_insert_eq | apply is_fresh].
Qed.

Lemma clone_all_spec ns H hs :
  holds H ns hs ->
  exists ks H', clone_all ns H = Some (ks, H') /\ H ⊆ H' /\ holds H' ks (Header_Clone <$> hs) /\
    Forall2 (fun k h => shared h = false -> k ∉ dom H) ks hs.
Proof.
  intros Hh. revert H hs Hh. induction ns as [| n ns IH]; intros H hs Hh.
  { apply Forall2_nil_inv_l in Hh as ->. exists [], H. split_and!; try done; by apply Forall2_nil_2. }
  apply Forall2_cons_inv_l in Hh as (h & hs' & Hn & Hrest & ->).
  destruct (Clone_spec n H h Hn) as (k & H1 & E1 & Hs1 & Hk & Hf).
  destruct (IH H1 _ (holds_more _ _ _ _ Hs1 Hrest)) as (ks & H2 & E2 & Hs2 & Hks & Hfs).
  exists (k :: ks), H2. split_and!.
  - cbn. rewrite E1. cbn. by rewrite E2.
  - by etrans.
  - apply Forall2_cons_2; [exact (lookup_weaken _ _ _ _ Hk Hs2) | done].
  - apply Forall2_cons_2; [intros E; by rewrite E in Hf |]. eapply Forall2_impl; [exact Hfs |].
    intros k' h' Hd E Hin. apply (Hd E). by eapply subseteq_dom.
Qed.

(** The copy of a message's headers: they hold what [cloneHeaders] gives and leave
    every object as it was; a write to a header of the copy that is not of a shared
    type (CSeq and Via, which the code writes in place, among them) changes no
    object that existed before. *)
Theorem copied_headers_isolated ns H sec :
  holds H ns (HeaderStore.Headers_ sec) ->
  exists ks H', clone_all ns H = Some (ks, H') /\ H ⊆ H' /\ holds H' ks (HeaderStore.cloneHeaders sec) /\
    forall i k h v n, ks !! i = Some k -> HeaderStore.Headers_ sec !! i = Some h -> shared h = false -> n ∈ dom H ->
      <[k := v]> H' !! n = H !! n.
Proof.
  intros Hh. destruct (clone_all_spec _ _ _ Hh) as (ks & H' & E & Hs & Hks & Hf).
  exists ks, H'. split_and!; try done. intros i k h v n Hi Hh' Hsh [x Hn]%elem_of_dom.
  pose proof (Forall2_lookup_lr _ _ _ _ _ _ Hf Hi Hh' Hsh) as Hk.
  rewrite lookup_insert_ne, Hn; [exact (lookup_weaken _ _ _ _ Hn Hs) |]. intros ->. apply Hk. by apply elem_of_dom_2 in Hn.
Qed.

(** A header of a shared type is the same object in the copy. *)
Theorem copied_header_shared n H h :
  H !! n = Some h -> shared h = true -> Clone n H = Some (n, H).
Proof. intros Hn Hs. unfold Clone. rewrite Hn. cbn. by rewrite clone_of_spec, Hs. Qed.

End HeaderObjects.
