(* ===== verification/Accessors.v ===== *)
(** * Accessors and conversions: src/sip/headers.go, core.go, message.go, request.go, response.go

    The interface of URIs with its two implementations, addresses and the headers
    made of them, ports and optional strings, and the setters of messages. *)

From S2P Require Import Prelude GoStrings Escape Params Headers HeaderStore Message HeaderEquals.
From stdpp Require Import options.
Import Params Headers Message.

Module Accessors.

(** ** The interface Uri *)

(** A setter gives the object as it is after the call. *)
Class UriMethods (T : Type) : Type := mkUriMethods {
  IsEncrypted : T -> bool;
  SetEncrypted : bool -> T -> T;
  User : T -> MaybeString;
  SetUser : MaybeString -> T -> T;
  Password : T -> MaybeString;
  SetPassword : MaybeString -> T -> T;
  GetHost : T -> bytes;
  SetHost : bytes -> T -> T;
  GetPort : T -> option N;
  SetPort : option N -> T -> T;
  UriParams : T -> option headerParams;
  SetUriParams : option headerParams -> T -> T;
  UriHeaders : T -> option headerParams;
  SetHeaders : option headerParams -> T -> T;
  IsWildcard : T -> bool
}.

#[export] Instance SipUri_methods : UriMethods SipUri := {
  IsEncrypted := FIsEncrypted;
  SetEncrypted b u := mkSipUri b (FUser u) (FPassword u) (FHost u) (FPort u) (FUriParams u) (FHeaders u);
  User := FUser;
  SetUser x u := mkSipUri (FIsEncrypted u) x (FPassword u) (FHost u) (FPort u) (FUriParams u) (FHeaders u);
  Password := FPassword;
  SetPassword x u := mkSipUri (FIsEncrypted u) (FUser u) x (FHost u) (FPort u) (FUriParams u) (FHeaders u);
  GetHost := FHost;
  SetHost x u := mkSipUri (FIsEncrypted u) (FUser u) (FPassword u) x (FPort u) (FUriParams u) (FHeaders u);
  GetPort := FPort;
  SetPort x u := mkSipUri (FIsEncrypted u) (FUser u) (FPassword u) (FHost u) x (FUriParams u) (FHeaders u);
  UriParams := FUriParams;
  SetUriParams x u := mkSipUri (FIsEncrypted u) (FUser u) (FPassword u) (FHost u) (FPort u) x (FHeaders u);
  UriHeaders := FHeaders;
  SetHeaders x u := mkSipUri (FIsEncrypted u) (FUser u) (FPassword u) (FHost u) (FPort u) (FUriParams u) x;
  IsWildcard _ := false
}.

(** A wildcard has no fields: its setters do nothing. *)
#[export] Instance WildcardUri_methods : UriMethods unit := {
  IsEncrypted _ := false;
  SetEncrypted _ u := u;
  User _ := None;
  SetUser _ u := u;
  Password _ := None;
  SetPassword _ u := u;
  GetHost _ := [];
  SetHost _ u := u;
  GetPort _ := None;
  SetPort _ u := u;
  UriParams _ := None;
  SetUriParams _ u := u;
  UriHeaders _ := None;
  SetHeaders _ u := u;
  IsWildcard _ := true
}.

(** ** Addresses *)

(** [Equals]: two nil pointers are the same pointer. *)
Definition Address_Equals (a b : option NameAddr) : bool :=
  match a, b with
  | None, None => true
  | Some a, Some b =>
      maybe_eq (na_name a) (na_name b) && opt_uri_eq (na_addr a) (na_addr b) &&
      opt_params_eq (na_params a) (na_params b)
  | _, _ => false
  end.

Definition AsToHeader (a : NameAddr) : NameAddr :=
  mkNameAddr (na_name a) (Uri_Clone <$> na_addr a) (Params.Clone <$> na_params a).
Definition AsFromHeader (a : NameAddr) : NameAddr :=
  mkNameAddr (na_name a) (Uri_Clone <$> na_addr a) (Params.Clone <$> na_params a).

(** The address of a [Contact] is never nil in the model: no result without one. *)
Definition AsContactHeader (a : NameAddr) : option ContactHeader :=
  u ← na_addr a; Some (mkContact (na_name a) (Uri_Clone u) (Params.Clone <$> na_params a)).

(** ** Ports and optional strings *)

Definition Port_Clone (p : option N) : option N := match p with None => None | Some p => Some p end.

Definition Port_String (p : option N) : bytes := match p with None => [] | Some p => show_N p end.

(** [other] is a [*Port] or something else. *)
Definition Port_Equals (p : option N) (other : option (option N)) : bool :=
  match other with Some q => Uint16PtrEq p q | None => false end.

(** [other] is a string or a [String], or something else. *)
Definition String_Equals (s : bytes) (other : option bytes) : bool :=
  match other with Some v => streq s v | None => false end.

(** ** Setters of messages *)

Definition SetSipVersion (m : message) (version : bytes) : message :=
  mkMessage (hdrs m) (messID m) version (body m) (tp m) (src m) (dest m).

Definition SetMethod (r : request) (m : RequestMethod) : request := mkRequest (rq_msg r) m (recipient r).
Definition SetRecipient (r : request) (u : option Uri) : request := mkRequest (rq_msg r) (method r) u.

Definition SetStatusCode (r : response) (code : N) : response := mkResponse (rs_msg r) code (reason r) (previous r).
Definition SetReason (r : response) (x : bytes) : response := mkResponse (rs_msg r) (status r) x (previous r).
Definition SetPrevious (r : response) (l : list response) : response := mkResponse (rs_msg r) (status r) (reason r) l.

(** ** What they guarantee *)

(** What the getters of a URI see. *)
Definition fields {T} `{UriMethods T} (u : T) :=
  (IsEncrypted u, User u, Password u, GetHost u, GetPort u, UriParams u, UriHeaders u).

(** A setter of a SIP URI changes its own field to the given value and no other,
    so what was set is what is read; a wildcard keeps its own fields. *)
Theorem uri_setters (u : SipUri) b (us pw : MaybeString) h (p : option N) (ps hs : option headerParams) (w : unit) :
  fields (SetHeaders hs (SetUriParams ps (SetPort p (SetHost h (SetPassword pw (SetUser us (SetEncrypted b u)))))))
    = (b, us, pw, h, p, ps, hs) /\
  fields (SetUser us u) = (IsEncrypted u, us, Password u, GetHost u, GetPort u, UriParams u, UriHeaders u) /\
  fields (SetHost h u) = (IsEncrypted u, User u, Password u, h, GetPort u, UriParams u, UriHeaders u) /\
  fields (SetPort p u) = (IsEncrypted u, User u, Password u, GetHost u, p, UriParams u, UriHeaders u) /\
  fields (SetUriParams ps (SetHost h w)) = (false, None, None, [], None, None, None).
Proof. by split_and!. Qed.

(** The fields are all there is to a SIP URI. *)
Theorem uri_fields_determine (u v : SipUri) : fields u = fields v -> u = v.
Proof. destruct u, v. by intros [= -> -> -> -> -> -> ->]. Qed.

Lemma cloneWithNil_again p : wf_params p -> cloneWithNil (Some (cloneWithNil p)) = cloneWithNil p.
Proof. destruct p as [p|]; cbn; intros Hp; [by rewrite (Clone_id (Params.Clone p)) by by apply wf_Clone | done]. Qed.

Lemma clone_twice u : wf_uri u -> Uri_Clone (Uri_Clone u) = Uri_Clone u.
Proof.
  destruct u as [u| |]; try done. intros [H1 H2]. cbn. unfold SipUri_Clone. cbn -[cloneWithNil].
  by rewrite !cloneWithNil_again.
Qed.

(** The headers made of an address lead back to an equal address, and print as the
    address does. *)
Theorem address_headers a :
  (forall u, na_addr a = Some u -> wf_uri u /\ HeaderEquals.sip_address u) -> wf_params (na_params a) ->
  Address_Equals (Some a) (Some (NewAddressFromHeader (AsToHeader a))) = true /\
  Address_Equals (Some a) (Some (NewAddressFromHeader (AsFromHeader a))) = true /\
  (forall c, AsContactHeader a = Some c ->
     Address_Equals (Some a) (Some (NewAddressFromContactHeader c)) = true) /\
  NameAddr_Value (AsToHeader a) = Address_String a.
Proof.
  intros Hu Hp. destruct a as [name addr ps]. cbn [na_name na_addr na_params] in *.
  assert (Params.Clone <$> ps = ps) as Ep by (destruct ps; [| done]; cbn; by rewrite Clone_id).
  assert (opt_uri_eq addr (Uri_Clone <$> (Uri_Clone <$> addr)) = true) as Eu.
  { destruct addr as [u|]; [| done]. destruct (Hu u eq_refl) as [Hw Hs]. cbn.
    rewrite clone_twice by done. by apply HeaderEquals.Uri_Equals_Clone. }
  assert (opt_params_eq ps ps = true) as Epp by (destruct ps; [apply Params_Equals_refl | done]).
  split_and!.
  - cbn. by rewrite !Ep, maybe_eq_refl, Eu, Epp.
  - cbn. by rewrite !Ep, maybe_eq_refl, Eu, Epp.
  - intros c. destruct addr as [u|]; [| done]. intros [= <-]. cbn in *. by rewrite !Ep, maybe_eq_refl, Eu, Epp.
  - apply (NameAddr_Clone_Value (mkNameAddr name addr ps)); [done |]. intros u E. by apply Hu.
Qed.

(** A setter of a message shows in its start line and nowhere else. *)
Theorem message_setters r m (u : option Uri) rs code rsn :
  request_StartLine (SetMethod r m) = m ++ " " ++ fmt_uri (recipient r) ++ " " ++ sipVersion (rq_msg r) /\
  request_StartLine (SetRecipient r u) = method r ++ " " ++ fmt_uri u ++ " " ++ sipVersion (rq_msg r) /\
  rq_msg (SetMethod r m) = rq_msg r /\ rq_msg (SetRecipient r u) = rq_msg r /\
  response_StartLine (SetReason (SetStatusCode rs code) rsn)
    = sipVersion (rs_msg rs) ++ " " ++ show_N code ++ " " ++ rsn /\
  rs_msg (SetReason (SetStatusCode rs code) rsn) = rs_msg rs.
Proof. by split_and!. Qed.

End Accessors.
