(* ===== verification/Timing.v ===== *)
(** * Timers: src/timing/timing.go

    The package is a switch between the timers of Go's runtime and mock timers
    that expire when [Elapse] is called.  A timer is a number; its channel holds
    one tick at most, the time it was sent.  A call that sends on a full channel
    blocks: its result is [None], beside the clock as it is then.  A function given to [AfterFunc] is a
    number; [started] lists the goroutines that run such functions. *)

From S2P Require Import Prelude GoStrings.
From stdpp Require Import options.

Module Timing.

(** ** Mock timers *)

Record mockTimer : Type := mkTimer {
  EndTime : Z;
  Chan : option Z;
  fired : bool;
  toRun : option nat
}.

Record clock : Type := mkClock {
  currentTimeMock : Z;
  heap : gmap nat mockTimer;
  mockTimers : list nat;
  next_timer : nat;
  started : list nat
}.

Definition new_clock : clock := mkClock 0 ∅ [] 0 [].

Definition Now (c : clock) : Z := currentTimeMock c.

(** [NewTimer] in mock mode. *)
Definition NewTimer (d : Z) (c : clock) : nat * clock :=
  let n := next_timer c in
  let e := (Now c + d)%Z in
  (n, if (d =? 0)%Z
      then mkClock (Now c) (<[n := mkTimer e (Some (Now c)) false None]> (heap c)) (mockTimers c) (S n) (started c)
      else mkClock (Now c) (<[n := mkTimer e None false None]> (heap c)) (mockTimers c ++ [n]) (S n) (started c)).

(** [AfterFunc] in mock mode. *)
Definition AfterFunc (d : Z) (f : nat) (c : clock) : nat * clock :=
  let n := next_timer c in
  let e := (Now c + d)%Z in
  (n, if (d =? 0)%Z
      then mkClock (Now c) (<[n := mkTimer e (Some (Now c)) false (Some f)]> (heap c)) (mockTimers c) (S n)
             (started c ++ [f])
      else mkClock (Now c) (<[n := mkTimer e None false (Some f)]> (heap c)) (mockTimers c ++ [n]) (S n) (started c)).

(** The list without the first occurrence of a timer. *)
Fixpoint remove_at_first (n : nat) (l : list nat) : list nat :=
  match l with [] => [] | m :: l => if n =? m then l else m :: remove_at_first n l end.

Definition removeMockTimer (n : nat) (c : clock) : bool * clock :=
  if existsb (Nat.eqb n) (mockTimers c)
  then (true, mkClock (Now c) (heap c) (remove_at_first n (mockTimers c)) (next_timer c) (started c))
  else (false, c).

Definition with_timer (n : nat) (t : mockTimer) (c : clock) : clock :=
  mkClock (Now c) (<[n := t]> (heap c)) (mockTimers c) (next_timer c) (started c).

Definition set_end (e : Z) (t : mockTimer) : mockTimer := mkTimer e (Chan t) (fired t) (toRun t).
Definition set_chan (x : option Z) (t : mockTimer) : mockTimer := mkTimer (EndTime t) x (fired t) (toRun t).

(** [Reset]: whether the timer was tracked; [None] when the send blocks. *)
Definition Reset (n : nat) (d : Z) (c : clock) : option bool * clock :=
  let '(wasActive, c) := removeMockTimer n c in
  match heap c !! n with
  | None => (None, c)
  | Some t =>
      let t := set_end (Now c + d) t in
      let c := with_timer n t c in
      if (0 <? d)%Z then
        (Some wasActive, mkClock (Now c) (heap c) (mockTimers c ++ [n]) (next_timer c) (started c))
      else
        match Chan t with
        | Some _ => (None, c)
        | None => (Some wasActive, with_timer n (set_chan (Some (Now c)) t) c)
        end
  end.

(** [Stop]: a tick in the channel counts as a timer that was active. *)
Definition Stop (n : nat) (c : clock) : bool * clock :=
  match removeMockTimer n c with
  | (true, c) => (true, c)
  | (false, c) =>
      match heap c !! n with
      | Some t => match Chan t with Some _ => (true, with_timer n (set_chan None t) c) | None => (false, c) end
      | None => (false, c)
      end
  end.

(** A receive from [C()]: no result when the channel is empty. *)
Definition receive (n : nat) (c : clock) : option (Z * clock) :=
  match heap c !! n with
  | Some t => match Chan t with Some x => Some (x, with_timer n (set_chan None t) c) | None => None end
  | None => None
  end.

(** A timer in the loop of [Elapse]. *)
Definition due (now : Z) (t : mockTimer) : bool := negb (now <? EndTime t)%Z.

Definition elapse_timer (now : Z) (t : mockTimer) : mockTimer :=
  if due now t then mkTimer (EndTime t) (Some now) true (toRun t)
  else mkTimer (EndTime t) (Chan t) false (toRun t).

Definition run_due (now : Z) (t : mockTimer) : list nat :=
  if due now t then match toRun t with Some f => [f] | None => [] end else [].

Definition elapse_one (c : clock) (n : nat) : clock :=
  match heap c !! n with
  | None => c
  | Some t => mkClock (Now c) (<[n := elapse_timer (Now c) t]> (heap c)) (mockTimers c) (next_timer c)
                (started c ++ run_due (Now c) t)
  end.

(** The loop that stops tracking the timers that fired. *)
Definition remaining (c : clock) : list nat :=
  filter (fun n => fired <$> heap c !! n = Some false) (mockTimers c).

Definition advance (d : Z) (c : clock) : clock :=
  mkClock (Now c + d) (heap c) (mockTimers c) (next_timer c) (started c).

(** [Elapse] in mock mode. *)
Definition Elapse (d : Z) (c : clock) : clock :=
  let c := foldl elapse_one (advance d c) (mockTimers c) in
  mkClock (Now c) (heap c) (remaining c) (next_timer c) (started c).

(** ** Real timers

    A timer of Go's runtime before Go 1.23: a time to fire at, and a channel for
    one tick, which an expired timer keeps until it is received. *)

Record goTimer : Type := mkGo { g_when : option Z; g_chan : option Z }.

Definition go_Stop (t : goTimer) : bool * goTimer := (isSome (g_when t), mkGo None (g_chan t)).
Definition go_Reset (now d : Z) (t : goTimer) : bool * goTimer :=
  (isSome (g_when t), mkGo (Some (now + d)%Z) (g_chan t)).
(** The runtime fires the timer: the tick is dropped when the channel is full. *)
Definition go_fire (now : Z) (t : goTimer) : goTimer :=
  match g_when t with
  | Some w => if (w <=? now)%Z then mkGo None (Some (match g_chan t with Some x => x | None => now end)) else t
  | None => t
  end.

(** [realTimer.Stop] *)
Definition real_Stop (t : goTimer) : bool * goTimer :=
  match go_Stop t with
  | (true, t) => (true, t)
  | (false, t) => match g_chan t with Some _ => (true, mkGo (g_when t) None) | None => (false, t) end
  end.

(** [realTimer.Reset] *)
Definition real_Reset (now d : Z) (t : goTimer) : bool * goTimer := go_Reset now d (real_Stop t).2.

(** ** The tracked timers *)

Inductive call : Type :=
| CNewTimer (d : Z)
| CAfterFunc (d : Z) (f : nat)
| CReset (n : nat) (d : Z)
| CStop (n : nat)
| CReceive (n : nat)
| CElapse (d : Z).

Definition exec (c : clock) (x : call) : clock :=
  match x with
  | CNewTimer d => (NewTimer d c).2
  | CAfterFunc d f => (AfterFunc d f c).2
  | CReset n d => (Reset n d c).2
  | CStop n => (Stop n c).2
  | CReceive n => match receive n c with Some (_, c) => c | None => c end
  | CElapse d => Elapse d c
  end.

Definition run (l : list call) : clock := foldl exec new_clock l.

(** A tracked timer is one of the heap and tracked once. *)
Record clock_ok (c : clock) : Prop := {
  ok_nodup : NoDup (mockTimers c);
  ok_tracked n : n ∈ mockTimers c -> is_Some (heap c !! n);
  ok_fresh n : next_timer c <= n -> heap c !! n = None
}.

(** ** Lemmas *)

Lemma elem_of_remove n m l : NoDup l -> m ∈ remove_at_first n l <-> m ∈ l /\ m <> n.
Proof.
  induction 1 as [| k l Hk Hl IH]; cbn; [set_solver |]. destruct (Nat.eqb_spec n k) as [->|Hn]; set_solver.
Qed.

Lemma NoDup_remove_first n l : NoDup l -> NoDup (remove_at_first n l).
Proof.
  induction 1 as [| k l Hk Hl IH]; cbn; [constructor |]. destruct (n =? k) eqn:E; [done |].
  constructor; [| done]. rewrite elem_of_remove by done. tauto.
Qed.

Lemma tracked_existsb n l : existsb (Nat.eqb n) l = true <-> n ∈ l.
Proof.
  rewrite existsb_exists, list_elem_of_In. split; [| by intros H; exists n; rewrite Nat.eqb_refl].
  intros (m & Hm & E). by apply Nat.eqb_eq in E as <-.
Qed.

Lemma removeMockTimer_ok n c : clock_ok c ->
  clock_ok (removeMockTimer n c).2 /\ n ∉ mockTimers (removeMockTimer n c).2 /\
  ((removeMockTimer n c).1 = true <-> n ∈ mockTimers c) /\ heap (removeMockTimer n c).2 = heap c.
Proof.
  intros [Hd Ht Hf]. unfold removeMockTimer. destruct (existsb _ _) eqn:E; cbn.
  - apply tracked_existsb in E. split_and!; try done.
    + split; cbn; [by apply NoDup_remove_first | | done]. intros m Hm. apply Ht.
      by apply elem_of_remove in Hm as [? _].
    + rewrite elem_of_remove by done. tauto.
  - assert (n ∉ mockTimers c) as Hn by (intros H; apply tracked_existsb in H; congruence).
    by split_and!.
Qed.

Lemma filter_agree {A} (P Q : A -> Prop) `{!forall x, Decision (P x), !forall x, Decision (Q x)} (l : list A) :
  (forall x, x ∈ l -> P x <-> Q x) -> filter P l = filter Q l.
Proof.
  induction l as [| x l IH]; intros Hl; [done |]. rewrite !filter_cons, IH by set_solver.
  assert (P x <-> Q x) as Hx by set_solver. repeat case_decide; tauto.
Qed.

(** What the loop of [Elapse] does to a timer of the list. *)
Lemma elapse_loop l c :
  NoDup l ->
  let c' := foldl elapse_one c l in
  Now c' = Now c /\ mockTimers c' = mockTimers c /\ next_timer c' = next_timer c /\
  (forall n, heap c' !! n = if decide (n ∈ l) then elapse_timer (Now c) <$> heap c !! n else heap c !! n) /\
  started c' = started c ++ (l ≫= fun n => from_option (run_due (Now c)) [] (heap c !! n)).
Proof.
  intros Hd. revert c. induction Hd as [| k l Hk Hl IH]; intros c; cbn.
  - by split_and!; rewrite ?app_nil_r.
  - destruct (IH (elapse_one c k)) as (Hn & Hm & Hx & Hh & Hs). unfold elapse_one in *.
    destruct (heap c !! k) as [t|] eqn:E; cbn in *.
    + rewrite Hn, Hm, Hx, Hs. split_and!; try done.
      * intros n. rewrite Hh. destruct (decide (n = k)) as [->|Hne].
        -- rewrite lookup_insert_eq, decide_False, decide_True by set_solver. by rewrite E.
        -- rewrite lookup_insert_ne by done. destruct (decide (n ∈ l)); [| by rewrite decide_False by set_solver].
           by rewrite decide_True by set_solver.
      * rewrite <- app_assoc. do 2 f_equal. apply Forall_bind_ext, Forall_forall.
        intros n Hn'. rewrite lookup_insert_ne; [done |]. congruence.
    + rewrite Hn, Hm, Hx, Hs. split_and!; try done. intros n. rewrite Hh.
      destruct (decide (n = k)) as [->|Hne]; [rewrite decide_False, decide_True by set_solver; by rewrite E |].
      destruct (decide (n ∈ l)); [by rewrite decide_True by set_solver | by rewrite decide_False by set_solver].
Qed.

Definition due_at (now : Z) (c : clock) (n : nat) : bool := from_option (due now) true (heap c !! n).
Definition runs_at (now : Z) (c : clock) (n : nat) : list nat := from_option (run_due now) [] (heap c !! n).

(** [Elapse] without its loops. *)
Lemma Elapse_spec d c :
  clock_ok c ->
  let now := (Now c + d)%Z in
  Now (Elapse d c) = now /\
  mockTimers (Elapse d c) = filter (fun n => due_at now c n = false) (mockTimers c) /\
  next_timer (Elapse d c) = next_timer c /\
  (forall n, heap (Elapse d c) !! n =
             if decide (n ∈ mockTimers c) then elapse_timer now <$> heap c !! n else heap c !! n) /\
  started (Elapse d c) = started c ++ (mockTimers c ≫= runs_at now c).
Proof.
  intros [Hd Ht _]. destruct (elapse_loop (mockTimers c) (advance d c) Hd) as (Hn & Hm & Hx & Hh & Hs).
  unfold Elapse. cbn [Now currentTimeMock mockTimers heap started next_timer].
  split_and!; [exact Hn | | exact Hx | exact Hh | exact Hs].
  unfold remaining. rewrite Hm. cbn [advance mockTimers]. apply filter_agree. intros n Hin.
  rewrite Hh, decide_True by done. unfold due_at. cbn [advance heap].
  destruct (Ht n Hin) as [t ->]. cbn. unfold elapse_timer. destruct (due _ t); naive_solver.
Qed.

Lemma Elapse_ok d c : clock_ok c -> clock_ok (Elapse d c).
Proof.
  intros Hc. destruct (Elapse_spec d c Hc) as (_ & Hm & Hx & Hh & _). destruct Hc as [Hd Ht Hf]. split.
  - rewrite Hm. by apply NoDup_filter.
  - intros n Hn. rewrite Hm, list_elem_of_filter in Hn. destruct Hn as [_ Hn]. rewrite Hh, decide_True by done.
    by apply fmap_is_Some, Ht.
  - intros n Hn. rewrite Hx in Hn. rewrite Hh. destruct (decide _); by rewrite Hf.
Qed.

Lemma with_timer_ok n t c : is_Some (heap c !! n) -> clock_ok c -> clock_ok (with_timer n t c).
Proof.
  intros Hs [Hd Ht Hf]. split; cbn; [done | |].
  - intros m Hm. destruct (decide (m = n)) as [->|]; [by rewrite lookup_insert_eq |].
    rewrite lookup_insert_ne by done. auto.
  - intros m Hm. rewrite lookup_insert_ne; [by apply Hf |]. intros <-. rewrite Hf in Hs by done. by destruct Hs.
Qed.

(** A timer is added to the tracked ones. *)
Lemma track_ok n c :
  n ∉ mockTimers c -> is_Some (heap c !! n) -> clock_ok c ->
  clock_ok (mkClock (Now c) (heap c) (mockTimers c ++ [n]) (next_timer c) (started c)).
Proof.
  intros Hn Hs [Hd Ht Hf]. split; cbn; [| | done].
  - apply NoDup_app. split_and!; [done | set_solver | apply NoDup_singleton].
  - intros m [Hm | ->%list_elem_of_singleton]%elem_of_app; auto.
Qed.

(** A new timer. *)
Lemma fresh_ok t track l c :
  clock_ok c ->
  clock_ok (mkClock (Now c) (<[next_timer c := t]> (heap c))
              (mockTimers c ++ if track : bool then [next_timer c] else []) (S (next_timer c)) l).
Proof.
  intros [Hd Ht Hf]. assert (next_timer c ∉ mockTimers c) as Hn.
  { intros H. destruct (Ht _ H) as [x Hx]. by rewrite Hf in Hx. }
  split; cbn.
  - destruct track; [| by rewrite app_nil_r]. apply NoDup_app. split_and!; [done | set_solver | apply NoDup_singleton].
  - intros m Hm. destruct (decide (m = next_timer c)) as [->|Hne]; [by rewrite lookup_insert_eq |].
    rewrite lookup_insert_ne by done. apply Ht. destruct track; set_solver.
  - intros m Hm. rewrite lookup_insert_ne by lia. apply Hf. lia.
Qed.

Lemma exec_ok c x : clock_ok c -> clock_ok (exec c x).
Proof.
  intros Hc. destruct x as [d|d f|n d|n|n|d]; cbn.
  - destruct (d =? 0)%Z; [rewrite <- (app_nil_r (mockTimers c)); by apply (fresh_ok _ false) | by apply (fresh_ok _ true)].
  - destruct (d =? 0)%Z; [rewrite <- (app_nil_r (mockTimers c)); by apply (fresh_ok _ false) | by apply (fresh_ok _ true)].
  - unfold Reset. destruct (removeMockTimer_ok n c Hc) as (Ho & Hn & _ & _).
    destruct (removeMockTimer n c) as [w c']. cbn in Ho, Hn. destruct (heap c' !! n) as [t|] eqn:E; [| done].
    assert (clock_ok (with_timer n (set_end (Now c' + d) t) c')) as Hw by (apply with_timer_ok; [by rewrite E | done]).
    destruct (0 <? d)%Z.
    + apply (track_ok n (with_timer n (set_end (Now c' + d) t) c')); [done | cbn; by rewrite lookup_insert_eq | done].
    + cbn. destruct (Chan t); [done |]. apply with_timer_ok; [cbn; by rewrite lookup_insert_eq | done].
  - unfold Stop. destruct (removeMockTimer_ok n c Hc) as (Ho & _ & _ & _).
    destruct (removeMockTimer n c) as [[] c']; [done |]. cbn in Ho.
    destruct (heap c' !! n) as [t|] eqn:E; [| done]. destruct (Chan t); [| done].
    apply with_timer_ok; [by rewrite E | done].
  - unfold receive. destruct (heap c !! n) as [t|] eqn:E; [| done]. destruct (Chan t); [| done].
    apply with_timer_ok; [by rewrite E | done].
  - by apply Elapse_ok.
Qed.

(** ** Theorems *)

(** Whatever calls are made, a timer is tracked at most once. *)
Theorem clock_invariant l : clock_ok (run l).
Proof.
  unfold run. assert (clock_ok new_clock) as H by (split; cbn; [constructor | set_solver | done]).
  revert H. generalize new_clock. induction l as [| x l IH]; intros c Hc; [done |]. by apply IH, exec_ok.
Qed.

Lemma due_later now now' t : (now <= now')%Z -> due now t = true -> due now' t = true.
Proof. unfold due. lia. Qed.

Lemma runs_not_due now c n : due_at now c n = false -> runs_at now c n = [].
Proof. unfold due_at, runs_at, run_due. by destruct (heap c !! n) as [t|]; [intros E; cbn in *; rewrite E |]. Qed.

Lemma runs_due_later now now' c n :
  (now <= now')%Z -> due_at now c n = true -> runs_at now c n = runs_at now' c n.
Proof.
  unfold due_at, runs_at, run_due. destruct (heap c !! n) as [t|]; [| done]. cbn. intros Hl E.
  by rewrite E, (due_later _ _ _ Hl E).
Qed.

(** [Elapse] fires exactly the tracked timers whose time has come: each gets a
    tick of the new time, is tracked no more and has its function started once;
    the others keep their channel and stay as they were. *)
Theorem elapse_fires_due d c n t :
  clock_ok c -> heap c !! n = Some t ->
  let c' := Elapse d c in
  exists t', heap c' !! n = Some t' /\ EndTime t' = EndTime t /\ toRun t' = toRun t /\
    (if decide (n ∈ mockTimers c /\ (EndTime t <= Now c + d)%Z)
     then Chan t' = Some (Now c') /\ n ∉ mockTimers c'
     else Chan t' = Chan t /\ (n ∈ mockTimers c' <-> n ∈ mockTimers c)) /\
    started c' = started c ++ (filter (fun m => due_at (Now c') c m = true) (mockTimers c) ≫= runs_at (Now c') c).
Proof.
  intros Hc Ht c'. destruct (Elapse_spec d c Hc) as (Hn & Hm & _ & Hh & Hs). fold c' in Hn, Hm, Hh, Hs.
  exists (if decide (n ∈ mockTimers c) then elapse_timer (Now c + d) t else t).
  assert (n ∈ mockTimers c' <-> n ∈ mockTimers c /\ due (Now c + d) t = false) as Hin.
  { rewrite Hm, list_elem_of_filter. unfold due_at. rewrite Ht. cbn. tauto. }
  rewrite Hh, Ht, Hn, Hs. split_and!.
  - by case_decide.
  - case_decide; [| done]. unfold elapse_timer. by destruct (due _ t).
  - case_decide; [| done]. unfold elapse_timer. by destruct (due _ t).
  - unfold elapse_timer. unfold due in *.
    destruct (Z.ltb_spec (Now c + d)%Z (EndTime t)); repeat case_decide; cbn in *; split; intuition (done || lia).
  - f_equal. generalize (mockTimers c) as l. induction l as [| m l IH]; [done |]. rewrite filter_cons. cbn.
    case_decide as E; cbn; rewrite IH; [done |]. by rewrite (runs_not_due _ _ _ (not_true_is_false _ E)).
Qed.

(** Time may pass at once or in parts: the same timers fire, the same functions
    are started, and the same timers are tracked after it. *)
Theorem elapse_split d1 d2 c :
  clock_ok c -> (0 <= d2)%Z ->
  let a := Elapse d2 (Elapse d1 c) in
  let b := Elapse (d1 + d2) c in
  Now a = Now b /\ mockTimers a = mockTimers b /\ started a ≡ₚ started b /\
  forall n, (Chan <$> heap a !! n) ≫= (fun x => x) = None <-> (Chan <$> heap b !! n) ≫= (fun x => x) = None.
Proof.
  intros Hc Hd a b.
  destruct (Elapse_spec d1 c Hc) as (Hn1 & Hm1 & _ & Hh1 & Hs1).
  destruct (Elapse_spec d2 _ (Elapse_ok d1 c Hc)) as (Hn2 & Hm2 & _ & Hh2 & Hs2).
  destruct (Elapse_spec (d1 + d2) c Hc) as (Hn3 & Hm3 & _ & Hh3 & Hs3).
  fold a in Hn2, Hm2, Hh2, Hs2. fold b in Hn3, Hm3, Hh3, Hs3.
  assert (Now (Elapse d1 c) + d2 = Now c + (d1 + d2))%Z as En by (rewrite Hn1; lia). rewrite En in *.
  assert (forall now n, due_at now (Elapse d1 c) n = due_at now c n /\ runs_at now (Elapse d1 c) n = runs_at now c n) as Hat.
  { intros now n. unfold due_at, runs_at. rewrite Hh1. case_decide; [| done].
    destruct (heap c !! n) as [t|]; [| done]. cbn. unfold elapse_timer, run_due, due.
    destruct (Now c + d1 <? EndTime t)%Z; done. }
  split_and!.
  - by rewrite Hn2, Hn3.
  - rewrite Hm2, Hm1, Hm3, list_filter_filter. apply filter_agree. intros n _.
    rewrite (proj1 (Hat _ _)). split; [tauto |]. intros H. split; [done |]. revert H. unfold due_at.
    destruct (heap c !! n) as [t|]; [| done]. cbn. unfold due. lia.
  - rewrite Hs2, Hs1, Hs3, Hm1, <- app_assoc. apply Permutation_app_head.
    generalize (mockTimers c) as l. induction l as [| n l IH]; [done |]. rewrite filter_cons. cbn.
    case_decide as E; cbn.
    + rewrite (proj2 (Hat _ _)).
      rewrite (runs_not_due _ _ _ E).
      cbn. rewrite Permutation_app_swap_app. by rewrite IH.
    + rewrite (runs_due_later _ (Now c + (d1 + d2))); [| lia | by apply not_false_is_true].
      by rewrite <- app_assoc, IH.
  - intros n. rewrite Hh2, Hh1, Hh3, Hm1. destruct (decide (n ∈ mockTimers c)) as [Hin|Hin].
    + destruct (heap c !! n) as [t|] eqn:Et; cbn; [| by case_decide].
      assert (n ∈ filter (fun n => due_at (Now c + d1) c n = false) (mockTimers c) <-> due (Now c + d1) t = false) as Hf
        by (rewrite list_elem_of_filter; unfold due_at; rewrite Et; cbn; tauto).
      unfold elapse_timer. destruct (due (Now c + d1) t) eqn:E1.
      * rewrite decide_False by (rewrite Hf; done). cbn. rewrite (due_later (Now c + d1) (Now c + (d1 + d2)) t); [done | lia | done].
      * rewrite decide_True by (by apply Hf). cbn.
        change (due (Now c + (d1 + d2)) (mkTimer (EndTime t) (Chan t) false (toRun t))) with (due (Now c + (d1 + d2)) t).
        by destruct (due (Now c + (d1 + d2)) t).
    + rewrite decide_False; [done |]. rewrite list_elem_of_filter. tauto.
Qed.

(** *** Stopping and resetting *)

Definition ticked (n : nat) (c : clock) : Prop := exists t x, heap c !! n = Some t /\ Chan t = Some x.

(** [Stop] says that the timer was active also when it had expired and its tick
    was not received; then it takes the tick away. *)
Theorem stop_result n c :
  clock_ok c -> ((Stop n c).1 = true <-> n ∈ mockTimers c \/ ticked n c) /\ n ∉ mockTimers (Stop n c).2.
Proof.
  intros Hc. unfold Stop, ticked. destruct (removeMockTimer_ok n c Hc) as (_ & Hn & Hb & Hh).
  destruct (removeMockTimer n c) as [[] c']; cbn in *; [tauto |]. rewrite Hh.
  destruct (heap c !! n) as [t|]; [destruct (Chan t) as [x|] eqn:E |]; cbn; split; try done; naive_solver.
Qed.

(** A reset to no time blocks exactly when the last tick was not received; it
    never starts the function of the timer. *)
Theorem reset_now n d c :
  clock_ok c -> is_Some (heap c !! n) -> (d <= 0)%Z ->
  ((Reset n d c).1 = None <-> ticked n c) /\ started (Reset n d c).2 = started c.
Proof.
  intros Hc [t Ht] Hd. unfold Reset, ticked. destruct (removeMockTimer_ok n c Hc) as (_ & _ & _ & Hh).
  assert (started (removeMockTimer n c).2 = started c) as Hs by (unfold removeMockTimer; by destruct (existsb _ _)).
  destruct (removeMockTimer n c) as [w c']. cbn in Hh, Hs. rewrite Hh, Ht. rewrite (proj2 (Z.ltb_ge 0 d)) by done.
  cbn. destruct (Chan t) eqn:E; cbn; split; try done; naive_solver.
Qed.

(** A timer of the runtime never has a tick while it runs, so that a reset one
    does not seem to expire at once. *)
Definition no_stale (t : goTimer) : Prop := is_Some (g_when t) -> g_chan t = None.

Theorem real_timer_fresh t now d :
  no_stale t -> no_stale (real_Stop t).2 /\ no_stale (go_fire now t) /\
  g_chan (real_Reset now d t).2 = None /\ g_when (real_Reset now d t).2 = Some (now + d)%Z.
Proof.
  unfold no_stale, real_Reset, real_Stop, go_Stop, go_Reset, go_fire. destruct t as [[w|] [x|]]; cbn; intros H;
    try (specialize (H ltac:(eauto)); done); repeat case_match; split_and!; try done; by intros [? ?].
Qed.

(** The reset of a real timer stops it first, and then always says that it was
    not active. *)
Theorem real_reset_false t now d : (real_Reset now d t).1 = false.
Proof. unfold real_Reset, real_Stop. by destruct t as [[w|] [x|]]. Qed.

(** A mock timer does not drop the old tick: reset to a later time, it looks
    expired. *)
Example mock_reset_keeps_tick :
  let c := run [CNewTimer 5; CElapse 10; CReset 0 100] in
  (fst <$> receive 0 c) = Some 10%Z /\ 0 ∈ mockTimers c.
Proof. split; [reflexivity | cbn; set_solver]. Qed.

End Timing.
