(* ===== verification/Logging.v ===== *)
(** * Log fields and loggers: src/log/log.go, logrus.go

    The output itself is left to the library; what the code computes are the fields
    and the prefix an entry carries, and the text of messages and components in the
    log.  A value is its text in the format [%+v]; a nil map of fields is the empty
    one.  Go ranges over a map in any order, so the loops take the order as an
    argument. *)

From S2P Require Import Prelude GoStrings Escape Params Headers HeaderStore Message ParserCommon Packet Transport.
From stdpp Require Import options.
Import Params Headers HeaderStore Message Packet Transport.

Module Logging.

(** ** Fields *)

Abbreviation Fields := (gmap (list ascii) bytes).

(** An order in which a map can be ranged over. *)
Definition ranges (l : list (list ascii * bytes)) (f : Fields) : Prop := Permutation l (map_to_list f).

Definition fields_String (order : list (list ascii * bytes)) : bytes :=
  Join ((fun kv => kv.1 ++ "=" ++ kv.2) <$> order) " ".

Definition copy_into (order : list (list ascii * bytes)) (all : Fields) : Fields :=
  foldl (fun all kv => <[kv.1 := kv.2]> all) all order.

Definition fields_WithFields (order new_order : list (list ascii * bytes)) : Fields :=
  copy_into new_order (copy_into order ∅).

(** The same whatever the orders are: later fields replace earlier ones. *)
Definition with_fields (f g : Fields) : Fields := g ∪ f.

(** ** Loggers

    A logger of the library is known by its number; the levels are kept by the
    library.  [Entry]: the base is an entry of the library and not a logger. *)

Inductive base : Type := Logrus (n : nat) | Entry (n : nat).

Record LogrusLogger : Type := mkLogger { l_log : base; l_prefix : bytes; l_fields : Fields }.

Definition NewLogrusLogger (log : base) (prefix : bytes) (fields : Fields) : LogrusLogger := mkLogger log prefix fields.
Definition NewDefaultLogrusLogger (n : nat) : LogrusLogger := NewLogrusLogger (Logrus n) "main" ∅.

Definition WithPrefix (l : LogrusLogger) (prefix : bytes) : LogrusLogger :=
  NewLogrusLogger (l_log l) prefix (l_fields l).

Definition WithFields (l : LogrusLogger) (f : Fields) : LogrusLogger :=
  NewLogrusLogger (l_log l) (l_prefix l) (with_fields (l_fields l) f).

(** The fields of an entry. *)
Definition prepareEntry (l : LogrusLogger) : Fields := <[("prefix" : bytes) := l_prefix l]> (l_fields l).

Definition SetLevel (level : N) (l : LogrusLogger) (levels : gmap nat N) : gmap nat N :=
  match l_log l with Logrus n => <[n := level]> levels | Entry _ => levels end.

(** The levels, by their numbers. *)
Definition levels : list bytes :=
  ["PanicLevel"; "FatalLevel"; "ErrorLevel"; "WarnLevel"; "InfoLevel"; "DebugLevel"; "TraceLevel"].

(** What [AddFieldsFrom] is given: a logger, something with a logger, something
    with fields, anything else. *)
Inductive source : Type :=
| ALogger (l : LogrusLogger)
| ALoggable (l : LogrusLogger)
| HasFields (f : Fields)
| NoFields.

Definition source_fields (s : source) : option Fields :=
  match s with ALogger l | ALoggable l => Some (l_fields l) | HasFields f => Some f | NoFields => None end.

Definition AddFieldsFrom (l : LogrusLogger) (values : list source) : LogrusLogger :=
  foldl (fun l s => match source_fields s with Some f => WithFields l f | None => l end) l values.

(** ** The texts of messages

    [own] are the fields that were given to the message and its identifier. *)

Definition message_Fields (own : Fields) (tp src dest : bytes) : Fields :=
  with_fields own (list_to_map [("transport" : bytes, tp); ("source" : bytes, src); ("destination" : bytes, dest)]).

(** [request.Fields] and [response.Fields]; a [Transport] that panics panics. *)
Definition request_Fields (own : Fields) (r : request) : res Fields :=
  tp ← request_Transport r; src ← request_Source r; dest ← request_Destination r;
  Ok (message_Fields own tp src dest).

(** The fields [Short] shows of a request. *)
Definition short_fields (own : Fields) (r : request) (recipient_text : bytes) : res Fields :=
  f ← request_Fields own r;
  tp ← request_Transport r; src ← request_Source r; dest ← request_Destination r;
  let g : Fields := list_to_map [("method" : bytes, method r); ("recipient" : bytes, recipient_text); ("transport" : bytes, tp);
                                 ("source" : bytes, src); ("destination" : bytes, dest)] in
  let g := match CSeq (hdrs (rq_msg r)) with Some (n, _) => <[("sequence" : bytes) := show_N n]> g | None => g end in
  Ok (with_fields f g).

(** [Short], with the order the fields are printed in. *)
Definition request_Short (order : list (list ascii * bytes)) : bytes := "sip.Request<" ++ fields_String order ++ ">".

Definition response_Fields (own : Fields) (r : response) : res Fields :=
  dest ← response_Destination r; Ok (message_Fields own (response_Transport r) (src (rs_msg r)) dest).

Definition response_short_fields (own : Fields) (r : response) : res Fields :=
  dest ← response_Destination r;
  let g : Fields := list_to_map [("status" : bytes, show_N (status r)); ("reason" : bytes, reason r);
                                 ("transport" : bytes, response_Transport r); ("source" : bytes, src (rs_msg r));
                                 ("destination" : bytes, dest)] in
  let g := match CSeq (hdrs (rs_msg r)) with
           | Some (n, m) => <[("sequence" : bytes) := show_N n]> (<[("method" : bytes) := m]> g)
           | None => g
           end in
  f ← response_Fields own r; Ok (with_fields f g).

Definition response_Short (order : list (list ascii * bytes)) : bytes := "sip.Response<" ++ fields_String order ++ ">".

(** ** The errors of transactions *)

Inductive TxErrorKind : Type := TxTerminated | TxTimeout | TxTransport.

(** [tx_Err] is the text of the inner error, if it is not nil. *)
Record TxError : Type := mkTxError { tx_kind : TxErrorKind; tx_Err : option bytes; tx_TxKey : bytes; tx_TxPtr : bytes }.

Definition tx_Terminated (e : TxError) : bool := match tx_kind e with TxTerminated => true | _ => false end.
Definition tx_Timeout (e : TxError) : bool := match tx_kind e with TxTimeout => true | _ => false end.
Definition tx_Transport (e : TxError) : bool := match tx_kind e with TxTransport => true | _ => false end.

Definition TxError_fields (e : TxError) : Fields :=
  let shown (s : bytes) : bytes := match s with [] => "???" | _ => s end in
  list_to_map [("transaction_key" : bytes, shown (tx_TxKey e)); ("transaction_ptr" : bytes, shown (tx_TxPtr e))].

(** [Error], with the order the two fields are printed in. *)
Definition TxError_Error (order : list (list ascii * bytes)) (e : TxError) : bytes :=
  let type : bytes := match tx_kind e with
                      | TxTerminated => "transaction.TxTerminatedError"
                      | TxTimeout => "transaction.TxTimeoutError"
                      | TxTransport => "transaction.TxTransportError"
                      end in
  type ++ "<" ++ fields_String order ++ ">: " ++ default ("%!s(<nil>)" : bytes) (tx_Err e).

(** The text of a component: [String] of protocols, pools, handlers, layers,
    connections, transactions. *)
Definition component_String (name : bytes) (known : bool) (order : list (list ascii * bytes)) : bytes :=
  if known then name ++ "<" ++ fields_String order ++ ">" else "<nil>".

Definition protocol_fields (log_fields : Fields) (network : bytes) : Fields :=
  with_fields log_fields {[ ("network" : bytes) := network ]}.

(** ** What the fields guarantee *)

Lemma ranges_map l f : ranges l f -> NoDup l.*1 /\ list_to_map l = f.
Proof.
  intros H. assert (NoDup l.*1) as Hn by (rewrite H; apply NoDup_fst_map_to_list). split; [done |].
  rewrite <- (list_to_map_to_list f). by apply list_to_map_proper.
Qed.

Lemma copy_into_union l all : NoDup l.*1 -> copy_into l all = list_to_map l ∪ all.
Proof.
  revert all. induction l as [| [k v] l IH]; intros all Hn; [by rewrite list_to_map_nil, map_empty_union |].
  apply NoDup_cons in Hn as [Hk Hn]. rewrite list_to_map_cons. change (copy_into ((k, v) :: l) all) with (copy_into l (<[k := v]> all)).
  rewrite IH by done.
  rewrite <- insert_union_l. rewrite insert_union_r; [done |]. by apply not_elem_of_list_to_map_1.
Qed.

(** The result of [WithFields] does not depend on the orders of the two loops: a
    new field replaces one of the same name, the others stay. *)
Theorem fields_any_order l k f g :
  ranges l f -> ranges k g ->
  fields_WithFields l k = with_fields f g /\
  forall x, with_fields f g !! x = match g !! x with Some v => Some v | None => f !! x end.
Proof.
  intros [Hl <-]%ranges_map [Hk <-]%ranges_map. unfold fields_WithFields, with_fields.
  rewrite !copy_into_union, map_union_empty by done. split; [done |]. intros x. by destruct (list_to_map k !! x) eqn:E;
    [apply lookup_union_Some_l | rewrite lookup_union_r].
Qed.

(** A text of fields has the same words in every order; the text itself is one of
    several. *)
Theorem fields_text l k f :
  ranges l f -> ranges k f -> Permutation ((fun kv => kv.1 ++ "=" ++ kv.2) <$> l) ((fun kv => kv.1 ++ "=" ++ kv.2) <$> k).
Proof. intros Hl Hk. apply fmap_Permutation. by rewrite Hl, Hk. Qed.

(** A logger made of others keeps its base and prefix; of fields of one name the
    last one counts. *)
Theorem logger_derived l values :
  l_log (AddFieldsFrom l values) = l_log l /\ l_prefix (AddFieldsFrom l values) = l_prefix l /\
  forall x, l_fields (AddFieldsFrom l values) !! x =
    match List.find (fun s => bool_decide (is_Some (source_fields s ≫= (.!! x)))) (rev values) with
    | Some s => source_fields s ≫= (.!! x)
    | None => l_fields l !! x
    end.
Proof.
  unfold AddFieldsFrom. induction values as [| s values IH] using rev_ind; [done |].
  rewrite foldl_app, rev_unit. cbn [foldl List.find]. destruct IH as (H1 & H2 & H3). set (m := foldl _ l values) in *.
  destruct (source_fields s) as [f|] eqn:Ef; 
    [| split_and!; try done; intros x; cbn; rewrite bool_decide_false by (by intros [? ?]); apply H3].
  cbn [WithFields NewLogrusLogger l_log l_prefix l_fields]. split_and!; try done. intros x. unfold with_fields. cbn [mbind option_bind].
  destruct (f !! x) as [v|] eqn:E.
  - rewrite bool_decide_true, (lookup_union_Some_l _ _ _ _ E) by eauto. rewrite Ef. cbn. by rewrite E.
  - rewrite bool_decide_false, lookup_union_r by (done || by intros [? ?]). apply H3.
Qed.

(** An entry carries the prefix of its logger; a field with the name prefix is
    lost, every other one is there. *)
Theorem entry_fields l :
  prepareEntry l !! ("prefix" : bytes) = Some (l_prefix l) /\
  forall x, x <> ("prefix" : bytes) -> prepareEntry l !! x = l_fields l !! x.
Proof. unfold prepareEntry. split; [by rewrite lookup_insert_eq | intros x Hx; by rewrite lookup_insert_ne]. Qed.

(** Loggers made from one another share their level. *)
Theorem level_shared level l n values prefix levels :
  l_log l = Logrus n ->
  SetLevel level (WithPrefix (AddFieldsFrom l values) prefix) levels = SetLevel level l levels /\
  SetLevel level l levels !! n = Some level.
Proof.
  intros Hl. destruct (logger_derived l values) as (H & _). unfold SetLevel. cbn. rewrite H, Hl.
  by rewrite lookup_insert_eq.
Qed.

(** What a request shows in the log says where it really goes. *)
Theorem request_fields_shown own r f :
  request_Fields own r = Ok f ->
  request_Transport r = Ok (default [] (f !! ("transport" : bytes))) /\
  request_Source r = Ok (default [] (f !! ("source" : bytes))) /\
  request_Destination r = Ok (default [] (f !! ("destination" : bytes))) /\
  forall x, x ∉ [("transport" : bytes); "source"; "destination"] -> f !! x = own !! x.
Proof.
  unfold request_Fields. intros (tp & Ht & (src & Hs & (dest & Hd & [= <-])%bind_Ok)%bind_Ok)%bind_Ok.
  rewrite Ht, Hs, Hd. unfold message_Fields, with_fields. set (m := list_to_map _).
  assert (m !! ("transport" : bytes) = Some tp /\ m !! ("source" : bytes) = Some src /\ m !! ("destination" : bytes) = Some dest)
    as (E1 & E2 & E3) by (split_and!; vm_compute; reflexivity).
  rewrite (lookup_union_Some_l _ _ _ _ E1), (lookup_union_Some_l _ _ _ _ E2), (lookup_union_Some_l _ _ _ _ E3).
  split_and!; [done.. |]. intros x Hx. rewrite lookup_union_r; [done |]. apply not_elem_of_list_to_map_1. exact Hx.
Qed.

Lemma with_fields_new f g x v : g !! x = Some v -> with_fields f g !! x = Some v.
Proof. apply lookup_union_Some_l. Qed.

(** The same for a response, whose short text also names the request it answers. *)
Theorem response_fields_shown own r f :
  response_short_fields own r = Ok f ->
  f !! ("transport" : bytes) = Some (response_Transport r) /\
  response_Destination r = Ok (default [] (f !! ("destination" : bytes))) /\
  f !! ("status" : bytes) = Some (show_N (status r)) /\
  (forall n m, CSeq (hdrs (rs_msg r)) = Some (n, m) ->
     f !! ("method" : bytes) = Some m /\ f !! ("sequence" : bytes) = Some (show_N n)).
Proof.
  unfold response_short_fields. intros (dest & Hd & (g & _ & [= <-])%bind_Ok)%bind_Ok. rewrite Hd.
  destruct (CSeq _) as [[n k]|]; split_and!; try (intros ? ? [= <- <-]; split);
    (erewrite with_fields_new; [| by simplify_map_eq]); done.
Qed.

(** Two errors of transactions with one text have the same kind: a reader of the
    log can tell a time-out from a failure of the transport. *)
Theorem tx_error_text_kind o o' e e' : TxError_Error o e = TxError_Error o' e' -> tx_kind e = tx_kind e'.
Proof. unfold TxError_Error. by destruct (tx_kind e), (tx_kind e'). Qed.

(** Each error is of one kind, and shows a key and a pointer even without them. *)
Theorem tx_error_shown e :
  Nat.b2n (tx_Terminated e) + Nat.b2n (tx_Timeout e) + Nat.b2n (tx_Transport e) = 1 /\
  exists k p, TxError_fields e = {[ ("transaction_key" : bytes) := k; ("transaction_ptr" : bytes) := p ]} /\
    k <> [] /\ p <> [] /\ (tx_TxKey e <> [] -> k = tx_TxKey e) /\ (tx_TxPtr e <> [] -> p = tx_TxPtr e).
Proof.
  split; [by unfold tx_Terminated, tx_Timeout, tx_Transport; destruct (tx_kind e) |].
  unfold TxError_fields. destruct (tx_TxKey e) eqn:?, (tx_TxPtr e) eqn:?; (do 2 eexists); by split_and!.
Qed.

End Logging.
