(* ===== verification/ElasticChan.v ===== *)
(** * The elastic channel: src/util/elasticchan.go

    A goroutine moves values from the channel [In] to a slice and from the slice
    to the channel [Out], both of a small capacity, so that a sender does not wait
    for a receiver.  The state has the values in the channels and the slice, the
    place of the goroutine, and what was sent and received so far; a panic ends
    the program. *)

From S2P Require Import Prelude.
From stdpp Require Import options.

Module ElasticChan.

Definition c_ELASTIC_CHANSIZE : nat := 3.

Section elastic.

Context {A : Type}.

(** The goroutine: in the loop of [manage], in [dispose], returned. *)
Inductive managing : Set := Loop | Disposing | Returned.

Record ElasticChan : Type := mkElastic {
  In_ : list A;
  In_closed : bool;
  buffer : list A;
  Out : list A;
  goroutine : managing;
  has_log : bool;
  crashed : bool;
  sent : list A;
  received : list A
}.

(** [Init] and [Run]; a logger was set or not. *)
Definition Init (log : bool) : ElasticChan := mkElastic [] false [] [] Loop log false [] [].

Definition done (c : ElasticChan) : bool := match goroutine c with Returned => true | _ => false end.

Definition crash (c : ElasticChan) : ElasticChan :=
  mkElastic (In_ c) (In_closed c) (buffer c) (Out c) (goroutine c) (has_log c) true (sent c) (received c).

Definition set_goroutine (g : managing) (c : ElasticChan) : ElasticChan :=
  mkElastic (In_ c) (In_closed c) (buffer c) (Out c) g (has_log c) (crashed c) (sent c) (received c).

(** A send on [In] by a user: possible when there is room. *)
Definition can_send (c : ElasticChan) : bool := length (In_ c) <? c_ELASTIC_CHANSIZE.

Definition send (x : A) (c : ElasticChan) : ElasticChan :=
  if In_closed c then crash c
  else if can_send c then
    mkElastic (In_ c ++ [x]) false (buffer c) (Out c) (goroutine c) (has_log c) (crashed c) (sent c ++ [x]) (received c)
  else c.

(** A receive from [Out] by a user. *)
Definition receive (c : ElasticChan) : ElasticChan :=
  match Out c with
  | [] => c
  | x :: out => mkElastic (In_ c) (In_closed c) (buffer c) out (goroutine c) (has_log c) (crashed c) (sent c)
                  (received c ++ [x])
  end.

(** [Stop], up to its wait: a second one before [done] closes [In] again. *)
Definition Stop (c : ElasticChan) : ElasticChan :=
  if done c then c
  else if In_closed c then crash c
  else mkElastic (In_ c) true (buffer c) (Out c) (goroutine c) (has_log c) (crashed c) (sent c) (received c).

(** [manage] receives: the method of a nil logger panics before the value is
    kept; a closed and empty channel ends the loop. *)
Definition manage_in (c : ElasticChan) : ElasticChan :=
  match In_ c with
  | x :: rest =>
      if has_log c then
        mkElastic rest (In_closed c) (buffer c ++ [x]) (Out c) (goroutine c) true (crashed c) (sent c) (received c)
      else crash c
  | [] => if In_closed c then set_goroutine Disposing c else c
  end.

(** A value of the buffer is sent when there is room. *)
Definition put_out (c : ElasticChan) : ElasticChan :=
  match buffer c with
  | x :: rest =>
      if length (Out c) <? c_ELASTIC_CHANSIZE then
        mkElastic (In_ c) (In_closed c) rest (Out c ++ [x]) (goroutine c) (has_log c) (crashed c) (sent c) (received c)
      else c
  | [] => c
  end.

(** [manage] sends. *)
Definition manage_out (c : ElasticChan) : ElasticChan :=
  match buffer c with
  | _ :: _ => if length (Out c) <? c_ELASTIC_CHANSIZE then if has_log c then put_out c else crash c else c
  | [] => c
  end.

(** An iteration of [dispose]. *)
Definition dispose (c : ElasticChan) : ElasticChan :=
  match buffer c with [] => set_goroutine Returned c | _ => put_out c end.

Inductive event : Type :=
| ESend (x : A)
| EReceive
| EStop
| EManageIn
| EManageOut
| EDispose.

Definition step (c : ElasticChan) (ev : event) : ElasticChan :=
  if crashed c then c
  else
    match ev with
    | ESend x => send x c
    | EReceive => receive c
    | EStop => Stop c
    | EManageIn => match goroutine c with Loop => manage_in c | _ => c end
    | EManageOut => match goroutine c with Loop => manage_out c | _ => c end
    | EDispose => match goroutine c with Disposing => dispose c | _ => c end
    end.

Definition run (l : list event) (c : ElasticChan) : ElasticChan := foldl step c l.

(** ** What it promises *)

(** An unbounded queue. *)
Record chan_ok (c : ElasticChan) : Prop := {
  ok_fifo : received c ++ Out c ++ buffer c ++ In_ c = sent c;
  ok_in : length (In_ c) <= c_ELASTIC_CHANSIZE;
  ok_out : length (Out c) <= c_ELASTIC_CHANSIZE;
  ok_disposing : goroutine c <> Loop -> In_ c = [] /\ In_closed c = true;
  ok_returned : goroutine c = Returned -> buffer c = []
}.

Lemma crash_ok c : chan_ok c -> chan_ok (crash c).
Proof. by intros []; split. Qed.

Lemma put_out_ok c : goroutine c <> Returned -> chan_ok c -> chan_ok (put_out c).
Proof.
  intros Hg Hc. unfold put_out. destruct (buffer c) as [| x l] eqn:E; [done |].
  destruct (Nat.ltb_spec (length (Out c)) c_ELASTIC_CHANSIZE); [| done]. destruct Hc as [Hf Hi Ho Hd Hr].
  split; cbn; try done. - rewrite <- Hf, E. by rewrite <- !app_assoc. - rewrite length_app. cbn. lia.
Qed.

Lemma manage_in_ok c : goroutine c = Loop -> chan_ok c -> chan_ok (manage_in c).
Proof.
  intros Hg Hc. unfold manage_in. destruct (In_ c) as [| x l] eqn:E.
  - destruct (In_closed c) eqn:Ec; [| done]. destruct Hc. by split.
  - destruct (has_log c); [| by apply crash_ok]. destruct Hc as [Hf Hi Ho _ _]. rewrite E in Hi. cbn in Hi.
    split; cbn; try done; rewrite ?Hg; try done; [| lia]. rewrite <- Hf, E. by rewrite <- !app_assoc.
Qed.

Lemma step_ok c ev : chan_ok c -> chan_ok (step c ev).
Proof.
  intros Hc. unfold step. destruct (crashed c); [done |]. destruct ev as [x| | | | |].
  - unfold send, can_send. destruct (In_closed c) eqn:Ec; [by apply crash_ok |].
    destruct (Nat.ltb_spec (length (In_ c)) c_ELASTIC_CHANSIZE); [| done]. destruct Hc as [Hf Hi Ho Hd Hr].
    split; cbn; try done; [by rewrite <- Hf, <- !app_assoc | rewrite length_app; cbn; lia |].
    intros Hg. destruct (Hd Hg). congruence.
  - unfold receive. destruct (Out c) as [| x l] eqn:E; [done |]. destruct Hc as [Hf Hi Ho Hd Hr]. rewrite E in Ho. cbn in Ho.
    split; cbn; try done; [| lia]. rewrite <- Hf, E. by rewrite <- !app_assoc.
  - unfold Stop. destruct (done c); [done |]. destruct (In_closed c) eqn:Ec; [by apply crash_ok |].
    destruct Hc as [Hf Hi Ho Hd Hr]. split; cbn; try done. intros Hg. by destruct (Hd Hg).
  - destruct (goroutine c) eqn:Eg; [by apply manage_in_ok | done | done].
  - destruct (goroutine c) eqn:Eg; [| done | done]. unfold manage_out. destruct (buffer c); [done |].
    destruct (_ <? _); [| done]. destruct (has_log c); [| by apply crash_ok]. apply put_out_ok; [congruence | done].
  - destruct (goroutine c) eqn:Eg; [done | | done]. unfold dispose. destruct (buffer c) eqn:E.
    + destruct Hc as [Hf Hi Ho Hd Hr]. split; cbn; try done. intros _. apply Hd. congruence.
    + apply put_out_ok; [congruence | done].
Qed.

Lemma run_ok l c : chan_ok c -> chan_ok (run l c).
Proof. revert c. induction l as [| ev l IH]; intros c Hc; [done |]. by apply IH, step_ok. Qed.

Lemma Init_ok log : chan_ok (Init log).
Proof. split; cbn; try done; lia. Qed.

Lemma run_log l c : has_log (run l c) = has_log c.
Proof.
  revert c. induction l as [| ev l IH]; intros c; [done |]. cbn. fold (run l (step c ev)). rewrite IH. unfold step.
  destruct (crashed c); [done |].
  destruct ev; unfold send, receive, Stop, manage_in, manage_out, dispose, put_out; repeat case_match; done.
Qed.

(** C40: Whatever senders, receivers and the goroutine do, the values come out in the
    order they were sent, each once, and none is lost: those not received yet are
    in the channels and the slice, and after the end in [Out]. *)
Theorem elastic_fifo log l :
  let c := run l (Init log) in
  received c ++ Out c ++ buffer c ++ In_ c = sent c /\
  (done c = true -> received c ++ Out c = sent c).
Proof.
  intros c. destruct (run_ok l _ (Init_ok log)) as [Hf _ _ Hd Hr]. fold c in Hf, Hd, Hr. split; [done |].
  unfold done. destruct (goroutine c); try done. intros _. destruct (Hd ltac:(done)) as [Hi _].
  rewrite Hi, (Hr eq_refl) in Hf. by rewrite !app_nil_r in Hf.
Qed.

(** A sender never waits for a receiver: with a logger, the goroutine alone makes
    room in [In], whether or not anything is received. *)
Theorem elastic_send_never_waits l x :
  let c := run l (Init true) in
  crashed c = false -> In_closed c = false ->
  exists k, let c' := run (replicate k EManageIn) c in
    can_send c' = true /\ sent (step c' (ESend x)) = sent c ++ [x].
Proof.
  intros c Hcr Hcl. pose proof (run_ok l _ (Init_ok true)) as Hc. fold c in Hc.
  assert (has_log c = true) as Hl by (subst c; by rewrite run_log).
  assert (goroutine c = Loop) as Hg.
  { destruct (goroutine c) eqn:E; [done | |]; destruct (ok_disposing _ Hc) as [_ ?]; congruence. }
  destruct (can_send c) eqn:Es.
  - exists 0. cbn. split; [done |]. unfold step, send. by rewrite Hcr, Hcl, Es.
  - exists 1. cbn. destruct (In_ c) as [| y rest] eqn:Ei; [unfold can_send in Es; by rewrite Ei in Es |].
    assert (step c EManageIn = mkElastic rest (In_closed c) (buffer c ++ [y]) (Out c) (goroutine c) true (crashed c) (sent c) (received c)) as ->
      by (unfold step, manage_in; by rewrite Hcr, Hg, Ei, Hl).
    assert (length rest <? c_ELASTIC_CHANSIZE = true) as Hr.
    { destruct Hc as [_ Hi _ _ _]. rewrite Ei in Hi. cbn in Hi. apply Nat.ltb_lt. lia. }
    split; [done |]. unfold step, send, can_send. cbn [crashed In_closed In_]. by rewrite Hcr, Hcl, Hr.
Qed.

(** Without a logger the first value that is moved ends the program. *)
Theorem elastic_needs_log x : crashed (run [ESend x; EManageIn] (Init false)) = true.
Proof. done. Qed.

(** [Stop] does not return while nobody receives what is left: with more values
    in the slice than [Out] has room for, the goroutine is never done without a
    receive. *)
Theorem elastic_stop_waits c l :
  chan_ok c -> goroutine c = Disposing ->
  c_ELASTIC_CHANSIZE < length (Out c) + length (buffer c) -> EReceive ∉ l ->
  done (run l c) = false.
Proof.
  intros Hc Hg Hb Hl. assert (goroutine (run l c) = Disposing) as H; [| by unfold done; rewrite H].
  revert c Hc Hg Hb. induction l as [| ev l IH]; intros c Hc Hg Hb; [done |]. cbn.
  assert (goroutine (step c ev) = Disposing /\
          length (Out (step c ev)) + length (buffer (step c ev)) = length (Out c) + length (buffer c)) as [Hg' Hb'];
    [| apply (IH ltac:(set_solver) (step c ev) (step_ok _ _ Hc) Hg'); lia].
  clear IH. unfold step. destruct (crashed c); [done |].
  pose proof (ok_out _ Hc) as Ho. destruct ev as [y| | | | |]; rewrite ?Hg; try done.
  - unfold send. by repeat case_match.
  - set_solver.
  - unfold Stop, done. rewrite Hg. by repeat case_match.
  - unfold dispose, put_out. destruct (buffer c) as [| x rest] eqn:E; [cbn in Hb; lia |].
    destruct (_ <? _); cbn; rewrite ?E, ?length_app; cbn; (split; [done |]); try lia.
Qed.

End elastic.

End ElasticChan.
