(* ===== verification/Sockets.v ===== *)
(** * Sockets of the stream protocols: src/transport/ws.go, tls.go, wss.go, transport.go

    What the package itself does between a socket and a pool: the reads and
    writes of a WebSocket connection, the listeners of TLS and WebSocket, and the
    connections they accept.  The frames come from the WebSocket library, the
    certificates and the handshakes from crypto/tls: arguments here. *)

From S2P Require Import Prelude GoStrings Escape Params Headers HeaderStore Message ParserCommon Packet Stream Transport ConnPool ConnPoolTheorems ListenPool Protocols.
From stdpp Require Import options.
Import Transport Protocols.

Module Sockets.

(** ** WebSocket connections *)

(** What [wsutil.ReadServerData] or [ReadClientData] gives: a frame, which may be
    a close frame, or an error, which may be a [ClosedError]. *)
Inductive frame : Type :=
| Frame (close : bool) (payload : bytes)
| FrameErr (closed : bool) (e : gerror).

(** The length of the buffer [readStream] reads into. *)
Definition bufferSize : N := 65535 - 20 - 8.

(** Go's [copy]: as much as fits. *)
Definition copy (b msg : bytes) : bytes := take (length b) msg ++ drop (length msg) b.

(** [wsConn.Read]: the buffer after the call, the number of bytes it claims, the
    error.  The frames a client and a server read differ in their mask. *)
Definition ws_Read (next : bool -> frame) (client : bool) (b : bytes) : bytes * nat * option gerror :=
  match next client with
  | FrameErr true _ => (b, 0, Some EOF)
  | FrameErr false e => (b, 0, Some e)
  | Frame true _ => (b, 0, Some EOF)
  | Frame false msg => (copy b msg, length msg, None)
  end.

(** [wsConn.Write] *)
Definition ws_Write (written : bool -> bytes -> option (bool * gerror)) (client : bool) (b : bytes)
    : nat * option gerror :=
  match written client b with
  | Some (true, _) => (0, Some EOF)
  | Some (false, e) => (0, Some e)
  | None => (length b, None)
  end.

(** [buf[:num]] in [readStream], after a read without an error. *)
Definition slice_to (num : nat) (b : bytes) : res bytes :=
  if num <=? length b then Ok (take num b) else Panic.

(** ** Listeners *)

Record TLSConfig : Type := mkTLS { Domain : bytes; Cert : bytes; Key : bytes; Pass : bytes }.

Definition ApplyListen (c opts : TLSConfig) : TLSConfig := mkTLS (Domain c) (Cert c) (Key c) (Pass c).

Inductive socket : Type :=
| PlainListener
| TlsListener (cert key : bytes).

(** The function [listen] of the TLS and WSS protocols; [load] is
    [tls.LoadX509KeyPair]. *)
Definition tls_listen (load : bytes -> bytes -> option gerror) (options : list TLSConfig) : gerror + socket :=
  match options with
  | [] => inr PlainListener
  | _ =>
      let o := foldl (fun o c => ApplyListen c o) (mkTLS [] [] [] []) options in
      match load (Cert o) (Key o) with
      | Some e => inl (Wrap "load TLS certficate %s" e)
      | None => inr (TlsListener (Cert o) (Key o))
      end
  end.

(** [defaultListen] of TCP and WebSocket takes no notice of options. *)
Definition listen (k : kind) (load : bytes -> bytes -> option gerror) (options : list TLSConfig) : gerror + socket :=
  match k with TLS | WSS => tls_listen load options | _ => inr PlainListener end.

(** The connection a socket accepts: a [*tls.Conn] or a [*net.TCPConn]. *)
Definition accept (s : socket) (laddr raddr : bytes) : ListenPool.base_conn :=
  ListenPool.mkBase (match s with TlsListener _ _ => ListenPool.TlsConn | PlainListener => ListenPool.OtherConn end)
    false "tcp" laddr raddr.

Definition over_tls (b : ListenPool.base_conn) : bool :=
  match ListenPool.b_type b with ListenPool.TlsConn => true | _ => false end.

(** [wsListener.Accept]: a failed upgrade leaves the connection as it is. *)
Definition ws_Accept (upgraded : bool) (b : ListenPool.base_conn) : ListenPool.base_conn :=
  if upgraded
  then ListenPool.mkBase (ListenPool.WsConn (over_tls b)) (ListenPool.b_packet b) (ListenPool.b_network b)
         (ListenPool.b_laddr b) (ListenPool.b_raddr b)
  else b.

Definition accepted (k : kind) (s : socket) (upgraded : bool) (laddr raddr : bytes) : ListenPool.base_conn :=
  match k with WS | WSS => ws_Accept upgraded (accept s laddr raddr) | _ => accept s laddr raddr end.

(** ** What they guarantee *)

(** A WebSocket message that fits the buffer is what the reader gets; a longer one
    makes it slice past the end of its buffer. *)
Theorem ws_read_fits next client b msg :
  next client = Frame false msg ->
  let '(b', num, err) := ws_Read next client b in
  err = None /\ slice_to num b' = if length msg <=? length b then Ok msg else Panic.
Proof.
  intros H. unfold ws_Read. rewrite H. split; [done |]. unfold slice_to, copy.
  rewrite length_app, length_take, length_drop.
  destruct (Nat.leb_spec (length msg) (length b)).
  - rewrite (proj2 (Nat.leb_le _ _)) by lia. rewrite (take_ge msg) by done.
    by rewrite take_app_length.
  - by rewrite (proj2 (Nat.leb_gt _ _)) by lia.
Qed.

(** A message longer than the reader's buffer ends the program. *)
Theorem ws_long_message_panics next client b msg :
  N.of_nat (length b) = bufferSize -> next client = Frame false msg -> (bufferSize < N.of_nat (length msg))%N ->
  slice_to (ws_Read next client b).1.2 (ws_Read next client b).1.1 = Panic.
Proof.
  intros Hb Hm Hl. pose proof (ws_read_fits next client b msg Hm) as H.
  destruct (ws_Read next client b) as [[b' num] err]. destruct H as [_ H]. cbn. rewrite H.
  by rewrite (proj2 (Nat.leb_gt _ _)) by lia.
Qed.

(** A close frame and a closed connection are the end of the stream. *)
Theorem ws_close_is_eof next client b e :
  next client = FrameErr true e \/ (exists m, next client = Frame true m) ->
  (ws_Read next client b).2 = Some EOF.
Proof. unfold ws_Read. by intros [-> | [m ->]]. Qed.

(** Whether a listener of a protocol is of the protocol's own kind: TLS for TLS
    and WSS, a successful upgrade for WS and WSS. *)
Definition proper (k : kind) (s : socket) (upgraded : bool) : bool :=
  match k, s with
  | UDP, _ => false
  | TCP, PlainListener => true
  | TLS, TlsListener _ _ => true
  | WS, PlainListener => upgraded
  | WSS, TlsListener _ _ => upgraded
  | _, _ => false
  end.

(** The key of an accepted connection is the one the protocol sends under exactly
    when socket and upgrade are the protocol's own: a TLS listener without options
    and a WebSocket peer that does not upgrade are stored under another network. *)
Theorem accepted_key k s upgraded laddr raddr :
  k <> UDP ->
  ConnPool.cn_key (ListenPool.accepted_connection (accepted k s upgraded laddr raddr)) = kind_network k ++ ":" ++ raddr <->
  proper k s upgraded = true.
Proof.
  intros Hk. by destruct k, s, upgraded.
Qed.

(** A peer that connected is answered over its own connection: once the piping
    goroutine has put it into the pool, a send to the peer's address takes it and
    dials nothing. *)
Theorem accepted_connection_reused k s upgraded laddr raddr io now p :
  proper k s upgraded = true -> pr_network p = kind_network k ->
  let c := ListenPool.accepted_connection (accepted k s upgraded laddr (a_text raddr)) in
  ListenPool.p_output (listeners p) !! piped p = Some c ->
  ConnPool.p_cancel (connections p) = false ->
  (forall c', ConnPool.Get (ConnPool.cn_key c) (connections p) <> inr c') ->
  let p' := pipe_pools now p in
  getOrCreateConnection io raddr p' = (p', inr c) /\ refused p' = refused p.
Proof.
  intros Hpr Hn c Ho Hc Hg p'.
  assert (k <> UDP) as Hk by (by intros ->).
  assert (ConnPool.cn_key c = kind_network k ++ ":" ++ a_text raddr) as Hkey by (by apply accepted_key).
  assert (exists q, ConnPool.Put c sockTTL now (connections p) = inr q) as [q Hq].
  { unfold ConnPool.Put, ConnPool.put_check. rewrite Hc.
    assert (streq (ConnPool.cn_key c) "" = false) as -> by (rewrite Hkey; by destruct k).
    unfold ConnPool.put. destruct (ConnPool.get (ConnPool.cn_key c) (connections p)) as [|[n h]] eqn:E; [by eauto |].
    exfalso. apply (Hg (ConnPool.h_conn h)). unfold ConnPool.Get. by rewrite E. }
  assert (p' = set_piped (S (piped p)) (refused p) (set_connections q p)) as ->.
  { unfold p', pipe_pools. by rewrite Ho, Hq. }
  split; [| done]. unfold getOrCreateConnection. cbn [connections set_piped set_connections pr_network].
  rewrite Hn, <- Hkey. by rewrite (ConnPoolTheorems.Get_after_Put _ _ _ _ _ Hq).
Qed.

End Sockets.
