(* ===== verification/Connection.v ===== *)
(** * Connections: src/transport/connection.go

    The wrapper of a [net.Conn]: what it makes of the results of the socket.  A
    call of the base connection is given by its result, the number of bytes and
    the error.  The base connection is a [net.PacketConn] or not ([packet]); the
    calls that need one panic without it. *)

From S2P Require Import Prelude GoStrings Escape Params Headers HeaderStore Message ParserCommon Packet Stream Transport ConnPool ListenPool Protocols.
From stdpp Require Import options.
Import Transport ConnPool.

Module Connection.

(** ** The methods *)

Definition Key (c : connection) : bytes := cn_key c.
Definition Streamed (c : connection) : bool := cn_streamed c.

Definition Read (c : connection) (r : nat * option gerror) : nat * option gerror :=
  match r with
  | (num, Some e) => (num, Some (ConnectionError e "read" (Network c) (cn_raddr c) (cn_laddr c) "%p"))
  | (num, None) => (num, None)
  end.

(** The address the datagram came from is a result, too. *)
Definition ReadFrom (packet : bool) (c : connection) (r : nat * bytes * option gerror)
    : res (nat * bytes * option gerror) :=
  if packet then
    Ok (match r with
        | (num, raddr, Some e) =>
            (num, raddr, Some (ConnectionError e "read" (Network c) raddr (cn_laddr c) "%p"))
        | (num, raddr, None) => (num, raddr, None)
        end)
  else Panic.

Definition Write (c : connection) (r : nat * option gerror) : nat * option gerror :=
  match r with
  | (num, Some e) => (num, Some (ConnectionError e "write" (Network c) (cn_laddr c) (cn_raddr c) "%p"))
  | (num, None) => (num, None)
  end.

Definition WriteTo (packet : bool) (c : connection) (raddr : bytes) (r : nat * option gerror)
    : res (nat * option gerror) :=
  if packet then
    Ok (match r with
        | (num, Some e) => (num, Some (ConnectionError e "write" (Network c) (cn_laddr c) raddr "%p"))
        | (num, None) => (num, None)
        end)
  else Panic.

Definition Close (c : connection) (r : option gerror) : option gerror :=
  match r with
  | Some e => Some (ConnectionError e "close" (Network c) "" "" "%p")
  | None => None
  end.

(** [readConnection] reads a stream or datagrams: the call that its goroutine
    makes. *)
Definition readConnection (packet : bool) (c : connection) (r : nat * bytes * option gerror)
    : res (nat * bytes * option gerror) :=
  if Streamed c then let '(num, err) := Read c (r.1.1, r.2) in Ok (num, cn_raddr c, err)
  else ReadFrom packet c r.

(** ** What they guarantee *)

(** An error of a connection is the error of the socket in a [ConnectionError]:
    it is a network error, whatever it holds, and keeps the other classes of what
    it holds. *)
Definition wraps (e e' : gerror) : Prop :=
  Unwrap e' = Some e /\ isNetwork e' = true /\ isTimeout e' = isTimeout e /\ isTemporary e' = isTemporary e /\
  isExpired e' = isExpired e /\ isCanceled e' = isCanceled e /\ Is EOF e' = Is EOF e /\
  isSyntaxError e' = isSyntaxError e.

Lemma ConnectionError_wraps e op net source dst ptr : wraps e (ConnectionError e op net source dst ptr).
Proof. by split_and!. Qed.

(** The calls return the results of the socket; an error is wrapped. *)
Theorem connection_calls c packet num raddr (err : option gerror) :
  (Read c (num, err)).1 = num /\ (Write c (num, err)).1 = num /\
  match err with
  | None => (Read c (num, err)).2 = None /\ (Write c (num, err)).2 = None /\ Close c err = None
  | Some e => exists e1 e2 e3, (Read c (num, err)).2 = Some e1 /\ (Write c (num, err)).2 = Some e2 /\ Close c err = Some e3 /\
      wraps e e1 /\ wraps e e2 /\ wraps e e3
  end /\
  (packet = true -> exists err', ReadFrom packet c (num, raddr, err) = Ok (num, raddr, err') /\
     match err, err' with Some e, Some e' => wraps e e' | None, None => True | _, _ => False end).
Proof.
  destruct err as [e|]; split_and!; try done.
  - do 3 eexists. split_and!; try reflexivity; apply ConnectionError_wraps.
  - intros ->. eexists. split; [reflexivity | apply ConnectionError_wraps].
  - intros ->. by eexists.
Qed.

(** A connection is streamed exactly if its socket takes no packets, so the
    goroutine that reads it never makes a call the socket does not have. *)
Theorem reads_never_panic packet key network laddr raddr r :
  readConnection packet (NewConnection packet key network laddr raddr) r <> Panic.
Proof. destruct packet, r as [[num from] [e|]]; cbn; discriminate. Qed.

(** The error of a failed read in the pool, and those of failed writes in the
    protocols, are the ones of these methods. *)
Theorem pool_read_error c num e : (Read c (num, Some e)).2 = Some (read_error c e (cn_raddr c)).
Proof. done. Qed.

Theorem udp_write_error io t m p c e a source lhost port :
  let t' := FillTargetHostAndPort (Protocols.Network p) t in
  t_Host t' <> [] -> Protocols.n_resolve io (Addr t') = inr a -> Protocols.msg_Source m = Ok source ->
  SplitHostPort source = Ok (lhost, port) -> Protocols.find_port port (All (Protocols.connections p)) = Ok (Some c) ->
  Protocols.n_write io (cn_key c) = Some e ->
  exists e', WriteTo true c (Protocols.a_text a) (0, Some e) = Ok (0, Some e') /\ wraps e e' /\
    Protocols.udp_Send io t m p = Ok (p, Some (Protocols.protocol_error e' "write SIP message to the %s connection")).
Proof.
  intros t' Hh Hr Hs Hsp Hf Hw. eexists. split; [reflexivity |]. split; [apply ConnectionError_wraps |].
  unfold Protocols.udp_Send. fold t'. assert (streq (t_Host t') "" = false) as -> by by apply streq_neq.
  rewrite Hr, Hs. cbn [mbind res_bind]. rewrite Hsp, Hf. cbn [mbind res_bind]. by rewrite Hw.
Qed.

End Connection.
