(* ===== verification/Helpers.v ===== *)
(** * Helpers: src/util/helpers.go, semaphore.go

    Comparison of string pointers, the first value that is not nil, the merging of
    error channels, the address of the host, and the semaphore. *)

From S2P Require Import Prelude GoStrings.
From stdpp Require Import options.

Module Helpers.

(** ** Values *)

Definition StrPtrEq (a b : option bytes) : bool :=
  match a, b with
  | Some a, Some b => streq a b
  | None, None => true
  | _, _ => false
  end.

(** The arguments are interface values; [None] is nil. *)
Definition Coalesce {A} (arg1 arg2 : option A) (args : list (option A)) : option A :=
  match List.find (fun a => bool_decide (is_Some a)) (arg1 :: arg2 :: args) with Some a => a | None => None end.

(** ** MergeErrs

    A goroutine per channel passes its values on; another one closes the output
    when all of them have returned.  [queue] holds what a channel still has to give
    (the values of blocked senders, too), [sent] everything that was ever sent on
    it. *)

Record pipe (E : Type) : Type := mkPipe { queue : list E; sent : list E; closed : bool; returned : bool }.
Arguments mkPipe {E} _ _ _ _.
Arguments queue {E} _.
Arguments sent {E} _.
Arguments closed {E} _.
Arguments returned {E} _.

Record merged (E : Type) : Type := mkMerged { pipes : list (pipe E); out : list (nat * E); out_closed : bool }.
Arguments mkMerged {E} _ _ _.
Arguments pipes {E} _.
Arguments out {E} _.
Arguments out_closed {E} _.

Definition MergeErrs {E} (n : nat) : merged E := mkMerged (replicate n (mkPipe [] [] false false)) [] false.

Inductive event (E : Type) : Type :=
| Send (i : nat) (e : E)
| Close (i : nat)
| Pass (i : nat)
| Return (i : nat)
| CloseOut.
Arguments Send {E} i e.
Arguments Close {E} i.
Arguments Pass {E} i.
Arguments Return {E} i.
Arguments CloseOut {E}.

(** [None]: the step is not possible; the goroutine that closes the output does so
    once.  A send of a goroutine on the closed output
    would panic. *)
Definition step {E} (ev : event E) (m : merged E) : option (res (merged E)) :=
  match ev with
  | Send i e =>
      p ← pipes m !! i;
      if closed p then None
      else Some (Ok (mkMerged (<[i := mkPipe (queue p ++ [e]) (sent p ++ [e]) false (returned p)]> (pipes m)) (out m) (out_closed m)))
  | Close i =>
      p ← pipes m !! i;
      if closed p then None
      else Some (Ok (mkMerged (<[i := mkPipe (queue p) (sent p) true (returned p)]> (pipes m)) (out m) (out_closed m)))
  | Pass i =>
      p ← pipes m !! i;
      match queue p with
      | e :: q =>
          if returned p then None
          else if out_closed m then Some Panic
          else Some (Ok (mkMerged (<[i := mkPipe q (sent p) (closed p) false]> (pipes m)) (out m ++ [(i, e)]) false))
      | [] => None
      end
  | Return i =>
      p ← pipes m !! i;
      match queue p with
      | [] => if closed p then Some (Ok (mkMerged (<[i := mkPipe [] (sent p) true true]> (pipes m)) (out m) (out_closed m))) else None
      | _ => None
      end
  | CloseOut =>
      if out_closed m then None
      else if forallb returned (pipes m) then Some (Ok (mkMerged (pipes m) (out m) true)) else None
  end.

Inductive reaches {E} (n : nat) : merged E -> Prop :=
| reaches_init : reaches n (MergeErrs n)
| reaches_step m ev m' : reaches n m -> step ev m = Some (Ok m') -> reaches n m'.

(** What came out of channel [i]. *)
Definition from {E} (i : nat) (l : list (nat * E)) : list E := (filter (fun x => x.1 = i) l).*2.

(** ** ResolveSelfIP *)

(** An address of an interface: what is looked at is its IP, whether that is a
    loopback address, and its IPv4 form. *)
Record ip : Type := mkIp { is_loopback : bool; to4 : option bytes }.
Inductive ifaddr : Type := IPNet (i : option ip) | IPAddr (i : option ip) | OtherAddr.

(** [addrs] is [None] when they cannot be read. *)
Record iface : Type := mkIface { flag_up : bool; flag_loopback : bool; addrs : option (list ifaddr) }.

Definition addr_ip (a : ifaddr) : option ip := match a with IPNet i | IPAddr i => i | OtherAddr => None end.

Definition usable (a : ifaddr) : option bytes :=
  match addr_ip a with
  | Some i => if is_loopback i then None else to4 i
  | None => None
  end.

Fixpoint first_address (l : list ifaddr) : option bytes :=
  match l with
  | [] => None
  | a :: l => match usable a with Some b => Some b | None => first_address l end
  end.

(** An address, the error of the interfaces or of one of them, or no address at
    all. *)
Inductive self : Type := SelfIP (b : bytes) | InterfacesError | AddrsError | NotConnected.

Fixpoint over_interfaces (l : list iface) : self :=
  match l with
  | [] => NotConnected
  | i :: l =>
      if negb (flag_up i) then over_interfaces l
      else if flag_loopback i then over_interfaces l
      else match addrs i with
           | None => AddrsError
           | Some a => match first_address a with Some b => SelfIP b | None => over_interfaces l end
           end
  end.

(** [interfaces] is the result of [net.Interfaces]. *)
Definition ResolveSelfIP (interfaces : option (list iface)) : self :=
  match interfaces with Some l => over_interfaces l | None => InterfacesError end.

(** ** The semaphore

    Its channels are never made: a send on a nil channel blocks for ever, and the
    goroutine that would receive waits for ever. *)

(** A flag per channel tells whether it was made; [selecting]: the goroutine is at
    its only [select]. *)
Record semaphore : Type := mkSemaphore {
  held : bool; locks : Z; acquired : bool; released : bool; stop : bool; mutex : bool; selecting : bool }.

Definition NewSemaphore : semaphore := mkSemaphore false 0 false false false false true.

(** A send is taken by the [select], which is left then; [None]: it blocks. *)
Definition send_on (channel : semaphore -> bool) (change : Z) (s : semaphore) : option semaphore :=
  if channel s && selecting s
  then Some (mkSemaphore (held s) (locks s + change) (acquired s) (released s) (stop s) (mutex s) false)
  else None.

Definition Acquire : semaphore -> option semaphore := send_on acquired 1.
Definition Release : semaphore -> option semaphore := send_on released (-1).
Definition Dispose : semaphore -> option semaphore := send_on stop 0.

(** [Wait] takes the lock of the condition and does not give it back. *)
Definition Wait (s : semaphore) : option semaphore :=
  if mutex s then None
  else if (locks s =? 0)%Z
  then Some (mkSemaphore (held s) (locks s) (acquired s) (released s) (stop s) true (selecting s))
  else None.

(** ** What they guarantee *)

Theorem StrPtrEq_spec a b : StrPtrEq a b = true <-> a = b.
Proof.
  destruct a as [a|], b as [b|]; cbn; split; intros H; try done.
  - apply streq_eq in H. by subst.
  - injection H as ->. apply streq_refl.
Qed.

(** [Coalesce] gives the first of its arguments that is not nil. *)
Theorem Coalesce_first {A} (a b : option A) l x :
  Coalesce a b l = Some x <->
  exists before after, a :: b :: l = before ++ Some x :: after /\ Forall (fun y => y = None) before.
Proof.
  unfold Coalesce. generalize (a :: b :: l). clear a b l. intros l. induction l as [| y l IH]; cbn.
  - split; [done |]. by intros ([|] & after & E & _).
  - destruct y as [y|]; cbn.
    + split.
      * intros [= ->]. by exists [], l.
      * intros ([| z before] & after & E & Hb); [by injection E as -> _ |]. injection E as <- _.
        by apply Forall_cons in Hb as [? _].
    + rewrite IH. split.
      * intros (before & after & -> & Hb). exists (None :: before), after. split; [done |]. by constructor.
      * intros ([| z before] & after & E & Hb); [done |]. injection E as <- ->. exists before, after.
        split; [done |]. by apply Forall_cons in Hb as [_ ?].
Qed.

Lemma from_app {E} i (l k : list (nat * E)) : from i (l ++ k) = from i l ++ from i k.
Proof. unfold from. by rewrite filter_app, fmap_app. Qed.

Lemma from_one {E} i j (e : E) : from i [(j, e)] = if decide (j = i) then [e] else [].
Proof. unfold from. rewrite filter_cons. cbn. by destruct (decide (j = i)). Qed.

Record merged_ok {E} (m : merged E) : Prop := {
  mo_sent i p : pipes m !! i = Some p -> sent p = from i (out m) ++ queue p;
  mo_returned i p : pipes m !! i = Some p -> returned p = true -> closed p = true /\ queue p = [];
  mo_closed i p : out_closed m = true -> pipes m !! i = Some p -> returned p = true
}.

(** A pipe is replaced by one that gave nothing out. *)
Lemma merged_update {E} (m : merged E) i p q :
  merged_ok m -> pipes m !! i = Some p -> sent q = from i (out m) ++ queue q ->
  (returned q = true -> closed q = true /\ queue q = []) -> (returned p = true -> returned q = true) ->
  merged_ok (mkMerged (<[i := q]> (pipes m)) (out m) (out_closed m)).
Proof.
  intros [H1 H2 H3] Hp Hs Hr Hpq. split; cbn.
  - intros j x [(<- & <- & _)|[_ Hx]]%list_lookup_insert_Some; eauto.
  - intros j x [(<- & <- & _)|[_ Hx]]%list_lookup_insert_Some; eauto.
  - intros j x Hc [(<- & <- & _)|[_ Hx]]%list_lookup_insert_Some; eauto.
Qed.

Lemma merged_step {E} (m : merged E) ev r :
  merged_ok m -> step ev m = Some r -> exists m', r = Ok m' /\ merged_ok m'.
Proof.
  intros Hm. pose proof Hm as [H1 H2 H3]. destruct ev as [i e | i | i | i |]; cbn.
  - intros (p & Hp & H)%bind_Some. destruct (closed p) eqn:Ec; [done |]. injection H as <-. eexists. split; [done |].
    apply (merged_update _ _ _ _ Hm Hp); cbn; try done.
    + by rewrite (H1 _ _ Hp), app_assoc.
    + intros Hr. destruct (H2 _ _ Hp Hr). congruence.
  - intros (p & Hp & H)%bind_Some. destruct (closed p) eqn:Ec; [done |]. injection H as <-. eexists. split; [done |].
    apply (merged_update _ _ _ _ Hm Hp); cbn; try done; [by apply H1 |]. intros Hr. by destruct (H2 _ _ Hp Hr).
  - intros (p & Hp & H)%bind_Some. destruct (queue p) as [| e q] eqn:Eq; [done |].
    destruct (returned p) eqn:Er; [done |]. destruct (out_closed m) eqn:Eo; [by rewrite (H3 _ _ eq_refl Hp) in Er |].
    injection H as <-. eexists. split; [done |]. split; cbn [pipes out out_closed]; [| | done].
    + intros j x. rewrite from_app, from_one. intros [(<- & <- & _)|[Hne Hx]]%list_lookup_insert_Some.
      * rewrite decide_True by done. cbn. by rewrite (H1 _ _ Hp), Eq, <- app_assoc.
      * rewrite decide_False, app_nil_r by done. by apply H1.
    + intros j x [(<- & <- & _)|[_ Hx]]%list_lookup_insert_Some; [done | by eapply H2].
  - intros (p & Hp & H)%bind_Some. destruct (queue p) eqn:Eq; [| done]. destruct (closed p) eqn:Ec; [| done].
    injection H as <-. eexists. split; [done |]. apply (merged_update _ _ _ _ Hm Hp); cbn; try done.
    by rewrite (H1 _ _ Hp), Eq.
  - destruct (out_closed m) eqn:Eo; [done |].
    destruct (forallb returned (pipes m)) eqn:Ef; [| done]. intros [= <-]. eexists. split; [done |]. split; cbn; try done.
    intros i p _ Hp. rewrite forallb_forall in Ef. apply Ef, list_elem_of_In. by eapply list_elem_of_lookup_2.
Qed.

(** The merged channel gives every error once and in the order of its channel, is
    closed only when all channels are closed and everything was given, and no
    goroutine ever sends on it when it is closed. *)
Theorem merge_complete {E} n (m : merged E) :
  reaches n m ->
  (forall i p, pipes m !! i = Some p -> sent p = from i (out m) ++ queue p) /\
  (out_closed m = true -> forall i p, pipes m !! i = Some p -> closed p = true /\ from i (out m) = sent p) /\
  (forall ev, step ev m <> Some Panic).
Proof.
  intros Hr. assert (merged_ok m) as Hm.
  { induction Hr as [| m ev m' Hr IH Hs].
    - split; cbn; try done; intros i p [-> _]%lookup_replicate_1; done.
    - destruct (merged_step _ _ _ IH Hs) as (m2 & [= ->] & H). exact H. }
  pose proof Hm as [H1 H2 H3]. split_and!; try done.
  - intros Ho i p Hp. destruct (H2 _ _ Hp (H3 _ _ Ho Hp)) as [Hc Hq]. by rewrite (H1 _ _ Hp), Hq, app_nil_r.
  - intros ev Hs. by destruct (merged_step _ _ _ Hm Hs) as (m2 & ? & _).
Qed.

(** *** The address of the host *)

Lemma first_address_spec l b :
  first_address l = Some b <-> exists before a after, l = before ++ a :: after /\ usable a = Some b /\ Forall (fun x => usable x = None) before.
Proof.
  induction l as [| x l IH]; cbn.
  - split; [done |]. by intros ([|] & a & after & E & _).
  - destruct (usable x) as [y|] eqn:Ex.
    + split.
      * intros [= ->]. by exists [], x, l.
      * intros ([| z before] & a & after & E & Ha & Hb); injection E as -> ->; [congruence |].
        apply Forall_cons in Hb as [? _]. congruence.
    + rewrite IH. split.
      * intros (before & a & after & -> & Ha & Hb). exists (x :: before), a, after. split_and!; try done. by constructor.
      * intros ([| z before] & a & after & E & Ha & Hb); injection E as -> ->; [congruence |].
        exists before, a, after. split_and!; try done. by apply Forall_cons in Hb as [_ ?].
Qed.

(** An interface that counts: up and not the loopback one. *)
Definition counts (i : iface) : bool := flag_up i && negb (flag_loopback i).

Lemma over_interfaces_spec l :
  match over_interfaces l with
  | SelfIP b => exists i a x, i ∈ l /\ counts i = true /\ addrs i = Some a /\ x ∈ a /\ usable x = Some b
  | InterfacesError => False
  | AddrsError => exists i, i ∈ l /\ counts i = true /\ addrs i = None
  | NotConnected => forall i, i ∈ l -> counts i = true -> exists a, addrs i = Some a /\ forall x, x ∈ a -> usable x = None
  end.
Proof.
  assert (forall a, first_address a = None -> forall x, x ∈ a -> usable x = None) as Hnone.
  { intros a. induction a as [| y a IH]; cbn; intros E x Hx; [by apply elem_of_nil in Hx |].
    destruct (usable y) eqn:Ey; [done |]. apply elem_of_cons in Hx as [-> | Hx]; auto. }
  induction l as [| i l IH]; cbn; [by intros i ?%elem_of_nil |].
  assert (counts i = false -> match over_interfaces l with
    | SelfIP b => exists i0 a x, i0 ∈ i :: l /\ counts i0 = true /\ addrs i0 = Some a /\ x ∈ a /\ usable x = Some b
    | InterfacesError => False
    | AddrsError => exists i0, i0 ∈ i :: l /\ counts i0 = true /\ addrs i0 = None
    | NotConnected => forall i0, i0 ∈ i :: l -> counts i0 = true -> exists a, addrs i0 = Some a /\ forall x, x ∈ a -> usable x = None
    end) as Hskip.
  { intros Hc. destruct (over_interfaces l); [set_solver.. |].
    intros i0 [-> | Hi]%elem_of_cons Hc0; [congruence | auto]. }
  destruct (flag_up i) eqn:Eu; cbn; [| apply Hskip; unfold counts; by rewrite Eu].
  destruct (flag_loopback i) eqn:El; [apply Hskip; unfold counts; by rewrite Eu, El |].
  assert (counts i = true) as Hc by (unfold counts; by rewrite Eu, El).
  destruct (addrs i) as [a|] eqn:Ea; [| exists i; set_solver].
  destruct (first_address a) as [b|] eqn:Ef.
  - apply first_address_spec in Ef as (before & x & after & -> & Hx & _). exists i, (before ++ x :: after), x. set_solver.
  - destruct (over_interfaces l); [set_solver.. |]. intros i0 [-> | Hi]%elem_of_cons Hc0; [| auto].
    exists a. split; [done | by apply Hnone].
Qed.

(** The address is the IPv4 form of an address that is not a loopback one, of an
    interface that is up and not the loopback one; without such an address, and
    without an interface that cannot be read, the host is not connected. *)
Theorem self_ip_spec interfaces :
  match ResolveSelfIP interfaces with
  | SelfIP b => exists l i a x, interfaces = Some l /\ i ∈ l /\ counts i = true /\ addrs i = Some a /\ x ∈ a /\ usable x = Some b
  | InterfacesError => interfaces = None
  | AddrsError => exists l i, interfaces = Some l /\ i ∈ l /\ counts i = true /\ addrs i = None
  | NotConnected =>
      exists l, interfaces = Some l /\
      forall i, i ∈ l -> counts i = true -> exists a, addrs i = Some a /\ forall x, x ∈ a -> usable x = None
  end.
Proof.
  destruct interfaces as [l|]; cbn; [| done].
  pose proof (over_interfaces_spec l) as H. destruct (over_interfaces l); naive_solver.
Qed.

(** *** The semaphore does not work *)

(** A semaphore can be waited for once; every other call blocks for ever. *)
Theorem semaphore_blocks :
  Acquire NewSemaphore = None /\ Release NewSemaphore = None /\ Dispose NewSemaphore = None /\
  exists s, Wait NewSemaphore = Some s /\
    Wait s = None /\ Acquire s = None /\ Release s = None /\ Dispose s = None.
Proof. split_and!; try done. by eexists. Qed.

End Helpers.
