(* ===== verification/Gb28181.v ===== *)
(** * The GB28181 application: src/gb28181

    A registrar of cameras on top of the SIP server: cameras register with digest
    authentication, report their channels in MESSAGE requests, and are invited to
    send media and told to stop.  [Session] holds the devices in memory and in
    Redis; the HTTP interface works on the same session.

    Devices and channels are shared by pointers: they are cells of two heaps, and
    the session and the maps hold their numbers.  A handler runs in the monad
    [M], whose state is the application and whose missing result is a panic; the
    handlers recover from panics, so that their effects up to there stay.  Redis,
    the device service, the XML decoder, the media server, random strings and the
    answers to the requests the application sends are arguments. *)

From S2P Require Import Prelude GoStrings Escape Params Headers HeaderStore Message ParserCommon Fsm Auth.
From stdpp Require Import options.
Import Params Headers HeaderStore Message Auth.

Module Gb28181.

(** ** Data *)

Record SipConfig : Type := mkConfig {
  Serial : bytes;
  SipIp : bytes;
  SipPort : N;
  MediaIp : bytes;
  MediaPort : N
}.

Definition NewDefaultSipConfig : SipConfig :=
  mkConfig "34020000002000000001" "127.0.0.1" 5060 "127.0.0.1" 9000.

Record ChannelInfo : Type := mkInfo { CallId : bytes; FTag : bytes; TTag : bytes }.

(** The descriptive fields of a channel are one list. *)
Record Channel : Type := mkChannel {
  invited : Z;
  ChannelID : bytes;
  details : list bytes;
  c_CallId : bytes;
  c_From : option NameAddr;
  c_To : option NameAddr;
  c_device : nat
}.

(** Times and durations in nanoseconds; [ChannelMap] can be nil. *)
Record GatewayDevice : Type := mkDevice {
  DeviceID : bytes;
  d_From : bytes;
  d_Addr : bytes;
  RegisterTime : Z;
  Expires : Z;
  ChannelMap : option (gmap (list ascii) nat);
  d_CSeq : N
}.

(** What the XML decoder makes of a body: the root element, the command, the
    channels (identifier and descriptive fields). *)
Record SipMessage : Type := mkSipMessage {
  XMLName : bytes;
  CmdType : bytes;
  DeviceList : list (bytes * list bytes)
}.

Record DeviceInfo : Type := mkDeviceInfo { DeviceToken : bytes }.

(** ** Redis *)

Class Redis (R : Type) : Type := {
  HSet : bytes -> list (bytes * bytes) -> R -> bool * R;
  HGet : bytes -> bytes -> R -> option (option bytes);
  HMGet : bytes -> list bytes -> R -> option (list (option bytes));
  HGetAll : bytes -> R -> gmap (list ascii) bytes;
  HIncrBy : bytes -> bytes -> Z -> R -> option Z * R;
  Del : bytes -> R -> bool * R
}.

(** The documented behaviour: a hash is a map from fields to values; a call that
    fails changes nothing. *)
Class RedisLaws (R : Type) `{Redis R} : Prop := {
  HGetAll_HSet key l r ok r' : HSet key l r = (ok, r') ->
    forall k, HGetAll k r' = if ok && bool_decide (k = key) then list_to_map l ∪ HGetAll k r else HGetAll k r;
  HGet_HGetAll key f r v : HGet key f r = Some v -> v = HGetAll key r !! f;
  HMGet_HGetAll key fs r l : HMGet key fs r = Some l -> l = (fun f => HGetAll key r !! f) <$> fs;
  HGetAll_Del key r ok r' : Del key r = (ok, r') ->
    forall k, HGetAll k r' = if ok && bool_decide (k = key) then ∅ else HGetAll k r;
  HGetAll_HIncrBy key f n r v r' : HIncrBy key f n r = (v, r') ->
    forall k g, (k <> key \/ g <> f) -> HGetAll k r' !! g = HGetAll k r !! g
}.

(** A store in memory that behaves as documented and never fails. *)
Abbreviation memory := (gmap (list ascii) (gmap (list ascii) bytes)).

#[export] Instance memory_redis : Redis memory := {|
  HSet key l r := (true, <[key := list_to_map l ∪ default ∅ (r !! key)]> r);
  HGet key f r := Some (default ∅ (r !! key) !! f);
  HMGet key fs r := Some ((fun f => default ∅ (r !! key) !! f) <$> fs);
  HGetAll key r := default ∅ (r !! key);
  HIncrBy key f n r :=
    let old := match default ∅ (r !! key) !! f with
               | Some v => match Atoi v with Ok z => z | _ => 0%Z end
               | None => 0%Z
               end in
    (Some (old + n)%Z, <[key := <[f := show_N (Z.to_N (old + n))]> (default ∅ (r !! key))]> r);
  Del key r := (true, delete key r)
|}.

#[export] Instance memory_laws : RedisLaws memory.
Proof.
  split; unfold HSet, HGet, HMGet, HGetAll, HIncrBy, Del, memory_redis.
  - intros key l r ok r' [= <- <-] k. destruct (decide (k = key)) as [->|Hk].
    + by rewrite lookup_insert_eq, bool_decide_true.
    + by rewrite lookup_insert_ne, bool_decide_false.
  - by intros key f r v [= <-].
  - by intros key fs r l [= <-].
  - intros key r ok r' [= <- <-] k. destruct (decide (k = key)) as [->|Hk].
    + by rewrite lookup_delete_eq, bool_decide_true.
    + by rewrite lookup_delete_ne, bool_decide_false.
  - intros key f n r v r' [= <- <-] k g Hne. destruct (decide (k = key)) as [->|Hk].
    + rewrite lookup_insert_eq. cbn [from_option id]. rewrite lookup_insert_ne; [done |]. naive_solver.
    + by rewrite lookup_insert_ne.
Qed.

Definition SipSessionPrefix : bytes := "sips".
Definition SipChannelPrefix : bytes := "sipc".
Definition Delimiter : bytes := ":".

Definition session_key (id : bytes) : bytes := Join [SipSessionPrefix; id] Delimiter.
Definition channel_key (id : bytes) : bytes := Join [SipChannelPrefix; id] Delimiter.

(** [strconv.FormatInt] *)
Definition FormatInt (z : Z) : bytes := if (z <? 0)%Z then "-" ++ show_N (Z.abs_N z) else show_N (Z.to_N z).

Definition Millisecond : Z := 1000000.
Definition Second : Z := 1000000000.

(** [time.Duration.Milliseconds] *)
Definition Milliseconds (d : Z) : Z := Z.quot d Millisecond.
(** [time.Time.UnixMilli] and [time.UnixMilli] *)
Definition to_UnixMilli (t : Z) : Z := (t / Millisecond)%Z.
Definition UnixMilli (ms : Z) : Z := (ms * Millisecond)%Z.

(** Answers of the HTTP interface. *)
Inductive answer : Type :=
| Success (data : bytes)
| SuccessBool (b : bool)
| Fail (code message : bytes).

(** ** The world around the application

    The configuration, the strings [util.RandString] draws from and message
    identifiers, the address written to Redis, the device service, the media
    server, the XML decoders (with whether they succeed), what
    [parser.ParseSipUri] leaves in its result when it fails, the time between the
    two readings of the clock in [time.Since(time.Now())], and the answer to each
    request that is sent. *)
Class World : Type := {
  SC : SipConfig;
  rand : nat -> bytes;
  uuid : bytes;
  outbound : bytes;
  facade : bytes -> option DeviceInfo;
  srs : bytes -> Z;
  decode : bytes -> SipMessage * bool;
  gbk_decode : bytes -> SipMessage * bool;
  partial_uri : bytes -> SipUri;
  lag : Z;
  ask : nat -> request -> option response
}.

Section application.

Context {R : Type} `{Redis R} `{World}.

(** ** The state *)

Record app : Type := mkApp {
  session : gmap (list ascii) nat;
  devices : gmap nat GatewayDevice;
  channels : gmap nat Channel;
  next_cell : nat;
  channelCache : gmap (list ascii) ChannelInfo;
  redis : R;
  now : Z;
  draws : nat;
  responded : list response;
  requested : list request;
  queries : list nat;
  answered : list answer
}.

(** ** The monad *)

Definition M (A : Type) : Type := app -> option A * app.

Definition mret {A} (x : A) : M A := fun a => (Some x, a).
Definition mbind {A B} (m : M A) (f : A -> M B) : M B :=
  fun a => match m a with (Some x, a) => f x a | (None, a) => (None, a) end.
Definition panic {A} : M A := fun a => (None, a).
Definition get : M app := fun a => (Some a, a).
Definition modify (f : app -> app) : M unit := fun a => (Some tt, f a).
(** A result that may be a panic; an error is not expected there. *)
Definition lift {A} (r : res A) : M A := match r with Ok x => mret x | _ => panic end.
Definition deref {A} (o : option A) : M A := match o with Some x => mret x | None => panic end.

Local Notation "x ⇐ m ; f" := (mbind m (fun x => f)) (at level 20, m at level 100, f at level 200, right associativity).
Local Notation "m ;; f" := (mbind m (fun _ => f)) (at level 100, f at level 200, right associativity).

Definition set_session (s : gmap (list ascii) nat) (a : app) : app :=
  mkApp s (devices a) (channels a) (next_cell a) (channelCache a) (redis a) (now a) (draws a) (responded a)
    (requested a) (queries a) (answered a).
Definition set_devices (ds : gmap nat GatewayDevice) (a : app) : app :=
  mkApp (session a) ds (channels a) (next_cell a) (channelCache a) (redis a) (now a) (draws a) (responded a)
    (requested a) (queries a) (answered a).
Definition set_channels (cs : gmap nat Channel) (a : app) : app :=
  mkApp (session a) (devices a) cs (next_cell a) (channelCache a) (redis a) (now a) (draws a) (responded a)
    (requested a) (queries a) (answered a).
Definition set_next (n : nat) (a : app) : app :=
  mkApp (session a) (devices a) (channels a) n (channelCache a) (redis a) (now a) (draws a) (responded a)
    (requested a) (queries a) (answered a).
Definition set_cache (c : gmap (list ascii) ChannelInfo) (a : app) : app :=
  mkApp (session a) (devices a) (channels a) (next_cell a) c (redis a) (now a) (draws a) (responded a)
    (requested a) (queries a) (answered a).
Definition set_redis (r : R) (a : app) : app :=
  mkApp (session a) (devices a) (channels a) (next_cell a) (channelCache a) r (now a) (draws a) (responded a)
    (requested a) (queries a) (answered a).
Definition set_draws (n : nat) (a : app) : app :=
  mkApp (session a) (devices a) (channels a) (next_cell a) (channelCache a) (redis a) (now a) n (responded a)
    (requested a) (queries a) (answered a).
Definition add_response (r : response) (a : app) : app :=
  mkApp (session a) (devices a) (channels a) (next_cell a) (channelCache a) (redis a) (now a) (draws a)
    (responded a ++ [r]) (requested a) (queries a) (answered a).
Definition add_request (r : request) (a : app) : app :=
  mkApp (session a) (devices a) (channels a) (next_cell a) (channelCache a) (redis a) (now a) (draws a)
    (responded a) (requested a ++ [r]) (queries a) (answered a).
Definition add_query (d : nat) (a : app) : app :=
  mkApp (session a) (devices a) (channels a) (next_cell a) (channelCache a) (redis a) (now a) (draws a)
    (responded a) (requested a) (queries a ++ [d]) (answered a).
Definition add_answer (x : answer) (a : app) : app :=
  mkApp (session a) (devices a) (channels a) (next_cell a) (channelCache a) (redis a) (now a) (draws a)
    (responded a) (requested a) (queries a) (answered a ++ [x]).

(** A new cell of a heap. *)
Definition new_device (d : GatewayDevice) : M nat :=
  a ⇐ get; let n := next_cell a in
  modify (fun a => set_next (S n) (set_devices (<[n := d]> (devices a)) a));; mret n.
Definition new_channel (c : Channel) : M nat :=
  a ⇐ get; let n := next_cell a in
  modify (fun a => set_next (S n) (set_channels (<[n := c]> (channels a)) a));; mret n.

(** Pointers are not nil where they are followed. *)
Definition device (n : nat) : M GatewayDevice := a ⇐ get; deref (devices a !! n).
Definition channel (n : nat) : M Channel := a ⇐ get; deref (channels a !! n).
Definition put_device (n : nat) (d : GatewayDevice) : M unit := modify (fun a => set_devices (<[n := d]> (devices a)) a).
Definition put_channel (n : nat) (c : Channel) : M unit := modify (fun a => set_channels (<[n := c]> (channels a)) a).
Definition change_channel (n : nat) (f : Channel -> Channel) : M unit := c ⇐ channel n; put_channel n (f c).

Definition set_Expires (e : Z) (d : GatewayDevice) : GatewayDevice :=
  mkDevice (DeviceID d) (d_From d) (d_Addr d) (RegisterTime d) e (ChannelMap d) (d_CSeq d).
Definition set_CSeq (n : N) (d : GatewayDevice) : GatewayDevice :=
  mkDevice (DeviceID d) (d_From d) (d_Addr d) (RegisterTime d) (Expires d) (ChannelMap d) n.
Definition set_ChannelMap (m : gmap (list ascii) nat) (d : GatewayDevice) : GatewayDevice :=
  mkDevice (DeviceID d) (d_From d) (d_Addr d) (RegisterTime d) (Expires d) (Some m) (d_CSeq d).
Definition set_invited (i : Z) (c : Channel) : Channel :=
  mkChannel i (ChannelID c) (details c) (c_CallId c) (c_From c) (c_To c) (c_device c).
Definition set_CallId (id : bytes) (c : Channel) : Channel :=
  mkChannel (invited c) (ChannelID c) (details c) id (c_From c) (c_To c) (c_device c).
Definition set_From (from : NameAddr) (c : Channel) : Channel :=
  mkChannel (invited c) (ChannelID c) (details c) (c_CallId c) (Some from) (c_To c) (c_device c).
Definition set_To (to : NameAddr) (c : Channel) : Channel :=
  mkChannel (invited c) (ChannelID c) (details c) (c_CallId c) (c_From c) (Some to) (c_device c).

(** A call of Redis whose result is only a success. *)
Definition on_redis {A} (f : R -> A * R) : M A :=
  fun a => let xr := f (redis a) in (Some xr.1, set_redis xr.2 a).

(** [util.RandString] *)
Definition RandString (n : nat) : M bytes :=
  a ⇐ get; modify (set_draws (S (draws a)));; mret (Message.RandString n (rand (draws a))).

(** [srv.Respond]: errors are logged; a nil response is a panic in the server. *)
Definition respond (r : response) : M unit := modify (add_response r).

(** [srv.RequestWithContext]: [None] is an error. *)
Definition request_with (r : request) : M (option response) :=
  a ⇐ get; modify (add_request r);; mret (ask (length (requested a)) r).

Definition reply (req : request) (code : N) (rsn b : bytes) : M response :=
  lift (NewResponseFromRequest uuid [] req code rsn b).

(** ** The session: session.go *)

(** [redisRouter.Register] *)
Definition device_hash (d : GatewayDevice) : list (bytes * bytes) :=
  [("from", d_From d); ("send", d_Addr d); ("rt", FormatInt (to_UnixMilli (RegisterTime d)));
   ("exp", FormatInt (Expires d)); ("addr", outbound)].

Definition Register (d : GatewayDevice) : M bool := on_redis (HSet (session_key (DeviceID d)) (device_hash d)).

Definition GetRoute (id : bytes) : M bytes :=
  a ⇐ get; mret (match HGet (session_key id) "Addr" (redis a) with Some (Some v) => v | _ => [] end).

Definition RemoveRoute (id : bytes) : M bool :=
  ok1 ⇐ on_redis (Del (session_key id)); ok2 ⇐ on_redis (Del (channel_key id)); mret (ok1 && ok2).

(** [MemorySession.Store] of a device that is not nil. *)
Definition Store (n : nat) (expiration : Z) : M bool :=
  d ⇐ device n;
  put_device n (set_Expires expiration d);;
  modify (fun a => set_session (<[DeviceID d := n]> (session a)) a);;
  Register (set_Expires expiration d);; mret true.

Definition Remove (id : bytes) : M unit :=
  modify (fun a => set_session (delete id (session a)) a);; RemoveRoute id;; mret tt.

(** The test of [Get] and [Exist]. *)
Definition alive (t : Z) (d : GatewayDevice) : bool :=
  (Milliseconds lag - Milliseconds (t - RegisterTime d) <=? Milliseconds (Expires d))%Z.

(** [MemorySession.Get] *)
Definition Get (id : bytes) : M (option nat) :=
  a ⇐ get;
  match session a !! id with
  | None => mret None
  | Some n =>
      d ⇐ device n;
      if alive (now a) d then mret (Some n) else (Remove id;; mret None)
  end.

(** [MemorySession.Exist] *)
Definition Exist (id : bytes) : M bool := n ⇐ Get id; mret (isSome n).

Definition info_hash (c : ChannelInfo) : list (bytes * bytes) :=
  [("callId", CallId c); ("fTag", FTag c); ("tTag", TTag c)].

Definition AddChannelInfo (id : bytes) (c : ChannelInfo) : M bool :=
  modify (fun a => set_cache (<[id := c]> (channelCache a)) a);; on_redis (HSet (channel_key id) (info_hash c)).

Definition CreatChannelInfo (values : list (option bytes)) : option ChannelInfo :=
  match values with
  | [c; f; t] => Some (mkInfo (default [] c) (default [] f) (default [] t))
  | _ => None
  end.

Definition GetChannelInfo (id : bytes) : M (option ChannelInfo) :=
  a ⇐ get;
  mret (match HMGet (channel_key id) ["callId"; "fTag"; "tTag"] (redis a) with
        | Some values => CreatChannelInfo values
        | None => None
        end).

Definition GetAndDelChannelInfo (id : bytes) : M (option ChannelInfo) :=
  a ⇐ get;
  match channelCache a !! id with
  | Some info =>
      modify (fun a => set_cache (delete id (channelCache a)) a);;
      on_redis (Del (channel_key id));; mret (Some info)
  | None => mret None
  end.

(** ** Requests to a device: device.go *)

(** [cSeqIncr]: nothing when Redis fails. *)
Definition cSeqIncr (n : nat) : M unit :=
  d ⇐ device n;
  v ⇐ on_redis (HIncrBy (session_key (DeviceID d)) "CSeq" 1);
  match v with
  | Some v => put_device n (set_CSeq (Z.to_N (v mod 2 ^ 32)) d)
  | None => mret tt
  end.

(** [parser.ParseSipUri] with its error dropped: what is left in the result then
    is an argument. *)
Definition GetRecipient (from : bytes) : M SipUri :=
  match ParserCommon.ParseSipUri from with
  | Ok u => mret u
  | Err _ => mret (partial_uri from)
  | Panic => panic
  end.

Definition own_uri : Uri :=
  SipUriPtr (mkSipUri false (Some "ccsip") None (SipIp SC) (Some (SipPort SC)) None None).

Definition own_via (branch : bytes) : Header :=
  HVia [mkViaHop "SIP" "2.0" "UDP" (SipIp SC) (Some (SipPort SC)) (Some (Params.Add NewParams "branch" (Some branch)))].

Definition with_tag (tag : bytes) : option headerParams := Some (Params.Add NewParams "tag" (Some tag)).

(** [GetSipHeaders] with an empty Call-ID. *)
Definition GetSipHeaders (n : nat) (m : RequestMethod) : M (list Header) :=
  cSeqIncr n;;
  callId ⇐ RandString 10;
  tag ⇐ RandString 8;
  branch ⇐ RandString 8;
  d ⇐ device n;
  to ⇐ GetRecipient (d_From d);
  mret [HCSeq (d_CSeq d) m; HMaxForwards 70; HCallID callId;
        HFrom (mkNameAddr None (Some own_uri) (with_tag tag));
        HTo (mkNameAddr None (Some (SipUriPtr to)) None);
        own_via (RFC3261BranchMagicCookie ++ branch)].

(** [sip.NewRequest] with a random identifier, and its destination. *)
Definition new_request (m : RequestMethod) (recipient : SipUri) (hs : list Header) (b addr : bytes) : M request :=
  id ⇐ RandString 10;
  mret (rq_map (fun x => SetDestination x addr)
          (NewRequest uuid id m (Some (SipUriPtr recipient)) "SIP/2.0" hs b)).

Definition query_body (n : N) (id : bytes) : bytes :=
  Join ["<?xml version=" ++ [DQUOTE] ++ "1.0" ++ [DQUOTE] ++ "?>"; "<Query>"; "<CmdType>Catalog</CmdType>";
        "<SN>" ++ show_N n ++ "</SN>"; "<DeviceID>" ++ id ++ "</DeviceID>"; "</Query>"] [LF].

(** [GatewayDevice.Query] *)
Definition Query (n : nat) : M bool :=
  d ⇐ device n;
  recipient ⇐ GetRecipient (d_From d);
  hs ⇐ GetSipHeaders n "MESSAGE";
  d ⇐ device n;
  rq ⇐ new_request "MESSAGE" recipient (hs ++ [HContentType "Application/MANSCDP+xml"])
         (query_body (d_CSeq d) (DeviceID d)) (d_Addr d);
  r ⇐ request_with rq;
  mret (match r with Some r => (status r =? 200)%N | None => false end).

(** The loop of [UpdateChannels]: a nil map panics. *)
Fixpoint UpdateChannels (n : nat) (l : list (bytes * list bytes)) : M unit :=
  match l with
  | [] => mret tt
  | (id, more) :: l =>
      info ⇐ GetChannelInfo id;
      match info with
      | Some i => modify (fun a => set_cache (<[id := i]> (channelCache a)) a)
      | None => mret tt
      end;;
      d ⇐ device n;
      m ⇐ deref (ChannelMap d);
      c ⇐ new_channel (mkChannel 0 id more [] None None n);
      put_device n (set_ChannelMap (<[id := c]> m) d);;
      UpdateChannels n l
  end.

Definition sdp (start stop : Z) (id ssrc : bytes) : bytes :=
  Join ["v=0"; "o=" ++ Serial SC ++ " 0 0 IN IP4 " ++ MediaIp SC;
        "s=" ++ (if (start =? 0)%Z then "Play" else "Playback");
        "u=" ++ id ++ ":0"; "c=IN IP4 " ++ MediaIp SC;
        "t=" ++ FormatInt start ++ " " ++ FormatInt stop;
        "m=video " ++ show_N (MediaPort SC) ++ " RTP/AVP 96 97 98"; "a=recvonly"; "a=rtpmap:96 PS/90000";
        "a=rtpmap:97 MPEG4/90000"; "a=rtpmap:98 H264/90000"; "y=" ++ ssrc] CRLF ++ CRLF.

Definition stream_path (start stop : Z) (id : bytes) : bytes :=
  if (start =? 0)%Z then id else id ++ "/" ++ FormatInt start ++ "-" ++ FormatInt stop.

(** [x.Params.Get("tag")], nil when there is none; then its [String]. *)
Definition get_tag (x : NameAddr) : M MaybeString :=
  ps ⇐ deref (na_params x); mret (default None (Params.Get ps "tag")).

(** [Channel.Invite] *)
Definition Invite (c : nat) (start stop : Z) (ssrc : bytes) : M (option (bytes * ChannelInfo)) :=
  ch ⇐ channel c;
  d ⇐ device (c_device ch);
  recipient ⇐ GetRecipient (d_From d);
  hs ⇐ GetSipHeaders (c_device ch) INVITE;
  rq ⇐ new_request INVITE recipient (hs ++ [HContentType "application/sdp"])
         (sdp start stop (ChannelID ch) ssrc) (d_Addr d);
  r ⇐ request_with rq;
  match r with
  | Some r =>
      if (status r =? 200)%N then
        let hs := hdrs (rs_msg r) in
        callID ⇐ deref (CallID hs);
        change_channel c (set_CallId callID);;
        from ⇐ deref (From_ hs);
        fTag ⇐ get_tag from;
        change_channel c (set_From from);;
        to ⇐ deref (To hs);
        tTag ⇐ get_tag to;
        change_channel c (set_To to);;
        fTag ⇐ lift (MaybeString_String fTag);
        tTag ⇐ lift (MaybeString_String tTag);
        mret (Some (stream_path start stop (ChannelID ch), mkInfo callID fTag tTag))
      else mret None
  | None => mret None
  end.

(** The BYE of a dialog, with a new sequence number. *)
Definition bye (d : nat) (hs : list Header) : M bool :=
  dev ⇐ device d;
  recipient ⇐ GetRecipient (d_From dev);
  cSeqIncr d;;
  branch ⇐ RandString 8;
  dev ⇐ device d;
  rq ⇐ new_request "BYE" recipient
         ([HCSeq (d_CSeq dev) "BYE"; HMaxForwards 70] ++ hs ++ [own_via (RFC3261BranchMagicCookie ++ branch)])
         [] (d_Addr dev);
  r ⇐ request_with rq;
  mret (match r with Some r => (status r =? 200)%N | None => false end).

(** [Channel.Bye] *)
Definition Bye (c : nat) : M bool :=
  ch ⇐ channel c;
  match c_CallId ch with
  | [] => mret false
  | id =>
      from ⇐ deref (c_From ch);
      to ⇐ deref (c_To ch);
      bye (c_device ch) [HCallID id; HFrom from; HTo to]
  end.

(** [Channel.Bye2]; the deadline is an error of the request. *)
Definition Bye2 (c : nat) : M bool :=
  change_channel c (set_invited 0);;
  ch ⇐ channel c;
  info ⇐ GetAndDelChannelInfo (ChannelID ch);
  match info with
  | None => mret false
  | Some i =>
      d ⇐ device (c_device ch);
      to ⇐ GetRecipient (d_From d);
      bye (c_device ch)
        [HCallID (CallId i); HFrom (mkNameAddr None (Some own_uri) (with_tag (FTag i)));
         HTo (mkNameAddr None (Some (SipUriPtr to)) (with_tag (TTag i)))]
  end.

(** ** Requests of devices: gb28181.go *)

(** A handler: a panic is recovered from. *)
Definition recovered (m : M unit) (a : app) : app := (m a).2.

(** [req.Method() == m && tx.Origin().Method() == m]; [tx] is the request of the
    transaction, nil for an ACK. *)
Definition both_method (m : RequestMethod) (req : request) (tx : option request) : M bool :=
  if streq (method req) m then o ⇐ deref tx; mret (streq (method o) m) else mret false.

(** [from.Address.User().String()] of the From header. *)
Definition user_of (req : request) : M bytes :=
  from ⇐ deref (From_ (hdrs (rq_msg req)));
  uri ⇐ deref (na_addr from);
  match uri with
  | SipUriPtr u => lift (MaybeString_String (FUser u))
  | _ => panic
  end.

(** The 401 with a new challenge. *)
Definition challenge (req : request) : M response :=
  nonce ⇐ RandString 10;
  let value := "realm=" ++ quoted "3402000000" ++ "nonce=" ++ quoted nonce in
  r ⇐ reply req 401 "Unauthorized" [];
  mret (rs_map (fun m => with_hdrs m (AppendHeader (hdrs m) (HAuthenticate (Auth_String (AuthFromValue value))))) r).

(** The lifetime in the first Expires header, in seconds. *)
Definition expires_of (req : request) : Z :=
  match find (fun h => streq (Header_Name h) "Expires") (Headers_ (hdrs (rq_msg req))) with
  | Some h => match Atoi (Header_Value h) with Ok e => e | _ => 3600 end
  | None => 3600
  end.

(** The loop of [getSendAddr] over the hops. *)
Fixpoint scan_hops (hops : list ViaHop) (received rport : bytes) (hop : option ViaHop)
    : res (bytes * bytes * option ViaHop) :=
  match hops with
  | [] => Ok (received, rport, hop)
  | h :: hops =>
      ps ← match vh_params h with Some ps => Ok ps | None => Panic end;
      '(received, hop) ← match Params.Get ps "received" with
                         | Some v => r ← MaybeString_String v; Ok (r, Some h)
                         | None => Ok (received, hop)
                         end;
      '(rport, hop) ← match Params.Get ps "rport" with
                      | Some v => r ← MaybeString_String v; Ok (r, Some h)
                      | None => Ok (rport, hop)
                      end;
      scan_hops hops received rport hop
  end.

Definition getSendAddr (req : request) : res bytes :=
  '(received, rport, hop) ← scan_hops (default [] (Via (hdrs (rq_msg req)))) [] [] None;
  port ← (if negb (streq rport "") && negb (streq rport "0") && negb (streq rport "-1") then Ok rport
          else match hop with
               | None => Panic
               | Some h =>
                   match Port h with
                   | Some p => Ok (show_N p)
                   | None => Ok (if streq (ToUpper (Transport h)) "UDP" then "5060" else "5061")
                   end
               end);
  host ← (if negb (streq received "") then Ok received
          else match hop with Some h => Ok (Host h) | None => Panic end);
  Ok (host ++ ":" ++ port).

(** A device with itself as its only channel. *)
Definition add_device (d : GatewayDevice) : M nat :=
  n ⇐ new_device d;
  c ⇐ new_channel (mkChannel 0 (DeviceID d) [] [] None None n);
  put_device n (set_ChannelMap {[DeviceID d := c]} d);; mret n.

(** The registration of a device whose credentials were accepted. *)
Definition register (req : request) (id : bytes) : M response :=
  addr ⇐ lift (getSendAddr req);
  r ⇐ reply req 200 "OK" [];
  from ⇐ deref (From_ (hdrs (rq_msg req)));
  let expires := expires_of req in
  if (expires =? 0)%Z then Remove id;; mret r
  else
    uri ⇐ deref (na_addr from);
    a ⇐ get;
    n ⇐ add_device (mkDevice id (Uri_String uri) addr (now a) expires (Some ∅) 1);
    Store n (Fsm.wrap64 (expires * Second));;
    modify (add_query n);; mret r.

(** The answer to a REGISTER; more than one Authorization header leaves the
    response nil. *)
Definition registration (req : request) : M (option response) :=
  match GetHeaders (hdrs (rq_msg req)) "Authorization" with
  | [] => r ⇐ challenge req; mret (Some r)
  | [h] =>
      id ⇐ user_of req;
      match facade id with
      | None => r ⇐ challenge req; mret (Some r)
      | Some info =>
          if accepts (Header_Value h) (method req) (DeviceToken info)
          then r ⇐ register req id; mret (Some r)
          else r ⇐ challenge req; mret (Some r)
      end
  | _ => mret None
  end.

Definition OnRegister (req : request) (tx : option request) : app -> app :=
  recovered (
    ok ⇐ both_method "REGISTER" req tx;
    if ok then r ⇐ registration req; r ⇐ deref r; respond r else mret tt).

(** The answer of the handlers that only look for a session. *)
Definition answer_known (req : request) (b : bytes) : M unit :=
  id ⇐ user_of req;
  n ⇐ Get id;
  r ⇐ match n with Some _ => reply req 200 [] b | None => reply req 401 "Unauthorized" [] end;
  respond r.

Definition OnOptions (req : request) (tx : option request) : app -> app :=
  recovered (ok ⇐ both_method "OPTIONS" req tx; if ok then answer_known req [] else mret tt).

Definition OnInvite (req : request) (tx : option request) : app -> app :=
  recovered (
    ok ⇐ both_method INVITE req tx;
    if ok then r ⇐ reply req 405 "Method Not Allowed" []; respond r else mret tt).

Definition OnBye (req : request) (tx : option request) : app -> app :=
  recovered (ok ⇐ both_method "BYE" req tx; if ok then answer_known req "ok" else mret tt).

Definition OnAck (req : request) (tx : option request) : app -> app :=
  recovered (ok ⇐ both_method ACK req tx; if ok then answer_known req "ok" else mret tt).

(** [handleMessage] *)
Definition handleMessage (m : SipMessage) (n : nat) : M bool :=
  (if streq (XMLName m) "Notify" then
     d ⇐ device n;
     match ChannelMap d with None => modify (add_query n) | Some _ => mret tt end
   else if streq (XMLName m) "Response" && streq (CmdType m) "Catalog"
   then UpdateChannels n (DeviceList m)
   else mret tt);; mret true.

(** The body as XML, or else as XML in GBK; what was decoded is used in any case. *)
Definition decode_body (b : bytes) : SipMessage :=
  let '(m, ok) := decode b in if ok then m else (gbk_decode b).1.

(** A handled message is answered inside and after the tests. *)
Definition OnMessage (req : request) (tx : option request) : app -> app :=
  recovered (
    ok ⇐ both_method "MESSAGE" req tx;
    if ok then
      id ⇐ user_of req;
      n ⇐ Get id;
      r ⇐ match n, ContentType (hdrs (rq_msg req)) with
          | Some n, Some t =>
              if streq t "Application/MANSCDP+xml" then
                handled ⇐ handleMessage (decode_body (body (rq_msg req))) n;
                if handled : bool then r ⇐ reply req 200 "OK" []; respond r;; mret r
                else reply req 401 "Unauthorized" []
              else reply req 401 "not support content type" []
          | _, _ => reply req 401 "Unauthorized" []
          end;
      respond r
    else mret tt).

(** The handlers that [start] registers. *)
Definition handler (m : RequestMethod) : option (request -> option request -> app -> app) :=
  if streq m INVITE then Some OnInvite
  else if streq m "MESSAGE" then Some OnMessage
  else if streq m "BYE" then Some OnBye
  else if streq m "REGISTER" then Some OnRegister
  else if streq m "OPTIONS" then Some OnOptions
  else if streq m ACK then Some OnAck
  else None.

(** ** Recovery of the sessions *)

(** A device from its hash. *)
Definition session_device (id : bytes) (value : gmap (list ascii) bytes) : option GatewayDevice :=
  match value !! ("from" : bytes), value !! ("send" : bytes), value !! ("rt" : bytes), value !! ("exp" : bytes) with
  | Some from, Some addr, Some rt, Some exp =>
      match Atoi rt, Atoi exp with
      | Ok rt, Ok exp =>
          match value !! ("CSeq" : bytes) with
          | None => Some (mkDevice id from addr (UnixMilli rt) exp (Some ∅) 1)
          | Some c =>
              match Atoi c with
              | Ok c => Some (mkDevice id from addr (UnixMilli rt) exp (Some ∅) (Z.to_N (c mod 2 ^ 32)))
              | _ => None
              end
          end
      | _, _ => None
      end
  | _, _, _, _ => None
  end.

Definition checkAndAddSession (id : bytes) (value : gmap (list ascii) bytes) : M bool :=
  match session_device id value with
  | None => mret false
  | Some d => n ⇐ add_device d; Store n (Expires d);; Query n;; mret true
  end.

(** [keys[start:end]] of a slice with the capacity [cap]: the bound is the
    capacity, and behind the length there are empty strings. *)
Definition slice (cap start stop : nat) (keys : list bytes) : res (list bytes) :=
  if (start <=? stop) && (stop <=? cap) then Ok (take (stop - start) (drop start (keys ++ replicate (cap - length keys) [])))
  else Panic.

(** The loop of [handleData] over the keys and their hashes. *)
Fixpoint add_sessions (keys : list bytes) (remove : list bytes) : M (list bytes) :=
  match keys with
  | [] => mret remove
  | key :: keys =>
      a ⇐ get;
      let value := HGetAll key (redis a) in
      id ⇐ lift (if 5 <=? length key then Ok (drop 5 key) else Panic);
      ok ⇐ checkAndAddSession id value;
      add_sessions keys (if ok : bool then remove else remove ++ [key])
  end.

Fixpoint del_all (keys : list bytes) : M unit :=
  match keys with [] => mret tt | key :: keys => on_redis (Del key);; del_all keys end.

(** [handleData]; [ok] tells whether the pipeline succeeds. *)
Definition handleData (ok : bool) (cap start stop : nat) (keys : list bytes) : M unit :=
  sub ⇐ lift (slice cap start stop keys);
  if ok then remove ⇐ add_sessions sub []; del_all remove else mret tt.

Fixpoint recover_from (ok : bool) (cap : nat) (keys : list bytes) (starts : list nat) : M unit :=
  match starts with
  | [] => mret tt
  | start :: starts =>
      (if length keys <? start + 50 then handleData ok cap start (length keys) keys
       else handleData ok cap start (start + 500) keys);;
      recover_from ok cap keys starts
  end.

(** [Recover] of the keys that the scan found. *)
Definition Recover (ok : bool) (cap : nat) (keys : list bytes) : M unit :=
  recover_from ok cap keys (map (Nat.mul 50) (seq 0 ((length keys + 49) / 50))).

(** [ScheduleTask]: a tick asks every device for its channels. *)
Fixpoint query_all (l : list nat) : M unit :=
  match l with [] => mret tt | n :: l => Query n;; query_all l end.
Definition ScheduleTask : M unit := a ⇐ get; query_all (map_to_list (session a)).*2.

(** ** The HTTP interface: http.go *)

Definition json (x : answer) : M unit := modify (add_answer x).

Definition FindChannel (id ch : bytes) : M (option nat) :=
  n ⇐ Get id;
  match n with
  | None => mret None
  | Some n => d ⇐ device n; mret (ChannelMap d ≫= fun m => m !! ch)
  end.

(** [strconv.Atoi] with its error dropped. *)
Definition Atoi_value (s : bytes) : Z :=
  match Atoi s with
  | Ok z => z
  | Err NumErrRange => match s with "-"%char :: _ => - 2 ^ 63 | _ => 2 ^ 63 - 1 end
  | _ => 0
  end.

Definition ssrc_of (startTime ch : bytes) : bytes :=
  (match startTime with [] => "0" | _ => "1" end) ++ FormatInt (srs ch).

Definition http_Invite (id ch startTime endTime : bytes) : M unit :=
  if streq id "" || streq ch "" then json (Fail "10001" "parameter error,(id,channel required)")
  else
    c ⇐ FindChannel id ch;
    match c with
    | None => json (Fail "11002" "device not online")
    | Some c =>
        x ⇐ channel c;
        if (invited x =? 1)%Z then json (Success "invited")
        else
          Bye2 c;;
          x ⇐ channel c;
          if (invited x =? 0)%Z then
            change_channel c (set_invited 1);;
            r ⇐ Invite c (Atoi_value startTime) (Atoi_value endTime) (ssrc_of startTime ch);
            match r with
            | Some (path, info) => AddChannelInfo ch info;; json (Success path)
            | None => change_channel c (set_invited 0);; json (Fail "11001" "invite failed")
            end
          else mret tt
    end.

Definition http_InviteWithoutBye (id ch startTime endTime : bytes) : M unit :=
  if streq id "" || streq ch "" then json (Fail "10001" "parameter error,(id,channel required)")
  else
    c ⇐ FindChannel id ch;
    match c with
    | None => json (Fail "11002" "device not online")
    | Some c =>
        r ⇐ Invite c (Atoi_value startTime) (Atoi_value endTime) (ssrc_of startTime ch);
        json (match r with Some (path, _) => Success path | None => Fail "11001" "invite failed" end)
    end.

Definition http_bye (send_bye : nat -> M bool) (id ch : bytes) : M unit :=
  c ⇐ FindChannel id ch;
  match c with
  | None => json (Fail "11002" "device not online")
  | Some c => ok ⇐ send_bye c; json (if ok : bool then Success "success" else Fail "11003" "send bye failed")
  end.

Definition http_Bye : bytes -> bytes -> M unit := http_bye Bye.
Definition http_Bye2 : bytes -> bytes -> M unit := http_bye Bye2.

Definition http_Query (id : bytes) : M unit :=
  finished ⇐ (if streq id "" then mret false
              else
                n ⇐ Get id;
                match n with
                | Some n => Query n;; json (Success "success");; mret true
                | None => json (Success "device not online");; mret false
                end);
  if finished : bool then mret tt else json (Success "id is null").

(** [AddSession]: the body as a device, when it is one. *)
Definition http_AddSession (body : option GatewayDevice) : M unit :=
  match body with
  | None => json (SuccessBool false)
  | Some d => n ⇐ new_device d; Store n (3600 * Second);; json (SuccessBool true)
  end.

End application.

End Gb28181.
