(* ===== verification/GbTheorems.v ===== *)
(** * What the GB28181 application guarantees: src/gb28181

    Registration, the session, the messages of devices, dialogs with channels,
    and where the code does not do what it means to. *)

From S2P Require Import Prelude GoStrings Escape Params Headers HeaderStore Message ParserCommon Packet Fsm Samples Auth AuthTheorems StreamProofs Transport TransportTheorems TxKeys Gb28181.
From stdpp Require Import options.
Import Params Headers HeaderStore Message Packet Auth Transport Gb28181.

Module GbTheorems.

#[local] Arguments session_key : simpl never.
#[local] Arguments channel_key : simpl never.
#[local] Arguments device_hash : simpl never.

(** ** Computations that leave the session alone *)

Section frames.

Context {R : Type} `{Redis R} `{World}.

Definition frames {A} (m : M (R:=R) A) : Prop := forall a, session (m a).2 = session a.

Lemma frames_bind {A B} (m : M A) (f : A -> M B) : frames m -> (forall x, frames (f x)) -> frames (mbind m f).
Proof using.
  intros Hm Hf a. unfold mbind. specialize (Hm a). destruct (m a) as [[x|] b]; cbn in *; [| done].
  by rewrite Hf.
Qed.

Lemma frames_ret {A} (x : A) : frames (mret x).
Proof using. done. Qed.
Lemma frames_panic {A} : frames (panic (A:=A)).
Proof using. done. Qed.
Lemma frames_get : frames get.
Proof using. done. Qed.
Lemma frames_modify f : (forall a, session (f a) = session a) -> frames (modify f).
Proof using. done. Qed.
Lemma frames_lift {A} (r : res A) : frames (lift r).
Proof using. by destruct r. Qed.
Lemma frames_deref {A} (o : option A) : frames (deref o).
Proof using. by destruct o. Qed.
Lemma frames_on_redis {A} (f : R -> A * R) : frames (on_redis f).
Proof using. done. Qed.
Lemma frames_RandString n : frames (RandString n).
Proof using. unfold RandString. apply frames_bind; [done | intros a]. by apply frames_bind. Qed.
Lemma frames_reply rq code rsn b : frames (reply rq code rsn b).
Proof using. apply frames_lift. Qed.
Lemma frames_challenge rq : frames (challenge rq).
Proof using.
  unfold challenge. apply frames_bind; [apply frames_RandString | intros nonce].
  apply frames_bind; [apply frames_reply | done].
Qed.
Lemma frames_user_of rq : frames (user_of rq).
Proof using.
  unfold user_of. apply frames_bind; [apply frames_deref | intros f].
  apply frames_bind; [apply frames_deref | intros [| |]; try done]. apply frames_lift.
Qed.
Lemma frames_add_device d : frames (add_device d).
Proof using. done. Qed.

End frames.

(** ** Registration *)

Section registration.

Context {R : Type} `{Redis R} `{World}.

Implicit Types (a b : app (R:=R)) (req : request).

Lemma Remove_session id a : session (Remove id a).2 = delete id (session a).
Proof using. done. Qed.

Lemma Store_session n e a d :
  devices a !! n = Some d -> exists b, Store n e a = (Some true, b) /\
    session b = <[DeviceID d := n]> (session a) /\ devices b = <[n := set_Expires e d]> (devices a) /\
    responded b = responded a /\ queries b = queries a /\ now b = now a.
Proof using.
  intros Hd. unfold Store, device, mbind at 1. cbn. rewrite Hd. cbn. by eexists.
Qed.

Lemma bind_run {A B} (m : M A) (f : A -> M B) a x b : m a = (Some x, b) -> mbind m f a = f x b.
Proof using. unfold mbind. by intros ->. Qed.

(** The device that a registration stores. *)
Definition registered (req : request) (id addr : bytes) (uri : Uri) (t : Z) (c : nat) : GatewayDevice :=
  mkDevice id (Uri_String uri) addr t (Fsm.wrap64 (expires_of req * Second)) (Some {[id := c]}) 1.

(** A registration that stores a device. *)
Lemma register_stores req id a addr r from uri :
  getSendAddr req = Ok addr -> NewResponseFromRequest uuid [] req 200 "OK" [] = Ok r ->
  From_ (hdrs (rq_msg req)) = Some from -> na_addr from = Some uri -> expires_of req <> 0%Z ->
  let n := next_cell a in
  exists b, register req id a = (Some r, b) /\ session b = <[id := n]> (session a) /\
    devices b !! n = Some (registered req id addr uri (now a) (S n)) /\
    (forall m, m <> n -> devices b !! m = devices a !! m) /\
    responded b = responded a /\ queries b = queries a ++ [n].
Proof using.
  intros Ha Hr Hf Hu He n. unfold register. rewrite Ha, Hf. rewrite (bind_run _ _ _ addr a) by done.
  rewrite (bind_run _ _ _ r a) by (unfold reply; by rewrite Hr). rewrite (bind_run _ _ _ from a) by done.
  destruct (Z.eqb_spec (expires_of req) 0) as [?|_]; [done |]. rewrite Hu, (bind_run _ _ _ uri a) by done.
  rewrite (bind_run _ _ _ a a) by done.
  set (d := mkDevice id (Uri_String uri) addr (now a) (expires_of req) (Some ∅) 1).
  rewrite (bind_run _ _ _ n (add_device d a).2) by done.
  destruct (Store_session n (Fsm.wrap64 (expires_of req * Second)) (add_device d a).2 (set_ChannelMap {[id := S n]} d))
    as (b & Hb & Hs & Hd & Hre & Hq & _); [cbn; by rewrite lookup_insert_eq |].
  rewrite (bind_run _ _ _ true b Hb). eexists. split; [done |]. cbn. rewrite Hs, Hd, Hre, Hq.
  split_and!; try done.
  - by rewrite lookup_insert_eq.
  - intros m Hm. rewrite lookup_insert_ne by done. cbn. by rewrite !lookup_insert_ne.
Qed.

(** A registration changes the entry of its own device, or nothing when it
    panics. *)
Lemma register_session req id a :
  session (register req id a).2 = session a \/ session (register req id a).2 = delete id (session a) \/
  exists n, session (register req id a).2 = <[id := n]> (session a).
Proof using.
  destruct (getSendAddr req) as [addr| |] eqn:Ea; [| by left; unfold register, mbind at 1; rewrite Ea..].
  destruct (NewResponseFromRequest uuid [] req 200 "OK" []) as [r| |] eqn:Er;
    [| left; unfold register; rewrite Ea, (bind_run _ _ _ addr a) by done;
       by unfold reply, mbind at 1; rewrite Er..].
  destruct (From_ (hdrs (rq_msg req))) as [from|] eqn:Ef;
    [| left; unfold register; rewrite Ea, Ef, (bind_run _ _ _ addr a) by done;
       by rewrite (bind_run _ _ _ r a) by (unfold reply; by rewrite Er)].
  destruct (Z.eqb_spec (expires_of req) 0) as [Ee|Ee].
  - right. left. unfold register. rewrite Ea, Ef, (bind_run _ _ _ addr a) by done.
    rewrite (bind_run _ _ _ r a) by (unfold reply; by rewrite Er). rewrite (bind_run _ _ _ from a) by done. by rewrite Ee.
  - destruct (na_addr from) as [uri|] eqn:Eu.
    + destruct (register_stores req id a addr r from uri) as (b & -> & Hs & _); [done.. |]. cbn. eauto.
    + left. unfold register. rewrite Ea, Ef, (bind_run _ _ _ addr a) by done.
      rewrite (bind_run _ _ _ r a) by (unfold reply; by rewrite Er). rewrite (bind_run _ _ _ from a) by done.
      rewrite (proj2 (Z.eqb_neq _ _) Ee). by rewrite Eu.
Qed.

Lemma user_of_state req a : (user_of req a).2 = a.
Proof using.
  unfold user_of, mbind. destruct (From_ _) as [f|]; [cbn | done]. destruct (na_addr f) as [[u| |]|]; try done. cbn.
  by destruct (MaybeString_String (FUser u)).
Qed.

Lemma both_method_run m req tx a :
  both_method m req tx a =
  (if streq (method req) m then match tx with Some o => Some (streq (method o) m) | None => None end else Some false, a).
Proof using. unfold both_method, mbind. destruct (streq (method req) m); [| done]. by destruct tx. Qed.

Lemma registration_session req a :
  session (registration req a).2 <> session a ->
  exists h id info, GetHeaders (hdrs (rq_msg req)) "Authorization" = [h] /\ (user_of req a).1 = Some id /\
    facade id = Some info /\ accepts (Header_Value h) (method req) (DeviceToken info) = true /\
    forall id', id' <> id -> session (registration req a).2 !! id' = session a !! id'.
Proof using.
  unfold registration. intros Hs. destruct (GetHeaders (hdrs (rq_msg req)) "Authorization") as [| h [|]] eqn:Eg.
  - destruct Hs. apply frames_bind; [apply frames_challenge | done].
  - destruct (user_of req a) as [[id|] a'] eqn:Eu; [| destruct Hs; unfold mbind; rewrite Eu; cbn; pose proof (user_of_state req a) as Hu; rewrite Eu in Hu; by cbn in Hu; subst].
    pose proof (user_of_state req a) as Hu. rewrite Eu in Hu. cbn in Hu. subst a'.
    rewrite (bind_run _ _ _ _ _ Eu) in Hs |- *.
    destruct (facade id) as [info|] eqn:Ef; [| destruct Hs; apply frames_bind; [apply frames_challenge | done]].
    destruct (accepts _ _ _) eqn:Ea; [| destruct Hs; apply frames_bind; [apply frames_challenge | done]].
    exists h, id, info. split_and!; try done. intros id' Hne.
    assert (session (mbind (register req id) (fun r => mret (Some r)) a).2 = session (register req id a).2) as ->
      by (unfold mbind; by destruct (register req id a) as [[]]).
    destruct (register_session req id a) as [->|[->|[n ->]]]; [done | by rewrite lookup_delete_ne | by rewrite lookup_insert_ne].
  - by destruct Hs.
Qed.

(** C30: A session is created, renewed or removed by a REGISTER only when it has one
    Authorization header whose digest is right for the token of its user; and then
    no other session is touched. *)
Theorem registration_needs_token req tx a :
  session (OnRegister req tx a) <> session a ->
  method req = "REGISTER" /\
  exists h id info, GetHeaders (hdrs (rq_msg req)) "Authorization" = [h] /\ (user_of req a).1 = Some id /\
    facade id = Some info /\ accepts (Header_Value h) "REGISTER" (DeviceToken info) = true /\
    forall id', id' <> id -> session (OnRegister req tx a) !! id' = session a !! id'.
Proof using.
  unfold OnRegister, recovered. intros Hs.
  destruct (both_method "REGISTER" req tx a) as [[[]|] a'] eqn:Eb; rewrite both_method_run in Eb;
    destruct (streq (method req) "REGISTER") eqn:Em; destruct tx as [o|]; simplify_eq/=;
    try (destruct Hs; unfold mbind at 1; rewrite both_method_run, Em; cbn; by rewrite ?H1).
  apply streq_eq in Em. split; [done |].
  assert (forall b, session (mbind (registration req) (fun r => mbind (deref r) respond) b).2 = session (registration req b).2) as Hf.
  { intros b. unfold mbind at 1. destruct (registration req b) as [[[r|]|] c]; done. }
  assert (both_method "REGISTER" req (Some o) a' = (Some true, a')) as Hb
    by (rewrite both_method_run, Em, streq_refl; by f_equal; f_equal).
  rewrite (bind_run _ _ _ _ _ Hb), Hf in Hs. rewrite (bind_run _ _ _ _ _ Hb).
  setoid_rewrite Hf. rewrite <- Em. by apply registration_session.
Qed.

(** ** The handshake *)

(** A REGISTER in its transaction. *)
Lemma OnRegister_run req o a :
  method req = "REGISTER" -> method o = "REGISTER" ->
  OnRegister req (Some o) a = (mbind (registration req) (fun r => mbind (deref r) respond) a).2.
Proof using.
  intros Hm Ho. unfold OnRegister, recovered. rewrite (bind_run _ _ _ true a); [done |].
  by rewrite both_method_run, Hm, Ho.
Qed.

Lemma RandString_run n a :
  RandString n a = (Some (Message.RandString n (rand (draws a))), set_draws (S (draws a)) a).
Proof using. done. Qed.

(** The challenge in a 401. *)
Lemma challenge_run req a r :
  NewResponseFromRequest uuid [] req 401 "Unauthorized" [] = Ok r ->
  exists value b, let contents := Auth_String (AuthFromValue value) in
    challenge req a =
    (Some (rs_map (fun m => with_hdrs m (AppendHeader (hdrs m) (HAuthenticate contents))) r), b) /\
    session b = session a /\ responded b = responded a /\ devices b = devices a.
Proof using.
  intros Hr. unfold challenge. eexists _, _. rewrite (bind_run _ _ _ _ _ (RandString_run 10 a)).
  rewrite (bind_run _ _ _ r _) by (unfold reply; by rewrite Hr). by split_and!.
Qed.

Lemma status_NewResponse id req code rsn text r :
  NewResponseFromRequest uuid id req code rsn text = Ok r -> status r = code.
Proof using.
  unfold NewResponseFromRequest. destruct (request_Transport req); cbn; [| done..].
  destruct (request_Destination req); cbn; [| done..]. destruct (request_Source req); cbn; [| done..]. by intros [= <-].
Qed.

Lemma user_of_run req a from u id :
  From_ (hdrs (rq_msg req)) = Some from -> na_addr from = Some (SipUriPtr u) -> FUser u = Some id ->
  user_of req a = (Some id, a).
Proof using. intros Hf Hu Hi. unfold user_of. rewrite Hf. cbn. rewrite Hu. cbn. by rewrite Hi. Qed.

(** A REGISTER whose credentials are right, with a lifetime, is answered 200 and
    leaves the device in the session with the address its answers go to. *)
Lemma accepted_stores req o a h from u id info addr r :
  method req = "REGISTER" -> method o = "REGISTER" ->
  GetHeaders (hdrs (rq_msg req)) "Authorization" = [h] ->
  From_ (hdrs (rq_msg req)) = Some from -> na_addr from = Some (SipUriPtr u) -> FUser u = Some id ->
  facade id = Some info -> accepts (Header_Value h) "REGISTER" (DeviceToken info) = true ->
  getSendAddr req = Ok addr -> NewResponseFromRequest uuid [] req 200 "OK" [] = Ok r -> expires_of req <> 0%Z ->
  let b := OnRegister req (Some o) a in
  let n := next_cell a in
  session b = <[id := n]> (session a) /\
  devices b !! n = Some (registered req id addr (SipUriPtr u) (now a) (S n)) /\
  responded b = responded a ++ [r] /\ queries b = queries a ++ [n].
Proof using.
  intros Hm Ho Hg Hf Hu Hi Hinfo Hacc Haddr Hr He b n. unfold b. rewrite (OnRegister_run _ _ _ Hm Ho).
  destruct (register_stores req id a addr r from (SipUriPtr u)) as (c & Hc & Hs & Hd & _ & Hre & Hq); [done.. |].
  assert (registration req a = (Some (Some r), c)) as Hreg.
  { unfold registration. rewrite Hg. rewrite (bind_run _ _ _ _ _ (user_of_run req a from u id Hf Hu Hi)).
    rewrite Hinfo, Hm, Hacc. by rewrite (bind_run _ _ _ _ _ Hc). }
  rewrite (bind_run _ _ _ _ _ Hreg). rewrite (bind_run _ _ _ r c) by done. cbn.
  split_and!; [exact Hs | exact Hd | by rewrite Hre | exact Hq].
Qed.

(** C31: Registration in two steps.  A REGISTER without credentials, for which a 401 can
    be built, is answered 401 with a challenge and changes no session.  Let its From be
    a SIP address whose user the device service knows, the user and the request URI be
    free of double quotes, its header section be well formed and its top Via, if any,
    have a set of parameters.  Then [AuthorizeRequest] makes a request of a 401 with
    that challenge, the user and the token; and if the address to send to can be read
    from that request ([getSendAddr] returns: a Via hop has received or rport, with
    values; else the handler panics), a 200 can be built from it and its Expires is
    not 0, it is answered 200 and stores the device under the user. *)
Theorem registration_handshake rq o a r0 rcpt from u id info rnd rs :
  wf_store (hdrs (rq_msg rq)) -> (forall hop, ViaHop_ (hdrs (rq_msg rq)) = Some hop -> vh_params hop <> None) ->
  method rq = "REGISTER" -> method o = "REGISTER" -> recipient rq = Some rcpt ->
  GetHeaders (hdrs (rq_msg rq)) "Authorization" = [] ->
  From_ (hdrs (rq_msg rq)) = Some from -> na_addr from = Some (SipUriPtr u) -> FUser u = Some id ->
  facade id = Some info -> AuthTheorems.no_quote id -> AuthTheorems.no_quote (Uri_String rcpt) ->
  NewResponseFromRequest uuid [] rq 401 "Unauthorized" [] = Ok r0 ->
  exists contents r1,
    responded (OnRegister rq (Some o) a) = responded a ++ [r1] /\ status r1 = 401%N /\
    (exists l, GetHeaders (hdrs (rs_msg r1)) "WWW-Authenticate" = l ++ [HAuthenticate contents]) /\
    session (OnRegister rq (Some o) a) = session a /\
    (status rs = 401%N -> GetHeaders (hdrs (rs_msg rs)) "WWW-Authenticate" = [HGeneric "WWW-Authenticate" contents] ->
     exists rq', AuthorizeRequest rnd rq rs (Some id) (Some (DeviceToken info)) = Ok rq' /\
       forall b addr r2, getSendAddr rq' = Ok addr -> NewResponseFromRequest uuid [] rq' 200 "OK" [] = Ok r2 ->
       expires_of rq' <> 0%Z ->
       let c := OnRegister rq' (Some o) b in
       responded c = responded b ++ [r2] /\ status r2 = 200%N /\
       exists n, session c = <[id := n]> (session b) /\
         devices c !! n = Some (registered rq' id addr (SipUriPtr u) (now b) (S n))).
Proof using.
  intros Hw Hv Hm Ho Hrc Hg Hf Hu Hi Hinfo Hq1 Hq2 Hr0.
  destruct (challenge_run rq a r0 Hr0) as (value & b0 & Hc & Hs & Hre & _).
  set (contents := Auth_String (AuthFromValue value)) in *.
  exists contents. eexists. rewrite (OnRegister_run _ _ _ Hm Ho).
  assert (registration rq a = (Some (Some (rs_map (fun m => with_hdrs m (AppendHeader (hdrs m) (HAuthenticate contents))) r0)), b0)) as Hreg
    by (unfold registration; rewrite Hg; by rewrite (bind_run _ _ _ _ _ Hc)).
  rewrite (bind_run _ _ _ _ _ Hreg), (bind_run _ _ _ _ b0) by done. cbn [respond modify snd add_response responded session].
  split_and!; [by rewrite Hre | by apply status_NewResponse in Hr0 | | done |].
  { exists (GetHeaders (hdrs (rs_msg r0)) "WWW-Authenticate"). unfold GetHeaders. cbn. by rewrite lookup_list_Append. }
  intros Hst Hwww.
  destruct (AuthTheorems.authorize_effects rnd rq rs id (Some (DeviceToken info)) contents rcpt) as (rq' & He & Hau).
  { split_and!; [done | by exists "WWW-Authenticate", []; rewrite Hst | done | by rewrite Hst; cbn; rewrite Hg | done]. }
  exists rq'. split; [done |]. destruct Hau as (Hm' & _ & _ & (k & Hk) & _ & _ & Hsame).
  intros b addr r2 Ha Hr2 Hex. rewrite Hst in Hk.
  assert (From_ (hdrs (rq_msg rq')) = Some from) as Hf'.
  { rewrite <- Hf. unfold From_, GetHeaders. rewrite Hsame; [done |]. rewrite Hst. by apply (bool_decide_unpack _). }
  destruct (accepted_stores rq' o b _ from u id info addr r2 ltac:(congruence) Ho Hk Hf' Hu Hi Hinfo) as (H1 & H2 & H3 & _); try done.
  - cbn [Header_Value]. rewrite <- Hm. apply AuthTheorems.accepts_answer; [done | done |].
    unfold contents.
    rewrite AuthTheorems.parse_printed by (apply AuthTheorems.printable_AuthFromValue). done.
  - split; [done |]. split; [by apply status_NewResponse in Hr2 |]. by exists (next_cell b).
Qed.

End registration.

(** ** The session *)

Lemma Atoi_FormatInt z : (- 2 ^ 63 <= z < 2 ^ 63)%Z -> Atoi (FormatInt z) = Ok z.
Proof.
  intros Hz. unfold FormatInt. destruct (Z.ltb_spec z 0).
  - unfold Atoi. cbn [Datatypes.app]. pose proof (show_N_nonempty (Z.abs_N z)). pose proof (show_N_digits (Z.abs_N z)) as Hd.
    destruct (show_N (Z.abs_N z)) eqn:E; [done |]. rewrite Hd. rewrite N2Z.inj_abs_N, Z.abs_neq, Z.opp_involutive by lia.
    rewrite (proj2 (Z.leb_le _ _)), (proj2 (Z.ltb_lt _ _)) by lia. done.
  - rewrite StreamProofs.Atoi_show by lia. by rewrite Z2N.id by lia.
Qed.

Section sessions.

Context {R : Type} `{Redis R} `{World}.

Implicit Types (a b : app (R:=R)) (d : GatewayDevice).

(** A device in the session stays there for ever, however long its registration
    has been over: the test adds the age of the registration to its lifetime
    instead of comparing the two. *)
Theorem session_never_expires id n d a :
  session a !! id = Some n -> devices a !! n = Some d ->
  (0 <= lag <= Expires d)%Z -> (RegisterTime d <= now a)%Z ->
  Get id a = (Some (Some n), a).
Proof using.
  intros Hs Hd Hl Ht. unfold Get. rewrite (bind_run _ _ _ a a) by done. rewrite Hs.
  rewrite (bind_run _ _ _ d a) by (unfold device, mbind; cbn; by rewrite Hd).
  assert (alive (now a) d = true) as ->; [| done].
  unfold alive, Milliseconds, Millisecond. apply Z.leb_le.
  assert (0 <= Z.quot (now a - RegisterTime d) 1000000)%Z by (apply Z.quot_pos; lia).
  assert (Z.quot lag 1000000 <= Z.quot (Expires d) 1000000)%Z by (apply Z.quot_le_mono; lia). lia.
Qed.

(** A device as it comes back from its hash: to the millisecond, without its
    channels. *)
Definition recovered_device d : GatewayDevice :=
  mkDevice (DeviceID d) (d_From d) (d_Addr d) (UnixMilli (to_UnixMilli (RegisterTime d))) (Expires d) (Some ∅) 1.

Definition storable d : Prop :=
  (- 2 ^ 63 <= to_UnixMilli (RegisterTime d) < 2 ^ 63)%Z /\ (- 2 ^ 63 <= Expires d < 2 ^ 63)%Z.

Lemma session_device_hash d (m : gmap (list ascii) bytes) :
  storable d -> (forall f v, (f, v) ∈ device_hash d -> m !! f = Some v) -> m !! ("CSeq" : bytes) = None ->
  session_device (DeviceID d) m = Some (recovered_device d).
Proof using.
  intros [Ht He] Hm Hc. unfold session_device.
  rewrite (Hm "from" (d_From d)), (Hm "send" (d_Addr d)), (Hm "rt" (FormatInt (to_UnixMilli (RegisterTime d)))),
    (Hm "exp" (FormatInt (Expires d))) by (unfold device_hash; set_solver).
  by rewrite !Atoi_FormatInt, Hc by done.
Qed.

Lemma hash_lookup d f v : (f, v) ∈ device_hash d -> (list_to_map (device_hash d) : gmap (list ascii) bytes) !! f = Some v.
Proof using.
  intros Hin. apply elem_of_list_to_map; [| done]. by apply (bool_decide_unpack _).
Qed.

(** A stored session survives a restart: what [Store] writes to Redis is read back
    as the same device, and what [GetRoute] looks for is not among it. *)
Theorem session_survives_restart `{!RedisLaws R} n e a d :
  devices a !! n = Some d -> storable (set_Expires e d) ->
  (HSet (session_key (DeviceID d)) (device_hash (set_Expires e d)) (redis a)).1 = true ->
  HGetAll (session_key (DeviceID d)) (redis a) !! ("CSeq" : bytes) = None ->
  HGetAll (session_key (DeviceID d)) (redis a) !! ("Addr" : bytes) = None ->
  exists b, Store n e a = (Some true, b) /\
    session_device (DeviceID d) (HGetAll (session_key (DeviceID d)) (redis b)) = Some (recovered_device (set_Expires e d)) /\
    (GetRoute (DeviceID d) b).1 = Some [].
Proof using.
  intros Hd Hs Hok Hc Hadr. unfold Store, device. unfold mbind at 1 2. cbn. rewrite Hd. cbn.
  eexists. split; [done |]. cbn. set (d' := set_Expires e d) in *.
  destruct (HSet (session_key (DeviceID d)) (device_hash d') (redis a)) as [ok r'] eqn:E. cbn in Hok |- *. subst ok.
  pose proof (HGetAll_HSet _ _ _ _ _ E (session_key (DeviceID d))) as Hall.
  rewrite bool_decide_true in Hall by done. cbn in Hall.
  change (DeviceID d) with (DeviceID d') at 1. split.
  - change (session_key (DeviceID d')) with (session_key (DeviceID d)). rewrite Hall. apply session_device_hash; [done | |].
    + intros f v Hin. by rewrite (lookup_union_Some_l _ _ _ _ (hash_lookup _ _ _ Hin)).
    + rewrite lookup_union_r; [done |]. by apply not_elem_of_list_to_map_1, (bool_decide_unpack _).
  - destruct (HGet (session_key (DeviceID d)) "Addr" r') as [v|] eqn:Eg; [| done].
    apply HGet_HGetAll in Eg. rewrite Hall, lookup_union_r, Hadr in Eg; [by subst v |].
    by apply not_elem_of_list_to_map_1, (bool_decide_unpack _).
Qed.

End sessions.

(** ** The address of a device *)

Lemma scan_one h ps received rport hop :
  vh_params h = Some ps -> Params.Get ps "received" <> Some None -> Params.Get ps "rport" <> Some None ->
  scan_hops [h] received rport hop =
  Ok (match Params.Get ps "received" with Some (Some v) => v | _ => received end,
      match Params.Get ps "rport" with Some (Some v) => v | _ => rport end,
      if Has ps "received" || Has ps "rport" then Some h else hop).
Proof.
  intros Hp Hr Hq. cbn. rewrite Hp. cbn.
  assert (forall k, Has ps k = isSome (Params.Get ps k)) as Hh by (intros k; unfold Has, Params.Get; by destruct (params ps !! k)).
  rewrite !Hh. destruct (Params.Get ps "received") as [[v|]|], (Params.Get ps "rport") as [[w|]|]; done.
Qed.

Lemma Params_Get_Add ps k k' v : Params.Get (Params.Add ps k v) k' = if decide (k = k') then Some v else Params.Get ps k'.
Proof.
  unfold Params.Get, Params.Add. destruct (params ps !! k); cbn; (case_decide as E;
    [subst; by rewrite lookup_insert_eq | by rewrite lookup_insert_ne]).
Qed.

(** What the transport leaves in the parameters of the only Via hop. *)
Lemma received_Get rhost rport hop ps :
  let ps' := received_params rhost rport hop ps in
  Params.Get ps' "received" =
    (if negb (streq rhost "") && negb (streq rhost (Host hop)) then Some (Some rhost) else Params.Get ps "received") /\
  Params.Get ps' "rport" = (if Has ps "rport" then Some (Some rport) else Params.Get ps "rport").
Proof.
  unfold received_params. set (q := if _ && _ then _ else _).
  assert (Has q "rport" = Has ps "rport") as Hq by (subst q; destruct (_ && _); by rewrite ?TransportTheorems.Has_Add).
  assert (Params.Get q "rport" = Params.Get ps "rport") as Hg by (subst q; destruct (_ && _); by rewrite ?Params_Get_Add).
  assert (Params.Get q "received" = if negb (streq rhost "") && negb (streq rhost (Host hop)) then Some (Some rhost)
                                    else Params.Get ps "received") as Hr by (subst q; destruct (_ && _); by rewrite ?Params_Get_Add).
  rewrite Hq. destruct (Has ps "rport"); rewrite ?Params_Get_Add; cbn; by rewrite ?Hr, ?Hg.
Qed.

(** A device that asks for rport is reached at the address its REGISTER came
    from; one that does not, and whose Via names its own address, makes
    [getSendAddr] panic. *)
Theorem send_addr_is_source network streamed laddr rhost rport rq hop ps :
  TransportTheorems.plain_host rhost = true -> rhost <> [] -> (0 < rport < 2 ^ 16)%N ->
  Via (hdrs (rq_msg rq)) = Some [hop] -> vh_params hop = Some ps -> Params.Get ps "received" = None ->
  exists rq',
    Transport.handleMessage network streamed laddr (rhost ++ ":" ++ show_N rport) (MRequest rq)
      = Ok (Some (MRequest rq')) /\
    (Has ps "rport" = true -> getSendAddr rq' = Ok (rhost ++ ":" ++ show_N rport)) /\
    (Has ps "rport" = false -> rhost = Host hop -> getSendAddr rq' = Panic).
Proof.
  intros Hh Hne Hp Hv Hps Hrc. unfold Transport.handleMessage.
  rewrite TransportTheorems.SplitHostPort_plain by auto using show_N_all_digits. cbn [Packet.msg_map].
  assert (ViaHop_ (hdrs (rq_msg rq)) = Some hop) as Hv' by (unfold ViaHop_; by rewrite Hv).
  cbn [rq_map rq_msg hdrs SetDestination]. rewrite Hv', Hps. eexists. split; [reflexivity |].
  set (rq' := rq_map _ _). set (ps' := received_params rhost (show_N rport) hop ps).
  assert (Via (hdrs (rq_msg rq')) = Some [with_hop_params ps' hop]) as Hvia.
  { unfold Via, GetHeaders in *.
    change (hdrs (rq_msg rq')) with (update_first (hdrs (rq_msg rq)) "Via" (update_hop (with_hop_params ps'))).
    rewrite lookup_update_first, decide_True by done.
    destruct (lookup_list (hdrs (rq_msg rq)) (ToLower "Via")) as [| [] ?]; try done. by injection Hv as ->. }
  destruct (received_Get rhost (show_N rport) hop ps) as [Hg1 Hg2]. fold ps' in Hg1, Hg2.
  assert (streq rhost "" = false) as Hre by (by apply streq_neq). rewrite Hre, Hrc in Hg1. cbn in Hg1.
  assert (forall k, Has ps' k = isSome (Params.Get ps' k)) as Hhas
    by (intros k; unfold Has, Params.Get; by destruct (params ps' !! k)).
  split.
  - intros Hr. rewrite Hr in Hg2. unfold getSendAddr. rewrite Hvia. cbn [from_option id].
    rewrite (scan_one _ ps') by (first [done | rewrite Hg2; congruence | rewrite Hg1; destruct (streq rhost (Host hop)); cbn; congruence]).
    rewrite !Hhas, Hg1, Hg2, orb_true_r. cbn.
    assert (forall n, show_N rport = show_N n -> rport = n) as Hinj.
    { intros n E. pose proof (show_N_digits rport) as H1. rewrite E, show_N_digits in H1. by injection H1. }
    assert (streq (show_N rport) "" = false) as -> by (apply streq_neq, show_N_nonempty).
    assert (streq (show_N rport) "0" = false) as ->.
    { apply streq_neq. intros E. specialize (Hinj 0%N E). lia. }
    assert (streq (show_N rport) "-1" = false) as ->.
    { apply streq_neq. intros E. pose proof (show_N_all_digits rport) as H1. by rewrite E in H1. }
    cbn. destruct (streq rhost (Host hop)) eqn:Eh; cbn; [apply streq_eq in Eh; by rewrite Eh | by rewrite Hre].
  - intros Hr ->. rewrite streq_refl in Hg1. cbn in Hg1. rewrite Hr in Hg2.
    assert (Params.Get ps "rport" = None) as Hn.
    { unfold Has in Hr. unfold Params.Get. by destruct (params ps !! _). }
    unfold getSendAddr. rewrite Hvia. cbn [from_option id]. rewrite (scan_one _ ps') by (by rewrite ?Hg1, ?Hg2, ?Hn).
    by rewrite !Hhas, Hg1, Hg2, Hn.
Qed.

(** ** Recovery *)

Section recovery.

Context {R : Type} `{Redis R} `{World}.

Implicit Types (a b : app (R:=R)).

Lemma bind_panic {A B} (m : M A) (f : A -> M B) a : (m a).1 = None -> (mbind m f a).1 = None.
Proof using. unfold mbind. destruct (m a) as [[x|] b]; [done |]. done. Qed.

Lemma bind_panic_r {A B} (m : M A) (f : A -> M B) a : (forall x b, (f x b).1 = None) -> (mbind m f a).1 = None.
Proof using. unfold mbind. intros Hf. by destruct (m a) as [[x|] b]. Qed.

(** A key shorter than the prefix panics. *)
Lemma add_sessions_short keys remove a :
  Exists (fun key => length key < 5) keys -> (add_sessions keys remove a).1 = None.
Proof using.
  intros Hk. revert remove a. induction Hk as [key keys Hk | key keys _ IH]; intros remove a; cbn [add_sessions].
  - rewrite (bind_run _ _ _ a a) by done. apply bind_panic. by rewrite (proj2 (Nat.leb_gt _ _)) by lia.
  - rewrite (bind_run _ _ _ a a) by done. apply bind_panic_r. intros id b. apply bind_panic_r. intros ok c. apply IH.
Qed.

(** Behind the length of a slice there are empty keys. *)
Lemma slice_beyond cap start stop keys sub :
  length keys < stop -> start <= length keys -> slice cap start stop keys = Ok sub -> [] ∈ sub.
Proof using.
  intros Hl Hs. unfold slice. destruct (Nat.leb_spec start stop); [| done].
  destruct (Nat.leb_spec stop cap); [| done]. cbn. intros [= <-].
  apply list_elem_of_lookup. exists (length keys - start).
  rewrite lookup_take_lt by lia. rewrite lookup_drop, lookup_app_r by lia.
  apply lookup_replicate. split; [done | lia].
Qed.

Lemma handleData_beyond cap start stop keys a :
  length keys < stop -> start <= length keys -> (handleData true cap start stop keys a).1 = None.
Proof using.
  intros Hl Hs. unfold handleData. destruct (slice cap start stop keys) as [sub| |] eqn:E; [| done | done].
  rewrite (bind_run _ _ _ sub a) by done. apply bind_panic, add_sessions_short, Exists_exists.
  exists []. split; [by eapply slice_beyond | cbn; lia].
Qed.

Lemma recover_block ok cap keys starts start a :
  start ∈ starts -> (forall b, ((if length keys <? start + 50 then handleData ok cap start (length keys) keys
                                 else handleData ok cap start (start + 500) keys) b).1 = None) ->
  (recover_from ok cap keys starts a).1 = None.
Proof using.
  intros Hin Hp. revert a. induction starts as [| x starts IH]; intros a; [set_solver |]. cbn.
  apply elem_of_cons in Hin as [<- | Hin]; [by apply bind_panic, Hp |]. apply bind_panic_r. intros _ b. by apply IH.
Qed.

(** With fifty sessions or more in Redis the recovery after a restart always
    panics: a block of fifty keys is sliced with a length of five hundred. *)
Theorem recover_panics cap keys a : 50 <= length keys -> (Recover true cap keys a).1 = None.
Proof using.
  intros Hl. unfold Recover. set (k := length keys / 50).
  assert (50 * k <= length keys < 50 * k + 50) as Hk.
  { pose proof (Nat.div_mod_eq (length keys) 50). pose proof (Nat.mod_upper_bound (length keys) 50). lia. }
  apply (recover_block _ _ _ _ (50 * (k - 1))).
  - apply list_elem_of_In, in_map, in_seq. split; [lia |].
    assert (k <= (length keys + 49) / 50) by (apply Nat.div_le_mono; lia). lia.
  - intros b. rewrite (proj2 (Nat.ltb_ge _ _)) by lia. apply handleData_beyond; lia.
Qed.

(** ** Requests of devices *)

(** The handler of ACK never does anything: an ACK has no transaction. *)
Theorem ack_ignored req a : OnAck req None a = a.
Proof using. unfold OnAck, recovered, mbind. rewrite both_method_run. by destruct (streq (method req) ACK). Qed.

(** A message that was handled is answered twice. *)
Theorem message_answered_twice req o id n a b r :
  method req = "MESSAGE" -> method o = "MESSAGE" -> (user_of req a).1 = Some id -> Get id a = (Some (Some n), a) ->
  ContentType (hdrs (rq_msg req)) = Some "Application/MANSCDP+xml" ->
  handleMessage (decode_body (body (rq_msg req))) n a = (Some true, b) ->
  NewResponseFromRequest uuid [] req 200 "OK" [] = Ok r ->
  responded (OnMessage req (Some o) a) = responded b ++ [r; r].
Proof using.
  intros Hm Ho Hu Hg Ht Hh Hr. unfold OnMessage, recovered.
  rewrite (bind_run _ _ _ true a) by (by rewrite both_method_run, Hm, Ho).
  rewrite (bind_run _ _ _ id a) by (pose proof (user_of_state req a); destruct (user_of req a); by cbn in *; subst).
  rewrite (bind_run _ _ _ _ _ Hg), Ht. cbn [streq]. rewrite streq_refl.
  rewrite (bind_run _ _ _ r (add_response r b)); [cbn; by rewrite <- app_assoc |].
  rewrite (bind_run _ _ _ _ _ Hh). by rewrite (bind_run _ _ _ r b) by (unfold reply; by rewrite Hr).
Qed.

(** A query for a device that is not online is answered twice. *)
Theorem offline_query_answered_twice id a :
  id <> [] -> session a !! id = None ->
  answered (http_Query id a).2 = answered a ++ [Success "device not online"; Success "id is null"].
Proof using.
  intros Hi Hs. unfold http_Query. assert (streq id "" = false) as -> by (by apply streq_neq).
  assert (Get id a = (Some None, a)) as Hg by (unfold Get; rewrite (bind_run _ _ _ a a) by done; by rewrite Hs).
  rewrite (bind_run _ _ _ false (add_answer (Success "device not online") a));
    [cbn; by rewrite <- app_assoc | by rewrite (bind_run _ _ _ _ _ Hg)].
Qed.

End recovery.

(** ** Dialogs with a channel *)

Section dialogs.

Context {R : Type} `{Redis R} `{World}.

Implicit Types (a b : app (R:=R)).

(** The parts of the state that a change of one device leaves alone. *)
Definition same_rest a b : Prop :=
  requested b = requested a /\ channels b = channels a /\ channelCache b = channelCache a /\ session b = session a.

Lemma cSeqIncr_run n d a :
  devices a !! n = Some d ->
  exists b q, cSeqIncr n a = (Some tt, b) /\ devices b !! n = Some (set_CSeq q d) /\ same_rest a b.
Proof using.
  intros Hd. unfold cSeqIncr. rewrite (bind_run _ _ _ d a) by (unfold device, mbind; cbn; by rewrite Hd).
  set (x := HIncrBy (session_key (DeviceID d)) "CSeq" 1 (redis a)).
  rewrite (bind_run _ _ _ x.1 (set_redis x.2 a)) by done. destruct x.1 as [v|].
  - eexists _, _. split; [done |]. cbn. rewrite lookup_insert_eq. by split_and!.
  - exists (set_redis x.2 a), (d_CSeq d). split; [done |]. cbn. rewrite Hd. split; [by destruct d | by split_and!].
Qed.

Lemma device_run n d a : devices a !! n = Some d -> device n a = (Some d, a).
Proof using. intros Hd. unfold device, mbind. cbn. by rewrite Hd. Qed.

(** The request that [bye] sends. *)
Definition bye_request (id branch : bytes) (q : N) (u : SipUri) (addr : bytes) (hs : list Header) : request :=
  rq_map (fun x => SetDestination x addr)
    (NewRequest uuid id "BYE" (Some (SipUriPtr u)) "SIP/2.0"
       ([HCSeq q "BYE"; HMaxForwards 70] ++ hs ++ [own_via branch]) []).

Lemma bye_run n d u hs a :
  devices a !! n = Some d -> ParserCommon.ParseSipUri (d_From d) = Ok u ->
  exists b id branch q, requested (bye n hs a).2 = requested b ++ [bye_request id branch q u (d_Addr d) hs] /\
    requested b = requested a /\ channels (bye n hs a).2 = channels a /\ channelCache (bye n hs a).2 = channelCache a.
Proof using.
  intros Hd Hu. unfold bye. rewrite (bind_run _ _ _ _ _ (device_run n d a Hd)).
  rewrite (bind_run _ _ _ u a) by (unfold GetRecipient; by rewrite Hu).
  destruct (cSeqIncr_run n d a Hd) as (b & q & Hb & Hd' & Hr & Hc & Hcc & _). rewrite (bind_run _ _ _ _ _ Hb).
  rewrite (bind_run _ _ _ _ _ (RandString_run 8 b)).
  rewrite (bind_run _ _ _ _ _ (device_run n _ (set_draws _ b) Hd')).
  eexists b, _, _, q. split; [reflexivity |]. by cbn; rewrite Hc, Hcc.
Qed.

(** The dialog identifier of the BYE. *)
Lemma bye_dialog id branch q u addr callId fTag tTag au :
  let rq := bye_request id branch q u addr
              [HCallID callId; HFrom (mkNameAddr None (Some own_uri) (with_tag fTag));
               HTo (mkNameAddr None au (with_tag tTag))] in
  MakeDialogIDFromMessage (hdrs (rq_msg rq)) = Ok (MakeDialogID callId tTag fTag).
Proof using. reflexivity. Qed.

(** The BYE that ends a channel's stream is sent once, to the device, in the dialog
    that was kept for the channel, which is forgotten then. *)
Theorem bye_ends_dialog c ch i d u a :
  channels a !! c = Some ch -> channelCache a !! ChannelID ch = Some i ->
  devices a !! c_device ch = Some d -> ParserCommon.ParseSipUri (d_From d) = Ok u ->
  let b := (Bye2 c a).2 in
  channelCache b = delete (ChannelID ch) (channelCache a) /\ invited <$> channels b !! c = Some 0%Z /\
  exists rq, requested b = requested a ++ [rq] /\ method rq = "BYE" /\ dest (rq_msg rq) = d_Addr d /\
    recipient rq = Some (SipUriPtr u) /\
    MakeDialogIDFromMessage (hdrs (rq_msg rq)) = Ok (MakeDialogID (CallId i) (TTag i) (FTag i)).
Proof using.
  intros Hc Hi Hd Hu b. unfold b, Bye2.
  set (a1 := set_channels (<[c := set_invited 0 ch]> (channels a)) a).
  rewrite (bind_run _ _ _ tt a1) by (unfold change_channel, channel, mbind; cbn; by rewrite Hc).
  rewrite (bind_run _ _ _ (set_invited 0 ch) a1) by (unfold channel, mbind; cbn; by rewrite lookup_insert_eq).
  set (a2 := set_cache (delete (ChannelID ch) (channelCache a)) a1).
  set (a3 := set_redis (Del (channel_key (ChannelID ch)) (redis a)).2 a2).
  rewrite (bind_run _ _ _ (Some i) a3) by (unfold GetAndDelChannelInfo, mbind; cbn; by rewrite Hi).
  rewrite (bind_run _ _ _ _ _ (device_run (c_device (set_invited 0 ch)) d a3 Hd)).
  rewrite (bind_run _ _ _ u a3) by (unfold GetRecipient; by rewrite Hu).
  set (hs := [_; _; _] : list Header).
  destruct (bye_run (c_device (set_invited 0 ch)) d u hs a3) as (b1 & id & branch & q & Hr & Hr1 & Hch & Hcc); [exact Hd | done |].
  rewrite Hch, Hcc. split; [done |]. split; [cbn; by rewrite lookup_insert_eq |].
  eexists. split; [rewrite Hr, Hr1; reflexivity |]. split_and!; try done; apply bye_dialog.
Qed.

Lemma bind_inv {A B} (m : M A) (f : A -> M B) a y c :
  mbind m f a = (Some y, c) -> exists x b, m a = (Some x, b) /\ f x b = (Some y, c).
Proof using. unfold mbind. destruct (m a) as [[x|] b]; [by eauto | done]. Qed.

Lemma deref_inv {A} (o : option A) a x b : deref o a = (Some x, b) -> o = Some x /\ b = a.
Proof using. destruct o; cbn; [by intros [= -> ->] | done]. Qed.

Lemma lift_inv {A} (r : res A) a x b : lift r a = (Some x, b) -> r = Ok x /\ b = a.
Proof using. destruct r; cbn; [by intros [= -> ->] | done | done]. Qed.

Lemma get_tag_inv x a v b : get_tag x a = (Some v, b) -> b = a /\ exists ps, na_params x = Some ps /\ v = default None (Params.Get ps "tag").
Proof using.
  unfold get_tag. intros (ps & c & [Hp ->]%deref_inv & [= <- <-])%bind_inv. by eauto.
Qed.

(** An INVITE that succeeds was answered 200, and gives back the dialog of the
    answer. *)
Theorem invite_dialog c start stop ssrc a b path i :
  Invite c start stop ssrc a = (Some (Some (path, i)), b) ->
  exists rq r k, ask k rq = Some r /\ method rq = INVITE /\ status r = 200%N /\
    MakeDialogIDFromMessage (hdrs (rs_msg r)) = Ok (MakeDialogID (CallId i) (TTag i) (FTag i)).
Proof using.
  unfold Invite. intros (ch & a1 & _ & (d & a2 & _ & (u & a3 & _ & (hs & a4 & _ & (rq & a5 & Hrq & (r & a6 & Hr & Hrest)%bind_inv)%bind_inv)%bind_inv)%bind_inv)%bind_inv)%bind_inv.
  assert (method rq = INVITE) as Hm by (revert Hrq; by intros [= <- _]).
  assert (r = ask (length (requested a5)) rq) as -> by (revert Hr; by intros [= <- _]).
  destruct (ask (length (requested a5)) rq) as [r|] eqn:Er; [| done].
  destruct (N.eqb_spec (status r) 200) as [Hs|]; [| done].
  apply bind_inv in Hrest as (callID & b1 & [Hc ->]%deref_inv & (? & b2 & _ & (from & b3 & [Hf ->]%deref_inv & (ft & b4 & (-> & ps & Hp & ->)%get_tag_inv & Hrest)%bind_inv)%bind_inv)%bind_inv).
  apply bind_inv in Hrest as (? & b5 & _ & (to & b6 & [Ht ->]%deref_inv & (tt' & b7 & (-> & ps' & Hp' & ->)%get_tag_inv & Hrest)%bind_inv)%bind_inv).
  apply bind_inv in Hrest as (? & b8 & _ & (fTag & b9 & [Hft ->]%lift_inv & (tTag & b10 & [Htt ->]%lift_inv & [= <- <- _])%bind_inv)%bind_inv).
  exists rq, r, (length (requested a5)). split_and!; try done.
  unfold MakeDialogIDFromMessage, tag_of. rewrite Hc, Ht, Hf, Hp, Hp'.
  destruct (Params.Get ps "tag") as [[f|]|]; [| done | done]. destruct (Params.Get ps' "tag") as [[t|]|]; [| done | done].
  cbn in *. by simplify_eq.
Qed.

(** A catalog makes every channel look as if it had a dialog: without one in
    Redis, an empty one is kept, and the next invitation of the channel sends a BYE
    with an empty Call-ID first. *)
Theorem catalog_invents_dialog `{!RedisLaws R} n d m id more a l :
  devices a !! n = Some d -> ChannelMap d = Some m ->
  HGetAll (channel_key id) (redis a) = ∅ -> HMGet (channel_key id) ["callId"; "fTag"; "tTag"] (redis a) = Some l ->
  let b := (UpdateChannels n [(id, more)] a).2 in
  channelCache b !! id = Some (mkInfo [] [] []).
Proof using.
  intros Hd Hm Hr Hl b. unfold b. cbn [UpdateChannels].
  assert (GetChannelInfo id a = (Some (Some (mkInfo [] [] [])), a)) as Hg.
  { unfold GetChannelInfo, mbind. cbn. rewrite Hl. apply HMGet_HGetAll in Hl. rewrite Hr in Hl. cbn in Hl. by rewrite Hl. }
  rewrite (bind_run _ _ _ _ _ Hg). set (a1 := set_cache (<[id := mkInfo [] [] []]> (channelCache a)) a).
  rewrite (bind_run _ _ _ tt a1) by done. rewrite (bind_run _ _ _ _ _ (device_run n d a1 Hd)).
  rewrite Hm. rewrite (bind_run _ _ _ m a1) by done. cbn. by rewrite lookup_insert_eq.
Qed.

Lemma RandString_nonempty n rnd : n <> 0 -> rnd <> [] -> Message.RandString n rnd <> [].
Proof using. by destruct n, rnd. Qed.

(** A query asks the device at its own address, in a new client transaction: its
    headers are complete, and its branch is one the transaction layer takes for
    the key. *)
Theorem query_starts_transaction n d u a :
  devices a !! n = Some d -> ParserCommon.ParseSipUri (d_From d) = Ok u -> (forall k, rand k <> []) ->
  exists rq branch q, requested (Query n a).2 = requested a ++ [rq] /\ method rq = "MESSAGE" /\
    dest (rq_msg rq) = d_Addr d /\ recipient rq = Some (SipUriPtr u) /\ body (rq_msg rq) = query_body q (DeviceID d) /\
    CSeq (hdrs (rq_msg rq)) = Some (q, "MESSAGE" : RequestMethod) /\ is_Some (CallID (hdrs (rq_msg rq))) /\
    TxKeys.MakeClientTxKey (hdrs (rq_msg rq)) = Ok (Join [branch; "MESSAGE"] TxKeys.sep).
Proof using.
  intros Hd Hu Hrand. unfold Query. rewrite (bind_run _ _ _ _ _ (device_run n d a Hd)).
  rewrite (bind_run _ _ _ u a) by (unfold GetRecipient; by rewrite Hu).
  destruct (cSeqIncr_run n d a Hd) as (b & q & Hb & Hd' & Hr & _).
  set (b3 := set_draws (3 + draws b) b).
  assert (exists hs, GetSipHeaders n "MESSAGE" a = (Some hs, b3) /\
    exists callId tag branch, hs = [HCSeq q "MESSAGE"; HMaxForwards 70; HCallID callId;
       HFrom (mkNameAddr None (Some own_uri) (with_tag tag)); HTo (mkNameAddr None (Some (SipUriPtr u)) None);
       own_via (RFC3261BranchMagicCookie ++ branch)] /\ branch <> []) as (hs & Hhs & callId & tag & branch & -> & Hne).
  { unfold GetSipHeaders. rewrite (bind_run _ _ _ _ _ Hb). do 3 rewrite (bind_run _ _ _ _ _ (RandString_run _ _)).
    rewrite (bind_run _ _ _ _ _ (device_run n _ b3 Hd')).
    rewrite (bind_run _ _ _ u b3) by (unfold GetRecipient; cbn; by rewrite Hu).
    eexists. split; [done |]. eexists _, _, _. split; [done |]. by apply RandString_nonempty. }
  rewrite (bind_run _ _ _ _ _ Hhs). rewrite (bind_run _ _ _ _ _ (device_run n _ b3 Hd')).
  eexists _, (RFC3261BranchMagicCookie ++ branch), q. split; [cbn; rewrite Hr; reflexivity |].
  destruct branch as [| x branch]; [done |]. split_and!; try reflexivity. by eexists.
Qed.

End dialogs.

(** ** A concrete application *)

(** A device service that knows Alice, and devices that answer nothing. *)
#[local] Instance sample_world : World := {|
  SC := NewDefaultSipConfig;
  rand := fun _ => "random-bytes-of-a-test";
  uuid := "u9";
  outbound := "10.0.0.1:8080";
  facade := fun id => if streq id "alice" then Some (mkDeviceInfo "secret") else None;
  srs := fun _ => 7%Z;
  decode := fun _ => (mkSipMessage "Response" "Catalog" [], true);
  gbk_decode := fun _ => (mkSipMessage [] [] [], false);
  partial_uri := fun _ => mkSipUri false None None [] None None None;
  lag := 0%Z;
  ask := fun _ _ => None
|}.

Definition empty_app : app (R:=memory) := mkApp ∅ ∅ ∅ 0 ∅ ∅ 1000 0 [] [] [] [].

(** Alice's REGISTER as the transport passes it up, without and with credentials. *)
Definition received_register : request :=
  NewRequest "u0" "m0" "REGISTER" (Some (Samples.sip_uri "registrar" "biloxi.com")) "SIP/2.0"
    [HVia [mkViaHop "SIP" "2.0" "UDP" "10.1.1.7" (Some 5066%N)
             (Some (Add (Add (Add NewParams "branch" (Some "z9hG4bK776asdhds")) "received" (Some "192.0.2.7"))
                      "rport" (Some "40000")))];
     HFrom (mkNameAddr (Some "Alice") (Some (Samples.sip_uri "alice" "atlanta.com")) (Samples.tag "1928301774"));
     HTo (mkNameAddr None (Some (Samples.sip_uri "alice" "atlanta.com")) (Some NewParams));
     HCallID "a84b4c76e66710"; HCSeq 1 "REGISTER"; HMaxForwards 70; HExpires 3600] [].

Definition device_challenge : response :=
  rs_map (fun m => with_hdrs m (AppendHeader (hdrs m)
            (HGeneric "WWW-Authenticate" (AuthTheorems.quoted_challenge ""))))
    (Samples.sample_response received_register 401 "Unauthorized").

Definition authorized_register : request :=
  match AuthorizeRequest "rnd" received_register device_challenge (Some "alice") (Some "secret") with
  | Ok rq => rq
  | _ => received_register
  end.

Lemma alice_registered :
  session (OnRegister authorized_register (Some authorized_register) empty_app) !! ("alice" : bytes) = Some 0.
Proof. vm_compute. reflexivity. Qed.

Lemma alice_changes_session :
  session (OnRegister authorized_register (Some authorized_register) empty_app) <> session empty_app.
Proof.
  pose proof alice_registered as Ha. revert Ha. generalize (session (OnRegister authorized_register (Some authorized_register) empty_app)).
  intros m Hm ->. discriminate Hm.
Qed.

Lemma registration_needs_token_witness :
  exists h id info, GetHeaders (hdrs (rq_msg authorized_register)) "Authorization" = [h] /\
    (user_of authorized_register empty_app).1 = Some id /\ facade id = Some info /\
    accepts (Header_Value h) "REGISTER" (DeviceToken info) = true.
Proof.
  destruct (registration_needs_token authorized_register (Some authorized_register) empty_app) as [_ (h & id & info & H)].
  - exact alice_changes_session.
  - exists h, id, info. destruct H as (H1 & H2 & H3 & H4 & _). exact (conj H1 (conj H2 (conj H3 H4))).
Defined.

Lemma session_survives_restart_witness :
  exists b, Store 0 (3600 * Second)
      (mkApp (R:=memory) ∅ {[0 := mkDevice "alice" "sip:alice@atlanta.com" "192.0.2.7:40000" 5000000 0 (Some ∅) 1]}
         ∅ 1 ∅ ∅ 1000 0 [] [] [] []) = (Some true, b) /\
    (GetRoute "alice" b).1 = Some [].
Proof.
  destruct (session_survives_restart (R:=memory) 0 (3600 * Second)
      (mkApp (R:=memory) ∅ {[0 := mkDevice "alice" "sip:alice@atlanta.com" "192.0.2.7:40000" 5000000 0 (Some ∅) 1]}
         ∅ 1 ∅ ∅ 1000 0 [] [] [] [])
      (mkDevice "alice" "sip:alice@atlanta.com" "192.0.2.7:40000" 5000000 0 (Some ∅) 1)) as (b & H1 & _ & H2).
  - reflexivity.
  - split; vm_compute; split; [discriminate | reflexivity | discriminate | reflexivity].
  - reflexivity.
  - reflexivity.
  - reflexivity.
  - exists b. exact (conj H1 H2).
Defined.

Lemma registration_handshake_witness :
  exists contents r1,
    responded (OnRegister received_register (Some received_register) empty_app) = [] ++ [r1] /\ status r1 = 401%N /\
    exists l, GetHeaders (hdrs (rs_msg r1)) "WWW-Authenticate" = l ++ [HAuthenticate contents].
Proof.
  edestruct (registration_handshake (R:=memory) received_register received_register empty_app) with
    (rs := device_challenge) (rnd := "rnd" : bytes) as (contents & r1 & H1 & H2 & H3 & _).
  - apply wf_newHeaders.
  - intros hop. vm_compute. intros [= <-]. discriminate.
  - reflexivity.
  - reflexivity.
  - reflexivity.
  - reflexivity.
  - reflexivity.
  - reflexivity.
  - reflexivity.
  - reflexivity.
  - refine (bool_decide_eq_true_1 _ _). vm_compute. reflexivity.
  - refine (bool_decide_eq_true_1 _ _). vm_compute. reflexivity.
  - vm_compute. reflexivity.
  - exists contents, r1. exact (conj H1 (conj H2 H3)).
Defined.

End GbTheorems.
