(* ===== verification/Facade.v ===== *)
(** * Cameras and services: src/spi/facade.go, src/gb28181/camera.go, http.go

    The clients of the media server and of the device service, the camera table
    with its HTTP interface, and the sessions shown over HTTP.  The HTTP client, the
    service registry, the JSON codec and the database are arguments; of the database
    the documented laws are stated as a class. *)

From S2P Require Import Prelude GoStrings Escape Gb28181.
From stdpp Require Import options.
Import Escape.

Module Facade.

(** ** net/url

    [QueryEscape] keeps letters, digits and four signs, writes a plus for a
    space and escapes every other byte. *)

Definition unreserved (c : byte) : bool :=
  bleq "a" c && bleq c "z" || bleq "A" c && bleq c "Z" || bleq "0" c && bleq c "9" || mem c "-_.~".

Definition query_byte (c : byte) : bytes :=
  if unreserved c then [c]
  else if beq c " " then "+"
  else ["%"%char; upperhex_at (N.shiftr (code c) 4); upperhex_at (N.land (code c) 15)].

Definition QueryEscape (s : bytes) : bytes := flat_map query_byte s.

Fixpoint QueryUnescape (s : bytes) : option bytes :=
  match s with
  | [] => Some []
  | c :: s =>
      if beq c "%" then
        match s with
        | a :: b :: s => if ishex a && ishex b then t ← QueryUnescape s; Some (unhex2 a b :: t) else None
        | _ => None
        end
      else if beq c "+" then t ← QueryUnescape s; Some (" "%char :: t)
      else t ← QueryUnescape s; Some (c :: t)
  end.

(** The parts of a query. *)
Definition query_parts (url : bytes) : list bytes :=
  match Split url "?" with [_; q] => Split q "&" | _ => [] end.

(** ** The media server *)

Definition SRSUrl : bytes := "http://localhost:1985/api/v1/gb28181".

(** [url] is the configured address, or [SRSUrl]. *)
Definition channel_path (url id : bytes) : bytes :=
  let params := "action=" ++ QueryEscape "create_channel" ++ "&stream=[stream]" ++ "&port_mode=" ++ QueryEscape "fixed" ++
                "&app=" ++ QueryEscape "live" ++ "&id=" ++ QueryEscape id in
  url ++ "?" ++ params.

(** [get] is [httpCli.Get], [decode] gives the field data.query.ssrc of a body that
    is JSON. *)
Definition CreateChannel (get : bytes -> option bytes) (decode : bytes -> option Z) (url id : bytes) : Z :=
  match get (channel_path url id) with
  | None => 0
  | Some body => match decode body with None => 0 | Some ssrc => ssrc end
  end.

(** ** The device service *)

Record DeviceInfo : Type := mkDeviceInfo { GroupKey : bytes; SN : bytes; DeviceKey : bytes; DeviceToken : bytes }.

(** The answer of the service. *)
Record result : Type := mkResult { Code : bytes; Message : bytes; Data : DeviceInfo }.

(** [GetClient]: the registry addresses, unless the configuration cannot be read. *)
Definition GetClient (config_ok : bool) (addr : bytes) : option (list bytes) :=
  if config_ok then Some (Split addr ",") else None.

Record DeviceFacadeImpl : Type := mkFacade { c : option (list bytes); name : bytes }.

Definition clientInit (config_ok : bool) (addr : bytes) : DeviceFacadeImpl :=
  mkFacade (GetClient config_ok addr) "device-backend".

Definition endpoint (cameraId : bytes) : bytes := "/api/device/meta/getByDeviceKey?deviceKey=" ++ cameraId.

(** [call] is [client.Call]: the service and the endpoint, an error or the decoded
    answer. *)
Definition GetDeviceInfo (call : list bytes -> bytes -> bytes -> error + result) (d : DeviceFacadeImpl) (cameraId : bytes)
    : res DeviceInfo :=
  match c d with
  | None => Panic
  | Some client => match call client (name d) (endpoint cameraId) with inl e => Err e | inr r => Ok (Data r) end
  end.

(** ** The camera table *)

Record CameraDO : Type := mkCamera {
  Id : N; CreatedAt : Z; UpdatedAt : Z; do_GroupKey : bytes; do_Sn : bytes; CameraId : bytes; Token : bytes }.

Record CameraVO : Type := mkVO { vo_GroupKey : bytes; vo_Sn : bytes; vo_CameraId : bytes; vo_Token : bytes }.

(** What gorm gives: an error, or the generated key; the first row of an
    identifier. *)
Class CameraTable (T : Type) : Type := {
  Create : CameraDO -> T -> (error + N) * T;
  Updates : bytes -> CameraDO -> T -> option error * T;
  First : bytes -> T -> error + CameraDO
}.

(** A failed [Create] changes nothing; a created row is found, with its key, when
    it is the first one of its identifier, and the others stay; [Updates] of an
    identifier without a row is not an error and changes nothing. *)
Class CameraTableLaws (T : Type) `{CameraTable T} : Prop := {
  Create_error d t e t' : Create d t = (inl e, t') -> t' = t;
  First_Create d t n t' id : Create d t = (inr n, t') -> (exists e, First (CameraId d) t = inl e) ->
    First id t' = if streq id (CameraId d)
                  then inr (mkCamera n (CreatedAt d) (UpdatedAt d) (do_GroupKey d) (do_Sn d) (CameraId d) (Token d))
                  else First id t;
  Updates_none id d t e : First id t = inl e -> Updates id d t = (None, t)
}.

(** What a handler answers; [BadRequest] is the one of [BindJSON]. *)
Inductive answer : Type :=
| FailureForParameter (e : error)
| DataId (n : N)
| DataCamera (d : CameraDO)
| BadRequest.

Section cameras.

Context {T : Type} `{CameraTable T}.

(** [body] is the result of [ShouldBindJSON].  The error text of a failed [Create]
    is taken of the nil error of the binding. *)
Definition Insert (body : error + CameraVO) (created updated : Z) (t : T) : res (answer * T) :=
  match body with
  | inl e => Ok (FailureForParameter e, t)
  | inr vo =>
      let d := mkCamera 0 created updated (vo_GroupKey vo) (vo_Sn vo) (vo_CameraId vo) (vo_Token vo) in
      match Create d t with
      | (inl _, _) => Panic
      | (inr n, t) => Ok (DataId n, t)
      end
  end.

Definition GetByCameraId (id : bytes) (t : T) : error + CameraDO := First id t.

Definition FindById (id : bytes) (t : T) : answer :=
  match GetByCameraId id t with inl e => FailureForParameter e | inr d => DataCamera d end.

Definition UpdateByCameraId (id : bytes) (d : CameraDO) (t : T) : (error + CameraDO) * T :=
  match Updates id d t with (Some e, t) => (inl e, t) | (None, t) => (inr d, t) end.

Definition UpdateById (id : bytes) (body : error + CameraDO) (t : T) : answer * T :=
  match body with
  | inl _ => (BadRequest, t)
  | inr d =>
      match UpdateByCameraId id d t with
      | (inl e, t) => (FailureForParameter e, t)
      | (inr d, t) => (DataCamera d, t)
      end
  end.

End cameras.

(** ** Sessions over HTTP *)

Section sessions.

Context {R : Type} `{Gb28181.Redis R} `{Gb28181.World}.

(** The loop of [GetSession] over the identifiers. *)
Fixpoint collect (ids : list bytes) (m : gmap (list ascii) nat) : Gb28181.M (R := R) (gmap (list ascii) nat) :=
  match ids with
  | [] => Gb28181.mret m
  | id :: ids =>
      Gb28181.mbind (Gb28181.Get id)
        (fun d => collect ids (match d with Some n => <[id := n]> m | None => m end))
  end.

(** What is answered: the devices of the identifiers, or the whole session. *)
Definition GetSession (ids : list bytes) : Gb28181.M (R := R) (gmap (list ascii) nat) :=
  match ids with
  | [] => Gb28181.mbind Gb28181.get (fun a => Gb28181.mret (Gb28181.session a))
  | _ => collect ids ∅
  end.

End sessions.

(** ** A table in memory *)

Definition has_id (id : bytes) (d : CameraDO) : bool := streq (CameraId d) id.

(** [Updates] writes the fields of the argument that are not empty. *)
Definition written (d row : CameraDO) : CameraDO :=
  let pick (a b : bytes) := match a with [] => b | _ => a end in
  mkCamera (Id row) (CreatedAt row) (UpdatedAt d) (pick (do_GroupKey d) (do_GroupKey row)) (pick (do_Sn d) (do_Sn row))
    (pick (CameraId d) (CameraId row)) (pick (Token d) (Token row)).

(** The identifiers are unique; the keys count from one. *)
#[export] Instance rows_table : CameraTable (list CameraDO) := {|
  Create d t :=
    if existsb (has_id (CameraId d)) t then (inl (Errorf "Duplicate entry"), t)
    else let n := N.of_nat (S (length t)) in
         (inr n, t ++ [mkCamera n (CreatedAt d) (UpdatedAt d) (do_GroupKey d) (do_Sn d) (CameraId d) (Token d)]);
  Updates id d t := (None, map (fun row => if has_id id row then written d row else row) t);
  First id t := match find (has_id id) t with Some d => inr d | None => inl (Errorf "record not found") end
|}.

Lemma existsb_find (t : list CameraDO) id : existsb (has_id id) t = isSome (find (has_id id) t).
Proof using. induction t as [|d t IH]; [done|]. simpl. by destruct (has_id id d). Qed.

Lemma find_snoc id t d :
  find (has_id id) (t ++ [d]) = match find (has_id id) t with Some x => Some x | None => if has_id id d then Some d else None end.
Proof using. induction t as [|x t IH]; simpl; [by destruct (has_id id d)|]. by destruct (has_id id x). Qed.

#[export] Instance rows_laws : CameraTableLaws (list CameraDO).
Proof.
  split; simpl.
  - intros d t e t'. destruct (existsb _ t); [by intros [= _ <-] | done].
  - intros d t n t' id Hc Hf. rewrite existsb_find in Hc.
    destruct (find (has_id (CameraId d)) t) as [x|] eqn:Hn; [by destruct Hf|]. injection Hc as <- <-.
    rewrite find_snoc. unfold has_id at 2. simpl.
    destruct (decide (id = CameraId d)) as [->|Hne]; [by rewrite !streq_refl, Hn|].
    rewrite (proj2 (streq_neq (CameraId d) id)), (proj2 (streq_neq id (CameraId d))) by congruence.
    by destruct (find (has_id id) t).
  - intros id d t e Hf. f_equal. destruct (find (has_id id) t) eqn:Hn; [done|]. clear Hf.
    induction t as [|x t IH]; [done|]. simpl in *. destruct (has_id id x); [done|]. by rewrite IH.
Qed.

(** ** The addresses of the services *)

Lemma unescape_query_byte c s : QueryUnescape (query_byte c ++ s) = t ← QueryUnescape s; Some (c :: t).
Proof using.
  unfold query_byte. destruct (unreserved c) eqn:Hu.
  - assert (beq c "%" = false /\ beq c "+" = false) as [Hp Ha].
    { destruct (beq c "%") eqn:Hp; simp_bool; subst; [done|]. by destruct (beq c "+") eqn:Ha; simp_bool; subst. }
    cbn [app QueryUnescape]. by rewrite Hp, Ha.
  - destruct (beq c " ") eqn:Hs; simp_bool; subst; [done|].
    pose proof (hex_digits_ok c) as Hx. simp_bool. cbn [app QueryUnescape]. rewrite beq_refl.
    repeat match goal with E : ishex _ = true |- _ => rewrite E end. cbn [andb].
    by match goal with E : unhex2 _ _ = _ |- _ => rewrite E end.
Qed.

(** What the client writes for a value, the server reads back. *)
Theorem query_roundtrip s : QueryUnescape (QueryEscape s) = Some s.
Proof using.
  induction s as [|c s IH]; [done|]. unfold QueryEscape. cbn [flat_map]. rewrite unescape_query_byte.
  fold (QueryEscape s). by rewrite IH.
Qed.

Lemma QueryEscape_inj s s' : QueryEscape s = QueryEscape s' -> s = s'.
Proof using. intros H. apply (f_equal QueryUnescape) in H. rewrite !query_roundtrip in H. by injection H. Qed.

(** No byte of an escaped value separates the parts of a query. *)
Lemma QueryEscape_avoids s : forallb (fun c => negb (mem c "&=?#")) (QueryEscape s) = true.
Proof using.
  unfold QueryEscape. induction s as [|c s IH]; [done|]. cbn [flat_map]. rewrite forallb_app, IH, andb_true_r.
  revert c. apply byte_forall. by vm_compute.
Qed.

(** A channel is asked for by its identifier: two identifiers that lead to one
    request are the same. *)
Theorem channel_path_determines url id id' : channel_path url id = channel_path url id' -> id = id'.
Proof using.
  unfold channel_path. cbv zeta. intros H. apply app_inv_head in H. apply app_inv_head in H.
  rewrite !app_assoc in H. by apply app_inv_head, QueryEscape_inj in H.
Qed.

(** The stream number is 0 exactly when the media server gives it, cannot be
    reached, or answers with something else than its JSON. *)
Theorem no_channel_is_zero get decode url id :
  CreateChannel get decode url id = 0%Z <->
    get (channel_path url id) = None \/
    exists body, get (channel_path url id) = Some body /\ (decode body = None \/ decode body = Some 0%Z).
Proof using.
  unfold CreateChannel. destruct (get _) as [body|]; [|naive_solver].
  destruct (decode body) eqn:Hd; split; naive_solver.
Qed.

(** The code and the message of the answer are not looked at: an answer that
    reports a failure gives the device of its data, which is then the empty one. *)
Theorem device_info_code_unread call d cl id code msg info :
  c d = Some cl -> call cl (name d) (endpoint id) = inr (mkResult code msg info) -> GetDeviceInfo call d id = Ok info.
Proof using. intros Hc Hr. unfold GetDeviceInfo. by rewrite Hc, Hr. Qed.

(** Without the configuration of the registry every lookup of a device panics. *)
Theorem unconfigured_lookup_panics call addr id : GetDeviceInfo call (clientInit false addr) id = Panic.
Proof using. done. Qed.

(** The identifier is not escaped: one with an ampersand adds a parameter to the
    query. *)
Example device_id_adds_parameter :
  query_parts (endpoint "34020000001320000001&deviceKey=34020000001320000002") =
    (["deviceKey=34020000001320000001"; "deviceKey=34020000001320000002"] : list bytes).
Proof. by vm_compute. Qed.

(** ** The camera table *)

Section camera_theorems.

Context {T : Type} `{HT : CameraTable T} `{HL : !CameraTableLaws T}.

(** A camera that was inserted is found with what was sent, and the others are
    answered as before. *)
Theorem inserted_camera_found vo c u t n t' id :
  Insert (inr vo) c u t = Ok (DataId n, t') -> (exists e, FindById (vo_CameraId vo) t = FailureForParameter e) ->
  FindById id t' =
    if streq id (vo_CameraId vo)
    then DataCamera (mkCamera n c u (vo_GroupKey vo) (vo_Sn vo) (vo_CameraId vo) (vo_Token vo))
    else FindById id t.
Proof using HL.
  unfold Insert, FindById, GetByCameraId. intros Hi [e He].
  destruct (Create _ t) as [[e'|m] s] eqn:Hc; [done|]. injection Hi as -> ->.
  assert (exists e, First (vo_CameraId vo) t = inl e) as Hf by (destruct (First (vo_CameraId vo) t); [eauto | done]).
  rewrite (First_Create _ _ _ _ id Hc Hf). simpl. by destruct (streq id (vo_CameraId vo)).
Qed.

(** A failed insert is not answered with its error: the text is taken of another
    error, which is nil there. *)
Theorem insert_failure_panics vo c u t e t' :
  Create (mkCamera 0 c u (vo_GroupKey vo) (vo_Sn vo) (vo_CameraId vo) (vo_Token vo)) t = (inl e, t') ->
  Insert (inr vo) c u t = Panic.
Proof using. intros Hc. unfold Insert. by rewrite Hc. Qed.

(** An update of a camera that does not exist is answered as one that was made,
    with the camera of the request, and nothing is stored. *)
Theorem update_unknown_succeeds id d t e :
  FindById id t = FailureForParameter e -> UpdateById id (inr d) t = (DataCamera d, t).
Proof using HL.
  unfold FindById, GetByCameraId, UpdateById, UpdateByCameraId. intros Hf.
  destruct (First id t) eqn:Hn; [|done]. by rewrite (Updates_none _ d _ _ Hn).
Qed.

End camera_theorems.

Definition demo_vo : CameraVO := mkVO "0123456789abcdef" "sn-1" "34020000001320000001" "secret".

Example inserted_camera_found_at :
  exists t', Insert (inr demo_vo) 1 1 [] = Ok (DataId 1, t') /\
    FindById "34020000001320000001" t' = DataCamera (mkCamera 1 1 1 "0123456789abcdef" "sn-1" "34020000001320000001" "secret").
Proof. eexists. split; [by vm_compute|]. by rewrite (inserted_camera_found demo_vo 1 1 [] 1) by eauto. Qed.

Example second_insert_panics :
  Insert (inr demo_vo) 2 2 [mkCamera 1 1 1 "0123456789abcdef" "sn-1" "34020000001320000001" "secret"] = Panic.
Proof. by apply insert_failure_panics with (Errorf "Duplicate entry")
  [mkCamera 1 1 1 "0123456789abcdef" "sn-1" "34020000001320000001" "secret"]. Qed.

(** ** The sessions shown *)

Section session_theorems.

Context {R : Type} `{HR : Gb28181.Redis R} `{HW : Gb28181.World}.

Implicit Types (a b : Gb28181.app (R:=R)).

(** A device that is registered and whose registration holds. *)
Definition online a (id : bytes) (n : nat) : Prop :=
  Gb28181.session a !! id = Some n /\
  exists d, Gb28181.devices a !! n = Some d /\ Gb28181.alive (Gb28181.now a) d = true.

Lemma Get_online id a o b :
  Gb28181.Get id a = (Some o, b) ->
  (forall n, o = Some n <-> online a id n) /\ (forall id' n, online b id' n <-> online a id' n).
Proof using.
  unfold Gb28181.Get, online, Gb28181.mbind at 1. cbn [Gb28181.get].
  destruct (Gb28181.session a !! id) as [k|] eqn:Hs; [|intros [= <- <-]; naive_solver].
  unfold Gb28181.device, Gb28181.mbind, Gb28181.get. destruct (Gb28181.devices a !! k) as [d|] eqn:Hd; [|done].
  cbn. destruct (Gb28181.alive (Gb28181.now a) d) eqn:Ha; intros [= <- <-]; [naive_solver|].
  split; [intros n; split; [done | intros (? & d' & ? & ?); congruence]|]. cbn. intros id' n. destruct (decide (id' = id)) as [->|Hne].
  - rewrite lookup_delete_eq. split; [by intros [? _] | intros (? & d' & ? & ?); congruence].
  - by rewrite lookup_delete_ne by done.
Qed.

Lemma collect_online ids m a m' b :
  collect ids m a = (Some m', b) ->
  forall id n, m' !! id = Some n <->
    (id ∈ ids /\ online a id n) \/ ((id ∉ ids \/ forall k, ~ online a id k) /\ m !! id = Some n).
Proof using.
  revert m a. induction ids as [|x ids IH]; intros m a; cbn [collect].
  { intros [= <- <-] id n. rewrite elem_of_nil. naive_solver. }
  unfold Gb28181.mbind at 1. destruct (Gb28181.Get x a) as [[o|] a'] eqn:Hg; [|done].
  intros Hc id n. rewrite (IH _ _ Hc id n). destruct (Get_online x a o a' Hg) as [Ho Hb].
  rewrite (Hb id n). setoid_rewrite (Hb id). rewrite elem_of_cons. destruct (decide (id = x)) as [->|Hne].
  - destruct o as [k|].
    + pose proof (proj1 (Ho k) eq_refl) as Hk. rewrite lookup_insert_eq.
      assert (forall n, online a x n <-> n = k) as Hu by (intros n'; rewrite <- Ho; naive_solver).
      rewrite Hu. split; [naive_solver|]. intros [[_ ->]|[[?|Hf] _]]; [|naive_solver|by destruct (Hf k)].
      destruct (decide (x ∈ ids)); naive_solver.
    + assert (forall n, ~ online a x n) as Hn by (intros n' Hn'; by apply Ho in Hn'). naive_solver.
  - assert ((match o with Some k => <[x := k]> m | None => m end) !! id = m !! id) as ->
      by (destruct o; [by rewrite lookup_insert_ne | done]).
    naive_solver.
Qed.

(** Asked for identifiers, the service answers with those of them that are
    registered and not expired, and with nothing else. *)
Theorem sessions_asked_are_online ids a m b :
  ids <> [] -> GetSession ids a = (Some m, b) -> forall id n, m !! id = Some n <-> id ∈ ids /\ online a id n.
Proof using.
  intros Hne H id n. destruct ids as [|x ids]; [done|]. rewrite (collect_online _ _ _ _ _ H id n), lookup_empty.
  naive_solver.
Qed.

(** Asked for none, it answers with the whole table, expired registrations
    included. *)
Theorem all_sessions_shown a : GetSession [] a = (Some (Gb28181.session a), a).
Proof using. done. Qed.

End session_theorems.

End Facade.
